(* ===== verification/_CoqProject ===== *)
-Q . S2P
Prelude.v
GoLib.v
KubeTypes.v
ApiTypes.v
Json.v
JsonEncode.v
JsonCodec.v
Effects.v
ResourceCommon.v
Security.v
AgentGit.v
ConfigTypes.v
ConfigMap.v
Builders.v
AgentPod.v
CtrlCommon.v
Applying.v
AgentRunCtrl.v
AgentRunProps.v
AgentRunStart.v
AgentRunModes.v
AgentRunWorld.v
AgentCtrl.v
AgentProps.v
ProviderCtrl.v
IntegrationCtrl.v
DependencyProps.v
FieldErrors.v
AgentWebhook.v
ProviderWebhook.v
IntegrationWebhook.v
ChannelWebhook.v
ChannelRes.v
ChannelCtrl.v
ChannelProps.v
Objects.v
Pods.v
Cluster.v
AgentConverges.v
Wakes.v
OperatorMain.v
GoMemory.v
DeepCopy.v
Permissions.v
GatewayProxy.v
GatewaySpawn.v
GatewayService.v
TokenInjector.v
