(* ===== verification/Prelude.v ===== *)
(** * agentops-core: a verification development

    agentops-core is a Kubernetes operator, in Go, that runs AI agents.  A user
    declares Agents (a runtime image, providers of language models, tools,
    integrations), AgentRuns (one task for an agent), Providers and
    Integrations (what an agent may use) and Channels (bridges from a chat or
    a forge to an agent).  Controllers turn these into pods and keep their
    status; admission webhooks refuse malformed ones; inside the pods an MCP
    gateway polices tool calls and a token injector signs requests.

    ** The parts and where they are

    - The language and its library: Prelude.v (record update, counting, list
      lemmas), GoLib.v (strings, fmt, time), Json.v, JsonEncode.v, JsonCodec.v
      (encoding/json: scanner, MarshalIndent, struct codecs).
    - Data: KubeTypes.v (the fields of Kubernetes objects in use),
      ApiTypes.v (api/v1alpha1, the types), ConfigTypes.v (the runtime's
      config.json).
    - internal/resources, pure builders: ResourceCommon.v (common.go),
      Security.v (security.go), AgentGit.v (agent_git.go), ConfigMap.v
      (configmap.go), Builders.v (rbac.go, service.go, networkpolicy.go,
      pvc.go), AgentPod.v (agent_deployment.go, agent_job.go), ChannelRes.v
      (channel.go).
    - internal/controller: CtrlCommon.v (common.go) and Applying.v for what
      the controllers share; AgentRunCtrl.v with AgentRunProps.v,
      AgentRunStart.v, AgentRunModes.v and AgentRunWorld.v; AgentCtrl.v with
      AgentProps.v and AgentConverges.v, which runs it against the API server
      of Cluster.v; ProviderCtrl.v and IntegrationCtrl.v with
      DependencyProps.v; ChannelCtrl.v with ChannelProps.v.
    - api/v1alpha1, the webhooks: FieldErrors.v, AgentWebhook.v,
      ProviderWebhook.v, IntegrationWebhook.v, ChannelWebhook.v.
    - What the parts say together: Objects.v (names and labels of every object
      kept for an owner), Pods.v (the pods of an agent as the API server and the
      kubelet see them), Wakes.v (SetupWithManager of the five controllers: which
      change makes which of them look again).
    - The process: OperatorMain.v (cmd/main.go and internal/tracing).
    - api/v1alpha1, the generated code: GoMemory.v (variables, pointers, slices
      and maps in memory) and DeepCopy.v (zz_generated.deepcopy.go).
    - images: Permissions.v, GatewayProxy.v, GatewaySpawn.v with its service
      GatewayService.v (mcp-gateway), TokenInjector.v (token-injector).

    ** How the code is modelled

    A Go struct is a record, a pointer an [option], a map a [gmap], an instant
    or duration a number of nanoseconds.  A slice is a list, or a [GoSlice] of
    GoLib.v where the code tells a nil one from an empty one: in JSON without
    omitempty they are null and [].  A pure function keeps its name.  A
    reconciler is a program of Effects.v: a tree of the calls it makes to the
    API server, an agent or the clock, with a continuation for every answer.
    Most theorems about reconcilers are statements [wp any_answer p Q tr]: Q
    holds of the calls made and the result whatever was answered, errors and
    stale reads included; AgentRunWorld.v and AgentConverges.v run a controller
    against a server with a state.  The gateway's spawn mode is a state with one
    action per critical section and channel operation, interleaved freely.  A
    function that writes into its argument returns the new argument; where a
    builder writes into the object of its caller (AgentPod.v, ChannelRes.v)
    the caller's object afterwards is a definition of its own.  Where sharing is
    what matters it is modelled: DeepCopy.v works over a memory of cells, and the
    option lists of OperatorMain.v are slices over arrays.  [main] is a sequence of
    steps, any of which may fail.

    ** What the theorems show

    - Runs: a finished run is never touched, a run that is not finished is
      looked at again, a status write changes nothing but what the phase
      allows, work is started at most once for the right agent and only with
      room, and over time an agent never has more than [maxRuns] running; the
      end of a Job or of a daemon's work is concluded as the code promises.
    - Agents and channels: what is applied, in which order and under which
      conditions, the phase recorded, and that a reconcile either settles or
      comes back; against a server that fails nothing, one reconcile of an Agent
      whose dependencies are Ready is enough, and the next one changes nothing; a
      Provider in use is not let go.
    - Pods: every one satisfies the restricted profile whatever the overrides,
      but for the two settings left to admission; which overrides are reported,
      and which below the profile are not; volumes and selectors fit, credentials
      are references to secrets, an image reference cannot inject into the
      shell command that unpacks it; roles are the least needed; which agents have
      pods the API server accepts, and that a pod waits for no object nobody makes.
    - Objects: which owners share an object, and how long names may be.
    - Watches: no verdict about a Provider goes stale without a request for it,
      as long as the watch of the secrets can list the Providers; the changes that
      wake nobody are lemmas beside it.
    - The process: what is registered before the manager starts, and what each of
      its servers presents, whatever room [append] leaves in the slice they share.
    - Deep copies: each denotes the same value in memory of its own, which is what
      lets the reconcilers be modelled over immutable values.
    - Configuration: the runtime of a run reads back the agent's configuration
      with its git tools; per-call settings merge one by one.
    - Admission: each webhook admits exactly the valid objects, by a
      specification written apart from the code, and what the documentation
      has it check or ignore and it does not.
    - Gateway and injector: policies mean what their rules say; a forbidden
      call alone in its request is not forwarded unless the decoder gives up on
      the request (nested too deep); in every interleaving the
      spawn bridge refines a request/response service; a request carries
      exactly a token that is not about to end, or none of the injector's.
    Lemmas and Examples beside them record where the code departs from its
    own documentation.

    ** Assumptions and bounds

    Code outside the repository is a parameter: [ConditionOps] (apimachinery's
    conditions, with laws), [OwnerOps] and [FinalizerOps] (controller-runtime),
    [Library] (the copying methods of the Kubernetes types, with laws), [grow]
    (how [append] sizes an array), [fails] (which steps of [main] fail),
    [FloatOps] and [fmt_float] (the text of floats), [UrlOps] (net/url), the
    order Go ranges over a map in.  Integers are unbounded except where the
    code can reach their width: duration parsing, [time.Since], [expires_in],
    Atoi.  Fuel occurs in the parsers of durations and JSON only,
    always at least the length of the input, which each round of the loop
    shortens.  The JSON decoder has Go's own bound, a nesting of 10000, and
    replaces invalid UTF-8 as Go does; round trips are of values within both
    ([Json.depth], [Utf8.Valid]).  [AgentRunWorld.v] assumes the reads it names to be current;
    AgentConverges.v takes the server's own decisions from [ApiServer] (what it
    stamps on a new object and how it merges an apply or a status patch, with laws),
    that setting a condition to what it is changes nothing ([ConditionStable]), and
    that nothing the agent applies is controlled by another.

    ** Not modelled

    Log lines, tracing spans and metrics; the scheme registration
    (groupversion_info.go: two variables for a library); the work queue behind
    the requests of Wakes.v; the HTTP servers around the gateway's and the
    injector's handlers, and how a proxied body is streamed.  The Go maps a builder
    shares with its caller are modelled by what the caller's object becomes, not by
    a store.

    ** Further work

    The controllers run together against one server: a Provider let go while an
    Agent that names it is being created, a run started while its Agent changes. *)

From Stdlib Require Export Ascii String.
From stdpp Require Export prelude strings gmap list sorting pretty.
From Stdlib Require Export ZArith Lia.

(** ** Functional record update

    Go mutates struct fields in place.  [r <| f := v |>] is the record [r]
    with the field that [f] projects replaced by [v]; [r <| f ::= g |>]
    applies [g] to that field.  A record opts in with one [Fields] instance
    that rebuilds it from its projections; [derive_upd] finds the updater of a
    projection by abstracting that projection in the rebuilt record. *)

Class Fields (R : Type) := rebuild : R → R.
Class Upd {R T : Type} (proj : R → T) := upd : (T → T) → R → R.
Arguments upd {R T} proj {Upd} g r.

Ltac derive_upd :=
  match goal with
  | |- @Upd ?R ?T ?proj =>
      let inst := constr:(_ : Fields R) in
      let mk := eval hnf in inst in
      let updater := constr:(λ (g : T → T) (r : R),
        ltac:(let body := eval cbv beta in (mk r) in
              let abstracted := eval pattern (proj r) in body in
              lazymatch abstracted with
              | ?ctx (proj r) =>
                  let body' := eval cbv beta in (ctx (g (proj r))) in
                  exact body'
              end)) in
      exact updater
  end.

#[global] Hint Extern 1 (Upd _) => derive_upd : typeclass_instances.

Notation "r <| f ::= g |>" := (upd f g r)
  (at level 1, left associativity, format "r  <| f  ::=  g |>").
Notation "r <| f := v |>" := (upd f (λ _, v) r)
  (at level 1, left associativity, format "r  <| f  :=  v |>").

(** ** Automation

    [agentops] collects the [Resolve] hints of the components and
    [agentops_rw] their computation rules.  [go_cases] opens the next
    [if]/[match] of a translated function body. *)

Create HintDb agentops.
Create HintDb agentops_rw.

Ltac go_cases := repeat (case_match || case_decide || case_bool_decide); simplify_eq.

(** Message texts are large terms: [hide_strings] abstracts them away. *)
Ltac hide_strings :=
  repeat match goal with
  | |- context [String ?a ?s] => generalize (String a s); intros ?
  end.

(** String concatenation computes on a known first character. *)
#[global] Arguments String.append !s1 s2 / : simpl nomatch.

(** ** Booleans, options and lists *)

(** Go reads a missing map key as the zero value of the element type. *)
Definition lookup_str (m : gmap string string) (k : string) : string :=
  default EmptyString (m !! k).

(** Go's [if p := ...; p != nil && *p] on a pointer to bool. *)
Definition ptr_true (b : option bool) : bool := bool_decide (b = Some true).
Definition ptr_false (b : option bool) : bool := bool_decide (b = Some false).
Arguments ptr_true : simpl never.
Arguments ptr_false : simpl never.

Lemma ptr_true_false b : ptr_true b = false ↔ b ≠ Some true.
Proof. apply bool_decide_eq_false. Qed.
Lemma ptr_false_false b : ptr_false b = false ↔ b ≠ Some false.
Proof. apply bool_decide_eq_false. Qed.

(** [if s == EmptyString then d else s], the defaulting idiom of the source. *)
Definition str_or (s d : string) : string := if decide (s = EmptyString) then d else s.

Lemma str_or_ne s d : d ≠ EmptyString → str_or s d ≠ EmptyString.
Proof. unfold str_or. by case_decide. Qed.

Lemma str_or_id s d : s ≠ EmptyString → str_or s d = s.
Proof. unfold str_or. by case_decide. Qed.

Lemma existsb_elem_of {A} (f : A → bool) (l : list A) :
  existsb f l = true ↔ ∃ x, x ∈ l ∧ f x = true.
Proof. setoid_rewrite list_elem_of_In. apply existsb_exists. Qed.

Lemma existsb_not_elem_of {A} (f : A → bool) (l : list A) :
  existsb f l = false ↔ ∀ x, x ∈ l → f x = false.
Proof.
  split.
  - intros Hf x Hin. destruct (f x) eqn:E; [|done].
    assert (existsb f l = true) as Ht by (apply existsb_elem_of; eauto). congruence.
  - intros Hall. apply not_true_iff_false. rewrite existsb_elem_of.
    intros (x & Hin & Hx). rewrite (Hall x Hin) in Hx. done.
Qed.

Lemma length_filter_cons {A} (P : A → Prop) `{∀ x, Decision (P x)} x (l : list A) :
  length (filter P (x :: l)) = ((if decide (P x) then 1 else 0) + length (filter P l))%nat.
Proof. rewrite filter_cons. by case_decide. Qed.

Lemma length_filter_pos {A} (P : A → Prop) `{∀ x, Decision (P x)} (l : list A) :
  (0 < length (filter P l))%nat ↔ ∃ x, x ∈ l ∧ P x.
Proof.
  split.
  - destruct (filter P l) as [|x l'] eqn:E; cbn; [lia|]. intros _.
    assert (x ∈ filter P l) as Hx by (rewrite E; left).
    apply list_elem_of_filter in Hx as [HP Hin]. eauto.
  - intros (x & Hin & HP). assert (x ∈ filter P l) as Hx by (by apply list_elem_of_filter).
    destruct (filter P l); [by apply elem_of_nil in Hx | cbn; lia].
Qed.

(** ** Counting the entries of a map *)

Section Count.
Context {K A : Type} `{Countable K}.
Implicit Types (m : gmap K A) (P : K * A → Prop).

Definition count P `{∀ x, Decision (P x)} m : nat := size (filter P m).

Lemma count_list P `{∀ x, Decision (P x)} m : count P m = length (filter P (map_to_list m)).
Proof.
  unfold count. rewrite map_filter_alt, map_size_list_to_map; [done|].
  eapply sublist_NoDup; [apply (NoDup_fst_map_to_list m)|].
  apply fmap_sublist, sublist_filter.
Qed.

Lemma count_delete_insert P `{∀ x, Decision (P x)} m k x :
  count P (<[k:=x]> m) = ((if decide (P (k, x)) then 1 else 0) + count P (delete k m))%nat.
Proof.
  unfold count. rewrite <- insert_delete_eq, map_filter_insert, delete_delete_eq.
  case_decide; [|done]. rewrite map_size_insert_None; [done|].
  apply map_lookup_filter_None. left. apply lookup_delete_eq.
Qed.

Lemma count_lookup P `{∀ x, Decision (P x)} m k x :
  m !! k = Some x →
  count P m = ((if decide (P (k, x)) then 1 else 0) + count P (delete k m))%nat.
Proof. intros Hx. rewrite <- (insert_id m k x) at 1 by done. apply count_delete_insert. Qed.

Lemma count_mono P Q `{∀ x, Decision (P x)} `{∀ x, Decision (Q x)} m m' :
  (∀ k x, m !! k = Some x → P (k, x) → ∃ y, m' !! k = Some y ∧ Q (k, y)) →
  (count P m ≤ count Q m')%nat.
Proof.
  intros Hm. unfold count. rewrite <- !size_dom. apply subseteq_size.
  intros k. rewrite !elem_of_dom. intros [x Hx].
  apply map_lookup_filter_Some in Hx as [Hx HP].
  destruct (Hm k x Hx HP) as (y & Hy & HQ). exists y. by apply map_lookup_filter_Some.
Qed.
End Count.

(** Filters that agree on the elements of a list. *)
Lemma list_filter_ext_in {A} (P Q : A → Prop) `{∀ x, Decision (P x)} `{∀ x, Decision (Q x)} (l : list A) :
  (∀ x, x ∈ l → P x ↔ Q x) → filter P l = filter Q l.
Proof.
  induction l as [|x l IH]; intros Hl; [done|].
  rewrite !filter_cons, IH by (intros; apply Hl; by right).
  specialize (Hl x ltac:(left)). repeat case_decide; tauto.
Qed.

Lemma length_filter_fmap {A B} (f : A → B) (P : B → Prop) `{∀ x, Decision (P x)} (l : list A) :
  length (filter P (f <$> l)) = length (filter (λ x, P (f x)) l).
Proof.
  induction l as [|x l IH]; [done|]. rewrite fmap_cons, !length_filter_cons, IH. done.
Qed.
