(* ===== verification/GoLib.v ===== *)
(** * The parts of the Go standard library the source uses

    Go strings are byte strings: here [string], whose [ascii] is one byte.
    One Module per Go package; every function computes.

    - [GoSlice]: a slice where nil and an empty one differ (JSON's null and []).
      Elsewhere a slice is a list.

    - [GoStrings]: [HasPrefix], [HasSuffix], [Index] and [SplitN(_, sep, 2)] for
      a one-byte separator, [Join], [ReplaceAll] of one byte, [ToUpper] (of
      ASCII letters), [Fields] and [TrimSpace] (ASCII white space).
    - [GoFmt]: the verbs [%d], [%q] (printable ASCII) and [%v] of a list.
    - [GoTime]: [ParseDuration], [Duration.String], [Duration.Round] and the
      seconds of a duration, on nanoseconds with the source's 64-bit limits. *)

From S2P Require Import Prelude.

Open Scope string_scope.
Open Scope list_scope.

(** ** Slices *)

Inductive GoSlice (A : Type) := NilSlice | SliceOf (l : list A).
Arguments NilSlice {A}.
Arguments SliceOf {A} l.
#[export] Instance GoSlice_eq_dec `{EqDecision A} : EqDecision (GoSlice A).
Proof. solve_decision. Defined.

Definition elems {A} (s : GoSlice A) : list A := match s with NilSlice => [] | SliceOf l => l end.

(** [append(s, l...)]: nil stays nil when there is nothing to append. *)
Definition append_all {A} (s : GoSlice A) (l : list A) : GoSlice A :=
  match l with [] => s | _ => SliceOf (elems s ++ l) end.

Lemma elems_append_all {A} (s : GoSlice A) l : elems (append_all s l) = elems s ++ l.
Proof. destruct l; cbn; [by rewrite app_nil_r|done]. Qed.

Module GoStrings.

Definition HasPrefix (s p : string) : bool := String.prefix p s.

Fixpoint HasSuffix (s suffix : string) : bool :=
  if decide (s = suffix) then true
  else match s with EmptyString => false | String _ s' => HasSuffix s' suffix end.

(** The text before and after the first [c]. *)
Fixpoint cut (c : ascii) (s : string) : option (string * string) :=
  match s with
  | EmptyString => None
  | String a s' =>
      if decide (a = c) then Some (EmptyString, s')
      else match cut c s' with
           | Some (x, y) => Some (String a x, y)
           | None => None
           end
  end.

(** [strings.SplitN(s, sep, 2)]: the first part and the second, if any. *)
Definition SplitN2 (s : string) (sep : ascii) : string * option string :=
  match cut sep s with Some (x, y) => (x, Some y) | None => (s, None) end.

Fixpoint Join (l : list string) (sep : string) : string :=
  match l with
  | [] => ""
  | [x] => x
  | x :: l' => x +:+ sep +:+ Join l' sep
  end.

(** [strings.Split] at a one-byte separator. *)
Fixpoint Split (c : ascii) (s : string) : list string :=
  match s with
  | EmptyString => [""]
  | String a s' =>
      if decide (a = c) then "" :: Split c s'
      else match Split c s' with w :: ws => String a w :: ws | [] => [String a ""] end
  end.

Fixpoint ReplaceAll (s : string) (old : ascii) (new : string) : string :=
  match s with
  | EmptyString => EmptyString
  | String a s' =>
      if decide (a = old) then new +:+ ReplaceAll s' old new
      else String a (ReplaceAll s' old new)
  end.

Definition upper (a : ascii) : ascii :=
  let n := nat_of_ascii a in
  if decide (97 ≤ n ≤ 122)%nat then ascii_of_nat (n - 32) else a.

Fixpoint ToUpper (s : string) : string :=
  match s with EmptyString => EmptyString | String a s' => String (upper a) (ToUpper s') end.

Definition lower (a : ascii) : ascii :=
  let n := nat_of_ascii a in
  if decide (65 ≤ n ≤ 90)%nat then ascii_of_nat (n + 32) else a.

Fixpoint ToLower (s : string) : string :=
  match s with EmptyString => EmptyString | String a s' => String (lower a) (ToLower s') end.

Definition is_space (a : ascii) : bool :=
  let n := nat_of_ascii a in bool_decide (9 ≤ n ≤ 13 ∨ n = 32)%nat.

(** [strings.Fields]: [w] is the word being read. *)
Fixpoint fields_aux (s w : string) : list string :=
  match s with
  | EmptyString => if decide (w = "") then [] else [w]
  | String a s' =>
      if is_space a then
        (if decide (w = "") then [] else [w]) ++ fields_aux s' ""
      else fields_aux s' (w +:+ String a EmptyString)
  end.
Definition Fields (s : string) : list string := fields_aux s "".

Fixpoint TrimLeft (s : string) : string :=
  match s with
  | String a s' => if is_space a then TrimLeft s' else s
  | EmptyString => EmptyString
  end.
Fixpoint TrimRight (s : string) : string :=
  match s with
  | EmptyString => EmptyString
  | String a s' =>
      match TrimRight s' with
      | EmptyString => if is_space a then EmptyString else String a EmptyString
      | t => String a t
      end
  end.
Definition TrimSpace (s : string) : string := TrimRight (TrimLeft s).

(** [io.LimitReader]. *)
Fixpoint limit_bytes (n : N) (s : string) : string :=
  match s with
  | EmptyString => EmptyString
  | String a s' => if decide (n = 0)%N then EmptyString else String a (limit_bytes (n - 1) s')
  end.

(** *** What the functions compute *)

Definition chars (s : string) : list ascii := list_ascii_of_string s.

Lemma app_nil_r s : s +:+ "" = s.
Proof. induction s as [|a s IH]; simpl; congruence. Qed.

Lemma app_assoc s t u : (s +:+ t) +:+ u = s +:+ (t +:+ u).
Proof. induction s as [|a s IH]; simpl; congruence. Qed.

Lemma chars_app s t : chars (s +:+ t) = (chars s ++ chars t)%list.
Proof. induction s as [|a s IH]; simpl; congruence. Qed.

Lemma Split_app c w s :
  c ∉ chars w → Split c (w +:+ String c s) = w :: Split c s.
Proof.
  induction w as [|a w IH]; cbn; intros Hw; [by rewrite decide_True|].
  rewrite elem_of_cons in Hw. rewrite decide_False, IH by naive_solver. done.
Qed.

Lemma Split_single c w : c ∉ chars w → Split c w = [w].
Proof.
  induction w as [|a w IH]; cbn; intros Hw; [done|].
  rewrite elem_of_cons in Hw. rewrite decide_False, IH by naive_solver. done.
Qed.

Lemma Split_Join c l :
  l ≠ [] → Forall (λ w, c ∉ chars w) l → Split c (Join l (String c "")) = l.
Proof.
  intros Hne. induction 1 as [|w l Hw Hl IH]; [done|]. destruct l as [|w' l]; cbn; [by apply Split_single|].
  rewrite Split_app by done. f_equal. by apply IH.
Qed.

Lemma app_inv_head s t u : s +:+ t = s +:+ u → t = u.
Proof. induction s as [|a s IH]; [done|]. cbn. intros [= H]. by apply IH. Qed.

Lemma app_inv_tail s t u : t +:+ s = u +:+ s → t = u.
Proof.
  intros H. apply (f_equal chars) in H. rewrite !chars_app in H.
  apply (inj (λ l, l ++ chars s)%list) in H.
  apply (f_equal string_of_list_ascii) in H.
  unfold chars in H. by rewrite !string_of_list_ascii_of_string in H.
Qed.

Lemma HasPrefix_spec s p : HasPrefix s p = true ↔ ∃ t, s = p +:+ t.
Proof.
  unfold HasPrefix. revert s. induction p as [|a p IH]; intros s; cbn.
  - split; [intros _; by exists s | by destruct s].
  - destruct s as [|b s]; cbn.
    + split; [done | by intros [t [=]]].
    + destruct (ascii_dec a b) as [->|Hab].
      * rewrite IH. split; intros [t Ht]; exists t; [by rewrite Ht | by injection Ht].
      * split; [done | intros [t [= H _]]; congruence].
Qed.

Lemma HasSuffix_spec s suffix : HasSuffix s suffix = true ↔ ∃ t, s = t +:+ suffix.
Proof.
  induction s as [|a s IH]; cbn; case_decide as Heq.
  - subst. split; [intros _; by exists "" | done].
  - split; [done|]. intros [[|b t] Ht]; cbn in Ht; [congruence | done].
  - subst. split; [intros _; by exists "" | done].
  - rewrite IH. split.
    + intros [t ->]. by exists (String a t).
    + intros [[|b t] Ht]; cbn in Ht; [congruence|]. injection Ht as -> Ht. by exists t.
Qed.

Lemma cut_Some c s x y :
  cut c s = Some (x, y) ↔ s = x +:+ String c y ∧ c ∉ chars x.
Proof.
  revert x. induction s as [|a s IH]; intros x; cbn.
  - split; [done|]. intros [H _]. by destruct x.
  - case_decide as Hac.
    + subst. split.
      * intros [= <- <-]. split; [done | apply not_elem_of_nil].
      * intros [Hs Hx]. destruct x as [|b x]; simplify_eq/=; [done|].
        exfalso. apply Hx. left.
    + split.
      * destruct (cut c s) as [[x' y']|]; [|done]. intros [= <- <-].
        destruct (proj1 (IH x')) as [-> Hx']; [done|]. split; [done|].
        cbn. rewrite elem_of_cons. naive_solver.
      * intros [Hs Hx]. destruct x as [|b x]; simplify_eq/=.
        rewrite elem_of_cons in Hx.
        rewrite (proj2 (IH x)); [done|]. naive_solver.
Qed.

Lemma cut_None c s : cut c s = None ↔ c ∉ chars s.
Proof.
  induction s as [|a s IH]; cbn.
  - split; [intros _; apply not_elem_of_nil | done].
  - rewrite elem_of_cons. case_decide; [naive_solver|].
    destruct (cut c s) as [[x y]|]; naive_solver.
Qed.

Lemma ToUpper_app s t : ToUpper (s +:+ t) = ToUpper s +:+ ToUpper t.
Proof. induction s as [|a s IH]; simpl; congruence. Qed.

End GoStrings.

Module GoFmt.

(** [%d] *)
Definition d (n : Z) : string := pretty n.

#[export] Instance d_inj : Inj (=) (=) d.
Proof. unfold d. apply _. Qed.

Definition dquote : string := String (ascii_of_nat 34) EmptyString.
Definition newline : string := String (ascii_of_nat 10) EmptyString.

Fixpoint escape (s : string) : string :=
  match s with
  | EmptyString => EmptyString
  | String a s' =>
      let n := nat_of_ascii a in
      (if decide (n = 34 ∨ n = 92)%nat then String (ascii_of_nat 92) (String a EmptyString)
       else if decide (n = 10%nat) then "\n"
       else if decide (n = 9%nat) then "\t"
       else if decide (n = 13%nat) then "\r"
       else String a EmptyString) +:+ escape s'
  end.

(** [%q] *)
Definition q (s : string) : string := dquote +:+ escape s +:+ dquote.

(** [%v] of a slice of strings *)
Definition v_list (l : list string) : string := "[" +:+ GoStrings.Join l " " +:+ "]".

End GoFmt.

Module GoTime.

Local Open Scope Z_scope.

(** Durations and instants are counted in nanoseconds. *)
Definition Nanosecond : Z := 1.
Definition Microsecond : Z := 1000.
Definition Millisecond : Z := 1000000.
Definition Second : Z := 1000000000.
Definition Minute : Z := 60 * Second.
Definition Hour : Z := 60 * Minute.

(** [1<<63], the bound [time.ParseDuration] checks on its uint64 count. *)
Definition two63 : Z := 9223372036854775808.

Definition digit (a : ascii) : option Z :=
  let n := nat_of_ascii a in
  if decide (48 ≤ n ≤ 57)%nat then Some (Z.of_nat n - 48) else None.

(** [leadingInt]: the value read, the rest; [None] on overflow. *)
Fixpoint leadingInt (x : Z) (s : list ascii) : option (Z * list ascii) :=
  match s with
  | c :: s' =>
      match digit c with
      | Some v =>
          if decide (two63 / 10 < x) then None
          else let x' := x * 10 + v in
               if decide (two63 < x') then None else leadingInt x' s'
      | None => Some (x, s)
      end
  | [] => Some (x, [])
  end.

(** [leadingFraction]: the digits read as an integer, their scale, the
    rest; digits that would overflow are skipped. *)
Fixpoint leadingFraction (x scale : Z) (overflow : bool) (s : list ascii)
  : Z * Z * list ascii :=
  match s with
  | c :: s' =>
      match digit c with
      | Some v =>
          if overflow then leadingFraction x scale true s'
          else if decide ((two63 - 1) / 10 < x) then leadingFraction x scale true s'
          else let y := x * 10 + v in
               if decide (two63 < y) then leadingFraction x scale true s'
               else leadingFraction y (scale * 10) false s'
      | None => (x, scale, s)
      end
  | [] => (x, scale, [])
  end.

(** The unit name is read up to the next dot or digit. *)
Fixpoint spanUnit (s : list ascii) : list ascii * list ascii :=
  match s with
  | c :: s' =>
      if decide (c = "."%char ∨ is_Some (digit c)) then ([], s)
      else let '(u, r) := spanUnit s' in (c :: u, r)
  | [] => ([], [])
  end.

(** [unitMap]; the two spellings of the micro sign are UTF-8 encoded. *)
Definition unitMap (u : string) : option Z :=
  if decide (u = "ns") then Some Nanosecond
  else if decide (u = "us" ∨ u = "µs" ∨ u = "μs") then Some Microsecond
  else if decide (u = "ms") then Some Millisecond
  else if decide (u = "s") then Some Second
  else if decide (u = "m") then Some Minute
  else if decide (u = "h") then Some Hour
  else None.

(** One [number unit] group of the loop of [ParseDuration].  Go scales the
    fraction in float64; the integer division here is the same number
    whenever [unit] is a multiple of the scale. *)
Definition parse_group (s : list ascii) : option (Z * list ascii) :=
  match s with
  | [] => None
  | c :: _ =>
      if decide (c = "."%char ∨ is_Some (digit c)) then
        match leadingInt 0 s with
        | None => None
        | Some (v, s1) =>
            let pre := bool_decide (length s1 ≠ length s) in
            let '(f, scale, s2, post) :=
              match s1 with
              | c1 :: s1' =>
                  if decide (c1 = "."%char) then
                    let '(f, scale, s2) := leadingFraction 0 1 false s1' in
                    (f, scale, s2, bool_decide (length s2 ≠ length s1'))
                  else (0, 1, s1, false)
              | [] => (0, 1, s1, false)
              end in
            if negb (pre || post) then None
            else let '(u, s3) := spanUnit s2 in
                 match u with
                 | [] => None
                 | _ =>
                     match unitMap (string_of_list_ascii u) with
                     | None => None
                     | Some unit =>
                         if decide (two63 / unit < v) then None
                         else let v' := v * unit + f * unit / scale in
                              if decide (two63 < v') then None else Some (v', s3)
                     end
                 end
        end
      else None
  end.

Fixpoint parse_groups (fuel : nat) (d : Z) (s : list ascii) : option Z :=
  match s with
  | [] => Some d
  | _ =>
      match fuel with
      | O => None
      | S fuel =>
          match parse_group s with
          | None => None
          | Some (v, s') =>
              if decide (two63 < d + v) then None else parse_groups fuel (d + v) s'
          end
      end
  end.

(** [time.ParseDuration]; [None] is the error.  Every group consumes a
    byte, so the length of the text is fuel enough. *)
Definition ParseDuration (s : string) : option Z :=
  let l := list_ascii_of_string s in
  let '(neg, l) :=
    match l with
    | c :: l' => if decide (c = "-"%char) then (true, l')
                 else if decide (c = "+"%char) then (false, l') else (false, l)
    | [] => (false, l)
    end in
  if decide (l = ["0"%char]) then Some 0
  else if decide (l = []) then None
  else match parse_groups (length l) 0 l with
       | None => None
       | Some d => if neg then Some (- d)
                   else if decide (two63 - 1 < d) then None else Some d
       end.

(** [int64(d.Seconds())]: the whole seconds of the duration. *)
Definition whole_seconds (d : Z) : Z := Z.quot d Second.

(** [time.Since], [time.Until]: the difference saturates. *)
Definition since (now t : Z) : Z := Z.max (- two63) (Z.min (two63 - 1) (now - t)).

(** [d.Round(m)] for [0 < m]: to the nearest multiple, halves away from 0. *)
Definition Round (d m : Z) : Z :=
  let r := Z.rem (Z.abs d) m in
  Z.sgn d * (if decide (r + r < m) then Z.abs d - r else Z.abs d + m - r).

(** [fmtFrac]: the last [prec] digits of [v] after a point, without
    trailing zeros; [acc] holds the digits already read. *)
Fixpoint frac_rev (prec : nat) (v : Z) (acc : string) : string :=
  match prec with
  | O => acc
  | S p =>
      let dg := v mod 10 in
      frac_rev p (v / 10)
        (if decide (acc = "" ∧ dg = 0) then "" else GoFmt.d dg +:+ acc)
  end.

Definition fmtFrac (prec : nat) (v : Z) : string :=
  let f := frac_rev prec v "" in if decide (f = "") then "" else "." +:+ f.

(** [Duration.String] *)
Definition to_string (dur : Z) : string :=
  let u := Z.abs dur in
  let body :=
    if decide (u < Second) then
      if decide (u = 0) then "0s"
      else if decide (u < Microsecond) then GoFmt.d u +:+ "ns"
      else if decide (u < Millisecond) then
        GoFmt.d (u / 1000) +:+ fmtFrac 3 u +:+ "µs"
      else GoFmt.d (u / 1000000) +:+ fmtFrac 6 u +:+ "ms"
    else
      let secs := u / Second in
      let tail := GoFmt.d (secs mod 60) +:+ fmtFrac 9 u +:+ "s" in
      if decide (secs < 60) then tail
      else let mins := secs / 60 in
           if decide (mins < 60) then GoFmt.d mins +:+ "m" +:+ tail
           else GoFmt.d (mins / 60) +:+ "h" +:+ GoFmt.d (mins mod 60) +:+ "m" +:+ tail
  in if decide (dur < 0) then "-" +:+ body else body.

Example parse_30m : ParseDuration "30m" = Some (30 * Minute).
Proof. vm_compute. reflexivity. Qed.
Example parse_1h30 : ParseDuration "1h30m0.5s" = Some (5400 * Second + 500 * Millisecond).
Proof. vm_compute. reflexivity. Qed.
Example parse_bad : ParseDuration "10" = None.
Proof. vm_compute. reflexivity. Qed.
Example string_1h : to_string (5400 * Second + 500 * Millisecond) = "1h30m0.5s".
Proof. vm_compute. reflexivity. Qed.
Example string_ms : to_string (1500 * Microsecond) = "1.5ms".
Proof. vm_compute. reflexivity. Qed.

(** *** Bounds of a parsed duration *)

Lemma leadingInt_nonneg x s v r : leadingInt x s = Some (v, r) → 0 ≤ x → 0 ≤ v.
Proof.
  revert x. induction s as [|c s IH]; intros x; simpl; [naive_solver|].
  unfold digit at 1. case_decide as Hc.
  - do 2 (case_decide; [done|]). intros Hv Hx. eapply IH; [done|]. lia.
  - naive_solver.
Qed.

Lemma leadingFraction_nonneg x sc o s f sc' r :
  leadingFraction x sc o s = (f, sc', r) → 0 ≤ x → 0 < sc → 0 ≤ f ∧ 0 < sc'.
Proof.
  revert x sc o. induction s as [|c s IH]; intros x sc o; simpl; [naive_solver|].
  unfold digit at 1. case_decide as Hc; [|naive_solver].
  destruct o; [apply IH|]. do 2 (case_decide; [apply IH|]).
  intros Hf Hx Hs. eapply IH; [done|lia|lia].
Qed.

Lemma unitMap_pos u n : unitMap u = Some n → 0 < n.
Proof. unfold unitMap. repeat (case_decide; [by intros [= <-]|]). done. Qed.

Lemma parse_group_nonneg s v r : parse_group s = Some (v, r) → 0 ≤ v ≤ two63.
Proof.
  destruct s as [|c s]; [done|]. unfold parse_group. case_decide; [|done].
  destruct (leadingInt 0 (c :: s)) as [[iv s1]|] eqn:Ei; [|done].
  assert (0 ≤ iv) as Hiv by (by eapply leadingInt_nonneg).
  destruct (match s1 with
            | [] => (0, 1, s1, false)
            | c1 :: s1' => if decide (c1 = "."%char) then
                let '(f, scale, s2) := leadingFraction 0 1 false s1' in
                (f, scale, s2, bool_decide (length s2 ≠ length s1'))
                else (0, 1, s1, false) end) as [[[f sc] s2] post] eqn:Ef.
  assert (0 ≤ f ∧ 0 < sc) as [Hf Hsc].
  { destruct s1 as [|c1 s1']; simplify_eq; [lia|]. case_decide; simplify_eq; [|lia].
    destruct (leadingFraction 0 1 false s1') as [[f' sc'] s2'] eqn:El. simplify_eq.
    eapply leadingFraction_nonneg; [done|lia|lia]. }
  destruct (negb _); [done|]. destruct (spanUnit s2) as [[|u us] s3]; [done|].
  destruct (unitMap _) as [n|] eqn:En; [|done]. apply unitMap_pos in En.
  case_decide; [done|]. case_decide; [done|]. intros [= <- <-].
  assert (0 ≤ f * n / sc) by (apply Z.div_pos; nia). nia.
Qed.

Lemma parse_groups_bound fuel d s r :
  parse_groups fuel d s = Some r → 0 ≤ d ≤ two63 → 0 ≤ r ≤ two63.
Proof.
  revert d s. induction fuel as [|fuel IH]; intros d [|c s];
    cbn -[parse_group two63]; [naive_solver|done|naive_solver|].
  destruct (parse_group (c :: s)) as [[v s']|] eqn:E; [|done].
  apply parse_group_nonneg in E.
  case_decide; [done|]. intros Hr Hd. eapply IH; [done|lia].
Qed.

(** A parsed duration is an int64. *)
Lemma ParseDuration_bound s d : ParseDuration s = Some d → - two63 ≤ d ≤ two63 - 1.
Proof.
  unfold ParseDuration. generalize (list_ascii_of_string s) as l0. intros l0.
  destruct (match l0 with [] => _ | _ :: _ => _ end) as [neg l].
  case_decide; [intros [= <-]; unfold two63; lia|]. case_decide; [done|].
  destruct (parse_groups (length l) 0 l) as [r|] eqn:E; [|done].
  apply parse_groups_bound in E; [|unfold two63; lia].
  unfold two63 in *. destruct neg; [intros [= <-]; lia|]. case_decide; [done|].
  intros [= <-]. lia.
Qed.

End GoTime.
