(* ===== verification/KubeTypes.v ===== *)
(** * The Kubernetes API objects the operator reads and writes

    These types belong to k8s.io/api and k8s.io/apimachinery, which the
    repository imports; only their public data shape is needed, restricted to
    the fields the source reads or sets.  A pointer is an [option], a struct a
    record, a slice a [list].  A Go map is a [gmap]; where the source tells a
    nil map from an empty one it is an [option] of a [gmap].  Quantities keep
    their text.  An instant is a count of nanoseconds, 0 for the zero time.

    [SetStatusCondition] is apimachinery's: it is a parameter here, with its
    documented behaviour as the laws of the class [ConditionOps]. *)

From S2P Require Import Prelude.

Open Scope string_scope.
Open Scope list_scope.

(** ** metav1 *)

Record ObjectMeta := mkMeta {
  om_name : string;
  om_namespace : string;
  om_labels : gmap string string;
  om_annotations : gmap string string;
  om_finalizers : list string;
  om_deletionTimestamp : Z;
  om_creationTimestamp : Z;
}.
#[export] Instance ObjectMeta_eq_dec : EqDecision ObjectMeta.
Proof. solve_decision. Defined.
#[export] Instance ObjectMeta_fields : Fields ObjectMeta := λ r,
  mkMeta (om_name r) (om_namespace r) (om_labels r) (om_annotations r)
    (om_finalizers r) (om_deletionTimestamp r) (om_creationTimestamp r).

(** The metadata a builder sets on a fresh object. *)
Definition newMeta (name namespace : string) (labels : gmap string string) : ObjectMeta :=
  mkMeta name namespace labels ∅ [] 0 0.

Inductive ConditionStatus := ConditionTrue | ConditionFalse | ConditionUnknown.
#[export] Instance ConditionStatus_eq_dec : EqDecision ConditionStatus.
Proof. solve_decision. Defined.

(** [LastTransitionTime] is left out: it is stamped by the library, and only
    when another field of the condition changes. *)
Record Condition := mkCondition {
  c_type : string;
  c_status : ConditionStatus;
  c_reason : string;
  c_message : string;
}.
#[export] Instance Condition_eq_dec : EqDecision Condition.
Proof. solve_decision. Defined.

Definition find_condition (t : string) (l : list Condition) : option Condition :=
  find (λ c, bool_decide (c_type c = t)) l.

(** The behaviour of [meta.SetStatusCondition] its documentation states: the
    condition of that type is replaced, or appended when there is none. *)
Class ConditionOps := {
  SetStatusCondition : list Condition → Condition → list Condition;
  find_SetStatusCondition l c : find_condition (c_type c) (SetStatusCondition l c) = Some c;
  find_SetStatusCondition_ne l c t :
    t ≠ c_type c → find_condition t (SetStatusCondition l c) = find_condition t l;
}.

(** An implementation with that behaviour, for the closed examples. *)
Fixpoint set_condition (l : list Condition) (c : Condition) : list Condition :=
  match l with
  | [] => [c]
  | x :: l' => if decide (c_type x = c_type c) then c :: l' else x :: set_condition l' c
  end.

Lemma find_set_condition l c : find_condition (c_type c) (set_condition l c) = Some c.
Proof.
  unfold find_condition. induction l as [|x l IH]; simpl.
  - by rewrite bool_decide_eq_true_2.
  - case_decide as Hx; simpl.
    + by rewrite bool_decide_eq_true_2.
    + by rewrite bool_decide_eq_false_2.
Qed.

Lemma find_set_condition_ne l c t :
  t ≠ c_type c → find_condition t (set_condition l c) = find_condition t l.
Proof.
  intros Ht. unfold find_condition. induction l as [|x l IH]; simpl.
  - by rewrite bool_decide_eq_false_2 by congruence.
  - case_decide as Hx; simpl.
    + by rewrite !bool_decide_eq_false_2 by congruence.
    + by rewrite IH.
Qed.

#[local] Instance set_condition_ops : ConditionOps :=
  {| SetStatusCondition := set_condition;
     find_SetStatusCondition := find_set_condition;
     find_SetStatusCondition_ne := find_set_condition_ne |}.

(** ** corev1: security contexts *)

Inductive SeccompProfileType :=
  SeccompRuntimeDefault | SeccompUnconfined | SeccompLocalhost | SeccompOther (t : string).
Record SeccompProfile := mkSeccomp {
  sp_type : SeccompProfileType;
  sp_localhostProfile : option string;
}.
Record SELinuxOptions := mkSELinux {
  se_user : string; se_role : string; se_type : string; se_level : string;
}.
Record Capabilities := mkCaps { cap_add : list string; cap_drop : list string }.

Record PodSecurityContext := mkPodSC {
  psc_seLinuxOptions : option SELinuxOptions;
  psc_windowsHostProcess : option bool;
  psc_runAsUser : option Z;
  psc_runAsGroup : option Z;
  psc_runAsNonRoot : option bool;
  psc_supplementalGroups : list Z;
  psc_fsGroup : option Z;
  psc_sysctls : list (string * string);
  psc_fsGroupChangePolicy : option string;
  psc_seccompProfile : option SeccompProfile;
  psc_appArmorProfile : option string;
}.

Record SecurityContext := mkSC {
  sc_capabilities : option Capabilities;
  sc_privileged : option bool;
  sc_seLinuxOptions : option SELinuxOptions;
  sc_windowsHostProcess : option bool;
  sc_runAsUser : option Z;
  sc_runAsGroup : option Z;
  sc_runAsNonRoot : option bool;
  sc_readOnlyRootFilesystem : option bool;
  sc_allowPrivilegeEscalation : option bool;
  sc_procMount : option string;
  sc_seccompProfile : option SeccompProfile;
  sc_appArmorProfile : option string;
}.

#[export] Instance SeccompProfileType_eq_dec : EqDecision SeccompProfileType.
Proof. solve_decision. Defined.
#[export] Instance SeccompProfile_eq_dec : EqDecision SeccompProfile.
Proof. solve_decision. Defined.
#[export] Instance SELinuxOptions_eq_dec : EqDecision SELinuxOptions.
Proof. solve_decision. Defined.
#[export] Instance Capabilities_eq_dec : EqDecision Capabilities.
Proof. solve_decision. Defined.
#[export] Instance PodSecurityContext_eq_dec : EqDecision PodSecurityContext.
Proof. solve_decision. Defined.
#[export] Instance SecurityContext_eq_dec : EqDecision SecurityContext.
Proof. solve_decision. Defined.
#[export] Instance PodSecurityContext_fields : Fields PodSecurityContext := λ r,
  mkPodSC (psc_seLinuxOptions r) (psc_windowsHostProcess r) (psc_runAsUser r)
    (psc_runAsGroup r) (psc_runAsNonRoot r) (psc_supplementalGroups r) (psc_fsGroup r)
    (psc_sysctls r) (psc_fsGroupChangePolicy r) (psc_seccompProfile r)
    (psc_appArmorProfile r).
#[export] Instance SecurityContext_fields : Fields SecurityContext := λ r,
  mkSC (sc_capabilities r) (sc_privileged r) (sc_seLinuxOptions r)
    (sc_windowsHostProcess r) (sc_runAsUser r) (sc_runAsGroup r) (sc_runAsNonRoot r)
    (sc_readOnlyRootFilesystem r) (sc_allowPrivilegeEscalation r) (sc_procMount r)
    (sc_seccompProfile r) (sc_appArmorProfile r).

(** ** corev1: containers and pods *)

Inductive EnvVarSource :=
| FromSecretKey (name key : string)
| FromField (path : string).

Record EnvVar := mkEnv { ev_name : string; ev_value : string; ev_from : option EnvVarSource }.
Definition EnvValue (n v : string) : EnvVar := mkEnv n v None.
Definition EnvSecret (n name key : string) : EnvVar := mkEnv n "" (Some (FromSecretKey name key)).

Record VolumeMount := mkMount {
  vm_name : string; vm_mountPath : string; vm_subPath : string; vm_readOnly : bool;
}.

Inductive VolumeSource :=
| EmptyDir (sizeLimit : option string)
| ConfigMapVolume (name : string) (items : list (string * string))
| PersistentVolumeClaimVolume (claim : string)
| SecretVolume (name : string).

Record Volume := mkVolume { v_name : string; v_source : VolumeSource }.

Record ResourceRequirements := mkResources {
  rr_requests : option (gmap string string);
  rr_limits : option (gmap string string);
}.

Record Probe := mkProbe {
  pr_path : string; pr_port : Z; pr_initialDelay : Z; pr_period : Z;
  pr_timeout : Z; pr_success : Z; pr_failure : Z;
}.
Record ContainerPort := mkPort { cp_name : string; cp_port : Z; cp_protocol : string }.

Record Container := mkContainer {
  ct_name : string;
  ct_image : string;
  ct_imagePullPolicy : string;
  ct_command : list string;
  ct_env : list EnvVar;
  ct_volumeMounts : list VolumeMount;
  ct_resources : ResourceRequirements;
  ct_ports : list ContainerPort;
  ct_livenessProbe : option Probe;
  ct_readinessProbe : option Probe;
  ct_securityContext : option SecurityContext;
}.

Record PodSpec := mkPodSpec {
  ps_initContainers : list Container;
  ps_containers : list Container;
  ps_volumes : list Volume;
  ps_serviceAccountName : string;
  ps_automountToken : option bool;
  ps_securityContext : option PodSecurityContext;
  ps_restartPolicy : string;
}.

#[export] Instance EnvVarSource_eq_dec : EqDecision EnvVarSource.
Proof. solve_decision. Defined.
#[export] Instance EnvVar_eq_dec : EqDecision EnvVar.
Proof. solve_decision. Defined.
#[export] Instance VolumeMount_eq_dec : EqDecision VolumeMount.
Proof. solve_decision. Defined.
#[export] Instance VolumeSource_eq_dec : EqDecision VolumeSource.
Proof. solve_decision. Defined.
#[export] Instance Volume_eq_dec : EqDecision Volume.
Proof. solve_decision. Defined.
#[export] Instance ResourceRequirements_eq_dec : EqDecision ResourceRequirements.
Proof. solve_decision. Defined.
#[export] Instance Probe_eq_dec : EqDecision Probe.
Proof. solve_decision. Defined.
#[export] Instance ContainerPort_eq_dec : EqDecision ContainerPort.
Proof. solve_decision. Defined.
#[export] Instance Container_eq_dec : EqDecision Container.
Proof. solve_decision. Defined.
#[export] Instance PodSpec_eq_dec : EqDecision PodSpec.
Proof. solve_decision. Defined.

#[export] Instance ResourceRequirements_fields : Fields ResourceRequirements := λ r,
  mkResources (rr_requests r) (rr_limits r).
#[export] Instance Container_fields : Fields Container := λ r,
  mkContainer (ct_name r) (ct_image r) (ct_imagePullPolicy r) (ct_command r) (ct_env r)
    (ct_volumeMounts r) (ct_resources r) (ct_ports r) (ct_livenessProbe r)
    (ct_readinessProbe r) (ct_securityContext r).
#[export] Instance PodSpec_fields : Fields PodSpec := λ r,
  mkPodSpec (ps_initContainers r) (ps_containers r) (ps_volumes r)
    (ps_serviceAccountName r) (ps_automountToken r) (ps_securityContext r)
    (ps_restartPolicy r).

Record PodTemplateSpec := mkTemplate {
  pt_labels : gmap string string; pt_annotations : gmap string string; pt_spec : PodSpec;
}.
#[export] Instance PodTemplateSpec_eq_dec : EqDecision PodTemplateSpec.
Proof. solve_decision. Defined.

(** ** Workloads *)

Record Deployment := mkDeployment {
  dp_meta : ObjectMeta;
  dp_replicas : Z;
  dp_selector : gmap string string;
  dp_template : PodTemplateSpec;
  dp_strategy : string;
  dp_readyReplicas : Z;
}.
Record Job := mkJob {
  jb_meta : ObjectMeta;
  jb_backoffLimit : option Z;
  jb_activeDeadlineSeconds : option Z;
  jb_ttlSecondsAfterFinished : option Z;
  jb_template : PodTemplateSpec;
  jb_succeeded : Z;
  jb_failed : Z;
}.
#[export] Instance Deployment_eq_dec : EqDecision Deployment.
Proof. solve_decision. Defined.
#[export] Instance Job_eq_dec : EqDecision Job.
Proof. solve_decision. Defined.
#[export] Instance Deployment_fields : Fields Deployment := λ r,
  mkDeployment (dp_meta r) (dp_replicas r) (dp_selector r) (dp_template r)
    (dp_strategy r) (dp_readyReplicas r).
#[export] Instance Job_fields : Fields Job := λ r,
  mkJob (jb_meta r) (jb_backoffLimit r) (jb_activeDeadlineSeconds r)
    (jb_ttlSecondsAfterFinished r) (jb_template r) (jb_succeeded r) (jb_failed r).

(** A container status of a pod: its name and, once terminated, its
    termination message. *)
Record ContainerStatus := mkCStatus { cs_name : string; cs_terminated : option string }.
Record Pod := mkPod { pod_meta : ObjectMeta; pod_containerStatuses : list ContainerStatus }.
#[export] Instance ContainerStatus_eq_dec : EqDecision ContainerStatus.
Proof. solve_decision. Defined.
#[export] Instance Pod_eq_dec : EqDecision Pod.
Proof. solve_decision. Defined.

(** ** Configuration, access and network objects *)

Record ConfigMap := mkConfigMap { cm_meta : ObjectMeta; cm_data : gmap string string }.
Record Secret := mkSecret { sec_meta : ObjectMeta; sec_data : gmap string string }.
Record ServiceAccount := mkServiceAccount { sa_meta : ObjectMeta }.
Record PolicyRule := mkRule {
  pol_apiGroups : list string; pol_resources : list string; pol_verbs : list string;
}.
Record Role := mkRole { ro_meta : ObjectMeta; ro_rules : list PolicyRule }.
Record RoleRef := mkRoleRef { rref_apiGroup : string; rref_kind : string; rref_name : string }.
Record Subject := mkSubject { sub_kind : string; sub_name : string; sub_namespace : string }.
Record RoleBinding := mkRoleBinding {
  rb_meta : ObjectMeta; rb_roleRef : RoleRef; rb_subjects : list Subject;
}.
Record ServicePort := mkServicePort {
  svp_name : string; svp_port : Z; svp_targetPort : Z; svp_protocol : string;
}.
Record Service := mkService {
  sv_meta : ObjectMeta; sv_selector : gmap string string; sv_ports : list ServicePort;
  sv_type : string;
}.
Record PersistentVolumeClaim := mkPVC {
  pvc_meta : ObjectMeta;
  pvc_accessModes : list string;
  pvc_storage : string;
  pvc_storageClassName : option string;
}.
Record NetworkPolicy := mkNetworkPolicy {
  np_meta : ObjectMeta;
  np_podSelector : gmap string string;
  np_policyTypes : list string;
  np_ingressPorts : list (list Z);
}.

(** networkingv1: one rule with one path, as the source builds it. *)
Record Ingress := mkIngress {
  in_meta : ObjectMeta;
  in_className : option string;
  in_host : string;
  in_path : string;
  in_pathType : string;
  in_backendService : string;
  in_backendPort : Z;
  in_tls : list (list string * string);
}.

#[export] Instance ConfigMap_eq_dec : EqDecision ConfigMap.
Proof. solve_decision. Defined.
#[export] Instance ServiceAccount_eq_dec : EqDecision ServiceAccount.
Proof. solve_decision. Defined.
#[export] Instance PolicyRule_eq_dec : EqDecision PolicyRule.
Proof. solve_decision. Defined.
#[export] Instance Role_eq_dec : EqDecision Role.
Proof. solve_decision. Defined.
#[export] Instance RoleRef_eq_dec : EqDecision RoleRef.
Proof. solve_decision. Defined.
#[export] Instance Subject_eq_dec : EqDecision Subject.
Proof. solve_decision. Defined.
#[export] Instance RoleBinding_eq_dec : EqDecision RoleBinding.
Proof. solve_decision. Defined.
#[export] Instance ServicePort_eq_dec : EqDecision ServicePort.
Proof. solve_decision. Defined.
#[export] Instance Service_eq_dec : EqDecision Service.
Proof. solve_decision. Defined.
#[export] Instance PVC_eq_dec : EqDecision PersistentVolumeClaim.
Proof. solve_decision. Defined.
#[export] Instance NetworkPolicy_eq_dec : EqDecision NetworkPolicy.
Proof. solve_decision. Defined.
#[export] Instance Ingress_eq_dec : EqDecision Ingress.
Proof. solve_decision. Defined.
#[export] Instance Secret_eq_dec : EqDecision Secret.
Proof. solve_decision. Defined.
#[export] Instance ConfigMap_fields : Fields ConfigMap := λ r,
  mkConfigMap (cm_meta r) (cm_data r).
#[export] Instance ServiceAccount_fields : Fields ServiceAccount := λ r,
  mkServiceAccount (sa_meta r).
#[export] Instance Role_fields : Fields Role := λ r, mkRole (ro_meta r) (ro_rules r).
#[export] Instance RoleBinding_fields : Fields RoleBinding := λ r,
  mkRoleBinding (rb_meta r) (rb_roleRef r) (rb_subjects r).
#[export] Instance Service_fields : Fields Service := λ r,
  mkService (sv_meta r) (sv_selector r) (sv_ports r) (sv_type r).
#[export] Instance PVC_fields : Fields PersistentVolumeClaim := λ r,
  mkPVC (pvc_meta r) (pvc_accessModes r) (pvc_storage r) (pvc_storageClassName r).
#[export] Instance NetworkPolicy_fields : Fields NetworkPolicy := λ r,
  mkNetworkPolicy (np_meta r) (np_podSelector r) (np_policyTypes r) (np_ingressPorts r).
#[export] Instance Ingress_fields : Fields Ingress := λ r,
  mkIngress (in_meta r) (in_className r) (in_host r) (in_path r) (in_pathType r)
    (in_backendService r) (in_backendPort r) (in_tls r).

(** A label selector matches an object whose labels include it. *)
Definition selects (sel labels : gmap string string) : Prop := sel ⊆ labels.
#[export] Instance selects_dec sel labels : Decision (selects sel labels).
Proof. unfold selects. apply _. Defined.
