(* ===== verification/ApiTypes.v ===== *)
(** * The custom resources (api/v1alpha1)

    The records of agent_types.go, agentrun_types.go, channel_types.go,
    integration_types.go, provider_types.go and shared_types.go, field for
    field, with the constants of their string enumerations and the methods of
    the types.  A Go enumeration is a named string type, so any string can
    occur: the phases and kinds stay strings and the constants are compared
    with [decide].  A field [F] of a struct is the projection [p_F], [p] being
    a short prefix of the struct's name; the embedded [metav1.ObjectMeta] is
    [p_Meta].  float64 settings are rationals, durations nanoseconds. *)

From Stdlib Require Import QArith.
From S2P Require Import Prelude GoLib KubeTypes.

Open Scope string_scope.
Open Scope list_scope.

#[local] Instance Q_eq_dec : EqDecision Q.
Proof. solve_decision. Defined.

(** ** shared_types.go *)

Record SecretKeyRef := mkSecretKeyRef {
  skr_Name : string;
  skr_Key : string;
}.
#[export] Instance SecretKeyRef_eq_dec : EqDecision SecretKeyRef.
Proof. solve_decision. Defined.

Record SecretEnvVar := mkSecretEnvVar {
  sev_Name : string;
  sev_SecretRef : SecretKeyRef;
}.
#[export] Instance SecretEnvVar_eq_dec : EqDecision SecretEnvVar.
Proof. solve_decision. Defined.

Record OCIRef := mkOCIRef {
  oci_Ref : string;
  oci_Digest : string;
  oci_PullPolicy : string;
  oci_PullSecret : option SecretKeyRef;
}.
#[export] Instance OCIRef_eq_dec : EqDecision OCIRef.
Proof. solve_decision. Defined.

(** ** provider_types.go *)

Notation ProviderType := string (only parsing).
Definition ProviderTypeAnthropic : ProviderType := "anthropic".
Definition ProviderTypeOpenAI : ProviderType := "openai".
Definition ProviderTypeGoogle : ProviderType := "google".
Definition ProviderTypeAzure : ProviderType := "azure".
Definition ProviderTypeBedrock : ProviderType := "bedrock".
Definition ProviderTypeOpenRouter : ProviderType := "openrouter".
Definition ProviderTypeOpenAICompat : ProviderType := "openaicompat".
Notation ProviderPhase := string (only parsing).
Definition ProviderPhasePending : ProviderPhase := "Pending".
Definition ProviderPhaseReady : ProviderPhase := "Ready".
Definition ProviderPhaseFailed : ProviderPhase := "Failed".
Definition ProviderConditionSecretReady : string := "SecretReady".
Definition ProviderConditionConfigValid : string := "ConfigValid".
Definition ProviderConditionInUse : string := "InUse".
Definition ProviderFinalizer : string := "agents.agentops.io/provider-protection".

Record VertexConfig := mkVertexConfig {
  vx_Project : string;
  vx_Location : string;
}.
#[export] Instance VertexConfig_eq_dec : EqDecision VertexConfig.
Proof. solve_decision. Defined.

Record OAuth2ClientCredentials := mkOAuth2ClientCredentials {
  oa_TokenURL : string;
  oa_ClientIDSecret : SecretKeyRef;
  oa_ClientSecretSecret : SecretKeyRef;
  oa_Scope : string;
  oa_Audience : string;
}.
#[export] Instance OAuth2ClientCredentials_eq_dec : EqDecision OAuth2ClientCredentials.
Proof. solve_decision. Defined.

Record ProviderEndpoint := mkProviderEndpoint {
  pe_BaseURL : string;
  pe_Headers : gmap string string;
  pe_OAuth2ClientCredentials : option OAuth2ClientCredentials;
}.
#[export] Instance ProviderEndpoint_eq_dec : EqDecision ProviderEndpoint.
Proof. solve_decision. Defined.

Record ProviderConfig := mkProviderConfig {
  pc_Organization : string;
  pc_Project : string;
  pc_UseResponsesAPI : bool;
  pc_AzureAPIVersion : string;
  pc_Vertex : option VertexConfig;
  pc_Bedrock : bool;
}.
#[export] Instance ProviderConfig_eq_dec : EqDecision ProviderConfig.
Proof. solve_decision. Defined.

Record AnthropicCallDefaults := mkAnthropicCallDefaults {
  acd_Effort : string;
  acd_ThinkingBudgetTokens : option Z;
  acd_DisableParallelToolUse : option bool;
}.
#[export] Instance AnthropicCallDefaults_eq_dec : EqDecision AnthropicCallDefaults.
Proof. solve_decision. Defined.

Record OpenAICallDefaults := mkOpenAICallDefaults {
  ocd_ReasoningEffort : string;
  ocd_ServiceTier : string;
}.
#[export] Instance OpenAICallDefaults_eq_dec : EqDecision OpenAICallDefaults.
Proof. solve_decision. Defined.

Record GoogleSafetySetting := mkGoogleSafetySetting {
  gss_Category : string;
  gss_Threshold : string;
}.
#[export] Instance GoogleSafetySetting_eq_dec : EqDecision GoogleSafetySetting.
Proof. solve_decision. Defined.

Record GoogleCallDefaults := mkGoogleCallDefaults {
  gcd_ThinkingLevel : string;
  gcd_ThinkingBudgetTokens : option Z;
  gcd_SafetySettings : list GoogleSafetySetting;
}.
#[export] Instance GoogleCallDefaults_eq_dec : EqDecision GoogleCallDefaults.
Proof. solve_decision. Defined.

Record ProviderCallDefaults := mkProviderCallDefaults {
  pcd_Anthropic : option AnthropicCallDefaults;
  pcd_OpenAI : option OpenAICallDefaults;
  pcd_Google : option GoogleCallDefaults;
}.
#[export] Instance ProviderCallDefaults_eq_dec : EqDecision ProviderCallDefaults.
Proof. solve_decision. Defined.

Record ProviderSpec := mkProviderSpec {
  prs_Type : ProviderType;
  prs_ApiKeySecret : option SecretKeyRef;
  prs_Endpoint : option ProviderEndpoint;
  prs_Config : option ProviderConfig;
  prs_Defaults : option ProviderCallDefaults;
}.
#[export] Instance ProviderSpec_eq_dec : EqDecision ProviderSpec.
Proof. solve_decision. Defined.

Record ProviderStatus := mkProviderStatus {
  prst_Phase : ProviderPhase;
  prst_Message : string;
  prst_Conditions : list Condition;
  prst_BoundAgents : Z;
}.
#[export] Instance ProviderStatus_eq_dec : EqDecision ProviderStatus.
Proof. solve_decision. Defined.
#[export] Instance ProviderStatus_fields : Fields ProviderStatus := λ r,
  mkProviderStatus (prst_Phase r) (prst_Message r) (prst_Conditions r) (prst_BoundAgents
    r).

Record Provider := mkProvider {
  prov_Meta : ObjectMeta;
  prov_Spec : ProviderSpec;
  prov_Status : ProviderStatus;
}.
#[export] Instance Provider_eq_dec : EqDecision Provider.
Proof. solve_decision. Defined.
#[export] Instance Provider_fields : Fields Provider := λ r,
  mkProvider (prov_Meta r) (prov_Spec r) (prov_Status r).

(** ** shared_types.go *)

Record ProviderBinding := mkProviderBinding {
  pb_Name : string;
  pb_Overrides : option ProviderCallDefaults;
}.
#[export] Instance ProviderBinding_eq_dec : EqDecision ProviderBinding.
Proof. solve_decision. Defined.

Record ContextFileRef := mkContextFileRef {
  cfr_ConfigMapRef : SecretKeyRef;
}.
#[export] Instance ContextFileRef_eq_dec : EqDecision ContextFileRef.
Proof. solve_decision. Defined.

Record ToolEnvVar := mkToolEnvVar {
  tev_Name : string;
  tev_Value : string;
}.
#[export] Instance ToolEnvVar_eq_dec : EqDecision ToolEnvVar.
Proof. solve_decision. Defined.

Record ToolBinding := mkToolBinding {
  tb_Name : string;
  tb_OCI : OCIRef;
  tb_Description : string;
  tb_Category : string;
  tb_UIHint : string;
  tb_Env : list ToolEnvVar;
}.
#[export] Instance ToolBinding_eq_dec : EqDecision ToolBinding.
Proof. solve_decision. Defined.

Record MemorySaveRuleSpec := mkMemorySaveRuleSpec {
  msr_Tool : string;
  msr_MatchOutput : string;
  msr_MatchArgs : gmap string string;
  msr_Type : string;
  msr_Scope : string;
}.
#[export] Instance MemorySaveRuleSpec_eq_dec : EqDecision MemorySaveRuleSpec.
Proof. solve_decision. Defined.

Record ContextInjectRuleSpec := mkContextInjectRuleSpec {
  cir_Tool : string;
  cir_Query : string;
  cir_Limit : Z;
}.
#[export] Instance ContextInjectRuleSpec_eq_dec : EqDecision ContextInjectRuleSpec.
Proof. solve_decision. Defined.

Record ToolHooksSpec := mkToolHooksSpec {
  th_BlockedCommands : list string;
  th_AllowedPaths : list string;
  th_AuditTools : list string;
  th_MemorySaveRules : list MemorySaveRuleSpec;
  th_ContextInjectTools : list ContextInjectRuleSpec;
}.
#[export] Instance ToolHooksSpec_eq_dec : EqDecision ToolHooksSpec.
Proof. solve_decision. Defined.

Record ConcurrencySpec := mkConcurrencySpec {
  cc_MaxRuns : Z;
  cc_Policy : string;
}.
#[export] Instance ConcurrencySpec_eq_dec : EqDecision ConcurrencySpec.
Proof. solve_decision. Defined.

Record StorageSpec := mkStorageSpec {
  sto_Size : string;
  sto_StorageClass : string;
}.
#[export] Instance StorageSpec_eq_dec : EqDecision StorageSpec.
Proof. solve_decision. Defined.

Record NetworkPolicySpec := mkNetworkPolicySpec {
  nps_Enabled : bool;
}.
#[export] Instance NetworkPolicySpec_eq_dec : EqDecision NetworkPolicySpec.
Proof. solve_decision. Defined.

Record IntegrationBinding := mkIntegrationBinding {
  ib_Name : string;
  ib_ReadOnly : bool;
  ib_AutoContext : bool;
}.
#[export] Instance IntegrationBinding_eq_dec : EqDecision IntegrationBinding.
Proof. solve_decision. Defined.

Record DelegationSpec := mkDelegationSpec {
  dg_Team : GoSlice string;
  dg_MaxFanOut : Z;
}.
#[export] Instance DelegationSpec_eq_dec : EqDecision DelegationSpec.
Proof. solve_decision. Defined.

Record MemorySpec := mkMemorySpec {
  mem_ServerRef : string;
  mem_Project : string;
  mem_ContextLimit : Z;
  mem_AutoSummarize : option bool;
  mem_AutoSave : option bool;
  mem_AutoSearch : option bool;
}.
#[export] Instance MemorySpec_eq_dec : EqDecision MemorySpec.
Proof. solve_decision. Defined.

Record SecurityOverrides := mkSecurityOverrides {
  so_Pod : option PodSecurityContext;
  so_Container : option SecurityContext;
  so_AutomountServiceAccountToken : option bool;
}.
#[export] Instance SecurityOverrides_eq_dec : EqDecision SecurityOverrides.
Proof. solve_decision. Defined.
#[export] Instance SecurityOverrides_fields : Fields SecurityOverrides := λ r,
  mkSecurityOverrides (so_Pod r) (so_Container r) (so_AutomountServiceAccountToken r).

(** ** agent_types.go *)

Notation AgentMode := string (only parsing).
Definition AgentModeDaemon : AgentMode := "daemon".
Definition AgentModeTask : AgentMode := "task".
Notation AgentPhase := string (only parsing).
Definition AgentPhasePending : AgentPhase := "Pending".
Definition AgentPhaseRunning : AgentPhase := "Running".
Definition AgentPhaseReady : AgentPhase := "Ready".
Definition AgentPhaseFailed : AgentPhase := "Failed".
Definition AgentConditionReady : string := "Ready".
Definition AgentConditionProvidersReady : string := "ProvidersReady".
Definition AgentConditionResourcesReady : string := "ResourcesReady".
Definition DefaultFantasyImage : string := "ghcr.io/samyn92/agentops-runtime-fantasy:0.18.0".

Record AgentSpec := mkAgentSpec {
  as_Mode : AgentMode;
  as_Image : string;
  as_ImagePullPolicy : string;
  as_BuiltinTools : GoSlice string;
  as_Temperature : option Q;
  as_MaxOutputTokens : option Z;
  as_MaxSteps : option Z;
  as_MaxTokensBudget : option Z;
  as_MaxRetries : option Z;
  as_Model : string;
  as_PrimaryProvider : string;
  as_TitleModel : string;
  as_ProviderRefs : list ProviderBinding;
  as_FallbackModels : list string;
  as_SystemPrompt : string;
  as_ContextFiles : list ContextFileRef;
  as_Delegation : option DelegationSpec;
  as_Tools : list ToolBinding;
  as_PermissionTools : list string;
  as_EnableQuestionTool : bool;
  as_Env : gmap string string;
  as_Secrets : list SecretEnvVar;
  as_Storage : option StorageSpec;
  as_Memory : option MemorySpec;
  as_Integrations : list IntegrationBinding;
  as_ToolHooks : option ToolHooksSpec;
  as_Schedule : string;
  as_SchedulePrompt : string;
  as_Concurrency : option ConcurrencySpec;
  as_Resources : option ResourceRequirements;
  as_ServiceAccountName : string;
  as_Timeout : string;
  as_NetworkPolicy : option NetworkPolicySpec;
  as_PodAnnotations : gmap string string;
  as_Security : option SecurityOverrides;
}.
#[export] Instance AgentSpec_eq_dec : EqDecision AgentSpec.
Proof. solve_decision. Defined.
#[export] Instance AgentSpec_fields : Fields AgentSpec := λ r,
  mkAgentSpec (as_Mode r) (as_Image r) (as_ImagePullPolicy r) (as_BuiltinTools r)
    (as_Temperature r) (as_MaxOutputTokens r) (as_MaxSteps r) (as_MaxTokensBudget r)
    (as_MaxRetries r) (as_Model r) (as_PrimaryProvider r) (as_TitleModel r)
    (as_ProviderRefs r) (as_FallbackModels r) (as_SystemPrompt r) (as_ContextFiles r)
    (as_Delegation r) (as_Tools r) (as_PermissionTools r) (as_EnableQuestionTool r)
    (as_Env r) (as_Secrets r) (as_Storage r) (as_Memory r) (as_Integrations r)
    (as_ToolHooks r) (as_Schedule r) (as_SchedulePrompt r) (as_Concurrency r)
    (as_Resources r) (as_ServiceAccountName r) (as_Timeout r) (as_NetworkPolicy r)
    (as_PodAnnotations r) (as_Security r).

Record AgentStatus := mkAgentStatus {
  ast_Phase : AgentPhase;
  ast_ServiceURL : string;
  ast_ReadyReplicas : Z;
  ast_StoragePVC : string;
  ast_ActiveModel : string;
  ast_Conditions : list Condition;
}.
#[export] Instance AgentStatus_eq_dec : EqDecision AgentStatus.
Proof. solve_decision. Defined.
#[export] Instance AgentStatus_fields : Fields AgentStatus := λ r,
  mkAgentStatus (ast_Phase r) (ast_ServiceURL r) (ast_ReadyReplicas r) (ast_StoragePVC r)
    (ast_ActiveModel r) (ast_Conditions r).

Record Agent := mkAgent {
  ag_Meta : ObjectMeta;
  ag_Spec : AgentSpec;
  ag_Status : AgentStatus;
}.
#[export] Instance Agent_eq_dec : EqDecision Agent.
Proof. solve_decision. Defined.
#[export] Instance Agent_fields : Fields Agent := λ r,
  mkAgent (ag_Meta r) (ag_Spec r) (ag_Status r).

(** ** agentrun_types.go *)

Notation AgentRunPhase := string (only parsing).
Definition AgentRunPhasePending : AgentRunPhase := "Pending".
Definition AgentRunPhaseQueued : AgentRunPhase := "Queued".
Definition AgentRunPhaseRunning : AgentRunPhase := "Running".
Definition AgentRunPhaseSucceeded : AgentRunPhase := "Succeeded".
Definition AgentRunPhaseFailed : AgentRunPhase := "Failed".
Notation AgentRunSource := string (only parsing).
Definition AgentRunSourceChannel : AgentRunSource := "channel".
Definition AgentRunSourceAgent : AgentRunSource := "agent".
Definition AgentRunSourceSchedule : AgentRunSource := "schedule".
Definition AgentRunSourceConsole : AgentRunSource := "console".
Notation AgentRunIntent := string (only parsing).
Definition IntentChange : AgentRunIntent := "change".
Definition IntentPlan : AgentRunIntent := "plan".
Definition IntentIncident : AgentRunIntent := "incident".
Definition IntentDiscovery : AgentRunIntent := "discovery".
Definition IntentNoop : AgentRunIntent := "noop".
Definition AgentRunConditionComplete : string := "Complete".

Record AgentRunOutcomeSpec := mkAgentRunOutcomeSpec {
  aros_Intent : AgentRunIntent;
}.
#[export] Instance AgentRunOutcomeSpec_eq_dec : EqDecision AgentRunOutcomeSpec.
Proof. solve_decision. Defined.

Record AgentRunArtifact := mkAgentRunArtifact {
  art_Kind : string;
  art_Provider : string;
  art_URL : string;
  art_Ref : string;
  art_Title : string;
}.
#[export] Instance AgentRunArtifact_eq_dec : EqDecision AgentRunArtifact.
Proof. solve_decision. Defined.

Record AgentRunOutcomeStatus := mkAgentRunOutcomeStatus {
  arot_Intent : AgentRunIntent;
  arot_Artifacts : list AgentRunArtifact;
  arot_Summary : string;
}.
#[export] Instance AgentRunOutcomeStatus_eq_dec : EqDecision AgentRunOutcomeStatus.
Proof. solve_decision. Defined.

Record AgentRunGitSpec := mkAgentRunGitSpec {
  arg_IntegrationRef : string;
  arg_Branch : string;
  arg_BaseBranch : string;
  arg_Project : string;
}.
#[export] Instance AgentRunGitSpec_eq_dec : EqDecision AgentRunGitSpec.
Proof. solve_decision. Defined.

Record AgentRunSpec := mkAgentRunSpec {
  ars_AgentRef : string;
  ars_Prompt : string;
  ars_Source : AgentRunSource;
  ars_SourceRef : string;
  ars_Git : option AgentRunGitSpec;
  ars_Outcome : option AgentRunOutcomeSpec;
}.
#[export] Instance AgentRunSpec_eq_dec : EqDecision AgentRunSpec.
Proof. solve_decision. Defined.

Record AgentRunStatus := mkAgentRunStatus {
  arst_Phase : AgentRunPhase;
  arst_Mode : AgentMode;
  arst_StartTime : option Z;
  arst_CompletionTime : option Z;
  arst_JobName : string;
  arst_Output : string;
  arst_ToolCalls : Z;
  arst_TokensUsed : Z;
  arst_Cost : string;
  arst_Model : string;
  arst_TraceID : string;
  arst_Outcome : option AgentRunOutcomeStatus;
  arst_Conditions : list Condition;
}.
#[export] Instance AgentRunStatus_eq_dec : EqDecision AgentRunStatus.
Proof. solve_decision. Defined.
#[export] Instance AgentRunStatus_fields : Fields AgentRunStatus := λ r,
  mkAgentRunStatus (arst_Phase r) (arst_Mode r) (arst_StartTime r) (arst_CompletionTime r)
    (arst_JobName r) (arst_Output r) (arst_ToolCalls r) (arst_TokensUsed r) (arst_Cost r)
    (arst_Model r) (arst_TraceID r) (arst_Outcome r) (arst_Conditions r).

Record AgentRun := mkAgentRun {
  ar_Meta : ObjectMeta;
  ar_Spec : AgentRunSpec;
  ar_Status : AgentRunStatus;
}.
#[export] Instance AgentRun_eq_dec : EqDecision AgentRun.
Proof. solve_decision. Defined.
#[export] Instance AgentRun_fields : Fields AgentRun := λ r,
  mkAgentRun (ar_Meta r) (ar_Spec r) (ar_Status r).

(** ** integration_types.go *)

Notation IntegrationKind := string (only parsing).
Definition IntegrationKindGitHubRepo : IntegrationKind := "github-repo".
Definition IntegrationKindGitHubOrg : IntegrationKind := "github-org".
Definition IntegrationKindGitLabProject : IntegrationKind := "gitlab-project".
Definition IntegrationKindGitLabGroup : IntegrationKind := "gitlab-group".
Definition IntegrationKindGitRepo : IntegrationKind := "git-repo".
Definition IntegrationKindS3Bucket : IntegrationKind := "s3-bucket".
Definition IntegrationKindDocumentation : IntegrationKind := "documentation".
Notation IntegrationPhase := string (only parsing).
Definition IntegrationPhasePending : IntegrationPhase := "Pending".
Definition IntegrationPhaseReady : IntegrationPhase := "Ready".
Definition IntegrationPhaseFailed : IntegrationPhase := "Failed".
Definition IntegrationConditionReady : string := "Ready".
Definition IntegrationConditionInUse : string := "InUse".
Definition IntegrationFinalizer : string := "agents.agentops.io/integration-protection".

Record IntegrationTriggerGit := mkIntegrationTriggerGit {
  itg_Branch : string;
  itg_BaseBranch : string;
}.
#[export] Instance IntegrationTriggerGit_eq_dec : EqDecision IntegrationTriggerGit.
Proof. solve_decision. Defined.

Record IntegrationTrigger := mkIntegrationTrigger {
  itr_On : string;
  itr_Actions : list string;
  itr_Labels : list string;
  itr_AgentRef : string;
  itr_Prompt : string;
  itr_Git : option IntegrationTriggerGit;
}.
#[export] Instance IntegrationTrigger_eq_dec : EqDecision IntegrationTrigger.
Proof. solve_decision. Defined.

Record GitHubResourceConfig := mkGitHubResourceConfig {
  ghr_Owner : string;
  ghr_Repo : string;
  ghr_DefaultBranch : string;
  ghr_APIURL : string;
}.
#[export] Instance GitHubResourceConfig_eq_dec : EqDecision GitHubResourceConfig.
Proof. solve_decision. Defined.

Record GitHubOrgResourceConfig := mkGitHubOrgResourceConfig {
  gho_Org : string;
  gho_RepoFilter : list string;
  gho_APIURL : string;
}.
#[export] Instance GitHubOrgResourceConfig_eq_dec : EqDecision GitHubOrgResourceConfig.
Proof. solve_decision. Defined.

Record GitLabResourceConfig := mkGitLabResourceConfig {
  glr_BaseURL : string;
  glr_Project : string;
  glr_DefaultBranch : string;
}.
#[export] Instance GitLabResourceConfig_eq_dec : EqDecision GitLabResourceConfig.
Proof. solve_decision. Defined.

Record GitLabGroupResourceConfig := mkGitLabGroupResourceConfig {
  glg_BaseURL : string;
  glg_Group : string;
  glg_Projects : list string;
  glg_ReadOnly : bool;
}.
#[export] Instance GitLabGroupResourceConfig_eq_dec : EqDecision GitLabGroupResourceConfig.
Proof. solve_decision. Defined.

Record GitResourceConfig := mkGitResourceConfig {
  gr_URL : string;
  gr_Branch : string;
  gr_SSHKeySecret : option SecretKeyRef;
}.
#[export] Instance GitResourceConfig_eq_dec : EqDecision GitResourceConfig.
Proof. solve_decision. Defined.

Record S3ResourceConfig := mkS3ResourceConfig {
  s3_Bucket : string;
  s3_Region : string;
  s3_Endpoint : string;
  s3_Prefix : string;
}.
#[export] Instance S3ResourceConfig_eq_dec : EqDecision S3ResourceConfig.
Proof. solve_decision. Defined.

Record DocumentationResourceConfig := mkDocumentationResourceConfig {
  doc_URLs : list string;
  doc_ConfigMapRef : option SecretKeyRef;
}.
#[export] Instance DocumentationResourceConfig_eq_dec : EqDecision DocumentationResourceConfig.
Proof. solve_decision. Defined.

Record IntegrationSpec := mkIntegrationSpec {
  is_Kind : IntegrationKind;
  is_DisplayName : string;
  is_Description : string;
  is_Credentials : option SecretKeyRef;
  is_GitHub : option GitHubResourceConfig;
  is_GitHubOrg : option GitHubOrgResourceConfig;
  is_GitLab : option GitLabResourceConfig;
  is_GitLabGroup : option GitLabGroupResourceConfig;
  is_Git : option GitResourceConfig;
  is_S3 : option S3ResourceConfig;
  is_Documentation : option DocumentationResourceConfig;
  is_Triggers : list IntegrationTrigger;
}.
#[export] Instance IntegrationSpec_eq_dec : EqDecision IntegrationSpec.
Proof. solve_decision. Defined.

Record IntegrationStatus := mkIntegrationStatus {
  ist_Phase : IntegrationPhase;
  ist_Conditions : list Condition;
}.
#[export] Instance IntegrationStatus_eq_dec : EqDecision IntegrationStatus.
Proof. solve_decision. Defined.
#[export] Instance IntegrationStatus_fields : Fields IntegrationStatus := λ r,
  mkIntegrationStatus (ist_Phase r) (ist_Conditions r).

Record Integration := mkIntegration {
  ig_Meta : ObjectMeta;
  ig_Spec : IntegrationSpec;
  ig_Status : IntegrationStatus;
}.
#[export] Instance Integration_eq_dec : EqDecision Integration.
Proof. solve_decision. Defined.
#[export] Instance Integration_fields : Fields Integration := λ r,
  mkIntegration (ig_Meta r) (ig_Spec r) (ig_Status r).

(** ** shared_types.go *)

Record TelegramChannelConfig := mkTelegramChannelConfig {
  tc_BotTokenSecret : SecretKeyRef;
  tc_AllowedUsers : list string;
  tc_AllowedChats : list string;
}.
#[export] Instance TelegramChannelConfig_eq_dec : EqDecision TelegramChannelConfig.
Proof. solve_decision. Defined.

Record SlackChannelConfig := mkSlackChannelConfig {
  slc_BotTokenSecret : SecretKeyRef;
  slc_AllowedChannels : list string;
}.
#[export] Instance SlackChannelConfig_eq_dec : EqDecision SlackChannelConfig.
Proof. solve_decision. Defined.

Record DiscordChannelConfig := mkDiscordChannelConfig {
  dc_BotTokenSecret : SecretKeyRef;
  dc_AllowedChannels : list string;
}.
#[export] Instance DiscordChannelConfig_eq_dec : EqDecision DiscordChannelConfig.
Proof. solve_decision. Defined.

Record GitLabChannelConfig := mkGitLabChannelConfig {
  glc_Events : list string;
  glc_Actions : list string;
  glc_Labels : list string;
  glc_Secret : SecretKeyRef;
}.
#[export] Instance GitLabChannelConfig_eq_dec : EqDecision GitLabChannelConfig.
Proof. solve_decision. Defined.

Record GitLabLabelChannelConfig := mkGitLabLabelChannelConfig {
  gll_IntegrationRef : string;
  gll_Target : string;
  gll_Labels : list string;
  gll_State : string;
  gll_PollInterval : option Z;
}.
#[export] Instance GitLabLabelChannelConfig_eq_dec : EqDecision GitLabLabelChannelConfig.
Proof. solve_decision. Defined.

Record GitLabCommentChannelConfig := mkGitLabCommentChannelConfig {
  glcm_IntegrationRef : string;
  glcm_PlanningLabel : string;
  glcm_State : string;
  glcm_PollInterval : option Z;
}.
#[export] Instance GitLabCommentChannelConfig_eq_dec : EqDecision GitLabCommentChannelConfig.
Proof. solve_decision. Defined.

Record GitHubChannelConfig := mkGitHubChannelConfig {
  ghc_Events : list string;
  ghc_Actions : list string;
  ghc_Labels : list string;
  ghc_Secret : SecretKeyRef;
}.
#[export] Instance GitHubChannelConfig_eq_dec : EqDecision GitHubChannelConfig.
Proof. solve_decision. Defined.

Record WebhookChannelConfig := mkWebhookChannelConfig {
  whc_Secret : option SecretKeyRef;
}.
#[export] Instance WebhookChannelConfig_eq_dec : EqDecision WebhookChannelConfig.
Proof. solve_decision. Defined.

Record IngressTLS := mkIngressTLS {
  itls_ClusterIssuer : string;
  itls_Issuer : string;
}.
#[export] Instance IngressTLS_eq_dec : EqDecision IngressTLS.
Proof. solve_decision. Defined.

Record WebhookIngressConfig := mkWebhookIngressConfig {
  wi_Host : string;
  wi_Path : string;
  wi_IngressClassName : string;
  wi_TLS : option IngressTLS;
}.
#[export] Instance WebhookIngressConfig_eq_dec : EqDecision WebhookIngressConfig.
Proof. solve_decision. Defined.

(** ** channel_types.go *)

Notation ChannelType := string (only parsing).
Definition ChannelTypeTelegram : ChannelType := "telegram".
Definition ChannelTypeSlack : ChannelType := "slack".
Definition ChannelTypeDiscord : ChannelType := "discord".
Definition ChannelTypeGitLab : ChannelType := "gitlab".
Definition ChannelTypeGitHub : ChannelType := "github".
Definition ChannelTypeWebhook : ChannelType := "webhook".
Definition ChannelTypeGitLabLabel : ChannelType := "gitlab-label".
Definition ChannelTypeGitLabComment : ChannelType := "gitlab-comment".
Notation ChannelPhase := string (only parsing).
Definition ChannelPhasePending : ChannelPhase := "Pending".
Definition ChannelPhaseReady : ChannelPhase := "Ready".
Definition ChannelPhaseFailed : ChannelPhase := "Failed".
Definition ChannelConditionReady : string := "Ready".

Record ChannelSpec := mkChannelSpec {
  cs_Type : ChannelType;
  cs_AgentRef : string;
  cs_Telegram : option TelegramChannelConfig;
  cs_Slack : option SlackChannelConfig;
  cs_Discord : option DiscordChannelConfig;
  cs_GitLab : option GitLabChannelConfig;
  cs_GitLabLabel : option GitLabLabelChannelConfig;
  cs_GitLabComment : option GitLabCommentChannelConfig;
  cs_GitHub : option GitHubChannelConfig;
  cs_WebhookConfig : option WebhookChannelConfig;
  cs_Prompt : string;
  cs_Webhook : option WebhookIngressConfig;
  cs_Image : string;
  cs_ImagePullPolicy : string;
  cs_Replicas : option Z;
  cs_Resources : option ResourceRequirements;
  cs_Security : option SecurityOverrides;
}.
#[export] Instance ChannelSpec_eq_dec : EqDecision ChannelSpec.
Proof. solve_decision. Defined.
#[export] Instance ChannelSpec_fields : Fields ChannelSpec := λ r,
  mkChannelSpec (cs_Type r) (cs_AgentRef r) (cs_Telegram r) (cs_Slack r) (cs_Discord r)
    (cs_GitLab r) (cs_GitLabLabel r) (cs_GitLabComment r) (cs_GitHub r) (cs_WebhookConfig
    r) (cs_Prompt r) (cs_Webhook r) (cs_Image r) (cs_ImagePullPolicy r) (cs_Replicas r)
    (cs_Resources r) (cs_Security r).

Record ChannelStatus := mkChannelStatus {
  cst_Phase : ChannelPhase;
  cst_ServiceURL : string;
  cst_WebhookURL : string;
  cst_Conditions : list Condition;
}.
#[export] Instance ChannelStatus_eq_dec : EqDecision ChannelStatus.
Proof. solve_decision. Defined.
#[export] Instance ChannelStatus_fields : Fields ChannelStatus := λ r,
  mkChannelStatus (cst_Phase r) (cst_ServiceURL r) (cst_WebhookURL r) (cst_Conditions r).

Record Channel := mkChannel {
  chn_Meta : ObjectMeta;
  chn_Spec : ChannelSpec;
  chn_Status : ChannelStatus;
}.
#[export] Instance Channel_eq_dec : EqDecision Channel.
Proof. solve_decision. Defined.
#[export] Instance Channel_fields : Fields Channel := λ r,
  mkChannel (chn_Meta r) (chn_Spec r) (chn_Status r).

Definition ConditionSecurityPolicyViolations : string := "SecurityPolicyViolations".
(** ** Methods of the types *)

Definition RuntimeImage (a : Agent) : string :=
  if decide (as_Image (ag_Spec a) ≠ "") then as_Image (ag_Spec a) else DefaultFantasyImage.

(** [corev1.PullIfNotPresent] *)
Definition PullIfNotPresent : string := "IfNotPresent".

Definition RuntimeImagePullPolicy (a : Agent) : string :=
  if decide (as_ImagePullPolicy (ag_Spec a) ≠ "") then as_ImagePullPolicy (ag_Spec a)
  else PullIfNotPresent.

Definition BuiltinToolCount (a : Agent) : Z := Z.of_nat (length (elems (as_BuiltinTools (ag_Spec a)))).

Definition IsEventType (t : ChannelType) : bool :=
  bool_decide (t = ChannelTypeGitLab) || bool_decide (t = ChannelTypeGitHub)
  || bool_decide (t = ChannelTypeWebhook) || bool_decide (t = ChannelTypeGitLabLabel)
  || bool_decide (t = ChannelTypeGitLabComment).

Definition IsPollType (t : ChannelType) : bool :=
  bool_decide (t = ChannelTypeGitLabLabel) || bool_decide (t = ChannelTypeGitLabComment).

(** ** Zero values: what [T{}] is in Go *)

Definition zeroMeta : ObjectMeta := mkMeta "" "" ∅ ∅ [] 0 0.
Definition zeroAgentSpec : AgentSpec :=
  mkAgentSpec "" "" "" NilSlice None None None None None "" "" "" [] [] "" [] None [] [] false
    ∅ [] None None [] None "" "" None None "" "" None ∅ None.
Definition zeroAgentStatus : AgentStatus := mkAgentStatus "" "" 0 "" "" [].
Definition zeroAgent : Agent := mkAgent zeroMeta zeroAgentSpec zeroAgentStatus.
Definition zeroAgentRunSpec : AgentRunSpec := mkAgentRunSpec "" "" "" "" None None.
Definition zeroAgentRunStatus : AgentRunStatus :=
  mkAgentRunStatus "" "" None None "" "" 0 0 "" "" "" None [].
Definition zeroAgentRun : AgentRun := mkAgentRun zeroMeta zeroAgentRunSpec zeroAgentRunStatus.
Definition zeroProviderSpec : ProviderSpec := mkProviderSpec "" None None None None.
Definition zeroProviderStatus : ProviderStatus := mkProviderStatus "" "" [] 0.
Definition zeroProvider : Provider := mkProvider zeroMeta zeroProviderSpec zeroProviderStatus.
Definition zeroIntegrationSpec : IntegrationSpec :=
  mkIntegrationSpec "" "" "" None None None None None None None None [].
Definition zeroIntegrationStatus : IntegrationStatus := mkIntegrationStatus "" [].
Definition zeroIntegration : Integration :=
  mkIntegration zeroMeta zeroIntegrationSpec zeroIntegrationStatus.
Definition zeroChannelSpec : ChannelSpec :=
  mkChannelSpec "" "" None None None None None None None None "" None "" "" None None None.
Definition zeroChannelStatus : ChannelStatus := mkChannelStatus "" "" "" [].
Definition zeroChannel : Channel := mkChannel zeroMeta zeroChannelSpec zeroChannelStatus.
