(* ===== verification/Json.v ===== *)
(** * encoding/json as the source uses it

    - [json] is a document; a number keeps the text of its literal.
    - [parse] is [json.Unmarshal]'s scanner: one value, nothing after it but
      white space; [parse_first] is [Decoder.Decode]'s: the first value of the
      input, whatever follows.
    - [decode_struct] stores an object into a struct: each key of the object,
      in order, goes to the field of that name (by Unicode's simple folding, as
      Go does when no field matches exactly); a value of the wrong type leaves
      the field and makes the call return an error once the rest is stored.
    - [sprint] is [fmt.Sprint] of a value decoded into [interface{}].

    Nesting is limited ([maxNestingDepth]) and invalid UTF-8 in a string is
    replaced, as the scanner does. *)

From S2P Require Import Prelude GoLib.

Open Scope string_scope.
Open Scope list_scope.

Inductive json :=
| JNull
| JBool (b : bool)
| JNum (literal : string)
| JStr (s : string)
| JArr (l : list json)
| JObj (l : list (string * json)).

(** The brackets and braces open at once: what the scanner's stack holds. *)
Fixpoint depth (v : json) : N :=
  match v with
  | JArr l => N.succ (foldr (λ x, N.max (depth x)) 0%N l)
  | JObj l => N.succ (foldr (λ kv, N.max (depth (snd kv))) 0%N l)
  | _ => 0%N
  end.
Definition maxNestingDepth : N := 10000.

(** ** unicode/utf8 *)

Module Utf8.

Notation bytes := (list ascii).

Definition between (lo hi : nat) (a : ascii) : bool := bool_decide (lo ≤ nat_of_ascii a ≤ hi)%nat.
Definition continues : ascii → bool := between 128 191.

(** The first two bytes of a rune of three, and of four. *)
Definition starts3 (a b : ascii) : bool :=
  (between 224 224 a && between 160 191 b) || (between 225 236 a && continues b)
  || (between 237 237 a && between 128 159 b) || (between 238 239 a && continues b).
Definition starts4 (a b : ascii) : bool :=
  (between 240 240 a && between 144 191 b) || (between 241 243 a && continues b)
  || (between 244 244 a && between 128 143 b).

(** The length of the first rune, 0 when it is not valid. *)
Definition rune_len (l : bytes) : nat :=
  match l with
  | [] => 0
  | a :: r => if between 0 127 a then 1 else
      match r with
      | b :: c :: d :: _ =>
          if between 194 223 a && continues b then 2
          else if starts3 a b && continues c then 3
          else if starts4 a b && continues c && continues d then 4 else 0
      | [b; c] =>
          if between 194 223 a && continues b then 2
          else if starts3 a b && continues c then 3 else 0
      | [b] => if between 194 223 a && continues b then 2 else 0
      | [] => 0
      end
  end.

(** The bytes of valid runes, [None] for each byte that belongs to none; [n] bytes of the
    rune at hand are still to come. *)
Fixpoint runes (n : nat) (l : bytes) : list (option ascii) :=
  match l with
  | [] => []
  | a :: l' =>
      match n with
      | S n => Some a :: runes n l'
      | O => match rune_len l with O => None :: runes 0 l' | S n => Some a :: runes n l' end
      end
  end.

(** Every invalid byte becomes U+FFFD. *)
Definition replacement : bytes := ascii_of_nat <$> [239; 191; 189].
Definition clean (l : bytes) : bytes :=
  flat_map (λ o, match o with Some a => [a] | None => replacement end) (runes 0 l).

Definition Valid (s : string) : Prop := runes 0 (GoStrings.chars s) = Some <$> GoStrings.chars s.
#[export] Instance Valid_dec s : Decision (Valid s).
Proof. unfold Valid. apply _. Defined.

Lemma clean_valid s : Valid s → clean (list_ascii_of_string s) = list_ascii_of_string s.
Proof.
  unfold clean, Valid, GoStrings.chars. intros ->. generalize (list_ascii_of_string s). intros l.
  induction l as [|a l IH]; [done|]. cbn in *. by rewrite IH.
Qed.

End Utf8.

Module JsonParser.

Notation bytes := (list ascii).

Definition is_ws (a : ascii) : bool :=
  bool_decide (a = " "%char) || bool_decide (a = ascii_of_nat 9)
  || bool_decide (a = ascii_of_nat 10) || bool_decide (a = ascii_of_nat 13).

Fixpoint skip_ws (l : bytes) : bytes :=
  match l with a :: l' => if is_ws a then skip_ws l' else l | [] => [] end.

Definition is_digit (a : ascii) : bool := bool_decide (48 ≤ nat_of_ascii a ≤ 57)%nat.

Fixpoint digits (l : bytes) : bytes * bytes :=
  match l with
  | a :: l' => if is_digit a then let '(d, r) := digits l' in (a :: d, r) else ([], l)
  | [] => ([], [])
  end.

(** The number grammar of RFC 8259. *)
Definition int_part (l : bytes) : option (bytes * bytes) :=
  match l with
  | a :: l' =>
      if bool_decide (a = "0"%char) then Some ([a], l')
      else if is_digit a then Some (digits l) else None
  | [] => None
  end.

Definition frac_part (l : bytes) : option (bytes * bytes) :=
  match l with
  | a :: l' =>
      if bool_decide (a = "."%char) then
        match digits l' with ([], _) => None | (d, r) => Some (a :: d, r) end
      else Some ([], l)
  | [] => Some ([], [])
  end.

Definition exp_part (l : bytes) : option (bytes * bytes) :=
  match l with
  | a :: l' =>
      if bool_decide (a = "e"%char ∨ a = "E"%char) then
        let '(sg, l'') := match l' with
          | b :: r => if bool_decide (b = "+"%char ∨ b = "-"%char) then ([b], r) else ([], l')
          | [] => ([], [])
          end in
        match digits l'' with ([], _) => None | (d, r) => Some (a :: sg ++ d, r)%list end
      else Some ([], l)
  | [] => Some ([], [])
  end.

Definition number (l : bytes) : option (json * bytes) :=
  let '(sg, l0) := match l with
    | a :: r => if bool_decide (a = "-"%char) then ([a], r) else ([], l)
    | [] => ([], [])
    end in
  '(i, l1) ← int_part l0;
  '(f, l2) ← frac_part l1;
  '(e, l3) ← exp_part l2;
  Some (JNum (string_of_list_ascii (sg ++ i ++ f ++ e)%list), l3).

Definition hex_val (a : ascii) : option N :=
  let n := nat_of_ascii a in
  if decide (48 ≤ n ≤ 57)%nat then Some (N.of_nat (n - 48))
  else if decide (97 ≤ n ≤ 102)%nat then Some (N.of_nat (n - 87))
  else if decide (65 ≤ n ≤ 70)%nat then Some (N.of_nat (n - 55))
  else None.

Definition hex4 (l : bytes) : option (N * bytes) :=
  match l with
  | a :: b :: c :: d :: r =>
      x ← hex_val a; y ← hex_val b; z ← hex_val c; w ← hex_val d;
      Some (((x * 16 + y) * 16 + z) * 16 + w, r)%N
  | _ => None
  end.

Definition byte (n : N) : ascii := ascii_of_N n.

Definition utf8 (c : N) : bytes :=
  if decide (c < 128)%N then [byte c]
  else if decide (c < 2048)%N then [byte (192 + c / 64); byte (128 + c mod 64)]%N
  else if decide (c < 65536)%N then
    [byte (224 + c / 4096); byte (128 + c / 64 mod 64); byte (128 + c mod 64)]%N
  else [byte (240 + c / 262144); byte (128 + c / 4096 mod 64);
        byte (128 + c / 64 mod 64); byte (128 + c mod 64)]%N.

Definition surrogate (c : N) : bool := bool_decide (55296 ≤ c < 57344)%N.

(** The code point of a [\u] escape: a surrogate pair is joined, a lone
    surrogate is U+FFFD. *)
Definition unicode_escape (l : bytes) : option (bytes * bytes) :=
  '(c, r) ← hex4 l;
  if surrogate c then
    match r with
    | b1 :: b2 :: r' =>
        if decide (b1 = ascii_of_nat 92 ∧ b2 = "u"%char) then
          match hex4 r' with
          | None => None
          | Some (c2, r2) =>
              if decide (55296 ≤ c < 56320 ∧ 56320 ≤ c2 < 57344)%N
              then Some (utf8 (65536 + (c - 55296) * 1024 + (c2 - 56320))%N, r2)
              else Some (utf8 65533, r)
          end
        else Some (utf8 65533, r)
    | _ => Some (utf8 65533, r)
    end
  else Some (utf8 c, r).

Definition simple_escape (a : ascii) : option ascii :=
  let n := nat_of_ascii a in
  if decide (n = 34 ∨ n = 92 ∨ n = 47)%nat then Some a
  else if decide (n = 98)%nat then Some (ascii_of_nat 8)
  else if decide (n = 102)%nat then Some (ascii_of_nat 12)
  else if decide (n = 110)%nat then Some (ascii_of_nat 10)
  else if decide (n = 114)%nat then Some (ascii_of_nat 13)
  else if decide (n = 116)%nat then Some (ascii_of_nat 9)
  else None.

(** The body of a string after its opening quote. *)
Fixpoint string_body (fuel : nat) (l : bytes) : option (bytes * bytes) :=
  match fuel with
  | O => None
  | S fuel =>
      match l with
      | [] => None
      | a :: r =>
          if decide (nat_of_ascii a = 34)%nat then Some ([], r)
          else if decide (nat_of_ascii a < 32)%nat then None
          else if decide (nat_of_ascii a = 92)%nat then
            match r with
            | b :: r' =>
                if decide (b = "u"%char) then
                  '(cs, r2) ← unicode_escape r';
                  '(s, r3) ← string_body fuel r2; Some (cs ++ s, r3)%list
                else
                  c ← simple_escape b;
                  '(s, r3) ← string_body fuel r'; Some (c :: s, r3)
            | [] => None
            end
          else '(s, r3) ← string_body fuel r; Some (a :: s, r3)
      end
  end.

Fixpoint literal (w : bytes) (l : bytes) : option bytes :=
  match w, l with
  | [], _ => Some l
  | a :: w', b :: l' => if decide (a = b) then literal w' l' else None
  | _, [] => None
  end.

Definition word (s : string) : bytes := list_ascii_of_string s.

Fixpoint value (fuel : nat) (l : bytes) : option (json * bytes) :=
  match fuel with
  | O => None
  | S fuel =>
      match skip_ws l with
      | [] => None
      | a :: r =>
          if decide (nat_of_ascii a = 34)%nat then
            '(s, r') ← string_body (S (length r)) r; Some (JStr (string_of_list_ascii (Utf8.clean s)), r')
          else if decide (a = "{"%char) then
            match skip_ws r with
            | b :: r' => if decide (b = "}"%char) then Some (JObj [], r')
                         else '(ms, r2) ← members fuel r; Some (JObj ms, r2)
            | [] => None
            end
          else if decide (a = "["%char) then
            match skip_ws r with
            | b :: r' => if decide (b = "]"%char) then Some (JArr [], r')
                         else '(es, r2) ← elements fuel r; Some (JArr es, r2)
            | [] => None
            end
          else if decide (a = "t"%char) then r' ← literal (word "rue") r; Some (JBool true, r')
          else if decide (a = "f"%char) then r' ← literal (word "alse") r; Some (JBool false, r')
          else if decide (a = "n"%char) then r' ← literal (word "ull") r; Some (JNull, r')
          else number (a :: r)
      end
  end
with members (fuel : nat) (l : bytes) : option (list (string * json) * bytes) :=
  match fuel with
  | O => None
  | S fuel =>
      match skip_ws l with
      | a :: r =>
          if decide (nat_of_ascii a = 34)%nat then
            '(k, r1) ← string_body (S (length r)) r;
            match skip_ws r1 with
            | c :: r2 =>
                if decide (c = ":"%char) then
                  '(v, r3) ← value fuel r2;
                  match skip_ws r3 with
                  | d :: r4 =>
                      if decide (d = ","%char) then
                        '(ms, r5) ← members fuel r4;
                        Some ((string_of_list_ascii (Utf8.clean k), v) :: ms, r5)
                      else if decide (d = "}"%char) then
                        Some ([(string_of_list_ascii (Utf8.clean k), v)], r4)
                      else None
                  | [] => None
                  end
                else None
            | [] => None
            end
          else None
      | [] => None
      end
  end
with elements (fuel : nat) (l : bytes) : option (list json * bytes) :=
  match fuel with
  | O => None
  | S fuel =>
      '(v, r1) ← value fuel l;
      match skip_ws r1 with
      | d :: r2 =>
          if decide (d = ","%char) then
            '(es, r3) ← elements fuel r2; Some (v :: es, r3)
          else if decide (d = "]"%char) then Some ([v], r2)
          else None
      | [] => None
      end
  end.

(** Between two fuel steps at least one byte is read, or an [elements] step
    is followed by a [value] step: twice the length is enough. *)
Definition fuel_for (l : bytes) : nat := S (S (2 * length l)).

End JsonParser.

(** The scanner gives up where the nesting gets too deep, whatever follows. *)
Definition shallow (v : json) : option json := if decide (depth v ≤ maxNestingDepth)%N then Some v else None.

(** [Decoder.Decode]: the first value of the stream. *)
Definition parse_first (s : string) : option json :=
  let l := list_ascii_of_string s in
  '(v, _) ← JsonParser.value (JsonParser.fuel_for l) l; shallow v.

(** [json.Unmarshal]'s check of the whole input. *)
Definition parse (s : string) : option json :=
  let l := list_ascii_of_string s in
  '(v, r) ← JsonParser.value (JsonParser.fuel_for l) l;
  match JsonParser.skip_ws r with [] => shallow v | _ => None end.

(** ** Storing into Go values *)

(** [foldName] of a key, as far as an ASCII name can match it: besides the ASCII letters,
    U+017F folds to s and U+212A to k. *)
Fixpoint fold_name (s : string) : string :=
  match s with
  | "" => ""
  | String a s' =>
      match s' with
      | String b (String c s3 as s2) =>
          if decide (nat_of_ascii a = 197 ∧ nat_of_ascii b = 191)%nat then String "s" (fold_name s2)
          else if decide (nat_of_ascii a = 226 ∧ nat_of_ascii b = 132 ∧ nat_of_ascii c = 170)%nat
          then String "k" (fold_name s3)
          else String (GoStrings.lower a) (fold_name s')
      | String b "" =>
          if decide (nat_of_ascii a = 197 ∧ nat_of_ascii b = 191)%nat then "s"
          else String (GoStrings.lower a) (fold_name s')
      | "" => String (GoStrings.lower a) ""
      end
  end.

(** Go's match of an object key with a field name, for ASCII names. *)
Definition field_is (name key : string) : bool :=
  bool_decide (fold_name key = GoStrings.ToLower name).

(** A field of the struct: its JSON name and how a value is stored; [None] is
    a value of the wrong type, which leaves the struct as it is. *)
Definition Field (S : Type) : Type := string * (json → S → option S).

Definition store_member {S} (fields : list (Field S)) (kv : string * json) (st : S * bool)
  : S * bool :=
  match find (λ f, field_is (fst f) (fst kv)) fields with
  | None => st
  | Some f => match snd f (snd kv) (fst st) with
              | Some s' => (s', snd st)
              | None => (fst st, true)
              end
  end.

(** The struct after decoding, and whether an error is returned. *)
Definition decode_struct {S} (fields : list (Field S)) (init : S) (v : json) : S * bool :=
  match v with
  | JObj ms => fold_left (λ st kv, store_member fields kv st) ms (init, false)
  | JNull => (init, false)
  | _ => (init, true)
  end.

Definition store_string {S} (f : S → string → S) (v : json) (s : S) : option S :=
  match v with JStr x => Some (f s x) | JNull => Some s | _ => None end.
Definition store_bool {S} (f : S → bool → S) (v : json) (s : S) : option S :=
  match v with JBool x => Some (f s x) | JNull => Some s | _ => None end.

(** [strconv.ParseInt(literal, 10, 64)] on a number literal. *)
Fixpoint dec_digits (acc : Z) (l : list ascii) : option Z :=
  match l with
  | [] => Some acc
  | a :: l' => match GoTime.digit a with
               | Some v => dec_digits (acc * 10 + v)%Z l' | None => None end
  end.
Definition parse_int (lit : string) : option Z :=
  let z := match list_ascii_of_string lit with
    | [] => None
    | a :: l => if decide (a = "-"%char) then Z.opp <$> dec_digits 0 l else dec_digits 0 (a :: l)
    end in
  n ← z;
  if decide (- 9223372036854775808 ≤ n ≤ 9223372036854775807)%Z then Some n else None.

Definition store_int {S} (f : S → Z → S) (v : json) (s : S) : option S :=
  match v with JNum lit => f s <$> parse_int lit | JNull => Some s | _ => None end.

(** ** [fmt.Sprint] of an [interface{}] value

    [fmt_float] is the float64 a number literal denotes, printed as [%v]
    prints it. *)
Section Sprint.
Variable fmt_float : string → string.

Definition sorted_keys (l : list (string * string)) : list (string * string) :=
  merge_sort (λ x y, String.le (fst x) (fst y)) l.

(** An object becomes a map: a repeated key keeps its last value. *)
Fixpoint last_wins (l : list (string * string)) : list (string * string) :=
  match l with
  | [] => []
  | kv :: l' => if bool_decide (fst kv ∈ fst <$> l') then last_wins l' else kv :: last_wins l'
  end.

Fixpoint sprint (v : json) : string :=
  match v with
  | JNull => "<nil>"
  | JBool true => "true"
  | JBool false => "false"
  | JNum lit => fmt_float lit
  | JStr s => s
  | JArr l => "[" +:+ GoStrings.Join (map sprint l) " " +:+ "]"
  | JObj l =>
      "map[" +:+
        GoStrings.Join
          (map (λ kv, fst kv +:+ ":" +:+ snd kv)
            (sorted_keys (last_wins (map (λ kv, (fst kv, sprint (snd kv))) l)))) " "
        +:+ "]"
  end.
End Sprint.

