(* ===== verification/JsonEncode.v ===== *)
(** * json.MarshalIndent, and that Unmarshal reads it back

    [MarshalIndent] renders a document the way [json.MarshalIndent(v, "", "  ")]
    does: two spaces per level, Go's string escapes (HTML characters and
    U+2028/U+2029 included).  [parse_MarshalIndent] is the round trip with the
    scanner of Json.v, at the fuel [parse] starts with. *)

From S2P Require Import Prelude GoLib Json.
Import JsonParser.

Open Scope string_scope.
Open Scope list_scope.

Notation bytes := (list ascii).

(** ** Strings *)

Definition hex_digit (n : nat) : ascii :=
  ascii_of_nat (if decide (n < 10)%nat then 48 + n else 87 + n).

Definition esc (a : ascii) : bytes :=
  let n := nat_of_ascii a in
  let bs := ascii_of_nat 92 in
  if decide (n = 34 ∨ n = 92)%nat then [bs; a]
  else if decide (n = 8)%nat then [bs; "b"%char]
  else if decide (n = 12)%nat then [bs; "f"%char]
  else if decide (n = 10)%nat then [bs; "n"%char]
  else if decide (n = 13)%nat then [bs; "r"%char]
  else if decide (n = 9)%nat then [bs; "t"%char]
  else if decide (n < 32 ∨ n = 60 ∨ n = 62 ∨ n = 38)%nat then
    [bs; "u"%char; "0"%char; "0"%char; hex_digit (n / 16); hex_digit (n mod 16)]
  else [a].

(** The line and paragraph separators U+2028 and U+2029. *)
Definition line_separator (a b c : ascii) : bool :=
  bool_decide (nat_of_ascii a = 226 ∧ nat_of_ascii b = 128
               ∧ (nat_of_ascii c = 168 ∨ nat_of_ascii c = 169))%nat.

(** The text of a string of valid UTF-8, without its quotes. *)
Fixpoint quote_body (l : bytes) : bytes :=
  match l with
  | [] => []
  | a :: l' =>
      match l' with
      | b :: (c :: r) =>
          if line_separator a b c then
            [ascii_of_nat 92; "u"%char; "2"%char; "0"%char; "2"%char;
             hex_digit (nat_of_ascii c mod 16)] ++ quote_body r
          else esc a ++ quote_body l'
      | _ => esc a ++ quote_body l'
      end
  end.

(** The same for any string: an invalid byte is written as an escape of U+FFFD. *)
Fixpoint quote_runes (l : list (option ascii)) : bytes :=
  match l with
  | [] => []
  | None :: l' => [ascii_of_nat 92; "u"%char; "f"%char; "f"%char; "f"%char; "d"%char] ++ quote_runes l'
  | Some a :: l' =>
      match l' with
      | Some b :: Some c :: r =>
          if line_separator a b c then
            [ascii_of_nat 92; "u"%char; "2"%char; "0"%char; "2"%char;
             hex_digit (nat_of_ascii c mod 16)] ++ quote_runes r
          else esc a ++ quote_runes l'
      | _ => esc a ++ quote_runes l'
      end
  end.

Definition dquote_byte : ascii := ascii_of_nat 34.
Definition quote (s : string) : bytes :=
  dquote_byte :: quote_runes (Utf8.runes 0 (GoStrings.chars s)) ++ [dquote_byte].

Lemma quote_runes_valid l : quote_runes (Some <$> l) = quote_body l.
Proof.
  induction l as [l IH] using (induction_ltof1 _ length). unfold ltof in IH.
  destruct l as [|a [|b [|c r]]]; [done|cbn; by rewrite app_nil_r| |].
  - cbn in *. by rewrite !app_nil_r.
  - pose proof (IH r ltac:(cbn; lia)) as Hr. pose proof (IH (b :: c :: r) ltac:(cbn; lia)) as Hbc.
    cbn in *. destruct (line_separator a b c); [by rewrite Hr|]. by rewrite Hbc.
Qed.

Lemma quote_valid s : Utf8.Valid s →
  quote s = dquote_byte :: quote_body (list_ascii_of_string s) ++ [dquote_byte].
Proof. unfold quote, Utf8.Valid. intros ->. by rewrite quote_runes_valid. Qed.

(** ** Documents *)

Definition nl (ind : nat) : bytes := ascii_of_nat 10 :: replicate (2 * ind) " "%char.

Fixpoint print (ind : nat) (j : json) : bytes :=
  match j with
  | JNull => word "null"
  | JBool true => word "true"
  | JBool false => word "false"
  | JNum lit => word lit
  | JStr s => quote s
  | JArr [] => word "[]"
  | JArr l =>
      "["%char ::
      (fix elems l := match l with
        | [] => []
        | x :: l' => nl (S ind) ++ print (S ind) x ++
            match l' with [] => nl ind ++ ["]"%char] | _ => ","%char :: elems l' end
        end) l
  | JObj [] => word "{}"
  | JObj l =>
      "{"%char ::
      (fix mems l := match l with
        | [] => []
        | kv :: l' => nl (S ind) ++ quote (fst kv) ++ word ": " ++ print (S ind) (snd kv) ++
            match l' with [] => nl ind ++ ["}"%char] | _ => ","%char :: mems l' end
        end) l
  end.

(** The two lists of the printer, by name. *)
Fixpoint print_elems (ind : nat) (l : list json) : bytes :=
  match l with
  | [] => []
  | x :: l' => nl (S ind) ++ print (S ind) x ++
      match l' with [] => nl ind ++ ["]"%char] | _ => ","%char :: print_elems ind l' end
  end.
Fixpoint print_mems (ind : nat) (l : list (string * json)) : bytes :=
  match l with
  | [] => []
  | kv :: l' => nl (S ind) ++ quote (fst kv) ++ word ": " ++ print (S ind) (snd kv) ++
      match l' with [] => nl ind ++ ["}"%char] | _ => ","%char :: print_mems ind l' end
  end.

Definition MarshalIndent (j : json) : string := string_of_list_ascii (print 0 j).

(** ** Well-formed documents: every number is a JSON literal, every string valid UTF-8 *)

Definition number_ok (lit : string) : Prop := number (word lit) = Some (JNum lit, []).
#[export] Instance number_ok_dec lit : Decision (number_ok lit).
Proof.
  unfold number_ok. destruct (number (word lit)) as [[[| |lit'| | |] [|]]|];
    try (right; congruence).
  destruct (decide (lit' = lit)); [left; congruence | right; congruence].
Defined.

Fixpoint wf (j : json) : Prop :=
  match j with
  | JNum lit => number_ok lit
  | JStr s => Utf8.Valid s
  | JArr l => (fix go l := match l with [] => True | x :: l' => wf x ∧ go l' end) l
  | JObj l => (fix go l := match l with
      | [] => True | kv :: l' => (Utf8.Valid (fst kv) ∧ wf (snd kv)) ∧ go l' end) l
  | _ => True
  end.

Section JsonInd.
Context (P : json → Prop).
Context (Hnull : P JNull) (Hbool : ∀ b, P (JBool b)) (Hnum : ∀ n, P (JNum n))
  (Hstr : ∀ s, P (JStr s)) (Harr : ∀ l, Forall P l → P (JArr l))
  (Hobj : ∀ l, Forall (P ∘ snd) l → P (JObj l)).

Fixpoint json_nested_ind (j : json) : P j :=
  match j with
  | JNull => Hnull | JBool b => Hbool b | JNum n => Hnum n | JStr s => Hstr s
  | JArr l => Harr l ((fix go l := match l return Forall P l with
                        | [] => Forall_nil_2 _
                        | x :: l' => Forall_cons_2 _ _ _ (json_nested_ind x) (go l')
                        end) l)
  | JObj l => Hobj l ((fix go l := match l return Forall (P ∘ snd) l with
                        | [] => Forall_nil_2 _
                        | x :: l' => Forall_cons_2 (P ∘ snd) x l' (json_nested_ind (snd x)) (go l')
                        end) l)
  end.
End JsonInd.

Lemma wf_arr l : wf (JArr l) ↔ Forall wf l.
Proof.
  cbn. induction l as [|x l IH]; [split; auto|]. by rewrite IH, Forall_cons.
Qed.
Definition wf_member (kv : string * json) : Prop := Utf8.Valid (fst kv) ∧ wf (snd kv).
Lemma wf_obj l : wf (JObj l) ↔ Forall wf_member l.
Proof.
  cbn. induction l as [|x l IH]; [split; auto|]. by rewrite IH, Forall_cons.
Qed.

Lemma print_arr ind x l : print ind (JArr (x :: l)) = "["%char :: print_elems ind (x :: l).
Proof.
  revert x. induction l as [|y l IH]; intros x; [done|].
  specialize (IH y). apply (f_equal (@tail ascii)) in IH.
  cbn [print print_elems print_mems tail] in *. by rewrite <- IH.
Qed.
Lemma print_obj ind x l : print ind (JObj (x :: l)) = "{"%char :: print_mems ind (x :: l).
Proof.
  revert x. induction l as [|y l IH]; intros x; [done|].
  specialize (IH y). apply (f_equal (@tail ascii)) in IH.
  cbn [print print_elems print_mems tail] in *. by rewrite <- IH.
Qed.

(** ** Strings are read back *)

Lemma string_body_esc a fuel rest :
  string_body (S fuel) (esc a ++ rest) = ('(s, r) ← string_body fuel rest; Some (a :: s, r)).
Proof. destruct a as [[] [] [] [] [] [] [] []]; reflexivity. Qed.

Lemma string_body_separator a b c fuel rest :
  line_separator a b c = true →
  string_body (S fuel)
    ([ascii_of_nat 92; "u"%char; "2"%char; "0"%char; "2"%char;
      hex_digit (nat_of_ascii c mod 16)] ++ rest)
  = ('(s, r) ← string_body fuel rest; Some (a :: b :: c :: s, r)).
Proof.
  unfold line_separator. rewrite bool_decide_eq_true.
  intros (Ha & Hb & Hc).
  apply (f_equal ascii_of_nat) in Ha, Hb. rewrite ascii_nat_embedding in Ha, Hb.
  destruct Hc as [Hc|Hc]; apply (f_equal ascii_of_nat) in Hc;
    rewrite ascii_nat_embedding in Hc; subst; reflexivity.
Qed.

Lemma quote_body_cons a l :
  (∃ b c r, l = b :: c :: r ∧ line_separator a b c = true ∧
     quote_body (a :: l) =
       [ascii_of_nat 92; "u"%char; "2"%char; "0"%char; "2"%char;
        hex_digit (nat_of_ascii c mod 16)] ++ quote_body r)
  ∨ quote_body (a :: l) = esc a ++ quote_body l.
Proof.
  destruct l as [|b [|c r]]; [by right..|]. cbn [quote_body].
  destruct (line_separator a b c) eqn:E; [left; eauto 10 | by right].
Qed.

Lemma esc_nonempty a : (0 < length (esc a))%nat.
Proof. unfold esc. repeat case_decide; cbn; lia. Qed.

Lemma string_body_quote l fuel rest :
  (length (quote_body l) < fuel)%nat →
  string_body fuel (quote_body l ++ dquote_byte :: rest) = Some (l, rest).
Proof.
  assert (∀ n l fuel, (length l ≤ n)%nat → (length (quote_body l) < fuel)%nat →
    string_body fuel (quote_body l ++ dquote_byte :: rest) = Some (l, rest)) as Hgen; [clear l fuel|eauto].
  intros n. induction n as [|n IH]; intros l fuel Hl Hf.
  - destruct l; [|cbn in Hl; lia]. destruct fuel; [cbn in Hf; lia|]. reflexivity.
  - destruct l as [|a l]; [destruct fuel; [cbn in Hf; lia | reflexivity]|].
    destruct (quote_body_cons a l) as [(b & c & r & -> & Hsep & Hq)|Hq]; rewrite Hq in *.
    + destruct fuel as [|fuel]; [cbn in Hf; lia|].
      rewrite <- app_assoc, (string_body_separator a b c), IH; [done| | |done];
        cbn in Hl, Hf; lia.
    + pose proof (esc_nonempty a). rewrite length_app in Hf. cbn in Hl.
      destruct fuel as [|fuel]; [lia|].
      rewrite <- app_assoc, string_body_esc, IH; [done|lia|lia].
Qed.

(** ** Numbers are read back

    What may follow a number in a document. *)
Definition delimited (rest : bytes) : Prop :=
  match rest with
  | [] => True
  | a :: _ => is_digit a = false ∧ a ∉ ["."; "e"; "E"]%char
  end.

Lemma digits_app l d r rest :
  digits l = (d, r) → delimited rest → digits (l ++ rest) = (d, r ++ rest).
Proof.
  revert d r. induction l as [|a l IH]; intros d r; cbn.
  - intros [= <- <-] Hr. destruct rest as [|a rest]; [done|]. destruct Hr as [Ha _]. cbn. by rewrite Ha.
  - destruct (is_digit a); [|by intros [= <- <-]].
    destruct (digits l) as [d' r']. intros [= <- <-] Hr. by rewrite (IH d' r').
Qed.

Lemma int_part_app l d r rest :
  int_part l = Some (d, r) → delimited rest → int_part (l ++ rest) = Some (d, r ++ rest).
Proof.
  destruct l as [|a l]; [done|]. cbn [int_part app].
  case_bool_decide; [by intros [= <- <-]|].
  destruct (is_digit a); [|done]. intros [= H1] Hr. f_equal.
  rewrite app_comm_cons. by apply digits_app.
Qed.

Lemma frac_part_app l d r rest :
  frac_part l = Some (d, r) → delimited rest → frac_part (l ++ rest) = Some (d, r ++ rest).
Proof.
  destruct l as [|a l]; cbn [frac_part app].
  - intros [= <- <-] Hr. destruct rest as [|b rest]; [done|]. destruct Hr as [_ Hb]. cbn.
    rewrite bool_decide_eq_false_2; [done|]. intros ->. apply Hb. left.
  - case_bool_decide; [|by intros [= <- <-]].
    destruct (digits l) as [d' r'] eqn:E. intros Hd Hr. rewrite (digits_app _ _ _ _ E Hr).
    destruct d'; [done|]. by injection Hd as <- <-.
Qed.

Lemma exp_part_app l d r rest :
  exp_part l = Some (d, r) → delimited rest → exp_part (l ++ rest) = Some (d, r ++ rest).
Proof.
  destruct l as [|a l]; cbn [exp_part app].
  - intros [= <- <-] Hr. destruct rest as [|b rest]; [done|]. destruct Hr as [_ Hb]. cbn.
    rewrite bool_decide_eq_false_2; [done|]. intros [->| ->]; apply Hb; set_solver.
  - case_bool_decide as Ha; [|by intros [= <- <-]].
    destruct l as [|b l]; [done|]. cbn [app].
    case_bool_decide as Hb.
    + destruct (digits l) as [d' r'] eqn:E. intros Hd Hr. rewrite (digits_app _ _ _ _ E Hr).
      destruct d'; [done|]. by injection Hd as <- <-.
    + destruct (digits (b :: l)) as [d' r'] eqn:E. intros Hd Hr.
      rewrite app_comm_cons, (digits_app _ _ _ _ E Hr).
      destruct d'; [done|]. by injection Hd as <- <-.
Qed.

Lemma number_app l j r rest :
  number l = Some (j, r) → delimited rest → number (l ++ rest) = Some (j, r ++ rest).
Proof.
  unfold number. intros Hn Hr.
  destruct l as [|a l]; [done|]. cbn [app].
  case_bool_decide as Ha.
  all: destruct (int_part _) as [[i l1]|] eqn:E1; [|done]; cbn in Hn.
  all: destruct (frac_part _) as [[f l2]|] eqn:E2; [|done]; cbn in Hn.
  all: destruct (exp_part _) as [[e l3]|] eqn:E3; [|done]; cbn in Hn.
  all: injection Hn as <- <-; rewrite ?app_comm_cons.
  all: rewrite (int_part_app _ _ _ _ E1 Hr); cbn.
  all: rewrite (frac_part_app _ _ _ _ E2 Hr); cbn.
  all: by rewrite (exp_part_app _ _ _ _ E3 Hr).
Qed.

(** ** Documents are read back *)

Fixpoint need (j : json) : nat :=
  match j with
  | JArr l => S (list_sum (map (λ x, S (need x)) l))
  | JObj l => S (list_sum (map (λ kv, S (need (snd kv))) l))
  | _ => 1
  end.

Definition lead (a : ascii) : Prop := is_ws a = false ∧ a ≠ "]"%char ∧ a ≠ "}"%char.

Lemma number_lead a l j r :
  number (a :: l) = Some (j, r) → a = "-"%char ∨ is_digit a = true.
Proof.
  unfold number. case_bool_decide as Ha; [by left|].
  cbn [int_part]. case_bool_decide as H0; [subst; right; reflexivity|].
  destruct (is_digit a); [by right | done].
Qed.

Lemma digit_cases (P : ascii → Prop) a :
  (a = "-"%char ∨ is_digit a = true) →
  Forall P ["-"; "0"; "1"; "2"; "3"; "4"; "5"; "6"; "7"; "8"; "9"]%char → P a.
Proof.
  intros Ha HP. rewrite Forall_forall in HP. apply HP.
  destruct Ha as [->|Ha]; [by left|].
  destruct a as [[] [] [] [] [] [] [] []]; vm_compute in Ha; try discriminate Ha; clear;
    apply list_elem_of_In; cbn; tauto.
Qed.

Lemma print_lead ind j : wf j → ∃ a r, print ind j = a :: r ∧ lead a.
Proof.
  destruct j as [|[]|lit|s|[|x l]|[|x l]]; intros Hwf.
  1-3,5-9: by (rewrite ?print_arr, ?print_obj; eexists _, _; split; [reflexivity|]).
  cbn in *. unfold number_ok in Hwf. destruct (word lit) as [|a l]; [done|].
  exists a, l. split; [done|]. apply number_lead in Hwf.
  apply (digit_cases _ _ Hwf). repeat constructor; discriminate.
Qed.

Lemma skip_nl ind l : skip_ws (nl ind ++ l) = skip_ws l.
Proof. unfold nl. generalize (2 * ind)%nat as n. intros n. cbn. by induction n. Qed.

Lemma skip_lead a l : lead a → skip_ws (a :: l) = a :: l.
Proof. intros [Ha _]. cbn. by rewrite Ha. Qed.

Lemma skip_print ind j rest : wf j → skip_ws (print ind j ++ rest) = print ind j ++ rest.
Proof. intros (a & r & -> & Ha)%(print_lead ind). apply skip_lead, Ha. Qed.

Lemma delimited_nl ind l : delimited (nl ind ++ l).
Proof. split; [reflexivity|]. set_solver. Qed.

(** A value, after any white space. *)
Definition reads_back (j : json) : Prop :=
  ∀ ind fuel pre rest, wf j → (need j ≤ fuel)%nat → delimited rest →
    skip_ws pre = print ind j ++ rest → value fuel pre = Some (j, rest).

Lemma value_number lit : reads_back (JNum lit).
Proof.
  intros ind [|fuel] pre rest Hwf Hf Hr Hpre; [cbn in Hf; lia|].
  cbn in Hwf, Hpre. cbn [value]. rewrite Hpre. pose proof (number_app _ _ _ _ Hwf Hr) as Hn.
  unfold number_ok in Hwf. destruct (word lit) as [|a l]; [done|]. cbn [app] in *.
  apply number_lead in Hwf. rewrite Hn. revert Hwf. clear.
  intros Ha. apply (digit_cases (λ a, (if decide (nat_of_ascii a = 34)%nat then _ else _) = _) _ Ha).
  repeat constructor.
Qed.

Lemma value_string s : reads_back (JStr s).
Proof.
  intros ind [|fuel] pre rest Hv Hf Hr Hpre; [cbn in Hf; lia|]. change (Utf8.Valid s) in Hv.
  cbn [value]. rewrite Hpre. cbn [print]. rewrite (quote_valid s Hv). cbn [app]. rewrite decide_True by reflexivity.
  rewrite <- app_assoc. cbn [app]. rewrite string_body_quote.
  - cbn. rewrite (Utf8.clean_valid s Hv). by rewrite string_of_list_ascii_of_string.
  - rewrite length_app. lia.
Qed.

Lemma elements_print ind l : Forall reads_back l → Forall wf l → l ≠ [] →
  ∀ fuel rest, (list_sum (map (λ x, S (need x)) l) ≤ fuel)%nat →
  elements fuel (print_elems ind l ++ rest) = Some (l, rest).
Proof.
  induction l as [|x l IH]; [done|]. intros Hrb Hwf _ fuel rest Hf.
  inversion_clear Hrb as [|? ? Hx Hl]. inversion_clear Hwf as [|? ? Hwx Hwl].
  cbn in Hf. destruct fuel as [|fuel]; [lia|]. cbn [elements print_elems].
  rewrite <- !app_assoc.
  set (tail := match l with [] => _ | _ => _ end).
  assert (value fuel (nl (S ind) ++ print (S ind) x ++ tail ++ rest) = Some (x, tail ++ rest)) as ->.
  { apply (Hx (S ind)); [done|lia| |by rewrite skip_nl, skip_print].
    subst tail. destruct l; [rewrite <- app_assoc; apply delimited_nl|]. split; [done|set_solver]. }
  cbn [mbind option_bind]. subst tail. destruct l as [|y l].
  - by rewrite <- app_assoc, skip_nl.
  - cbn [app]. rewrite skip_lead by done. rewrite decide_True by done.
    by rewrite IH by (done || (cbn in *; lia)).
Qed.

Lemma members_print ind l : Forall (reads_back ∘ snd) l → Forall wf_member l → l ≠ [] →
  ∀ fuel rest, (list_sum (map (λ kv, S (need (snd kv))) l) ≤ fuel)%nat →
  members fuel (print_mems ind l ++ rest) = Some (l, rest).
Proof.
  induction l as [|[k v] l IH]; [done|]. intros Hrb Hwf _ fuel rest Hf.
  inversion_clear Hrb as [|? ? Hx Hl]. inversion_clear Hwf as [|? ? Hwx Hwl].
  cbn in Hf, Hx. destruct Hwx as [Hk Hwx]. cbn in Hk, Hwx.
  destruct fuel as [|fuel]; [lia|]. cbn [members print_mems fst snd].
  rewrite <- !app_assoc, skip_nl.
  set (tail := match l with [] => _ | _ => _ end). rewrite (quote_valid k Hk).
  cbn [app]. rewrite skip_lead by done. rewrite decide_True by reflexivity.
  rewrite <- app_assoc. cbn [app].
  rewrite string_body_quote by (rewrite length_app; lia).
  cbn [mbind option_bind app word list_ascii_of_string]. rewrite skip_lead by done.
  rewrite decide_True by done.
  assert (value fuel (" "%char :: print (S ind) v ++ tail ++ rest) = Some (v, tail ++ rest)) as ->.
  { apply (Hx (S ind)); [done|lia| |by cbn; rewrite skip_print].
    subst tail. destruct l; [rewrite <- app_assoc; apply delimited_nl|]. split; [done|set_solver]. }
  cbn [mbind option_bind]. rewrite (Utf8.clean_valid k Hk), string_of_list_ascii_of_string.
  subst tail. destruct l as [|y l].
  - by rewrite <- app_assoc, skip_nl.
  - cbn [app]. rewrite skip_lead by done. rewrite decide_True by done.
    by rewrite IH by (done || (cbn in *; lia)).
Qed.

Lemma print_reads_back j : reads_back j.
Proof.
  induction j as [|b|lit|s|l IH|l IH] using json_nested_ind.
  - intros ind [|fuel] pre rest _ Hf _ Hpre; [cbn in Hf; lia|]. cbn [value]. by rewrite Hpre.
  - intros ind [|fuel] pre rest _ Hf _ Hpre; [cbn in Hf; lia|]. cbn [value]. rewrite Hpre.
    by destruct b.
  - apply value_number.
  - apply value_string.
  - intros ind [|fuel] pre rest Hwf Hf Hr Hpre; [cbn in Hf; lia|]. cbn [value]. rewrite Hpre.
    destruct l as [|x l]; [done|]. rewrite print_arr. apply wf_arr in Hwf.
    cbn [app]. rewrite !decide_False, decide_True by done.
    pose proof (Forall_inv Hwf) as Hx. destruct (print_lead (S ind) x Hx) as (a & r & Hp & Ha).
    assert (∃ r', skip_ws (print_elems ind (x :: l) ++ rest) = a :: r') as [r' ->].
    { cbn [print_elems]. rewrite <- !app_assoc, skip_nl, skip_print, Hp by done. by eexists. }
    destruct Ha as (_ & Ha & _). rewrite decide_False by done.
    by rewrite elements_print by (done || (cbn in *; lia)).
  - intros ind [|fuel] pre rest Hwf Hf Hr Hpre; [cbn in Hf; lia|]. cbn [value]. rewrite Hpre.
    destruct l as [|x l]; [done|]. rewrite print_obj. apply wf_obj in Hwf.
    cbn [app]. rewrite decide_False, decide_True by done.
    assert (∃ r', skip_ws (print_mems ind (x :: l) ++ rest) = dquote_byte :: r') as [r' ->].
    { cbn [print_mems]. rewrite <- !app_assoc, skip_nl. cbn [quote app].
      rewrite skip_lead by done. by eexists. }
    rewrite decide_False by done.
    by rewrite members_print by (done || (cbn in *; lia)).
Qed.

(** The fuel [parse] starts with is enough for what the printer writes. *)
Lemma need_bound j ind : wf j → (need j ≤ 2 * length (print ind j))%nat.
Proof.
  revert ind. induction j as [|b|lit|s|l IH|l IH] using json_nested_ind; intros ind Hwf.
  1-2: try destruct b; cbn; lia.
  - destruct (print_lead ind _ Hwf) as (a & r & -> & _). cbn. lia.
  - cbn. lia.
  - destruct l as [|x l]; [cbn; lia|]. rewrite print_arr. apply wf_arr in Hwf.
    cut (list_sum (map (λ x, S (need x)) (x :: l)) ≤ 2 * length (print_elems ind (x :: l)))%nat;
      [cbn [need length]; lia|].
    generalize (x :: l), IH, Hwf. clear. intros l IH Hwf.
    induction l as [|x l IHl]; [done|].
    inversion_clear IH as [|? ? Hx Hl]. inversion_clear Hwf as [|? ? Hwx Hwl].
    specialize (Hx (S ind) Hwx). specialize (IHl Hl Hwl).
    destruct l; cbn [print_elems map list_sum foldr] in *; unfold nl in *;
      rewrite !length_app in *; cbn [length app] in *; rewrite ?length_app in *; lia.
  - destruct l as [|x l]; [cbn; lia|]. rewrite print_obj. apply wf_obj in Hwf.
    cut (list_sum (map (λ kv, S (need (snd kv))) (x :: l)) ≤ 2 * length (print_mems ind (x :: l)))%nat;
      [cbn [need length]; lia|].
    generalize (x :: l), IH, Hwf. clear. intros l IH Hwf.
    induction l as [|x l IHl]; [done|].
    inversion_clear IH as [|? ? Hx Hl]. inversion_clear Hwf as [|? ? Hwx Hwl].
    specialize (Hx (S ind) (proj2 Hwx)). specialize (IHl Hl Hwl).
    destruct l; cbn [print_mems map list_sum foldr] in *; unfold nl in *;
      rewrite !length_app in *; cbn [length app] in *; rewrite ?length_app in *; lia.
Qed.

Lemma parse_print j : wf j → (depth j ≤ maxNestingDepth)%N → parse (MarshalIndent j) = Some j.
Proof.
  intros Hwf Hd. unfold parse, MarshalIndent. rewrite list_ascii_of_string_of_list_ascii.
  rewrite (print_reads_back j 0 _ _ []); [|done| |done|].
  - cbn. unfold shallow. by rewrite decide_True.
  - unfold fuel_for. pose proof (need_bound j 0 Hwf). lia.
  - rewrite app_nil_r. rewrite <- (app_nil_r (print 0 j)) at 1. rewrite skip_print by done.
    by rewrite app_nil_r.
Qed.
