(* ===== verification/JsonCodec.v ===== *)
(** * Go values as JSON documents

    A [Codec] is what encoding/json does with a Go type: its encoding, how a
    document is stored over an existing value ([None]: an error is returned),
    the zero value and what [omitempty] omits.  [LawfulCodec] is that storing
    an encoding over the zero value gives the value back; it holds for the
    basic types, pointers, slices and string maps here and for every struct of
    the run configuration in ConfigMap.v.

    A member that is always written has a [GoSlice], whose nil is null; a list or
    a [gmap] stands for a slice or map under [omitempty], where nil and empty are
    left out alike.  A float64 is a rational whose text is the business of strconv
    ([FloatOps]).  [Shallow] bounds how deep the encodings of a type nest. *)

From Stdlib Require Import QArith.
From S2P Require Import Prelude GoLib Json JsonEncode.
Import JsonParser.

Open Scope string_scope.
Open Scope list_scope.

Class FloatOps := {
  format_float : Q → string;
  parse_float : string → option Q;
}.

Class Codec (A : Type) := {
  enc : A → json;
  dec : json → A → option A;
  zero : A;
  is_empty : A → bool;
  ok : A → Prop;
}.

Class LawfulCodec (A : Type) {C : Codec A} := {
  dec_enc (a : A) : ok a → dec (enc a) zero = Some a;
  enc_wf (a : A) : ok a → wf (enc a);
}.

(** A type no value of which is encoded as [null]. *)
Class NonNull (A : Type) {C : Codec A} := enc_not_null (a : A) : enc a ≠ JNull.

(** What [omitempty] leaves out is the zero value, so reading nothing gives it back. *)
Class OmitEmpty (A : Type) {C : Codec A} := empty_zero (a : A) : is_empty a = true → a = zero.

Class Shallow (A : Type) {C : Codec A} (n : N) := enc_depth (a : A) : (depth (enc a) ≤ n)%N.

(** ** Integers are written and read in decimal *)

Definition all_digits (l : bytes) : Prop := Forall (λ a, is_digit a = true) l.

Lemma pretty_char_digit n : (n < 10)%N →
  is_digit (pretty_N_char n) = true ∧ GoTime.digit (pretty_N_char n) = Some (Z.of_N n)
  ∧ (pretty_N_char n = "0"%char → n = 0%N).
Proof.
  intros Hn.
  assert (n = 0 ∨ n = 1 ∨ n = 2 ∨ n = 3 ∨ n = 4 ∨ n = 5 ∨ n = 6 ∨ n = 7 ∨ n = 8 ∨ n = 9)%N as Hc
    by lia.
  repeat destruct Hc as [->|Hc]; try subst n; (split; [reflexivity|]; split; [reflexivity|]);
    by try discriminate.
Qed.

Lemma dec_digits_app acc l1 l2 n :
  dec_digits acc l1 = Some n → dec_digits acc (l1 ++ l2) = dec_digits n l2.
Proof.
  revert acc. induction l1 as [|a l1 IH]; intros acc; cbn; [by intros [= ->]|].
  destruct (GoTime.digit a); [apply IH | done].
Qed.

(** What the digits of a positive number are. *)
Lemma pretty_digits x s : (0 < x)%N →
  ∃ a ds, word (pretty_N_go x s) = (a :: ds) ++ word s ∧ all_digits (a :: ds) ∧ a ≠ "0"%char
    ∧ dec_digits 0 (a :: ds) = Some (Z.of_N x).
Proof.
  revert s. induction (N.lt_wf_0 x) as [x _ IH]; intros s Hx.
  rewrite pretty_N_go_step by done.
  assert (x `mod` 10 < 10)%N as Hm by (apply N.mod_lt; lia).
  destruct (pretty_char_digit _ Hm) as (Hd & Hv & H0).
  pose proof (N.div_mod x 10 ltac:(lia)) as Hdm.
  destruct (decide (x / 10 = 0)%N) as [Hz|Hz].
  - rewrite Hz, pretty_N_go_0. exists (pretty_N_char (x `mod` 10)), []. split_and!.
    + done.
    + by repeat constructor.
    + intros ?%H0. lia.
    + cbn. rewrite Hv. f_equal. lia.
  - destruct (IH (x / 10)%N (N.div_lt x 10 Hx eq_refl)
                (String (pretty_N_char (x `mod` 10)) s) ltac:(lia)) as (a & ds & Hw & Had & Ha & Hn).
    exists a, (ds ++ [pretty_N_char (x `mod` 10)]). split_and!; [|rewrite app_comm_cons..| | ].
    + rewrite Hw. cbn. by rewrite <- app_assoc.
    + apply Forall_app. split; [done|]. by repeat constructor.
    + done.
    + rewrite app_comm_cons, (dec_digits_app _ _ _ _ Hn). cbn -[Z.mul]. rewrite Hv. f_equal. lia.
Qed.

Lemma digits_all l : all_digits l → digits l = (l, []).
Proof. induction 1 as [|a l Ha Hl IH]; [done|]. cbn. by rewrite Ha, IH. Qed.

Lemma number_digits a ds :
  all_digits (a :: ds) → a ≠ "0"%char →
  number (a :: ds) = Some (JNum (string_of_list_ascii (a :: ds)), []) ∧
  number ("-"%char :: a :: ds) = Some (JNum (String "-" (string_of_list_ascii (a :: ds))), []).
Proof.
  intros Hds Ha. unfold number.
  assert (is_digit a = true) as Hda by (by inversion Hds).
  assert (bool_decide (a = "-"%char) = false) as Hm.
  { apply bool_decide_eq_false. by intros ->. }
  assert (int_part (a :: ds) = Some (a :: ds, [])) as Hi.
  { unfold int_part. rewrite bool_decide_eq_false_2 by done.
    by rewrite Hda, digits_all. }
  rewrite Hm, bool_decide_eq_true_2 by done. rewrite Hi. cbn [mbind option_bind frac_part exp_part].
  by rewrite !app_nil_r.
Qed.

Lemma d_pos (x : positive) :
  ∃ a ds, word (pretty (N.pos x)) = a :: ds ∧ all_digits (a :: ds) ∧ a ≠ "0"%char
    ∧ dec_digits 0 (a :: ds) = Some (Z.pos x).
Proof.
  destruct (pretty_digits (N.pos x) "" ltac:(lia)) as (a & ds & Hw & H).
  exists a, ds. cbn in Hw. by rewrite app_nil_r in Hw.
Qed.

Lemma word_inv s l : word s = l → s = string_of_list_ascii l.
Proof. intros <-. symmetry. apply string_of_list_ascii_of_string. Qed.

Lemma number_ok_d z : number_ok (GoFmt.d z).
Proof.
  unfold number_ok, GoFmt.d. destruct z as [|x|x]; [reflexivity|..];
    destruct (d_pos x) as (a & ds & Hw & Had & Ha & _);
    pose proof (number_digits a ds Had Ha) as [Hn Hm].
  - change (pretty (Z.pos x)) with (pretty (N.pos x)). rewrite Hw, Hn. repeat f_equal.
    symmetry. by apply word_inv.
  - change (pretty (Z.neg x)) with (String "-" (pretty (N.pos x))).
    change (word (String "-" (pretty (N.pos x)))) with ("-"%char :: word (pretty (N.pos x))).
    rewrite Hw, Hm. repeat f_equal. symmetry. by apply word_inv.
Qed.

Definition int64 (z : Z) : Prop :=
  (- 9223372036854775808 ≤ z ≤ 9223372036854775807)%Z.

Lemma parse_int_d z : int64 z → parse_int (GoFmt.d z) = Some z.
Proof.
  unfold parse_int, int64, GoFmt.d. intros Hz. destruct z as [|x|x]; [done|..];
    destruct (d_pos x) as (a & ds & Hw & Had & Ha & Hv).
  - change (pretty (Z.pos x)) with (pretty (N.pos x)). unfold word in Hw. rewrite Hw.
    rewrite decide_False; [rewrite Hv; cbn; by rewrite decide_True|].
    intros ->. by inversion Had.
  - change (list_ascii_of_string (pretty (Z.neg x))) with ("-"%char :: word (pretty (N.pos x))).
    rewrite Hw, decide_True, Hv by done. cbn. by rewrite decide_True.
Qed.

(** ** The basic types *)

#[export] Instance string_codec : Codec string := {|
  enc := JStr;
  dec v old := match v with JStr s => Some s | JNull => Some old | _ => None end;
  zero := "";
  is_empty s := bool_decide (s = "");
  ok := Utf8.Valid;
|}.
#[export] Instance string_lawful : LawfulCodec string.
Proof. by split. Qed.
#[export] Instance string_omit : OmitEmpty string.
Proof. intros s H. by apply bool_decide_eq_true in H. Qed.
#[export] Instance string_shallow : Shallow string 0.
Proof. done. Qed.
#[export] Instance string_nonnull : NonNull string.
Proof. done. Qed.

#[export] Instance bool_codec : Codec bool := {|
  enc := JBool;
  dec v old := match v with JBool s => Some s | JNull => Some old | _ => None end;
  zero := false;
  is_empty b := negb b;
  ok _ := True;
|}.
#[export] Instance bool_lawful : LawfulCodec bool.
Proof. by split. Qed.
#[export] Instance bool_omit : OmitEmpty bool.
Proof. by intros []. Qed.
#[export] Instance bool_nonnull : NonNull bool.
Proof. done. Qed.
#[export] Instance bool_shallow : Shallow bool 0.
Proof. done. Qed.

(** int and int64. *)
#[export] Instance int_codec : Codec Z := {|
  enc z := JNum (GoFmt.d z);
  dec v old := match v with JNum lit => parse_int lit | JNull => Some old | _ => None end;
  zero := 0%Z;
  is_empty z := bool_decide (z = 0%Z);
  ok := int64;
|}.
#[export] Instance int_lawful : LawfulCodec Z.
Proof. split; [apply parse_int_d|intros z _; apply number_ok_d]. Qed.
#[export] Instance int_omit : OmitEmpty Z.
Proof. intros s H. by apply bool_decide_eq_true in H. Qed.
#[export] Instance int_nonnull : NonNull Z.
Proof. done. Qed.
#[export] Instance int_shallow : Shallow Z 0.
Proof. done. Qed.

#[export] Instance float_codec `{FloatOps} : Codec Q := {|
  enc q := JNum (format_float q);
  dec v old := match v with JNum lit => parse_float lit | JNull => Some old | _ => None end;
  zero := 0%Q;
  is_empty q := false;
  ok q := number_ok (format_float q) ∧ parse_float (format_float q) = Some q;
|}.
#[export] Instance float_lawful `{FloatOps} : LawfulCodec Q.
Proof. split; by intros q []. Qed.
#[export] Instance float_nonnull `{FloatOps} : NonNull Q.
Proof. done. Qed.
#[export] Instance float_shallow `{FloatOps} : Shallow Q 0.
Proof. done. Qed.

(** ** Pointers, slices and maps *)

#[export] Instance pointer_codec `{Codec A} : Codec (option A) := {|
  enc o := match o with None => JNull | Some a => enc a end;
  dec v old := match v with JNull => Some None | _ => Some <$> dec v (default zero old) end;
  zero := None;
  is_empty o := match o with None => true | Some _ => false end;
  ok o := match o with None => True | Some a => ok a end;
|}.
#[export] Instance pointer_lawful `{C : Codec A, !LawfulCodec A, !NonNull A} :
  LawfulCodec (option A).
Proof.
  split.
  - intros [a|] Ha; [|done]. change (ok a) in Ha. cbn. pose proof (enc_not_null a) as Hn.
    pose proof (dec_enc a Ha) as Hd. destruct (enc a); try done; by rewrite Hd.
  - intros [a|] Ha; [exact (enc_wf a Ha) | done].
Qed.

#[export] Instance pointer_omit `{C : Codec A} : OmitEmpty (option A).
Proof. by intros []. Qed.
#[export] Instance pointer_shallow `{C : Codec A, !Shallow A n} : Shallow (option A) n.
Proof. intros [a|]; cbn; [apply enc_depth|lia]. Qed.

(** The elements of an array. *)
Definition dec_elems `{Codec A} (l : list json) : option (list A) := mapM (λ v, dec v zero) l.

Lemma dec_elems_enc `{C : Codec A, !LawfulCodec A} (l : list A) : Forall ok l → dec_elems (map enc l) = Some l.
Proof. induction 1 as [|a l Ha Hl IH]; [done|]. unfold dec_elems in *. cbn. by rewrite dec_enc, IH. Qed.

Lemma wf_elems `{C : Codec A, !LawfulCodec A} (l : list A) : Forall ok l → wf (JArr (map enc l)).
Proof. intros Hl. apply wf_arr, Forall_fmap. eapply Forall_impl; [exact Hl|]. cbn. intros a. apply enc_wf. Qed.

Lemma depth_elems `{C : Codec A, !Shallow A n} (l : list A) : (depth (JArr (map enc l)) ≤ N.succ n)%N.
Proof.
  cbn. apply -> N.succ_le_mono. induction l as [|a l IH]; cbn; [lia|]. pose proof (enc_depth a). lia.
Qed.

#[export] Instance slice_codec `{Codec A} : Codec (GoSlice A) := {|
  enc s := match s with NilSlice => JNull | SliceOf l => JArr (map enc l) end;
  dec v old := match v with
               | JNull => Some NilSlice | JArr l => SliceOf <$> dec_elems l | _ => None end;
  zero := NilSlice;
  is_empty s := match elems s with [] => true | _ => false end;
  ok s := Forall ok (elems s);
|}.
#[export] Instance slice_lawful `{C : Codec A, !LawfulCodec A} : LawfulCodec (GoSlice A).
Proof.
  split; intros [|l]; cbn [enc dec ok slice_codec elems]; try done.
  - intros Hl. by rewrite dec_elems_enc.
  - apply wf_elems.
Qed.
#[export] Instance slice_shallow `{C : Codec A, !Shallow A n} : Shallow (GoSlice A) (N.succ n).
Proof. intros [|l]; [cbn; lia|apply depth_elems]. Qed.

(** Under [omitempty]. *)
#[export] Instance list_codec `{Codec A} : Codec (list A) := {|
  enc l := JArr (map enc l);
  dec v old := match v with JNull => Some [] | JArr l => dec_elems l | _ => None end;
  zero := [];
  is_empty l := match l with [] => true | _ => false end;
  ok := Forall ok;
|}.
#[export] Instance list_lawful `{C : Codec A, !LawfulCodec A} : LawfulCodec (list A).
Proof. split; intros l; [apply dec_elems_enc|apply wf_elems]. Qed.
#[export] Instance list_omit `{C : Codec A} : OmitEmpty (list A).
Proof. by intros []. Qed.
#[export] Instance list_shallow `{C : Codec A, !Shallow A n} : Shallow (list A) (N.succ n).
Proof. intros l. apply depth_elems. Qed.

Definition store_entry (m : option (gmap string string)) (kv : string * json)
  : option (gmap string string) :=
  m ← m;
  match snd kv with
  | JStr s => Some (<[fst kv := s]> m)
  | JNull => Some (<[fst kv := ""]> m)
  | _ => None
  end.

(** [map[string]string] under [omitempty]; the keys are written in order. *)
#[export] Instance map_codec : Codec (gmap string string) := {|
  enc m := JObj (map (λ kv, (fst kv, JStr (snd kv))) (sorted_keys (map_to_list m)));
  dec v old := match v with
               | JNull => Some ∅
               | JObj l => fold_left store_entry l (Some old)
               | _ => None end;
  zero := ∅;
  is_empty m := bool_decide (m = ∅);
  ok m := map_Forall (λ k v, Utf8.Valid k ∧ Utf8.Valid v) m;
|}.

Lemma store_entries l (m : gmap string string) :
  NoDup l.*1 → (∀ k, k ∈ l.*1 → m !! k = None) →
  fold_left store_entry (map (λ kv, (fst kv, JStr (snd kv))) l) (Some m)
  = Some (list_to_map l ∪ m).
Proof.
  revert m. induction l as [|[k v] l IH]; intros m Hnd Hm; cbn; [by rewrite (left_id_L ∅ (∪))|].
  inversion_clear Hnd as [|? ? Hk Hl].
  rewrite IH; [|done|].
  - f_equal. rewrite <- insert_union_l. rewrite insert_union_r; [done|].
    by apply not_elem_of_list_to_map_1.
  - intros k' Hk'. rewrite lookup_insert_ne; [apply Hm; by right|]. by intros ->.
Qed.

#[export] Instance map_lawful : LawfulCodec (gmap string string).
Proof.
  split; intros m; cbn [enc dec zero ok map_codec];
    assert (sorted_keys (map_to_list m) ≡ₚ map_to_list m) as Hp by apply merge_sort_Permutation.
  - intros _. rewrite store_entries.
    + rewrite (right_id_L ∅ (∪)). f_equal. rewrite <- (list_to_map_to_list m) at 2.
      apply list_to_map_proper; [|done]. rewrite Hp. apply NoDup_fst_map_to_list.
    + rewrite Hp. apply NoDup_fst_map_to_list.
    + intros k _. apply lookup_empty.
  - intros Hm. apply wf_obj, Forall_fmap. rewrite Forall_forall. intros [k v].
    rewrite Hp, elem_of_map_to_list. intros Hkv. by apply (Hm k v).
Qed.
#[export] Instance map_omit : OmitEmpty (gmap string string).
Proof. intros m H. by apply bool_decide_eq_true in H. Qed.
#[export] Instance map_shallow : Shallow (gmap string string) 1.
Proof.
  intros m. cbn [enc map_codec depth]. change 1%N with (N.succ 0). apply -> N.succ_le_mono.
  induction (sorted_keys _) as [|kv l IH]; cbn in *; lia.
Qed.

(** ** Structs

    A member of the encoding, always written or with [omitempty], and the
    field that reads it. *)

Section Struct.
Context {S A : Type} {C : Codec A} {L : LawfulCodec A}.

Definition req (k : string) (x : A) : list (string * json) := [(k, enc x)].
Definition opt (k : string) (x : A) : list (string * json) :=
  if is_empty x then [] else [(k, enc x)].
Definition fld (k : string) (get : S → A) {U : Upd get} : Field S :=
  (k, λ v s, (λ x, s <| get := x |>) <$> dec v (get s)).

Lemma store_req fields k get (U : Upd get) x rest (s : S) :
  find (λ f, field_is (fst f) k) fields = Some (fld k get) → get s = zero → ok x →
  fold_left (λ st kv, store_member fields kv st) (req k x ++ rest) (s, false)
  = fold_left (λ st kv, store_member fields kv st) rest (s <| get := x |>, false).
Proof.
  intros Hf Hz Hx. cbn. unfold store_member at 2. cbn [fst snd]. rewrite Hf. cbn.
  by rewrite Hz, dec_enc.
Qed.

Lemma store_opt {O : OmitEmpty A} fields k get (U : Upd get) x rest (s : S) :
  find (λ f, field_is (fst f) k) fields = Some (fld k get) → get s = zero →
  s <| get := zero |> = s → ok x →
  fold_left (λ st kv, store_member fields kv st) (opt k x ++ rest) (s, false)
  = fold_left (λ st kv, store_member fields kv st) rest (s <| get := x |>, false).
Proof.
  intros Hf Hz Hs Hx. unfold opt. destruct (is_empty x) eqn:E.
  - rewrite (empty_zero x E). by rewrite Hs.
  - by apply (store_req fields k get U x rest s).
Qed.

Lemma wf_req k x : Utf8.Valid k → ok x → Forall wf_member (req k x).
Proof. intros Hk Hx. apply Forall_singleton. split; [done|]. by apply enc_wf. Qed.
Lemma wf_opt k x : Utf8.Valid k → ok x → Forall wf_member (opt k x).
Proof. intros Hk Hx. unfold opt. destruct (is_empty x); [done|]. by apply wf_req. Qed.

Definition within (n : N) (kv : string * json) : Prop := (depth (snd kv) ≤ n)%N.
Lemma depth_req `{!Shallow A n} m k x : (n ≤ m)%N → Forall (within m) (req k x).
Proof. intros Hm. apply Forall_singleton. unfold within. cbn. pose proof (enc_depth x). lia. Qed.
Lemma depth_opt `{!Shallow A n} m k x : (n ≤ m)%N → Forall (within m) (opt k x).
Proof. intros Hm. unfold opt. destruct (is_empty x); [done|]. by apply (depth_req m). Qed.
End Struct.

Lemma depth_obj n ms : Forall (within n) ms → (depth (JObj ms) ≤ N.succ n)%N.
Proof.
  intros Hms. cbn. apply -> N.succ_le_mono. induction Hms as [|kv ms Hkv _ IH]; cbn; [lia|]. unfold within in Hkv. lia.
Qed.

(** The decoding of a struct: an error if any member is of the wrong type. *)
Definition dec_struct {S} (fields : list (Field S)) (v : json) (old : S) : option S :=
  let '(s, err) := decode_struct fields old v in if (err : bool) then None else Some s.

(** [Decoder.Decode] whose error is ignored: nothing is stored on a syntax
    error, the members of the right type on a type error. *)
Definition decode_lenient {S} (fields : list (Field S)) (init : S) (body : string) : S :=
  match parse_first body with
  | None => init
  | Some v => fst (decode_struct fields init v)
  end.

(** [Decoder.Decode] whose error is returned ([None]). *)
Definition decode_strict {S} (fields : list (Field S)) (init : S) (body : string) : option S :=
  v ← parse_first body; dec_struct fields v init.

(** [json.Unmarshal] into a fresh value, [None] when it fails. *)
Definition unmarshal_strict {S} (fields : list (Field S)) (init : S) (body : string) : option S :=
  v ← parse body; dec_struct fields v init.

Lemma find_here {A} (p : A → bool) f l : p f = true → find p (f :: l) = Some f.
Proof. cbn. by intros ->. Qed.
Lemma find_next {A} (p : A → bool) f l r : p f = false → find p l = r → find p (f :: l) = r.
Proof. cbn. by intros ->. Qed.

Ltac find_field :=
  repeat (apply find_next; [vm_compute; reflexivity|]);
  apply find_here; vm_compute; reflexivity.

Ltac normal_state :=
  match goal with
  | |- fold_left _ _ (?s, false) = _ =>
      let s1 := eval cbv beta delta [upd] in s in
      let s2 := eval cbn -[zero] in s1 in change s with s2
  end.
Ltac store_step :=
  normal_state;
  lazymatch goal with
  | |- fold_left _ (opt ?k (?get ?a) ++ _) _ = _ =>
      rewrite (store_opt _ k get _ (get a));
        [|find_field|reflexivity|reflexivity|assumption]
  | |- fold_left _ (req ?k (?get ?a) ++ _) _ = _ =>
      rewrite (store_req _ k get _ (get a)); [|find_field|reflexivity|assumption]
  end.

Tactic Notation "struct_lawful" reference(C) :=
  split;
  [ intros a Hok; cbn [ok C] in Hok; destruct_and? Hok;
    cbn [enc dec zero C]; unfold dec_struct, decode_struct;
    match goal with
    | |- context [fold_left ?f ?l ?s] =>
        let H := fresh in
        assert (fold_left f l s = (a, false)) as H;
          [repeat store_step; destruct a; reflexivity | by rewrite H]
    end
  | intros a Hok; cbn [ok C] in Hok; destruct_and? Hok; cbn [enc C]; apply wf_obj;
    repeat (apply Forall_app; split); try apply Forall_nil_2;
    (first [apply wf_req | apply wf_opt]; [vm_compute; reflexivity|assumption]) ].

Ltac struct_shallow C :=
  intros a; cbn [enc C];
  lazymatch goal with |- (_ ≤ ?n)%N => let m := eval vm_compute in (N.pred n) in change n with (N.succ m) end;
  apply depth_obj; repeat (apply Forall_app; split); try apply Forall_nil_2;
  first [eapply depth_req | eapply depth_opt]; vm_compute; discriminate.
