(* ===== verification/Effects.v ===== *)
(** * Effects: the calls a reconciler makes, and how programs run

    A reconciler talks to the API server through controller-runtime's client,
    to agents over HTTP, and reads the clock.  Those services are not part of
    the repository, so a translated function is a program [prog A]: a tree of
    calls [Op], each with a continuation for every answer the service may
    give.

    - [wp ok p Q tr]: along every execution of [p] whose answers satisfy [ok],
      starting after the calls [tr], the calls made and the result satisfy
      [Q].  This is how properties are stated for every behaviour of the
      services, errors and stale answers included.
    - [run h p s]: the execution of [p] against a server, i.e. a handler [h]
      with a state [s]; [wp_run] transfers a [wp] property to it. *)

From S2P Require Import Prelude GoLib KubeTypes ApiTypes.

Open Scope string_scope.
Open Scope list_scope.

(** ** Errors *)

(** A Go error: its text and what the predicates [apierrors.IsNotFound] and
    [apierrors.IsAlreadyExists] answer on it. *)
Record GoError := mkErr { err_msg : string; err_notFound : bool; err_alreadyExists : bool }.
Definition errorf (msg : string) : GoError := mkErr msg false false.
(** [fmt.Errorf("...: %w", err)] keeps what the error is. *)
Definition wrapf (pre : string) (e : GoError) : GoError :=
  mkErr (pre +:+ ": " +:+ err_msg e) (err_notFound e) (err_alreadyExists e).

Inductive res (A : Type) := Ok (a : A) | Err (e : GoError).
Arguments Ok {A} a.
Arguments Err {A} e.

(** ** The calls *)

Inductive Kind :=
  KAgent | KAgentRun | KProvider | KIntegration | KChannel
| KSecret | KConfigMap | KJob | KPod | KDeployment
| KService | KPVC | KNetworkPolicy | KIngress | KServiceAccount | KRole | KRoleBinding.
#[export] Instance Kind_eq_dec : EqDecision Kind.
Proof. solve_decision. Defined.

Definition obj (k : Kind) : Type :=
  match k with
  | KAgent => Agent | KAgentRun => AgentRun | KProvider => Provider
  | KIntegration => Integration | KChannel => Channel
  | KSecret => Secret | KConfigMap => ConfigMap | KJob => Job | KPod => Pod
  | KDeployment => Deployment
  | KService => Service | KPVC => PersistentVolumeClaim | KNetworkPolicy => NetworkPolicy
  | KIngress => Ingress | KServiceAccount => ServiceAccount | KRole => Role
  | KRoleBinding => RoleBinding
  end.
#[export] Instance obj_eq_dec k : EqDecision (obj k).
Proof. destruct k; apply _. Defined.

Definition obj_meta {k} : obj k → ObjectMeta :=
  match k with
  | KAgent => ag_Meta | KAgentRun => ar_Meta | KProvider => prov_Meta
  | KIntegration => ig_Meta | KChannel => chn_Meta
  | KSecret => sec_meta | KConfigMap => cm_meta | KJob => jb_meta | KPod => pod_meta
  | KDeployment => dp_meta
  | KService => sv_meta | KPVC => pvc_meta | KNetworkPolicy => np_meta | KIngress => in_meta
  | KServiceAccount => sa_meta | KRole => ro_meta | KRoleBinding => rb_meta
  end.

Record HttpRequest := mkHttp {
  hr_method : string; hr_url : string; hr_headers : list (string * string); hr_body : string;
  hr_timeout : Z;
}.
Record HttpResponse := mkHttpResp { hs_status : Z; hs_body : string }.

(** The calls of the client ([Get], [List] with a namespace and labels,
    [Create], [Update], the status patch computed from two versions of an
    object, the server-side apply of a Deployment), [CreateOrUpdate] with the
    caller's mutation, the clock and an HTTP exchange. *)
Inductive Op :=
| OpGet (k : Kind) (ns name : string)
| OpList (k : Kind) (ns : string) (sel : gmap string string)
| OpCreate (k : Kind) (o : obj k)
| OpUpdate (k : Kind) (o : obj k)
| OpPatchStatus (k : Kind) (base new : obj k)
| OpApply (o : Deployment)
| OpCreateOrUpdate (k : Kind) (ns name : string) (mutate : obj k → res (obj k))
| OpNow
| OpHttp (r : HttpRequest).

Definition ans (o : Op) : Type :=
  match o with
  | OpGet k _ _ => res (obj k)
  | OpList k _ _ => res (list (obj k))
  | OpCreate _ _ => res unit
  | OpUpdate k _ => res (obj k)
  | OpPatchStatus k _ _ => res (obj k)
  | OpApply _ => res unit
  | OpCreateOrUpdate _ _ _ _ => res unit
  | OpNow => Z
  | OpHttp _ => res HttpResponse
  end.

(** [controllerutil.SetControllerReference]: whether the owner may control the
    object (an error says it may not).  Owner references themselves are no
    part of the modelled metadata. *)
Class OwnerOps := { SetControllerReference : ObjectMeta → ObjectMeta → option GoError }.

(** A call made, with the answer it got. *)
Definition Event : Type := { o : Op & ans o }.
Definition event_op (e : Event) : Op := projT1 e.
Definition Trace : Type := list Event.

(** Whether a call can change the cluster. *)
Definition is_write (o : Op) : bool :=
  match o with
  | OpCreate _ _ | OpUpdate _ _ | OpPatchStatus _ _ _ | OpApply _
  | OpCreateOrUpdate _ _ _ _ => true
  | OpGet _ _ _ | OpList _ _ _ | OpNow | OpHttp _ => false
  end.
Definition writes (tr : Trace) : list Op := filter (λ o, is_write o = true) (event_op <$> tr).

(** ** Programs *)

Inductive prog (A : Type) : Type :=
| Done (a : A)
| Call (o : Op) (k : ans o → prog A).
Arguments Done {A} a.
Arguments Call {A} o k.

#[export] Instance prog_ret : MRet prog := @Done.
#[export] Instance prog_bind : MBind prog := λ A B f,
  fix bind p := match p with
    | Done a => f a
    | Call o k => Call o (λ x, bind (k x))
    end.

Definition call (o : Op) : prog (ans o) := Call o Done.

(** ** Every execution *)

Section WP.
(** The answers the services are assumed to give. *)
Variable ok : ∀ o, ans o → Prop.

Fixpoint wp {A} (p : prog A) (Q : Trace → A → Prop) (tr : Trace) : Prop :=
  match p with
  | Done a => Q tr a
  | Call o k => ∀ x, ok o x → wp (k x) Q (tr ++ [existT o x])
  end.

Lemma wp_bind {A B} (p : prog A) (f : A → prog B) Q tr :
  wp (p ≫= f) Q tr ↔ wp p (λ tr' a, wp (f a) Q tr') tr.
Proof.
  revert tr. induction p as [a|o k IH]; intros tr; simpl; [done|].
  split; intros H x Hx; apply IH; auto.
Qed.

Lemma wp_mono {A} (p : prog A) (Q Q' : Trace → A → Prop) tr :
  (∀ tr' a, Q tr' a → Q' tr' a) → wp p Q tr → wp p Q' tr.
Proof. intros HQ. revert tr. induction p as [a|o k IH]; intros tr; simpl; eauto. Qed.

Lemma wp_true {A} (p : prog A) tr : wp p (λ _ _, True) tr.
Proof. revert tr. induction p as [a|o k IH]; intros tr; simpl; auto. Qed.

Lemma wp_and {A} (p : prog A) (Q Q' : Trace → A → Prop) tr :
  wp p Q tr → wp p Q' tr → wp p (λ tr' a, Q tr' a ∧ Q' tr' a) tr.
Proof. revert tr. induction p as [a|o k IH]; intros tr; simpl; eauto. Qed.

(** What the calls before [p] were is only a prefix of the trace. *)
Lemma wp_trace {A} (p : prog A) Q tr :
  wp p (λ tr' a, Q (tr ++ tr') a) [] → wp p Q tr.
Proof.
  intros H.
  cut (∀ pre, wp p (λ tr' a, Q (tr ++ tr') a) pre → wp p Q (tr ++ pre)).
  { intros Hgen. specialize (Hgen [] H). by rewrite app_nil_r in Hgen. }
  clear H. induction p as [a|o k IH]; intros pre; simpl; [done|].
  intros H x Hx. rewrite <- app_assoc. auto.
Qed.

Lemma wp_prefix {A} (p : prog A) Q tr :
  wp p Q tr → wp p (λ tr' a, tr `prefix_of` tr' ∧ Q tr' a) tr.
Proof.
  intros Hp. apply wp_and; [|done]. clear Hp.
  cut (∀ tr0, tr `prefix_of` tr0 → wp p (λ tr' _, tr `prefix_of` tr') tr0); [by auto|].
  induction p as [a|o k IH]; intros tr0 Htr0; simpl; [done|].
  intros x _. apply IH. by apply prefix_app_r.
Qed.

Lemma wp_ret {A} (a : A) (Q : Trace → A → Prop) tr : Q tr a → wp (mret a) Q tr.
Proof. done. Qed.

Lemma wp_call {B} o (f : ans o → prog B) Q tr :
  (∀ x, ok o x → wp (f x) Q (tr ++ [existT o x])) → wp (call o ≫= f) Q tr.
Proof. done. Qed.

(** The executions themselves. *)
Inductive exec {A} : prog A → Trace → A → Prop :=
| exec_done a : exec (Done a) [] a
| exec_call o k x tr a : ok o x → exec (k x) tr a → exec (Call o k) (existT o x :: tr) a.

Lemma wp_exec {A} (p : prog A) Q pre tr a : exec p tr a → wp p Q pre → Q (pre ++ tr) a.
Proof.
  intros He. revert pre. induction He as [a|o k x tr a Hx He IH]; intros pre Hp; cbn in *.
  - by rewrite app_nil_r.
  - rewrite cons_middle, app_assoc. apply IH, Hp, Hx.
Qed.

(** *** Event-wise reasoning

    [emits E p Φ]: every call [p] makes satisfies [E], together with its
    answer, and every result satisfies [Φ]. *)
Definition emits {A} (E : Event → Prop) (p : prog A) (Φ : A → Prop) : Prop :=
  wp p (λ tr a, Forall E tr ∧ Φ a) [].

Lemma wp_emits {A B} E (p : prog A) Φ (f : A → prog B) Q tr :
  emits E p Φ → (∀ tr' a, Forall E tr' → Φ a → wp (f a) Q (tr ++ tr')) →
  wp (p ≫= f) Q tr.
Proof.
  intros Hp Hf. apply wp_bind, wp_trace. eapply wp_mono; [|exact Hp]. naive_solver.
Qed.

Lemma emits_ret {A} E (a : A) (Φ : A → Prop) : Φ a → emits E (mret a) Φ.
Proof. by split. Qed.

Lemma emits_bind {A B} E (p : prog A) Φ (f : A → prog B) Ψ :
  emits E p Φ → (∀ a, Φ a → emits E (f a) Ψ) → emits E (p ≫= f) Ψ.
Proof.
  intros Hp Hf. apply (wp_emits E p Φ); [exact Hp|]. intros tr a Htr Ha.
  rewrite <- (app_nil_r ([] ++ tr)). apply wp_trace.
  eapply wp_mono; [|exact (Hf a Ha)]. cbn. intros tr' b [Htr' Hb]. split; [|done].
  rewrite app_nil_r. by apply Forall_app.
Qed.

Lemma emits_call {B} E o (f : ans o → prog B) Ψ :
  (∀ x, ok o x → E (existT o x) ∧ emits E (f x) Ψ) → emits E (call o ≫= f) Ψ.
Proof.
  intros Hf. apply (emits_bind E (call o) (λ x, ok o x)).
  - intros x Hx. split; [|done]. repeat constructor. by apply Hf.
  - intros x Hx. by apply Hf.
Qed.

Lemma emits_mono {A} E E' (p : prog A) (Φ Φ' : A → Prop) :
  emits E p Φ → (∀ e, E e → E' e) → (∀ a, Φ a → Φ' a) → emits E' p Φ'.
Proof.
  intros Hp HE HΦ. eapply wp_mono; [|exact Hp]. cbn. intros tr a [Htr Ha]. split; [|auto].
  eapply Forall_impl; [exact Htr | exact HE].
Qed.

End WP.

(** ** One execution, against a server *)

Section Run.
Context {S : Type}.
Variable h : ∀ o, S → ans o * S.

Fixpoint run {A} (p : prog A) (s : S) (tr : Trace) : A * S * Trace :=
  match p with
  | Done a => (a, s, tr)
  | Call o k => let '(x, s') := h o s in run (k x) s' (tr ++ [existT o x])
  end.

Lemma run_bind {A B} (p : prog A) (f : A → prog B) s tr :
  run (p ≫= f) s tr =
  let '(a, s', tr') := run p s tr in run (f a) s' tr'.
Proof.
  revert s tr. induction p as [a|o k IH]; intros s tr; simpl; [done|].
  destruct (h o s) as [x s']. apply IH.
Qed.

Lemma wp_run {A} (ok : ∀ o, ans o → Prop) (p : prog A) Q s tr :
  (∀ o s, ok o (fst (h o s))) →
  wp ok p Q tr →
  let '(a, _, tr') := run p s tr in Q tr' a.
Proof.
  intros Hok. revert s tr. induction p as [a|o k IH]; intros s tr; simpl; [done|].
  intros H. specialize (Hok o s) as Hx. destruct (h o s) as [x s'] eqn:E. simpl in Hx.
  apply IH. auto.
Qed.
End Run.

(** Any answer at all. *)
Definition any_answer (o : Op) (x : ans o) : Prop := True.

(** ** What a reconciler returns: [(ctrl.Result, error)] *)

Record Result := mkResult { requeueAfter : Z }.
Definition noResult : Result := mkResult 0.
Definition Outcome : Type := Result * option GoError.
Definition done_ : Outcome := (noResult, None).
Definition failed (e : GoError) : Outcome := (noResult, Some e).
Definition requeue (after : Z) : Outcome := (mkResult after, None).

(** The object is looked at again: after a delay, or with the work queue's
    back-off when an error is returned. *)
Definition comes_back (r : Outcome) : Prop := (0 < requeueAfter (fst r))%Z ∨ is_Some (snd r).

(** [if err := m; err != nil { return ctrl.Result{}, err }] before [k]. *)
Definition or_fail (m : prog (option GoError)) (k : prog Outcome) : prog Outcome :=
  e ← m; match e with Some e => mret (failed e) | None => k end.

(** controller-runtime recovers a panic of [Reconcile] and returns it as an
    error. *)
Definition panic (msg : string) : GoError := errorf ("panic: " +:+ msg +:+ " [recovered]").

(** Functions that return a value or an error: [x, err := m; if err != nil
    { return err }] before [k]. *)
Definition try_ {A B} (m : prog (res A)) (k : A → prog (res B)) : prog (res B) :=
  x ← m; match x with Ok a => k a | Err e => mret (Err e) end.
Notation "x ←? m ; k" := (try_ m (λ x, k))
  (at level 20, m at level 100, k at level 200, only parsing) : stdpp_scope.
Definition no_error (m : prog (option GoError)) : prog (res unit) :=
  e ← m; mret (match e with Some e => Err e | None => Ok tt end).

Lemma wp_try {A B} ok (m : prog (res A)) (k : A → prog (res B)) Q tr :
  wp ok m (λ tr' r, match r with Ok a => wp ok (k a) Q tr' | Err e => Q tr' (Err e) end) tr →
  wp ok (try_ m k) Q tr.
Proof.
  intros Hm. unfold try_. apply wp_bind. eapply wp_mono; [|exact Hm]. by intros tr' [a|e] Hr.
Qed.
