(* ===== verification/ResourceCommon.v ===== *)
(** * Names, labels and shell quoting (internal/resources/common.go)

    The constants every builder shares, [InfraConfig], the naming functions,
    [ValidateOCIRef] and [ShellQuote].

    The last part is the specification side of [ShellQuote]: [Shell.lex] splits
    a command line the way a POSIX shell does before running it, for the part
    of the grammar the builders use; a command with an expansion or a double
    quote outside single quotes has no reading. *)

From S2P Require Import Prelude GoLib KubeTypes.

Open Scope string_scope.
Open Scope list_scope.

Definition LabelAgent := "agents.agentops.io/agent".
Definition LabelComponent := "agents.agentops.io/component".
Definition LabelManagedBy := "app.kubernetes.io/managed-by".
Definition ManagedByValue := "agentops-operator".

Definition AgentRuntimePort : Z := 4096.
Definition MCPServerDefaultPort : Z := 8080.
Definition GatewayBasePort : Z := 9001.

Definition CraneImage := "gcr.io/go-containerregistry/crane:debug".
Definition DefaultMCPGatewayImage := "ghcr.io/samyn92/mcp-gateway:latest".
Definition envMCPGatewayImage := "AGENTOPS_MCP_GATEWAY_IMAGE".

Definition VolumeData := "data".
Definition VolumeTools := "tools".
Definition VolumeConfig := "operator-config".
Definition VolumeGateway := "gateway-config".
Definition VolumeMCP := "mcp-config".
Definition VolumeTmp := "tmp".
Definition MountTmp := "/tmp".

Definition ContainerRuntime := "agent-runtime".

Definition MountData := "/data".
Definition MountTools := "/tools".
Definition MountConfig := "/etc/operator".
Definition MountGateway := "/etc/gateway".
Definition MountMCP := "/etc/mcp".

Definition DefaultOTelEndpoint := "tempo.observability.svc.cluster.local:4317".
Definition DefaultNATSEndpoint := "nats://agentops-nats.agent-system.svc.cluster.local:4222".

Record InfraConfig := mkInfra { OTelEndpoint : string; NATSURL : string }.

Definition OTel (c : InfraConfig) : string :=
  if decide (OTelEndpoint c ≠ "") then OTelEndpoint c else DefaultOTelEndpoint.

Definition NATS (c : InfraConfig) : string :=
  if decide (NATSURL c ≠ "") then NATSURL c else DefaultNATSEndpoint.

Definition CommonLabels (agentName component : string) : gmap string string :=
  <[LabelAgent := agentName]> (<[LabelComponent := component]>
    (<[LabelManagedBy := ManagedByValue]> ∅)).

Definition ObjectName (agentName suffix : string) : string :=
  if decide (suffix = "") then agentName else agentName +:+ "-" +:+ suffix.

Definition MCPServerObjectName (mcpName : string) : string := "mcp-" +:+ mcpName.

(** The classes of [ociRefPattern]: [^[a-zA-Z0-9][a-zA-Z0-9._\-/:@]+$]. *)
Definition alnum (a : ascii) : bool :=
  let n := nat_of_ascii a in
  bool_decide (97 ≤ n ≤ 122 ∨ 65 ≤ n ≤ 90 ∨ 48 ≤ n ≤ 57)%nat.
Definition ociRefChar (a : ascii) : bool :=
  alnum a || bool_decide (a ∈ ["."; "_"; "-"; "/"; ":"; "@"]%char).

Definition ociRefPattern (ref : string) : bool :=
  match list_ascii_of_string ref with
  | a :: b :: l => alnum a && forallb ociRefChar (b :: l)
  | _ => false
  end.

(** [None] is success, [Some] the error's text. *)
Definition ValidateOCIRef (ref : string) : option string :=
  if decide (ref = "") then Some "OCI reference is empty"
  else if negb (ociRefPattern ref) then
    Some ("OCI reference " +:+ GoFmt.q ref +:+ " contains invalid characters")
  else None.

Definition squote : ascii := "'"%char.
Definition backslash : ascii := "\"%char.

Definition ShellQuote (s : string) : string :=
  "'" +:+ GoStrings.ReplaceAll s squote "'\''" +:+ "'".

(** [getenv] is [os.Getenv]. *)
Definition MCPGatewayImage (getenv : string → string) : string :=
  if decide (getenv envMCPGatewayImage ≠ "") then getenv envMCPGatewayImage
  else DefaultMCPGatewayImage.

(** ** Reading a shell command *)

Module Shell.

Inductive token := Word (w : string) | Operator (c : ascii).
Inductive mode := Plain | Quoted | Escaped.

(** The word being read, if one has begun. *)
Definition flush (acc : option string) : list token :=
  match acc with Some w => [Word w] | None => [] end.
Definition word_so_far (acc : option string) : string := default "" acc.
Definition snoc (acc : option string) (c : ascii) : option string :=
  Some (word_so_far acc +:+ String c "").

Definition blank (c : ascii) : bool := bool_decide (c = " "%char ∨ c = ascii_of_nat 9).
Definition operator (c : ascii) : bool :=
  bool_decide (c ∈ ["&"; "|"; ";"; "<"; ">"; "("; ")"]%char ∨ c = ascii_of_nat 10).
(** Double quotes, expansions, globs, comments and assignments' tildes. *)
Definition expansion (c : ascii) : bool :=
  bool_decide (c ∈ ["$"; "`"; "*"; "?"; "["; "]"; "#"; "~"; "!"; "{"; "}"]%char
               ∨ c = ascii_of_nat 34).

Fixpoint lex (m : mode) (acc : option string) (s : string) : option (list token) :=
  match s with
  | EmptyString => match m with Plain => Some (flush acc) | _ => None end
  | String c s' =>
      match m with
      | Quoted => if decide (c = squote) then lex Plain acc s' else lex Quoted (snoc acc c) s'
      | Escaped => lex Plain (snoc acc c) s'
      | Plain =>
          if decide (c = squote) then lex Quoted (Some (word_so_far acc)) s'
          else if decide (c = backslash) then lex Escaped (Some (word_so_far acc)) s'
          else if blank c then app (flush acc) <$> lex Plain None s'
          else if operator c then
            (λ ts, flush acc ++ Operator c :: ts) <$> lex Plain None s'
          else if expansion c then None
          else lex Plain (snoc acc c) s'
      end
  end.

(** The words and operators of a command line. *)
Definition read (s : string) : option (list token) := lex Plain None s.

Lemma lex_quoted s w t :
  lex Quoted (Some w) (GoStrings.ReplaceAll s squote "'\''" +:+ String "'" t)
  = lex Plain (Some (w +:+ s)) t.
Proof.
  revert w. induction s as [|c s IH]; intros w; simpl.
  - by rewrite GoStrings.app_nil_r.
  - case_decide as Hc; simpl.
    + subst c. by rewrite IH, GoStrings.app_assoc.
    + rewrite decide_False by done. unfold snoc. simpl.
      by rewrite IH, GoStrings.app_assoc.
Qed.

(** A quoted text is read back as itself, in the middle of any command. *)
Lemma lex_ShellQuote s acc t :
  lex Plain acc (ShellQuote s +:+ t) = lex Plain (Some (word_so_far acc +:+ s)) t.
Proof.
  unfold ShellQuote. rewrite !GoStrings.app_assoc. simpl.
  apply lex_quoted.
Qed.

(** Reading a text without quotes: its words and operators, and the word it
    ends in. *)
Fixpoint plain (acc : option string) (s : string) : option (list token * option string) :=
  match s with
  | EmptyString => Some ([], acc)
  | String c s' =>
      if decide (c = squote) then None
      else if decide (c = backslash) then None
      else if blank c then '(ts, a) ← plain None s'; Some (flush acc ++ ts, a)
      else if operator c then '(ts, a) ← plain None s'; Some (flush acc ++ Operator c :: ts, a)
      else if expansion c then None
      else plain (snoc acc c) s'
  end.

Lemma lex_plain acc s t ts a :
  plain acc s = Some (ts, a) → lex Plain acc (s +:+ t) = app ts <$> lex Plain a t.
Proof.
  revert acc ts a. induction s as [|c s IH]; intros acc ts a; simpl.
  - intros [= <- <-]. by destruct (lex Plain acc t).
  - repeat case_decide; try done.
    destruct (blank c); [|destruct (operator c); [|destruct (expansion c); [done|apply IH]]].
    all: destruct (plain None s) as [[ts' a']|] eqn:E; [|done]; simpl; intros [= <- <-];
      rewrite (IH _ _ _ E); destruct (lex Plain a' t); simpl; [|done];
      by rewrite <- (assoc_L (++)).
Qed.

(** A blank ends the word before it. *)
Lemma lex_blank acc s t :
  lex Plain acc (String " " s +:+ t) = app (flush acc) <$> lex Plain None (s +:+ t).
Proof. reflexivity. Qed.

End Shell.

#[export] Hint Rewrite Shell.lex_ShellQuote : agentops_rw.
