(* ===== verification/Security.v ===== *)
(** * Pod security (internal/resources/security.go)

    Every pod the operator builds goes through [ApplySecurity], which puts the
    restricted defaults on the pod and on each container and merges the
    user's [SecurityOverrides] on top of them without going below that floor.

    Definitions follow the functions of the file one by one.  The
    specification side is [restricted_pod] and [restricted_container]: the
    controls of the Kubernetes "restricted" Pod Security Standard, with the
    two this operator adds (a read-only root file system and no added
    capability at all). *)

From S2P Require Import Prelude GoLib KubeTypes ApiTypes ResourceCommon.

Open Scope string_scope.
Open Scope list_scope.

(** ** Defaults *)

Definition RestrictedRunAsUser : Z := 65532.

Definition RestrictedContainerSecurityContext : SecurityContext :=
  {| sc_capabilities := Some {| cap_add := []; cap_drop := ["ALL"; "NET_RAW"] |};
     sc_privileged := None;
     sc_seLinuxOptions := None;
     sc_windowsHostProcess := None;
     sc_runAsUser := None;
     sc_runAsGroup := None;
     sc_runAsNonRoot := Some true;
     sc_readOnlyRootFilesystem := Some true;
     sc_allowPrivilegeEscalation := Some false;
     sc_procMount := None;
     sc_seccompProfile := Some (mkSeccomp SeccompRuntimeDefault None);
     sc_appArmorProfile := None |}.

Definition RestrictedPodSecurityContext : PodSecurityContext :=
  {| psc_seLinuxOptions := None;
     psc_windowsHostProcess := None;
     psc_runAsUser := Some RestrictedRunAsUser;
     psc_runAsGroup := Some RestrictedRunAsUser;
     psc_runAsNonRoot := Some true;
     psc_supplementalGroups := [];
     psc_fsGroup := Some RestrictedRunAsUser;
     psc_sysctls := [];
     psc_fsGroupChangePolicy := None;
     psc_seccompProfile := Some (mkSeccomp SeccompRuntimeDefault None);
     psc_appArmorProfile := None |}.

Definition TmpVolume : Volume := mkVolume VolumeTmp (EmptyDir (Some "64Mi")).

Definition ResourceCPU := "cpu".
Definition ResourceMemory := "memory".
Definition ResourceEphemeralStorage := "ephemeral-storage".

Definition SidecarResources : ResourceRequirements :=
  mkResources
    (Some (<[ResourceCPU := "5m"]> (<[ResourceMemory := "16Mi"]>
      (<[ResourceEphemeralStorage := "16Mi"]> ∅))))
    (Some (<[ResourceCPU := "100m"]> (<[ResourceMemory := "64Mi"]>
      (<[ResourceEphemeralStorage := "64Mi"]> ∅)))).

Definition TmpVolumeMount : VolumeMount := mkMount VolumeTmp MountTmp "" false.

(** [if _, ok := m[k]; !ok { m[k] = v }], after a nil map became a new one. *)
Definition set_default (m : option (gmap string string)) (k v : string) : gmap string string :=
  let m := default ∅ m in
  match m !! k with Some _ => m | None => <[k := v]> m end.

Definition ensureEphemeralStorage (r : ResourceRequirements) : ResourceRequirements :=
  mkResources (Some (set_default (rr_requests r) ResourceEphemeralStorage "64Mi"))
              (Some (set_default (rr_limits r) ResourceEphemeralStorage "128Mi")).

(** The caller passes a struct copy whose maps are shared with the original:
    [aliased r] is what the original holds after [ensureEphemeralStorage] ran
    on its copy.  A nil map was replaced in the copy only. *)
Definition aliased (r : ResourceRequirements) : ResourceRequirements :=
  let r' := ensureEphemeralStorage r in
  mkResources (match rr_requests r with Some _ => rr_requests r' | None => None end)
              (match rr_limits r with Some _ => rr_limits r' | None => None end).

(** ** The safety-floor merge *)

Definition mergePodSecurityContext (override : option PodSecurityContext)
  : PodSecurityContext * list string :=
  let out := RestrictedPodSecurityContext in
  match override with
  | None => (out, [])
  | Some ov =>
      let violations :=
        if ptr_false (psc_runAsNonRoot ov)
        then ["pod.runAsNonRoot=false rejected: must be true (restricted PSS)"] else [] in
      let '(out, violations) :=
        match psc_runAsUser ov with
        | Some uid =>
            if decide (uid = 0%Z)
            then (out, violations ++
                    ["pod.runAsUser=0 rejected: must be non-zero (restricted PSS)"])
            else (out <| psc_runAsUser := Some uid |>, violations)
        | None => (out, violations)
        end in
      let out := match psc_runAsGroup ov with
                 | Some gid => out <| psc_runAsGroup := Some gid |> | None => out end in
      let out := match psc_fsGroup ov with
                 | Some fsg => out <| psc_fsGroup := Some fsg |> | None => out end in
      let out := match psc_supplementalGroups ov with
                 | [] => out | gs => out <| psc_supplementalGroups := gs |> end in
      let out := match psc_fsGroupChangePolicy ov with
                 | Some p => out <| psc_fsGroupChangePolicy := Some p |> | None => out end in
      let '(out, violations) :=
        match psc_seccompProfile ov with
        | Some sp =>
            if decide (sp_type sp = SeccompUnconfined)
            then (out, violations ++
                    ["pod.seccompProfile.type=Unconfined rejected: must be RuntimeDefault or Localhost (restricted PSS)"])
            else (out <| psc_seccompProfile := Some sp |>, violations)
        | None => (out, violations)
        end in
      let out := match psc_seLinuxOptions ov with
                 | Some so => out <| psc_seLinuxOptions := Some so |> | None => out end in
      (out, violations)
  end.

Definition mergeContainerSecurityContext (override : option SecurityContext)
  : SecurityContext * list string :=
  let out := RestrictedContainerSecurityContext in
  match override with
  | None => (out, [])
  | Some ov =>
      let violations :=
        (if ptr_true (sc_allowPrivilegeEscalation ov)
         then ["container.allowPrivilegeEscalation=true rejected (restricted PSS)"] else []) in
      let violations := violations ++
        (if ptr_true (sc_privileged ov)
         then ["container.privileged=true rejected (restricted PSS)"] else []) in
      let violations := violations ++
        (if ptr_false (sc_readOnlyRootFilesystem ov)
         then ["container.readOnlyRootFilesystem=false rejected (restricted PSS)"] else []) in
      let violations := violations ++
        (if ptr_false (sc_runAsNonRoot ov)
         then ["container.runAsNonRoot=false rejected (restricted PSS)"] else []) in
      let '(out, violations) :=
        match sc_runAsUser ov with
        | Some uid =>
            if decide (uid = 0%Z)
            then (out, violations ++ ["container.runAsUser=0 rejected (restricted PSS)"])
            else (out <| sc_runAsUser := Some uid |>, violations)
        | None => (out, violations)
        end in
      let out := match sc_runAsGroup ov with
                 | Some gid => out <| sc_runAsGroup := Some gid |> | None => out end in
      let violations :=
        match sc_capabilities ov with
        | Some caps =>
            match cap_add caps with
            | [] => violations
            | adds => violations ++
                ["container.capabilities.add=" +:+ GoFmt.v_list adds +:+
                 " rejected (restricted PSS — no adds permitted)"]
            end
        | None => violations
        end in
      let '(out, violations) :=
        match sc_seccompProfile ov with
        | Some sp =>
            if decide (sp_type sp = SeccompUnconfined)
            then (out, violations ++
                    ["container.seccompProfile.type=Unconfined rejected (restricted PSS)"])
            else (out <| sc_seccompProfile := Some sp |>, violations)
        | None => (out, violations)
        end in
      let out := match sc_seLinuxOptions ov with
                 | Some so => out <| sc_seLinuxOptions := Some so |> | None => out end in
      (out, violations)
  end.

(** ** Apply *)

Definition ComputeSecurityViolations (overrides : option SecurityOverrides) : list string :=
  match overrides with
  | None => []
  | Some ov =>
      let '(_, podViolations) := mergePodSecurityContext (so_Pod ov) in
      let '(_, containerViolations) := mergeContainerSecurityContext (so_Container ov) in
      podViolations ++ containerViolations
  end.

(** The closure [applyContainer]. *)
Definition applyContainer (override : option SecurityContext) (c : Container) : Container :=
  let c := c <| ct_securityContext :=
                  Some (default RestrictedContainerSecurityContext override) |> in
  let hasTmp := existsb (λ vm, bool_decide (vm_name vm = VolumeTmp)) (ct_volumeMounts c) in
  if hasTmp then c else c <| ct_volumeMounts ::= λ ms, ms ++ [TmpVolumeMount] |>.

Definition ApplySecurity (podSpec : PodSpec) (mainContainerName : string)
  (overrides : option SecurityOverrides) : PodSpec * list string :=
  let podOverride := ov ← overrides; so_Pod ov in
  let containerOverride := ov ← overrides; so_Container ov in
  let automount := ov ← overrides; so_AutomountServiceAccountToken ov in
  let '(mergedPod, podViolations) := mergePodSecurityContext podOverride in
  let '(mergedMain, mainViolations) := mergeContainerSecurityContext containerOverride in
  let violations := podViolations ++ mainViolations in
  let podSpec := podSpec <| ps_securityContext := Some mergedPod |> in
  let podSpec := podSpec <| ps_automountToken := Some (ptr_true automount) |> in
  let podSpec := podSpec <| ps_initContainers ::= map (applyContainer None) |> in
  let podSpec := podSpec <| ps_containers ::= map (λ c,
      if decide (ct_name c = mainContainerName) then applyContainer (Some mergedMain) c
      else applyContainer None c) |> in
  let hasTmpVol := existsb (λ v, bool_decide (v_name v = VolumeTmp)) (ps_volumes podSpec) in
  let podSpec := if hasTmpVol then podSpec
                 else podSpec <| ps_volumes ::= λ vs, vs ++ [TmpVolume] |> in
  (podSpec, violations).

(** ** Specification: the restricted profile *)

Definition seccomp_restricted (p : option SeccompProfile) : Prop :=
  match p with
  | Some sp => sp_type sp = SeccompRuntimeDefault ∨ sp_type sp = SeccompLocalhost
  | None => False
  end.

Definition selinux_restricted (o : option SELinuxOptions) : Prop :=
  match o with
  | Some se => se_user se = "" ∧ se_role se = "" ∧
      se_type se ∈ [""; "container_t"; "container_init_t"; "container_kvm_t"; "container_engine_t"]
  | None => True
  end.

Record restricted_container (sc : SecurityContext) : Prop := {
  rc_noEscalation : sc_allowPrivilegeEscalation sc = Some false;
  rc_notPrivileged : sc_privileged sc ≠ Some true;
  rc_nonRoot : sc_runAsNonRoot sc = Some true;
  rc_user : sc_runAsUser sc ≠ Some 0%Z;
  rc_readOnlyRoot : sc_readOnlyRootFilesystem sc = Some true;
  rc_caps : ∃ caps, sc_capabilities sc = Some caps ∧ cap_add caps = [] ∧ "ALL" ∈ cap_drop caps;
  rc_procMount : sc_procMount sc = None;
  rc_hostProcess : sc_windowsHostProcess sc ≠ Some true;
  rc_seccomp : seccomp_restricted (sc_seccompProfile sc);
  rc_selinux : selinux_restricted (sc_seLinuxOptions sc);
}.

Record restricted_pod (psc : PodSecurityContext) : Prop := {
  rp_nonRoot : psc_runAsNonRoot psc = Some true;
  rp_user : psc_runAsUser psc ≠ Some 0%Z;
  rp_sysctls : psc_sysctls psc = [];
  rp_hostProcess : psc_windowsHostProcess psc ≠ Some true;
  rp_seccomp : seccomp_restricted (psc_seccompProfile psc);
  rp_selinux : selinux_restricted (psc_seLinuxOptions psc);
}.

(** The two settings the merge passes through and leaves to admission: a
    seccomp profile type other than the three the API defines, and SELinux
    options. *)
Definition seccomp_known (p : option SeccompProfile) : Prop :=
  match p with Some sp => ∀ t, sp_type sp ≠ SeccompOther t | None => True end.

Definition pod_admissible (ov : option PodSecurityContext) : Prop :=
  match ov with
  | Some p => seccomp_known (psc_seccompProfile p) ∧ selinux_restricted (psc_seLinuxOptions p)
  | None => True
  end.
Definition container_admissible (ov : option SecurityContext) : Prop :=
  match ov with
  | Some c => seccomp_known (sc_seccompProfile c) ∧ selinux_restricted (sc_seLinuxOptions c)
  | None => True
  end.
Definition admissible (ov : option SecurityOverrides) : Prop :=
  match ov with
  | Some o => pod_admissible (so_Pod o) ∧ container_admissible (so_Container o)
  | None => True
  end.

(** The ten settings the merges check, below the floor. *)
Definition seccomp_unconfined (p : option SeccompProfile) : Prop :=
  match p with Some sp => sp_type sp = SeccompUnconfined | None => False end.
Definition caps_added (c : option Capabilities) : Prop :=
  match c with Some caps => cap_add caps ≠ [] | None => False end.
Definition pod_weakens (p : PodSecurityContext) : Prop :=
  psc_runAsNonRoot p = Some false ∨ psc_runAsUser p = Some 0%Z
  ∨ seccomp_unconfined (psc_seccompProfile p).
Definition container_weakens (c : SecurityContext) : Prop :=
  sc_allowPrivilegeEscalation c = Some true ∨ sc_privileged c = Some true
  ∨ sc_readOnlyRootFilesystem c = Some false ∨ sc_runAsNonRoot c = Some false
  ∨ sc_runAsUser c = Some 0%Z
  ∨ caps_added (sc_capabilities c)
  ∨ seccomp_unconfined (sc_seccompProfile c).
Definition weakens (ov : option SecurityOverrides) : Prop :=
  match ov with
  | Some o => (∃ p, so_Pod o = Some p ∧ pod_weakens p)
              ∨ (∃ c, so_Container o = Some c ∧ container_weakens c)
  | None => False
  end.

(** An override taken as it is: what it sets wins over the defaults. *)
Definition overlay_pod (p : PodSecurityContext) : PodSecurityContext :=
  let d := RestrictedPodSecurityContext in
  mkPodSC (psc_seLinuxOptions p ∪ psc_seLinuxOptions d) (psc_windowsHostProcess p ∪ psc_windowsHostProcess d)
    (psc_runAsUser p ∪ psc_runAsUser d) (psc_runAsGroup p ∪ psc_runAsGroup d) (psc_runAsNonRoot p ∪ psc_runAsNonRoot d)
    (psc_supplementalGroups p) (psc_fsGroup p ∪ psc_fsGroup d) (psc_sysctls p)
    (psc_fsGroupChangePolicy p ∪ psc_fsGroupChangePolicy d) (psc_seccompProfile p ∪ psc_seccompProfile d)
    (psc_appArmorProfile p ∪ psc_appArmorProfile d).
Definition overlay_container (c : SecurityContext) : SecurityContext :=
  let d := RestrictedContainerSecurityContext in
  mkSC (sc_capabilities c ∪ sc_capabilities d) (sc_privileged c ∪ sc_privileged d)
    (sc_seLinuxOptions c ∪ sc_seLinuxOptions d) (sc_windowsHostProcess c ∪ sc_windowsHostProcess d)
    (sc_runAsUser c ∪ sc_runAsUser d) (sc_runAsGroup c ∪ sc_runAsGroup d) (sc_runAsNonRoot c ∪ sc_runAsNonRoot d)
    (sc_readOnlyRootFilesystem c ∪ sc_readOnlyRootFilesystem d)
    (sc_allowPrivilegeEscalation c ∪ sc_allowPrivilegeEscalation d) (sc_procMount c ∪ sc_procMount d)
    (sc_seccompProfile c ∪ sc_seccompProfile d) (sc_appArmorProfile c ∪ sc_appArmorProfile d).

Definition restricted_as_given (ov : option SecurityOverrides) : Prop :=
  match ov with
  | Some o => (∀ p, so_Pod o = Some p → restricted_pod (overlay_pod p)) ∧
              (∀ c, so_Container o = Some c → restricted_container (overlay_container c))
  | None => True
  end.

(** The settings the merges never read, within the profile. *)
Definition unread_ok (ov : option SecurityOverrides) : Prop :=
  match ov with
  | Some o =>
      (∀ p, so_Pod o = Some p → psc_sysctls p = [] ∧ psc_windowsHostProcess p ≠ Some true) ∧
      (∀ c, so_Container o = Some c → sc_procMount c = None ∧ sc_windowsHostProcess c ≠ Some true ∧
         ∀ caps, sc_capabilities c = Some caps → "ALL" ∈ cap_drop caps)
  | None => True
  end.

(** ** The merges *)

Lemma seccomp_known_confined sp :
  (∀ t, sp_type sp ≠ SeccompOther t) → sp_type sp ≠ SeccompUnconfined →
  seccomp_restricted (Some sp).
Proof. simpl. destruct (sp_type sp); naive_solver. Qed.

Ltac merge_cases ov :=
  destruct ov; simpl in *;
  repeat (match goal with
          | |- context [match ?x with _ => _ end] => is_var x; destruct x
          | |- context [if decide ?P then _ else _] => destruct (decide P)
          end; simpl in *).

(** A seccomp profile is passed through unless it is [Unconfined]. *)
Definition passed (given out : option SeccompProfile) : Prop :=
  ∀ sp, given = Some sp → sp_type sp ≠ SeccompUnconfined → out = Some sp.

Lemma passed_known given out : passed given out → seccomp_restricted out → seccomp_known given.
Proof.
  intros Hp Hr. destruct given as [sp|]; [|done]. intros t Ht.
  rewrite (Hp sp eq_refl) in Hr by congruence. cbn in Hr. naive_solver congruence.
Qed.

Lemma mergePod_passes ov : let out := fst (mergePodSecurityContext (Some ov)) in
  psc_seLinuxOptions out = psc_seLinuxOptions ov ∧ passed (psc_seccompProfile ov) (psc_seccompProfile out).
Proof. unfold passed. merge_cases ov; split; try done; naive_solver. Qed.

Lemma mergeContainer_passes ov : let out := fst (mergeContainerSecurityContext (Some ov)) in
  sc_seLinuxOptions out = sc_seLinuxOptions ov ∧ passed (sc_seccompProfile ov) (sc_seccompProfile out).
Proof. unfold passed. merge_cases ov; split; try done; naive_solver. Qed.

(** A merge is restricted exactly as far as what it passes through is. *)
Lemma mergeContainer_restricted ov :
  restricted_container (fst (mergeContainerSecurityContext ov)) ↔ container_admissible ov.
Proof.
  assert (∃ caps, Some {| cap_add := []; cap_drop := ["ALL"; "NET_RAW"] |} = Some caps
            ∧ cap_add caps = [] ∧ "ALL" ∈ cap_drop caps) as Hcaps
    by (eexists; split; [done|]; split; [done | left]).
  destruct ov as [ov|]; [|by split; [|split; simpl; auto]]. split.
  - intros [_ _ _ _ _ _ _ _ Hsec Hse]. destruct (mergeContainer_passes ov) as [Hs Hp].
    rewrite Hs in Hse. split; [|done]. by apply (passed_known _ _ Hp).
  - intros [Hsec Hse].
    merge_cases ov; (split; simpl; auto; try congruence; by apply seccomp_known_confined).
Qed.

Lemma mergePod_restricted ov :
  restricted_pod (fst (mergePodSecurityContext ov)) ↔ pod_admissible ov.
Proof.
  destruct ov as [ov|]; [|by split; [|split; simpl; auto]]. split.
  - intros [_ _ _ _ Hsec Hse]. destruct (mergePod_passes ov) as [Hs Hp].
    rewrite Hs in Hse. split; [|done]. by apply (passed_known _ _ Hp).
  - intros [Hsec Hse].
    merge_cases ov; (split; simpl; auto; try congruence; by apply seccomp_known_confined).
Qed.

Lemma mergePod_violations ov :
  snd (mergePodSecurityContext (Some ov)) = [] ↔ ¬ pod_weakens ov.
Proof.
  unfold pod_weakens, ptr_false. destruct ov as [se w u g nr sg fs sy fp sc aa]. simpl.
  destruct nr as [[]|], u as [u|], sc as [sp|]; simpl;
    repeat case_decide; simpl; naive_solver.
Qed.

Lemma app_if_nil {A} (l : list A) (b : bool) (x : A) :
  l ++ (if b then [x] else []) = [] ↔ l = [] ∧ b = false.
Proof. destruct b; rewrite app_nil; naive_solver. Qed.

Lemma if_nil {A} (b : bool) (x : A) : (if b then [x] else []) = [] ↔ b = false.
Proof. destruct b; naive_solver. Qed.

Lemma app_one_not_nil {A} (l : list A) (x : A) : l ++ [x] = [] ↔ False.
Proof. rewrite app_nil. naive_solver. Qed.

Lemma mergeContainer_violations ov :
  snd (mergeContainerSecurityContext (Some ov)) = [] ↔ ¬ container_weakens ov.
Proof.
  unfold container_weakens, mergeContainerSecurityContext. hide_strings.
  destruct ov as [caps pr se w u g nr ro ape pm sc aa]. simpl.
  destruct u as [u|], caps as [[[|a adds] drops]|], sc as [sp|]; simpl;
    repeat case_decide; simpl;
    rewrite ?app_one_not_nil, ?app_if_nil, ?if_nil, ?ptr_true_false, ?ptr_false_false;
    (split; [intros Hv Hw; destruct_and? Hv; destruct_or? Hw; congruence
            |intros Hw; first [apply Hw; naive_solver | split_and?; intros ?; apply Hw; naive_solver]]).
Qed.

Lemma mergePod_violations_opt ov :
  snd (mergePodSecurityContext ov) = [] ↔ ¬ ∃ p, ov = Some p ∧ pod_weakens p.
Proof.
  destruct ov as [p|]; [rewrite mergePod_violations | simpl]; naive_solver.
Qed.

Lemma mergeContainer_violations_opt ov :
  snd (mergeContainerSecurityContext ov) = [] ↔ ¬ ∃ c, ov = Some c ∧ container_weakens c.
Proof.
  destruct ov as [c|]; [rewrite mergeContainer_violations | simpl]; naive_solver.
Qed.

(** ** [ApplySecurity] as a function of its parts *)

Definition pod_override (ov : option SecurityOverrides) : option PodSecurityContext :=
  o ← ov; so_Pod o.
Definition container_override (ov : option SecurityOverrides) : option SecurityContext :=
  o ← ov; so_Container o.

Definition mounts_tmp (c : Container) : Prop := VolumeTmp ∈ (vm_name <$> ct_volumeMounts c).
Definition has_tmp_volume (p : PodSpec) : Prop := VolumeTmp ∈ (v_name <$> ps_volumes p).

Lemma existsb_name {A} (f : A → string) (n : string) (l : list A) :
  existsb (λ x, bool_decide (f x = n)) l = true ↔ n ∈ (f <$> l).
Proof.
  rewrite existsb_elem_of, list_elem_of_fmap.
  setoid_rewrite bool_decide_eq_true. naive_solver.
Qed.

Definition secured (ov : option SecurityContext) (c : Container) : Container :=
  applyContainer ov c.

Lemma applyContainer_sc ov c :
  ct_securityContext (applyContainer ov c)
  = Some (default RestrictedContainerSecurityContext ov).
Proof. unfold applyContainer. by destruct (existsb _ _). Qed.

Lemma applyContainer_name ov c : ct_name (applyContainer ov c) = ct_name c.
Proof. unfold applyContainer. by destruct (existsb _ _). Qed.

Lemma applyContainer_env ov c : ct_env (applyContainer ov c) = ct_env c.
Proof. unfold applyContainer. by destruct (existsb _ _). Qed.

Lemma applyContainer_mounts ov c :
  vm_name <$> ct_volumeMounts (applyContainer ov c)
  = (vm_name <$> ct_volumeMounts c) ++
    (if bool_decide (mounts_tmp c) then [] else [VolumeTmp]).
Proof.
  unfold applyContainer, mounts_tmp. simpl.
  destruct (existsb _ _) eqn:E; simpl.
  - apply existsb_name in E. rewrite bool_decide_eq_true_2 by done.
    by rewrite app_nil_r.
  - rewrite bool_decide_eq_false_2, fmap_app; [done|].
    rewrite <- existsb_name. congruence.
Qed.

Lemma applyContainer_tmp ov c : mounts_tmp (applyContainer ov c).
Proof.
  unfold mounts_tmp at 1. rewrite applyContainer_mounts.
  case_bool_decide; rewrite elem_of_app; [by left | right; by left].
Qed.

(** A second pass over a container changes nothing. *)
Lemma applyContainer_idemp ov c :
  applyContainer ov (applyContainer ov c) = applyContainer ov c.
Proof.
  pose proof (applyContainer_tmp ov c) as Ht. apply existsb_name in Ht.
  pose proof (applyContainer_sc ov c) as Hsc.
  set (c' := applyContainer ov c) in *. clearbody c'.
  unfold applyContainer. simpl. rewrite Ht. destruct c'. simpl in *. by subst.
Qed.

#[export] Hint Resolve applyContainer_tmp : agentops.
#[export] Hint Rewrite applyContainer_sc applyContainer_name applyContainer_env
  applyContainer_idemp : agentops_rw.

(** The container of a pod after [ApplySecurity]. *)
Definition main_or_sidecar (main : string) (ov : option SecurityOverrides) (c : Container)
  : Container :=
  if decide (ct_name c = main)
  then applyContainer (Some (fst (mergeContainerSecurityContext (container_override ov)))) c
  else applyContainer None c.

Lemma main_or_sidecar_idemp main ov c :
  main_or_sidecar main ov (main_or_sidecar main ov c) = main_or_sidecar main ov c.
Proof.
  unfold main_or_sidecar.
  destruct (decide (ct_name c = main)) as [E|E]; rewrite applyContainer_name;
    [rewrite decide_True by done | rewrite decide_False by done];
    apply applyContainer_idemp.
Qed.

Lemma ApplySecurity_parts ps main ov :
  let ps' := fst (ApplySecurity ps main ov) in
  ps_securityContext ps' = Some (fst (mergePodSecurityContext (pod_override ov)))
  ∧ ps_automountToken ps'
    = Some (ptr_true (o ← ov; so_AutomountServiceAccountToken o))
  ∧ ps_initContainers ps' = map (applyContainer None) (ps_initContainers ps)
  ∧ ps_containers ps' = map (main_or_sidecar main ov) (ps_containers ps)
  ∧ ps_volumes ps' = ps_volumes ps ++
      (if bool_decide (has_tmp_volume ps) then [] else [TmpVolume])
  ∧ ps_serviceAccountName ps' = ps_serviceAccountName ps
  ∧ ps_restartPolicy ps' = ps_restartPolicy ps.
Proof.
  unfold ApplySecurity, main_or_sidecar, pod_override, container_override, has_tmp_volume.
  destruct (mergePodSecurityContext _) as [mp pv].
  destruct (mergeContainerSecurityContext _) as [mc cv]. simpl.
  destruct (existsb _ _) eqn:E; simpl.
  - apply existsb_name in E. rewrite bool_decide_eq_true_2 by done.
    by rewrite app_nil_r.
  - rewrite bool_decide_eq_false_2; [done|]. rewrite <- existsb_name. congruence.
Qed.

Lemma ApplySecurity_tmp_volume ps main ov : has_tmp_volume (fst (ApplySecurity ps main ov)).
Proof.
  destruct (ApplySecurity_parts ps main ov) as (_ & _ & _ & _ & Hv & _).
  unfold has_tmp_volume at 1. rewrite Hv, fmap_app, elem_of_app.
  destruct (bool_decide (has_tmp_volume ps)) eqn:E; [|by right; left].
  apply bool_decide_eq_true in E. by left.
Qed.

Lemma Forall2_map_self {A B} (P : A → B → Prop) (f : A → B) l : (∀ x, P x (f x)) → Forall2 P l (map f l).
Proof. intros HP. induction l; constructor; auto. Qed.

(** What becomes of a container: a context that is restricted exactly when [adm], and the
    mount of the tmp volume at /tmp unless the container has a mount of that volume
    already; nothing else changes. *)
Definition hardened (adm : Prop) (c c' : Container) : Prop :=
  (∃ sc, c' = c <| ct_securityContext := Some sc |>
              <| ct_volumeMounts ::= λ ms, ms ++ (if bool_decide (mounts_tmp c) then [] else [mkMount "tmp" "/tmp" "" false]) |> ∧
         (restricted_container sc ↔ adm)) ∧
  mounts_tmp c'.

Lemma applyContainer_hardened ov c adm :
  (restricted_container (default RestrictedContainerSecurityContext ov) ↔ adm) → hardened adm c (applyContainer ov c).
Proof.
  intros Hadm. split; [|apply applyContainer_tmp]. exists (default RestrictedContainerSecurityContext ov). split; [|done].
  unfold applyContainer, mounts_tmp. simpl. destruct (existsb _ _) eqn:E.
  - apply existsb_name in E. rewrite bool_decide_eq_true_2 by done. destruct c. unfold upd, rebuild; cbn. by rewrite app_nil_r.
  - rewrite bool_decide_eq_false_2; [by destruct c|]. rewrite <- existsb_name. congruence.
Qed.

(** ** The properties *)

(** [C6] Safety of every pod the operator renders, whatever the pod and the
    overrides.  After [ApplySecurity] the init containers and every container
    but the main one satisfy the restricted profile; the pod and its main
    container do exactly when the two settings the overrides are passed through
    for do, which the code leaves to admission: a seccomp type other than the
    three of the API, and SELinux options.  Each container gets the mount of the
    tmp volume at /tmp, unless it has a mount of that volume already, and is
    otherwise as it was; the volume exists; the API token is mounted only on an
    explicit opt-in. *)
Theorem ApplySecurity_restricted ps main ov :
  let ps' := fst (ApplySecurity ps main ov) in
  (∃ psc, ps_securityContext ps' = Some psc ∧ (restricted_pod psc ↔ pod_admissible (pod_override ov)))
  ∧ Forall2 (hardened True) (ps_initContainers ps) (ps_initContainers ps')
  ∧ Forall2 (λ c, hardened (ct_name c = main → container_admissible (container_override ov)) c)
      (ps_containers ps) (ps_containers ps')
  ∧ ps_volumes ps' = ps_volumes ps ++
      (if bool_decide (has_tmp_volume ps) then [] else [mkVolume "tmp" (EmptyDir (Some "64Mi"))])
  ∧ has_tmp_volume ps'
  ∧ (ps_automountToken ps' = Some true ↔
       ∃ o, ov = Some o ∧ so_AutomountServiceAccountToken o = Some true).
Proof.
  intros ps'. destruct (ApplySecurity_parts ps main ov) as (Hpsc & Hau & Hi & Hm & Hv & _).
  fold ps' in Hpsc, Hau, Hi, Hm, Hv. split_and!.
  - rewrite Hpsc. eexists. split; [done|]. apply mergePod_restricted.
  - rewrite Hi. apply Forall2_map_self. intros c.
    by apply applyContainer_hardened, (mergeContainer_restricted None).
  - rewrite Hm. apply Forall2_map_self. intros c. unfold main_or_sidecar.
    destruct (decide (ct_name c = main)) as [Hn|Hn]; apply applyContainer_hardened; cbn [default from_option id].
    + rewrite mergeContainer_restricted. tauto.
    + pose proof (proj2 (mergeContainer_restricted None) I). tauto.
  - exact Hv.
  - apply ApplySecurity_tmp_volume.
  - rewrite Hau. unfold ptr_true. destruct ov as [o|]; simpl.
    + destruct (so_AutomountServiceAccountToken o) as [[]|] eqn:E; simpl; naive_solver.
    + naive_solver.
Qed.

Definition sample_container : Container :=
  mkContainer "agent-runtime" "img" "" [] [] [] (mkResources None None) [] None None None.
Definition sample_pod : PodSpec := mkPodSpec [] [sample_container] [] "sa" None None "".
Definition sample_overrides : SecurityOverrides :=
  mkSecurityOverrides
    (Some (RestrictedPodSecurityContext <| psc_runAsUser := Some 0%Z |>
                                        <| psc_runAsNonRoot := Some false |>))
    (Some (RestrictedContainerSecurityContext <| sc_privileged := Some true |>)) None.

Lemma ApplySecurity_restricted_witness :
  let ps' := fst (ApplySecurity sample_pod "agent-runtime" (Some sample_overrides)) in
  ∃ psc, ps_securityContext ps' = Some psc ∧ restricted_pod psc.
Proof.
  destruct (ApplySecurity_restricted sample_pod "agent-runtime" (Some sample_overrides)) as [(psc & Hp & Hr) _].
  exists psc. split; [exact Hp|]. apply Hr. split; [intros ? [=]|exact I].
Defined.

(** One setting over its default. *)
Lemma over_bool b d : b ∪ Some d = Some d ↔ b ≠ Some (negb d).
Proof. destruct b as [[]|], d; naive_solver. Qed.
Lemma over_user u d : d ≠ 0%Z → u ∪ Some d ≠ Some 0%Z ↔ u ≠ Some 0%Z.
Proof. destruct u; cbn; naive_solver. Qed.
Lemma over_None {A} (o : option A) : o ∪ None = o.
Proof. by destruct o. Qed.
Lemma over_seccomp o sp : sp_type sp = SeccompRuntimeDefault →
  seccomp_restricted (o ∪ Some sp) ↔ ¬ seccomp_unconfined o ∧ seccomp_known o.
Proof.
  intros Hsp. destruct o as [x|]; cbn; [|naive_solver]. destruct (sp_type x); naive_solver.
Qed.

Lemma over_caps o d : cap_add d = [] → "ALL" ∈ cap_drop d →
  (∃ caps, o ∪ Some d = Some caps ∧ cap_add caps = [] ∧ "ALL" ∈ cap_drop caps) ↔
  ¬ caps_added o ∧ ∀ caps, o = Some caps → "ALL" ∈ cap_drop caps.
Proof.
  intros Ha Hd. destruct o as [c|]; cbn; [|naive_solver]. split.
  - intros (caps & [= <-] & -> & Hin). naive_solver.
  - intros [Hn Hin]. exists c. destruct (cap_add c); naive_solver.
Qed.

(** A profile restricted as given asks for nothing the merges would not take. *)
Lemma overlay_pod_restricted p :
  restricted_pod (overlay_pod p) ↔ ¬ pod_weakens p ∧ pod_admissible (Some p) ∧
    psc_sysctls p = [] ∧ psc_windowsHostProcess p ≠ Some true.
Proof.
  pose proof (over_bool (psc_runAsNonRoot p) true). pose proof (over_user (psc_runAsUser p) RestrictedRunAsUser ltac:(done)).
  pose proof (over_seccomp (psc_seccompProfile p) (mkSeccomp SeccompRuntimeDefault None) eq_refl).
  unfold pod_weakens, pod_admissible. cbn [negb] in *. split.
  - intros [K1 K2 K3 K4 K5 K6]. cbn [overlay_pod psc_runAsNonRoot psc_runAsUser psc_sysctls psc_windowsHostProcess
      psc_seccompProfile psc_seLinuxOptions RestrictedPodSecurityContext] in *. rewrite over_None in K4; rewrite over_None in K6. tauto.
  - intros Hp. split; cbn [overlay_pod psc_runAsNonRoot psc_runAsUser psc_sysctls psc_windowsHostProcess
      psc_seccompProfile psc_seLinuxOptions RestrictedPodSecurityContext]; rewrite ?over_None; tauto.
Qed.

Ltac container_fields :=
  cbn [overlay_container sc_capabilities sc_privileged sc_seLinuxOptions sc_windowsHostProcess sc_runAsUser
    sc_runAsNonRoot sc_readOnlyRootFilesystem sc_allowPrivilegeEscalation sc_procMount sc_seccompProfile
    RestrictedContainerSecurityContext] in *.

Lemma overlay_container_restricted c :
  restricted_container (overlay_container c) ↔ ¬ container_weakens c ∧ container_admissible (Some c) ∧
    sc_procMount c = None ∧ sc_windowsHostProcess c ≠ Some true ∧
    ∀ caps, sc_capabilities c = Some caps → "ALL" ∈ cap_drop caps.
Proof.
  pose proof (over_bool (sc_allowPrivilegeEscalation c) false). pose proof (over_bool (sc_runAsNonRoot c) true).
  pose proof (over_bool (sc_readOnlyRootFilesystem c) true).
  pose proof (over_seccomp (sc_seccompProfile c) (mkSeccomp SeccompRuntimeDefault None) eq_refl).
  pose proof (over_caps (sc_capabilities c) (mkCaps [] ["ALL"; "NET_RAW"]) eq_refl ltac:(left)).
  unfold container_weakens, container_admissible. cbn [negb] in *. split.
  - intros [K1 K2 K3 K4 K5 K6 K7 K8 K9 K10]. container_fields.
    repeat match goal with K : context [?o ∪ None] |- _ => rewrite (over_None o) in K end. tauto.
  - intros Hc. split; container_fields; rewrite ?over_None; tauto.
Qed.


(** [C8] The floor cannot be passed twice over: applying [ApplySecurity] to a
    pod it produced changes nothing, so a builder may run on its own output. *)
Theorem ApplySecurity_idempotent ps main ov :
  let ps' := fst (ApplySecurity ps main ov) in
  fst (ApplySecurity ps' main ov) = ps'.
Proof.
  intros ps'.
  destruct (ApplySecurity_parts ps main ov) as (H1 & H2 & H3 & H4 & H5 & H6 & H7).
  destruct (ApplySecurity_parts ps' main ov) as (K1 & K2 & K3 & K4 & K5 & K6 & K7).
  fold ps' in H1, H2, H3, H4, H5, H6, H7.
  rewrite bool_decide_eq_true_2, app_nil_r in K5 by apply ApplySecurity_tmp_volume.
  assert (map (applyContainer None) (ps_initContainers ps') = ps_initContainers ps') as Ei.
  { rewrite H3, map_map. apply map_ext. intros c. by rewrite applyContainer_idemp. }
  assert (map (main_or_sidecar main ov) (ps_containers ps') = ps_containers ps') as Em.
  { rewrite H4, map_map. apply map_ext. intros c. apply main_or_sidecar_idemp. }
  rewrite Ei in K3. rewrite Em in K4.
  destruct (fst (ApplySecurity ps' main ov)), ps'. simpl in *. by subst.
Qed.

(** What is allowed is honoured: an override that does not weaken the
    pod is merged field by field, the unset fields keeping the defaults. *)
Theorem mergePod_honours ov :
  ¬ pod_weakens ov →
  let out := fst (mergePodSecurityContext (Some ov)) in
  let dflt := RestrictedPodSecurityContext in
  psc_runAsUser out = psc_runAsUser ov ∪ psc_runAsUser dflt
  ∧ psc_runAsGroup out = psc_runAsGroup ov ∪ psc_runAsGroup dflt
  ∧ psc_fsGroup out = psc_fsGroup ov ∪ psc_fsGroup dflt
  ∧ psc_supplementalGroups out = psc_supplementalGroups ov
  ∧ psc_fsGroupChangePolicy out = psc_fsGroupChangePolicy ov
  ∧ psc_seccompProfile out = psc_seccompProfile ov ∪ psc_seccompProfile dflt
  ∧ psc_seLinuxOptions out = psc_seLinuxOptions ov
  ∧ psc_runAsNonRoot out = Some true.
Proof.
  unfold pod_weakens, mergePodSecurityContext. hide_strings.
  destruct ov as [se w u g nr sg fs sy fp sc aa]. simpl. intros Hw.
  assert (∀ n, u = Some n → n ≠ 0%Z) as Hu by (intros n -> ->; apply Hw; auto).
  assert (∀ p, sc = Some p → sp_type p ≠ SeccompUnconfined) as Hs
    by (intros p -> ?; apply Hw; auto).
  clear Hw. destruct u as [u|], sc as [sp|]; simpl;
    try rewrite (decide_False (P := u = 0%Z)) by auto;
    try rewrite (decide_False (P := sp_type sp = SeccompUnconfined)) by auto;
    clear Hu Hs; destruct g, sg, fs, fp, se; split_and!; reflexivity.
Qed.

Lemma mergePod_honours_witness :
  psc_runAsUser (fst (mergePodSecurityContext
    (Some (RestrictedPodSecurityContext <| psc_runAsUser := Some 1000%Z |>)))) = Some 1000%Z.
Proof.
  destruct (mergePod_honours (RestrictedPodSecurityContext <| psc_runAsUser := Some 1000%Z |>))
    as [H _].
  - unfold pod_weakens. simpl. intros [?|[?|?]]; congruence.
  - exact H.
Defined.

(** A profile type the API does not define is passed through unreported: the
    merge rejects only [Unconfined]. *)
Lemma mergePod_unknown_seccomp t :
  let ov := RestrictedPodSecurityContext
              <| psc_seccompProfile := Some (mkSeccomp (SeccompOther t) None) |> in
  snd (mergePodSecurityContext (Some ov)) = []
  ∧ ¬ seccomp_restricted (psc_seccompProfile (fst (mergePodSecurityContext (Some ov)))).
Proof. simpl. split; [done|]. naive_solver. Qed.
