(* ===== verification/AgentGit.v ===== *)
(** * Git workspaces of task runs (internal/resources/agent_git.go)

    How an Integration becomes the clone URL, branch and credentials a task
    run works with, and the environment variables that carry them into the
    pod. *)

From S2P Require Import Prelude GoLib KubeTypes ApiTypes Effects ResourceCommon.

Open Scope string_scope.
Open Scope list_scope.

Definition ProviderGitHub := "github".
Definition ProviderGitLab := "gitlab".
Definition ProviderGit := "git".

Record GitWorkspaceConfig := mkGit {
  gw_Provider : string;
  gw_CloneURL : string;
  gw_Branch : string;
  gw_BaseBranch : string;
  gw_Credentials : option SecretKeyRef;
  gw_GitHubOwner : string;
  gw_GitHubRepo : string;
  gw_GitHubAPIURL : string;
  gw_GitLabProject : string;
  gw_GitLabBaseURL : string;
}.
#[export] Instance GitWorkspaceConfig_fields : Fields GitWorkspaceConfig := λ r,
  mkGit (gw_Provider r) (gw_CloneURL r) (gw_Branch r) (gw_BaseBranch r)
    (gw_Credentials r) (gw_GitHubOwner r) (gw_GitHubRepo r) (gw_GitHubAPIURL r)
    (gw_GitLabProject r) (gw_GitLabBaseURL r).

(** [ToolEntry] of configmap.go. *)
Record ToolEntry := mkToolEntry {
  te_Name : string; te_Path : string; te_Description : string; te_Category : string;
  te_UIHint : string;
}.

Definition ResolveGitWorkspace (gitSpec : AgentRunGitSpec) (resource : Integration)
  : res GitWorkspaceConfig :=
  let spec := ig_Spec resource in
  let name := om_name (ig_Meta resource) in
  let cfg := mkGit "" "" (arg_Branch gitSpec) (arg_BaseBranch gitSpec) (is_Credentials spec)
               "" "" "" "" "" in
  let cfg :=
    if decide (is_Kind spec = IntegrationKindGitHubRepo) then
      match is_GitHub spec with
      | None => Err (errorf ("integration " +:+ GoFmt.q name +:+
                  " kind is github-repo but spec.github is nil"))
      | Some gh =>
          let cfg := cfg
            <| gw_Provider := ProviderGitHub |>
            <| gw_CloneURL := "https://github.com/" +:+ ghr_Owner gh +:+ "/" +:+ ghr_Repo gh +:+ ".git" |>
            <| gw_GitHubOwner := ghr_Owner gh |>
            <| gw_GitHubRepo := ghr_Repo gh |>
            <| gw_GitHubAPIURL := ghr_APIURL gh |> in
          let cfg := cfg <| gw_BaseBranch ::= λ b, str_or b (ghr_DefaultBranch gh) |> in
          Ok (if decide (gw_GitHubAPIURL cfg ≠ "") then
                cfg <| gw_CloneURL := gw_GitHubAPIURL cfg +:+ "/" +:+ ghr_Owner gh +:+ "/" +:+ ghr_Repo gh +:+ ".git" |>
              else cfg)
      end
    else if decide (is_Kind spec = IntegrationKindGitLabProject) then
      match is_GitLab spec with
      | None => Err (errorf ("integration " +:+ GoFmt.q name +:+
                  " kind is gitlab-project but spec.gitlab is nil"))
      | Some gl =>
          let cfg := cfg
            <| gw_Provider := ProviderGitLab |>
            <| gw_CloneURL := glr_BaseURL gl +:+ "/" +:+ glr_Project gl +:+ ".git" |>
            <| gw_GitLabProject := glr_Project gl |>
            <| gw_GitLabBaseURL := glr_BaseURL gl |> in
          Ok (cfg <| gw_BaseBranch ::= λ b, str_or b (glr_DefaultBranch gl) |>)
      end
    else if decide (is_Kind spec = IntegrationKindGitLabGroup) then
      match is_GitLabGroup spec with
      | None => Err (errorf ("integration " +:+ GoFmt.q name +:+
                  " kind is gitlab-group but spec.gitlabGroup is nil"))
      | Some glg =>
          if decide (arg_Project gitSpec = "") then
            Err (errorf ("integration " +:+ GoFmt.q name +:+
              " is a gitlab-group; spec.git.project (full project path, e.g. " +:+
              GoFmt.q (glg_Group glg) +:+ "/<repo>) is required"))
          else if negb (GoStrings.HasPrefix (arg_Project gitSpec) (glg_Group glg +:+ "/")) then
            Err (errorf ("project " +:+ GoFmt.q (arg_Project gitSpec) +:+
              " is not within gitlab-group " +:+ GoFmt.q (glg_Group glg)))
          else if decide (glg_Projects glg ≠ [] ∧ arg_Project gitSpec ∉ glg_Projects glg) then
            Err (errorf ("project " +:+ GoFmt.q (arg_Project gitSpec) +:+
              " is not in the allow-list for gitlab-group " +:+ GoFmt.q name))
          else
            Ok (cfg
              <| gw_Provider := ProviderGitLab |>
              <| gw_CloneURL := glg_BaseURL glg +:+ "/" +:+ arg_Project gitSpec +:+ ".git" |>
              <| gw_GitLabProject := arg_Project gitSpec |>
              <| gw_GitLabBaseURL := glg_BaseURL glg |>)
      end
    else if decide (is_Kind spec = IntegrationKindGitRepo) then
      match is_Git spec with
      | None => Err (errorf ("integration " +:+ GoFmt.q name +:+
                  " kind is git-repo but spec.git is nil"))
      | Some g =>
          Ok (cfg
            <| gw_Provider := ProviderGit |>
            <| gw_CloneURL := gr_URL g |>
            <| gw_BaseBranch ::= λ b, str_or b (gr_Branch g) |>)
      end
    else Err (errorf ("integration " +:+ GoFmt.q name +:+ " kind " +:+ GoFmt.q (is_Kind spec)
                +:+ " is not a git resource")) in
  match cfg with
  | Err e => Err e
  | Ok cfg => Ok (cfg <| gw_BaseBranch ::= λ b, str_or b "main" |>)
  end.

Definition GitEnvVars (g : GitWorkspaceConfig) : list EnvVar :=
  let env :=
    [ EnvValue "GIT_PROVIDER" (gw_Provider g);
      EnvValue "GIT_REPO_URL" (gw_CloneURL g);
      EnvValue "GIT_BRANCH" (gw_Branch g);
      EnvValue "GIT_BASE_BRANCH" (gw_BaseBranch g) ] in
  let env :=
    if decide (gw_Provider g = ProviderGitHub) then
      let env := env ++ [ EnvValue "GIT_OWNER" (gw_GitHubOwner g);
                          EnvValue "GIT_REPO" (gw_GitHubRepo g) ] in
      if decide (gw_GitHubAPIURL g ≠ "")
      then env ++ [ EnvValue "GITHUB_API_URL" (gw_GitHubAPIURL g) ] else env
    else if decide (gw_Provider g = ProviderGitLab) then
      env ++ [ EnvValue "GIT_PROJECT" (gw_GitLabProject g);
               EnvValue "GITLAB_URL" (gw_GitLabBaseURL g);
               EnvValue "GITLAB_PROJECT" (gw_GitLabProject g) ]
    else env in
  match gw_Credentials g with
  | None => env
  | Some cr =>
      let tokenEnvName :=
        if decide (gw_Provider g = ProviderGitHub) then "GH_TOKEN"
        else if decide (gw_Provider g = ProviderGitLab) then "GITLAB_TOKEN"
        else "GIT_TOKEN" in
      let env := env ++ [ EnvSecret tokenEnvName (skr_Name cr) (skr_Key cr) ] in
      if decide (tokenEnvName ≠ "GIT_TOKEN")
      then env ++ [ EnvSecret "GIT_TOKEN" (skr_Name cr) (skr_Key cr) ] else env
  end.

Definition is_group (i : Integration) : bool :=
  bool_decide (is_Kind (ig_Spec i) = IntegrationKindGitLabGroup).
Definition is_project (i : Integration) : bool :=
  bool_decide (is_Kind (ig_Spec i) = IntegrationKindGitLabProject).

(** The loop that picks the identity; it breaks once a group is chosen. *)
Fixpoint choose_gitlab (chosen : option Integration) (integrations : list Integration)
  : option Integration :=
  match integrations with
  | [] => chosen
  | i :: l =>
      let chosen :=
        if is_group i then Some i
        else if is_project i then
          match chosen with None => Some i | Some _ => chosen end
        else chosen in
      match chosen with
      | Some c => if is_group c then chosen else choose_gitlab chosen l
      | None => choose_gitlab chosen l
      end
  end.

Definition GitLabEnvFromIntegrations (integrations : list Integration)
  (bindings : gmap string IntegrationBinding) : list EnvVar :=
  match choose_gitlab None integrations with
  | None => []
  | Some chosen =>
      let binding := default (mkIntegrationBinding "" false false)
                       (bindings !! om_name (ig_Meta chosen)) in
      let readOnly := ib_ReadOnly binding in
      let body :=
        if is_project chosen then
          gl ← is_GitLab (ig_Spec chosen);
          Some ([ EnvValue "GITLAB_URL" (glr_BaseURL gl);
                  EnvValue "GITLAB_PROJECT" (glr_Project gl) ], readOnly)
        else if is_group chosen then
          gl ← is_GitLabGroup (ig_Spec chosen);
          let env := [ EnvValue "GITLAB_URL" (glg_BaseURL gl);
                       EnvValue "GITLAB_GROUP" (glg_Group gl) ] in
          let env := match glg_Projects gl with
                     | [] => env
                     | ps => env ++ [ EnvValue "GITLAB_PROJECTS" (GoStrings.Join ps ",") ] end in
          Some (env, if glg_ReadOnly gl then true else readOnly)
        else Some ([], readOnly) in
      match body with
      | None => []
      | Some (env, readOnly) =>
          let env := if (readOnly : bool)
                     then env ++ [ EnvValue "GITLAB_READONLY" "true" ] else env in
          match is_Credentials (ig_Spec chosen) with
          | None => env
          | Some cr => env ++ map (λ name, EnvSecret name (skr_Name cr) (skr_Key cr))
                                  ["GITLAB_TOKEN"; "GIT_TOKEN"]
          end
      end
  end.

Definition GitToolEntries (g : GitWorkspaceConfig) : list ToolEntry :=
  if decide (gw_Provider g = ProviderGitHub) then
    [ mkToolEntry "github" (MountTools +:+ "/github")
        "GitHub API — PRs, issues, branches, checks, workflows" "git" "github" ]
  else if decide (gw_Provider g = ProviderGitLab) then
    [ mkToolEntry "gitlab" (MountTools +:+ "/gitlab")
        "GitLab API — MRs, issues, pipelines, projects" "git" "gitlab" ]
  else [].

(** ** Specification *)

(** The part of the Integration its kind selects, with the workspace it
    stands for: the provider's name, the URL to clone and the default branch
    of the repository.  A group names no repository: the run does, and the
    group only bounds the choice. *)
Inductive names_repo (project : string) (s : IntegrationSpec)
  : string → string → string → Prop :=
| repo_github gh :
    is_Kind s = IntegrationKindGitHubRepo → is_GitHub s = Some gh →
    names_repo project s ProviderGitHub
      (str_or (ghr_APIURL gh) "https://github.com" +:+ "/" +:+ ghr_Owner gh +:+ "/" +:+ ghr_Repo gh +:+ ".git")
      (ghr_DefaultBranch gh)
| repo_gitlab gl :
    is_Kind s = IntegrationKindGitLabProject → is_GitLab s = Some gl →
    names_repo project s ProviderGitLab
      (glr_BaseURL gl +:+ "/" +:+ glr_Project gl +:+ ".git") (glr_DefaultBranch gl)
| repo_group glg rest :
    is_Kind s = IntegrationKindGitLabGroup → is_GitLabGroup s = Some glg →
    project = glg_Group glg +:+ "/" +:+ rest →
    (glg_Projects glg = [] ∨ project ∈ glg_Projects glg) →
    names_repo project s ProviderGitLab
      (glg_BaseURL glg +:+ "/" +:+ project +:+ ".git") ""
| repo_git g :
    is_Kind s = IntegrationKindGitRepo → is_Git s = Some g →
    names_repo project s ProviderGit (gr_URL g) (gr_Branch g).

(** A secret enters an environment by reference only. *)
Definition token_names : list string := ["GH_TOKEN"; "GITLAB_TOKEN"; "GIT_TOKEN"].
Definition token_by_reference (cr : option SecretKeyRef) (e : EnvVar) : Prop :=
  (ev_name e ∈ token_names ↔ is_Some (ev_from e)) ∧
  ∀ src, ev_from e = Some src → ev_value e = "" ∧
    ∃ c, cr = Some c ∧ src = FromSecretKey (skr_Name c) (skr_Key c).

(** ** Properties *)

Lemma str_or_app_prefix api rest :
  str_or api "https://github.com" +:+ rest
  = if decide (api ≠ "") then api +:+ rest else "https://github.com" +:+ rest.
Proof. unfold str_or. repeat case_decide; naive_solver. Qed.

(** Inversion of the function, kind by kind. *)
Lemma ResolveGitWorkspace_names gs r cfg :
  ResolveGitWorkspace gs r = Ok cfg →
  ∃ branch,
    names_repo (arg_Project gs) (ig_Spec r) (gw_Provider cfg) (gw_CloneURL cfg) branch ∧
    gw_Branch cfg = arg_Branch gs ∧ gw_Credentials cfg = is_Credentials (ig_Spec r) ∧
    gw_BaseBranch cfg = str_or (str_or (arg_BaseBranch gs) branch) "main".
Proof.
  unfold ResolveGitWorkspace. intros Hres. repeat case_match; simplify_eq.
  all: try match goal with
    | H : negb _ = false |- _ =>
        apply negb_false_iff, GoStrings.HasPrefix_spec in H as [rest Hrest];
        rewrite GoStrings.app_assoc in Hrest end.
  - exists (ghr_DefaultBranch g). split; [|done]. cbn.
    match goal with H : gw_GitHubAPIURL _ ≠ "" |- _ =>
      change (ghr_APIURL g ≠ "") in H;
      pose proof (repo_github (arg_Project gs) (ig_Spec r) g) as Hr;
      rewrite (str_or_id _ "https://github.com" H) in Hr; by apply Hr end.
  - exists (ghr_DefaultBranch g). split; [|done].
    destruct (decide (ghr_APIURL g = "")) as [Hapi|Hapi]; [|exfalso; match goal with H : ¬ _ |- _ => by apply H end].
    assert (str_or (ghr_APIURL g) "https://github.com" = "https://github.com") as Hs
      by (unfold str_or; by rewrite decide_True).
    cbn. pose proof (repo_github (arg_Project gs) (ig_Spec r) g) as Hr. rewrite Hs in Hr. by apply Hr.
  - exists (glr_DefaultBranch g). split; [|done]. by apply repo_gitlab.
  - exists "". cbn. split; [|split_and!; try done].
    + eapply repo_group; [done..|exact Hrest|]. destruct (decide (glg_Projects g = [])); [by left|].
      right. apply dec_stable. naive_solver.
    + unfold str_or. by repeat case_decide.
  - exists (gr_Branch g). split; [|done]. by apply repo_git.
Qed.

Lemma names_repo_resolves gs r prov url branch :
  names_repo (arg_Project gs) (ig_Spec r) prov url branch →
  ∃ cfg, ResolveGitWorkspace gs r = Ok cfg ∧ gw_Provider cfg = prov ∧ gw_CloneURL cfg = url
    ∧ gw_BaseBranch cfg = str_or (str_or (arg_BaseBranch gs) branch) "main".
Proof.
  unfold ResolveGitWorkspace.
  intros Hn. inversion Hn as [gh Hk Hs|gl Hk Hs|glg rest Hk Hs Hp Hl|g Hk Hs]; subst;
    rewrite Hk, Hs.
  - rewrite decide_True by done.
    destruct (decide (ghr_APIURL gh = "")) as [Ha|Ha].
    + rewrite decide_False by (intros Hne; exact (Hne Ha)).
      assert (str_or (ghr_APIURL gh) "https://github.com" = "https://github.com") as ->
        by (unfold str_or; by rewrite decide_True).
      by eexists.
    + rewrite decide_True, str_or_id by exact Ha. by eexists.
  - rewrite decide_False, decide_True by done. by eexists.
  - rewrite !(decide_False (P := _ = IntegrationKindGitHubRepo)),
      (decide_False (P := _ = IntegrationKindGitLabProject)), decide_True by done.
    rewrite decide_False by (rewrite Hp; by destruct (glg_Group glg)).
    assert (GoStrings.HasPrefix (arg_Project gs) (glg_Group glg +:+ "/") = true) as ->.
    { apply GoStrings.HasPrefix_spec. exists rest. by rewrite Hp, GoStrings.app_assoc. }
    cbn [negb]. rewrite decide_False by naive_solver. eexists. split_and!; [done..|].
    cbn. f_equal. unfold str_or. by repeat case_decide.
  - rewrite !(decide_False (P := _ = IntegrationKindGitHubRepo)),
      (decide_False (P := _ = IntegrationKindGitLabProject)),
      (decide_False (P := _ = IntegrationKindGitLabGroup)), decide_True by done. by eexists.
Qed.

(** [C9] A run gets a workspace exactly when its Integration names a
    repository (for a GitLab group: when the run's project lies under the
    group's path, and on its allow-list if there is one), and the workspace
    is that repository, on the run's branch, with the Integration's
    credentials and the run's base branch, else the repository's, else
    main. *)
Theorem ResolveGitWorkspace_spec gs r prov url base :
  (∃ cfg, ResolveGitWorkspace gs r = Ok cfg ∧ gw_Provider cfg = prov ∧ gw_CloneURL cfg = url
     ∧ gw_BaseBranch cfg = base ∧ gw_Branch cfg = arg_Branch gs
     ∧ gw_Credentials cfg = is_Credentials (ig_Spec r)) ↔
  ∃ branch, names_repo (arg_Project gs) (ig_Spec r) prov url branch ∧
    base = str_or (str_or (arg_BaseBranch gs) branch) "main".
Proof.
  split.
  - intros (cfg & Hres & <- & <- & <- & _ & _).
    apply ResolveGitWorkspace_names in Hres as (branch & Hn & _ & _ & Hb). eauto.
  - intros (branch & Hn & ->).
    destruct (names_repo_resolves gs r prov url branch Hn) as (cfg & Hres & <- & <- & Hb).
    exists cfg. apply ResolveGitWorkspace_names in Hres as Hinv.
    destruct Hinv as (_ & _ & Hbr & Hcr & _). by split_and!.
Qed.

(** The prefix test is on the text of the path: a project that climbs out of
    the group is inside it for [ResolveGitWorkspace]. *)
Lemma ResolveGitWorkspace_dotdot :
  let glg := mkGitLabGroupResourceConfig "https://gitlab.com" "team" [] false in
  let spec := mkIntegrationSpec IntegrationKindGitLabGroup "" "" None None None None
                (Some glg) None None None [] in
  gw_CloneURL <$> match ResolveGitWorkspace (mkAgentRunGitSpec "i" "b" "" "team/../other/secret")
      (mkIntegration (newMeta "i" "ns" ∅) spec (mkIntegrationStatus "" [])) with
    | Ok c => Some c | Err _ => None end
  = Some "https://gitlab.com/team/../other/secret.git".
Proof. vm_compute. reflexivity. Qed.

(** *** Environments *)

Lemma env_plain cr n v : n ∉ token_names → token_by_reference cr (EnvValue n v).
Proof. intros Hn. split; cbn; [split; [done | intros [? [=]]] | done]. Qed.

Lemma env_secret c n :
  n ∈ token_names → token_by_reference (Some c) (EnvSecret n (skr_Name c) (skr_Key c)).
Proof.
  intros Hn. split; cbn; [done|]. intros src [= <-]. split; [done|]. by exists c.
Qed.

Ltac all_tokens :=
  rewrite ?Forall_app; cbn [map]; split_and?;
  repeat (apply Forall_cons_2; [auto with agentops|]); apply Forall_nil_2.
Ltac in_names := unfold token_names; rewrite !elem_of_cons, elem_of_nil; naive_solver.
#[local] Hint Extern 1 (token_by_reference _ (EnvValue _ _)) =>
  apply env_plain; in_names : agentops.
#[local] Hint Extern 1 (token_by_reference _ (EnvSecret _ _ _)) =>
  apply env_secret; in_names : agentops.

(** A task run's git token reaches the pod only as a reference to the
    Integration's secret: in the environment of a workspace, the token
    variables are exactly those taken from a secret, that secret is the
    credentials', and the one the git credential helper reads is there exactly
    when there are credentials. *)
Theorem GitEnvVars_token g :
  Forall (token_by_reference (gw_Credentials g)) (GitEnvVars g) ∧
  ("GIT_TOKEN" ∈ map ev_name (GitEnvVars g) ↔ is_Some (gw_Credentials g)).
Proof.
  unfold GitEnvVars. destruct (gw_Credentials g) as [c|].
  all: repeat case_decide; (split; [all_tokens|]).
  all: simpl; rewrite ?elem_of_cons, elem_of_nil; naive_solver.
Qed.

(** The choice of the loop, in one expression. *)
Lemma choose_gitlab_spec l c :
  is_group <$> c ≠ Some true →
  choose_gitlab c l =
  match find is_group l with
  | Some g => Some g
  | None => match c with Some _ => c | None => find is_project l end
  end.
Proof.
  revert c. induction l as [|i l IH]; intros c Hc; cbn; [by destruct c|].
  destruct (is_group i) eqn:Hg; [by rewrite Hg|].
  destruct (is_project i) eqn:Hp; destruct c as [c|]; cbn in Hc.
  - destruct (is_group c) eqn:Hcg; [done|]. rewrite IH; [done|]. cbn. congruence.
  - rewrite Hg, IH; [done|]. cbn. congruence.
  - destruct (is_group c) eqn:Hcg; [done|]. rewrite IH; [done|]. cbn. congruence.
  - by rewrite IH.
Qed.

(** A daemon agent acts under one GitLab identity: the first bound
    gitlab-group, else the first gitlab-project, else none.  Its variables
    are all taken from that Integration: tokens are references to its
    credentials, and the read-only flag is set exactly when the binding or the
    group asks for it. *)
Theorem GitLabEnvFromIntegrations_identity l bindings :
  let env := GitLabEnvFromIntegrations l bindings in
  match match find is_group l with Some g => Some g | None => find is_project l end with
  | None => env = []
  | Some i =>
      let readOnly := default false (ib_ReadOnly <$> bindings !! om_name (ig_Meta i)) in
      Forall (token_by_reference (is_Credentials (ig_Spec i))) env ∧
      (∀ glg, is_group i = true → is_GitLabGroup (ig_Spec i) = Some glg →
         EnvValue "GITLAB_GROUP" (glg_Group glg) ∈ env ∧
         (EnvValue "GITLAB_READONLY" "true" ∈ env ↔ readOnly || glg_ReadOnly glg = true)) ∧
      (∀ gl, is_project i = true → is_GitLab (ig_Spec i) = Some gl →
         EnvValue "GITLAB_PROJECT" (glr_Project gl) ∈ env ∧
         (EnvValue "GITLAB_READONLY" "true" ∈ env ↔ readOnly = true))
  end.
Proof.
  cbv zeta. unfold GitLabEnvFromIntegrations. rewrite choose_gitlab_spec by done.
  destruct (match find is_group l with Some g => Some g | None => find is_project l end)
    as [i|]; [|done].
  assert (ib_ReadOnly (default (mkIntegrationBinding "" false false)
            (bindings !! om_name (ig_Meta i)))
          = default false (ib_ReadOnly <$> bindings !! om_name (ig_Meta i))) as ->
    by (by destruct (bindings !! _)).
  generalize (default false (ib_ReadOnly <$> bindings !! om_name (ig_Meta i))) as ro. intros ro.
  assert (is_project i = true → is_group i = false) as Hexcl.
  { unfold is_project, is_group. rewrite bool_decide_eq_true, bool_decide_eq_false.
    by intros ->. }
  destruct (is_project i) eqn:Hp; [rewrite Hexcl by done|destruct (is_group i) eqn:Hg].
  - destruct (is_GitLab (ig_Spec i)) as [gl|], (is_Credentials (ig_Spec i)) as [c|], ro; simpl;
      (split; [all_tokens|]); (split; [done|]);
      try (intros ? _ [= <-]); rewrite ?elem_of_cons, ?elem_of_nil; naive_solver.
  - destruct (is_GitLabGroup (ig_Spec i)) as [gl|]; simpl;
      [|by split_and!].
    destruct (glg_Projects gl) as [|pj pjs], (is_Credentials (ig_Spec i)) as [c|],
      ro, (glg_ReadOnly gl) eqn:Hro; simpl;
      (split; [all_tokens|]); (split; [|done]);
      intros ? _ [= <-]; rewrite ?Hro, ?elem_of_cons, ?elem_of_nil; naive_solver.
  - destruct (is_Credentials (ig_Spec i)) as [c|], ro; simpl;
      (split; [all_tokens|]); done.
Qed.
