(* ===== verification/ConfigTypes.v ===== *)
(** * The runtime's config.json (internal/resources/configmap.go, the types)

    The structs the operator marshals for the agent runtime, field for field
    with their JSON tags: [req] is a member that is always written, [opt] one
    with [omitempty].  Every codec is lawful, so what is unmarshalled from an
    encoding is the value that was marshalled, and none nests deeper than the
    number of its [Shallow] instance.  [ToolEntry] is declared in
    AgentGit.v. *)

From Stdlib Require Import QArith.
From S2P Require Import Prelude GoLib Json JsonEncode JsonCodec KubeTypes ApiTypes AgentGit.

Open Scope string_scope.
Open Scope list_scope.

#[export] Instance ToolEntry_fields : Fields ToolEntry := λ r,
  mkToolEntry (te_Name r) (te_Path r) (te_Description r) (te_Category r) (te_UIHint r).
#[export] Instance ToolEntry_codec : Codec ToolEntry := {|
  enc r := JObj (
    req "name" (te_Name r) ++
    req "path" (te_Path r) ++
    opt "description" (te_Description r) ++
    opt "category" (te_Category r) ++
    opt "uiHint" (te_UIHint r) ++ []);
  dec := dec_struct [
    fld "name" te_Name; fld "path" te_Path; fld "description" te_Description;
    fld "category" te_Category; fld "uiHint" te_UIHint ];
  zero := mkToolEntry zero zero zero zero zero;
  is_empty _ := false;
  ok r := ok (te_Name r) ∧ ok (te_Path r) ∧ ok (te_Description r) ∧ ok (te_Category r) ∧
    ok (te_UIHint r);
|}.
#[export] Instance ToolEntry_lawful : LawfulCodec ToolEntry.
Proof. struct_lawful ToolEntry_codec. Qed.
#[export] Instance ToolEntry_nonnull : NonNull ToolEntry.
Proof. done. Qed.
#[export] Instance ToolEntry_shallow : Shallow ToolEntry 1.
Proof. struct_shallow ToolEntry_codec. Qed.

Record ProviderVertexEntry := mkProviderVertexEntry {
  pve_Project : string;
  pve_Location : string;
}.
#[export] Instance ProviderVertexEntry_fields : Fields ProviderVertexEntry := λ r,
  mkProviderVertexEntry (pve_Project r) (pve_Location r).
#[export] Instance ProviderVertexEntry_codec : Codec ProviderVertexEntry := {|
  enc r := JObj (
    req "project" (pve_Project r) ++
    req "location" (pve_Location r) ++ []);
  dec := dec_struct [
    fld "project" pve_Project; fld "location" pve_Location ];
  zero := mkProviderVertexEntry zero zero;
  is_empty _ := false;
  ok r := ok (pve_Project r) ∧ ok (pve_Location r);
|}.
#[export] Instance ProviderVertexEntry_lawful : LawfulCodec ProviderVertexEntry.
Proof. struct_lawful ProviderVertexEntry_codec. Qed.
#[export] Instance ProviderVertexEntry_nonnull : NonNull ProviderVertexEntry.
Proof. done. Qed.
#[export] Instance ProviderVertexEntry_shallow : Shallow ProviderVertexEntry 1.
Proof. struct_shallow ProviderVertexEntry_codec. Qed.

Record AnthropicCallDefaultsEntry := mkAnthropicCallDefaultsEntry {
  ace_Effort : string;
  ace_ThinkingBudgetTokens : option Z;
  ace_DisableParallelToolUse : option bool;
}.
#[export] Instance AnthropicCallDefaultsEntry_fields : Fields AnthropicCallDefaultsEntry := λ r,
  mkAnthropicCallDefaultsEntry (ace_Effort r) (ace_ThinkingBudgetTokens r) (ace_DisableParallelToolUse r).
#[export] Instance AnthropicCallDefaultsEntry_codec : Codec AnthropicCallDefaultsEntry := {|
  enc r := JObj (
    opt "effort" (ace_Effort r) ++
    opt "thinkingBudgetTokens" (ace_ThinkingBudgetTokens r) ++
    opt "disableParallelToolUse" (ace_DisableParallelToolUse r) ++ []);
  dec := dec_struct [
    fld "effort" ace_Effort; fld "thinkingBudgetTokens" ace_ThinkingBudgetTokens;
    fld "disableParallelToolUse" ace_DisableParallelToolUse ];
  zero := mkAnthropicCallDefaultsEntry zero zero zero;
  is_empty _ := false;
  ok r := ok (ace_Effort r) ∧ ok (ace_ThinkingBudgetTokens r) ∧ ok (ace_DisableParallelToolUse r);
|}.
#[export] Instance AnthropicCallDefaultsEntry_lawful : LawfulCodec AnthropicCallDefaultsEntry.
Proof. struct_lawful AnthropicCallDefaultsEntry_codec. Qed.
#[export] Instance AnthropicCallDefaultsEntry_nonnull : NonNull AnthropicCallDefaultsEntry.
Proof. done. Qed.
#[export] Instance AnthropicCallDefaultsEntry_shallow : Shallow AnthropicCallDefaultsEntry 1.
Proof. struct_shallow AnthropicCallDefaultsEntry_codec. Qed.

Record OpenAICallDefaultsEntry := mkOpenAICallDefaultsEntry {
  oce_ReasoningEffort : string;
  oce_ServiceTier : string;
}.
#[export] Instance OpenAICallDefaultsEntry_fields : Fields OpenAICallDefaultsEntry := λ r,
  mkOpenAICallDefaultsEntry (oce_ReasoningEffort r) (oce_ServiceTier r).
#[export] Instance OpenAICallDefaultsEntry_codec : Codec OpenAICallDefaultsEntry := {|
  enc r := JObj (
    opt "reasoningEffort" (oce_ReasoningEffort r) ++
    opt "serviceTier" (oce_ServiceTier r) ++ []);
  dec := dec_struct [
    fld "reasoningEffort" oce_ReasoningEffort; fld "serviceTier" oce_ServiceTier ];
  zero := mkOpenAICallDefaultsEntry zero zero;
  is_empty _ := false;
  ok r := ok (oce_ReasoningEffort r) ∧ ok (oce_ServiceTier r);
|}.
#[export] Instance OpenAICallDefaultsEntry_lawful : LawfulCodec OpenAICallDefaultsEntry.
Proof. struct_lawful OpenAICallDefaultsEntry_codec. Qed.
#[export] Instance OpenAICallDefaultsEntry_nonnull : NonNull OpenAICallDefaultsEntry.
Proof. done. Qed.
#[export] Instance OpenAICallDefaultsEntry_shallow : Shallow OpenAICallDefaultsEntry 1.
Proof. struct_shallow OpenAICallDefaultsEntry_codec. Qed.

Record GoogleSafetySettingEntry := mkGoogleSafetySettingEntry {
  gsse_Category : string;
  gsse_Threshold : string;
}.
#[export] Instance GoogleSafetySettingEntry_fields : Fields GoogleSafetySettingEntry := λ r,
  mkGoogleSafetySettingEntry (gsse_Category r) (gsse_Threshold r).
#[export] Instance GoogleSafetySettingEntry_codec : Codec GoogleSafetySettingEntry := {|
  enc r := JObj (
    req "category" (gsse_Category r) ++
    req "threshold" (gsse_Threshold r) ++ []);
  dec := dec_struct [
    fld "category" gsse_Category; fld "threshold" gsse_Threshold ];
  zero := mkGoogleSafetySettingEntry zero zero;
  is_empty _ := false;
  ok r := ok (gsse_Category r) ∧ ok (gsse_Threshold r);
|}.
#[export] Instance GoogleSafetySettingEntry_lawful : LawfulCodec GoogleSafetySettingEntry.
Proof. struct_lawful GoogleSafetySettingEntry_codec. Qed.
#[export] Instance GoogleSafetySettingEntry_nonnull : NonNull GoogleSafetySettingEntry.
Proof. done. Qed.
#[export] Instance GoogleSafetySettingEntry_shallow : Shallow GoogleSafetySettingEntry 1.
Proof. struct_shallow GoogleSafetySettingEntry_codec. Qed.

Record GoogleCallDefaultsEntry := mkGoogleCallDefaultsEntry {
  gce_ThinkingLevel : string;
  gce_ThinkingBudgetTokens : option Z;
  gce_SafetySettings : list GoogleSafetySettingEntry;
}.
#[export] Instance GoogleCallDefaultsEntry_fields : Fields GoogleCallDefaultsEntry := λ r,
  mkGoogleCallDefaultsEntry (gce_ThinkingLevel r) (gce_ThinkingBudgetTokens r) (gce_SafetySettings r).
#[export] Instance GoogleCallDefaultsEntry_codec : Codec GoogleCallDefaultsEntry := {|
  enc r := JObj (
    opt "thinkingLevel" (gce_ThinkingLevel r) ++
    opt "thinkingBudgetTokens" (gce_ThinkingBudgetTokens r) ++
    opt "safetySettings" (gce_SafetySettings r) ++ []);
  dec := dec_struct [
    fld "thinkingLevel" gce_ThinkingLevel;
    fld "thinkingBudgetTokens" gce_ThinkingBudgetTokens;
    fld "safetySettings" gce_SafetySettings ];
  zero := mkGoogleCallDefaultsEntry zero zero zero;
  is_empty _ := false;
  ok r := ok (gce_ThinkingLevel r) ∧ ok (gce_ThinkingBudgetTokens r) ∧ ok (gce_SafetySettings r);
|}.
#[export] Instance GoogleCallDefaultsEntry_lawful : LawfulCodec GoogleCallDefaultsEntry.
Proof. struct_lawful GoogleCallDefaultsEntry_codec. Qed.
#[export] Instance GoogleCallDefaultsEntry_nonnull : NonNull GoogleCallDefaultsEntry.
Proof. done. Qed.
#[export] Instance GoogleCallDefaultsEntry_shallow : Shallow GoogleCallDefaultsEntry 3.
Proof. struct_shallow GoogleCallDefaultsEntry_codec. Qed.

Record ProviderCallDefaultsEntry := mkProviderCallDefaultsEntry {
  pcde_Anthropic : option AnthropicCallDefaultsEntry;
  pcde_OpenAI : option OpenAICallDefaultsEntry;
  pcde_Google : option GoogleCallDefaultsEntry;
}.
#[export] Instance ProviderCallDefaultsEntry_fields : Fields ProviderCallDefaultsEntry := λ r,
  mkProviderCallDefaultsEntry (pcde_Anthropic r) (pcde_OpenAI r) (pcde_Google r).
#[export] Instance ProviderCallDefaultsEntry_codec : Codec ProviderCallDefaultsEntry := {|
  enc r := JObj (
    opt "anthropic" (pcde_Anthropic r) ++
    opt "openai" (pcde_OpenAI r) ++
    opt "google" (pcde_Google r) ++ []);
  dec := dec_struct [
    fld "anthropic" pcde_Anthropic; fld "openai" pcde_OpenAI; fld "google" pcde_Google ];
  zero := mkProviderCallDefaultsEntry zero zero zero;
  is_empty _ := false;
  ok r := ok (pcde_Anthropic r) ∧ ok (pcde_OpenAI r) ∧ ok (pcde_Google r);
|}.
#[export] Instance ProviderCallDefaultsEntry_lawful : LawfulCodec ProviderCallDefaultsEntry.
Proof. struct_lawful ProviderCallDefaultsEntry_codec. Qed.
#[export] Instance ProviderCallDefaultsEntry_nonnull : NonNull ProviderCallDefaultsEntry.
Proof. done. Qed.
#[export] Instance ProviderCallDefaultsEntry_shallow : Shallow ProviderCallDefaultsEntry 4.
Proof. struct_shallow ProviderCallDefaultsEntry_codec. Qed.

Record ProviderOAuth2Entry := mkProviderOAuth2Entry {
  poe_TokenURL : string;
  poe_ClientIDEnv : string;
  poe_ClientSecretEnv : string;
  poe_Scopes : list string;
}.
#[export] Instance ProviderOAuth2Entry_fields : Fields ProviderOAuth2Entry := λ r,
  mkProviderOAuth2Entry (poe_TokenURL r) (poe_ClientIDEnv r) (poe_ClientSecretEnv r) (poe_Scopes r).
#[export] Instance ProviderOAuth2Entry_codec : Codec ProviderOAuth2Entry := {|
  enc r := JObj (
    req "tokenURL" (poe_TokenURL r) ++
    req "clientIDEnv" (poe_ClientIDEnv r) ++
    req "clientSecretEnv" (poe_ClientSecretEnv r) ++
    opt "scopes" (poe_Scopes r) ++ []);
  dec := dec_struct [
    fld "tokenURL" poe_TokenURL; fld "clientIDEnv" poe_ClientIDEnv;
    fld "clientSecretEnv" poe_ClientSecretEnv; fld "scopes" poe_Scopes ];
  zero := mkProviderOAuth2Entry zero zero zero zero;
  is_empty _ := false;
  ok r := ok (poe_TokenURL r) ∧ ok (poe_ClientIDEnv r) ∧ ok (poe_ClientSecretEnv r) ∧
    ok (poe_Scopes r);
|}.
#[export] Instance ProviderOAuth2Entry_lawful : LawfulCodec ProviderOAuth2Entry.
Proof. struct_lawful ProviderOAuth2Entry_codec. Qed.
#[export] Instance ProviderOAuth2Entry_nonnull : NonNull ProviderOAuth2Entry.
Proof. done. Qed.
#[export] Instance ProviderOAuth2Entry_shallow : Shallow ProviderOAuth2Entry 2.
Proof. struct_shallow ProviderOAuth2Entry_codec. Qed.

Record ProviderEntry := mkProviderEntry {
  pen_Name : string;
  pen_Type : string;
  pen_BaseURL : string;
  pen_Headers : gmap string string;
  pen_Organization : string;
  pen_Project : string;
  pen_UseResponsesAPI : bool;
  pen_AzureAPIVersion : string;
  pen_Vertex : option ProviderVertexEntry;
  pen_Bedrock : bool;
  pen_CallDefaults : option ProviderCallDefaultsEntry;
  pen_OAuth2 : option ProviderOAuth2Entry;
}.
#[export] Instance ProviderEntry_fields : Fields ProviderEntry := λ r,
  mkProviderEntry (pen_Name r) (pen_Type r) (pen_BaseURL r) (pen_Headers r) (pen_Organization r)
    (pen_Project r) (pen_UseResponsesAPI r) (pen_AzureAPIVersion r) (pen_Vertex r)
    (pen_Bedrock r) (pen_CallDefaults r) (pen_OAuth2 r).
#[export] Instance ProviderEntry_codec : Codec ProviderEntry := {|
  enc r := JObj (
    req "name" (pen_Name r) ++
    opt "type" (pen_Type r) ++
    opt "baseURL" (pen_BaseURL r) ++
    opt "headers" (pen_Headers r) ++
    opt "organization" (pen_Organization r) ++
    opt "project" (pen_Project r) ++
    opt "useResponsesAPI" (pen_UseResponsesAPI r) ++
    opt "azureAPIVersion" (pen_AzureAPIVersion r) ++
    opt "vertex" (pen_Vertex r) ++
    opt "bedrock" (pen_Bedrock r) ++
    opt "callDefaults" (pen_CallDefaults r) ++
    opt "oauth2" (pen_OAuth2 r) ++ []);
  dec := dec_struct [
    fld "name" pen_Name; fld "type" pen_Type; fld "baseURL" pen_BaseURL;
    fld "headers" pen_Headers; fld "organization" pen_Organization;
    fld "project" pen_Project; fld "useResponsesAPI" pen_UseResponsesAPI;
    fld "azureAPIVersion" pen_AzureAPIVersion; fld "vertex" pen_Vertex;
    fld "bedrock" pen_Bedrock; fld "callDefaults" pen_CallDefaults; fld "oauth2" pen_OAuth2 ];
  zero := mkProviderEntry zero zero zero zero zero zero zero zero zero zero zero zero;
  is_empty _ := false;
  ok r := ok (pen_Name r) ∧ ok (pen_Type r) ∧ ok (pen_BaseURL r) ∧ ok (pen_Headers r) ∧
    ok (pen_Organization r) ∧ ok (pen_Project r) ∧ ok (pen_UseResponsesAPI r) ∧
    ok (pen_AzureAPIVersion r) ∧ ok (pen_Vertex r) ∧ ok (pen_Bedrock r) ∧
    ok (pen_CallDefaults r) ∧ ok (pen_OAuth2 r);
|}.
#[export] Instance ProviderEntry_lawful : LawfulCodec ProviderEntry.
Proof. struct_lawful ProviderEntry_codec. Qed.
#[export] Instance ProviderEntry_nonnull : NonNull ProviderEntry.
Proof. done. Qed.
#[export] Instance ProviderEntry_shallow : Shallow ProviderEntry 5.
Proof. struct_shallow ProviderEntry_codec. Qed.

Record MemorySaveRule := mkMemorySaveRule {
  msv_Tool : string;
  msv_MatchOutput : string;
  msv_MatchArgs : gmap string string;
  msv_Type : string;
  msv_Scope : string;
}.
#[export] Instance MemorySaveRule_fields : Fields MemorySaveRule := λ r,
  mkMemorySaveRule (msv_Tool r) (msv_MatchOutput r) (msv_MatchArgs r) (msv_Type r) (msv_Scope r).
#[export] Instance MemorySaveRule_codec : Codec MemorySaveRule := {|
  enc r := JObj (
    req "tool" (msv_Tool r) ++
    opt "matchOutput" (msv_MatchOutput r) ++
    opt "matchArgs" (msv_MatchArgs r) ++
    opt "type" (msv_Type r) ++
    opt "scope" (msv_Scope r) ++ []);
  dec := dec_struct [
    fld "tool" msv_Tool; fld "matchOutput" msv_MatchOutput; fld "matchArgs" msv_MatchArgs;
    fld "type" msv_Type; fld "scope" msv_Scope ];
  zero := mkMemorySaveRule zero zero zero zero zero;
  is_empty _ := false;
  ok r := ok (msv_Tool r) ∧ ok (msv_MatchOutput r) ∧ ok (msv_MatchArgs r) ∧ ok (msv_Type r) ∧
    ok (msv_Scope r);
|}.
#[export] Instance MemorySaveRule_lawful : LawfulCodec MemorySaveRule.
Proof. struct_lawful MemorySaveRule_codec. Qed.
#[export] Instance MemorySaveRule_nonnull : NonNull MemorySaveRule.
Proof. done. Qed.
#[export] Instance MemorySaveRule_shallow : Shallow MemorySaveRule 2.
Proof. struct_shallow MemorySaveRule_codec. Qed.

Record ContextInjectRule := mkContextInjectRule {
  cxr_Tool : string;
  cxr_Query : string;
  cxr_Limit : Z;
}.
#[export] Instance ContextInjectRule_fields : Fields ContextInjectRule := λ r,
  mkContextInjectRule (cxr_Tool r) (cxr_Query r) (cxr_Limit r).
#[export] Instance ContextInjectRule_codec : Codec ContextInjectRule := {|
  enc r := JObj (
    req "tool" (cxr_Tool r) ++
    opt "query" (cxr_Query r) ++
    opt "limit" (cxr_Limit r) ++ []);
  dec := dec_struct [
    fld "tool" cxr_Tool; fld "query" cxr_Query; fld "limit" cxr_Limit ];
  zero := mkContextInjectRule zero zero zero;
  is_empty _ := false;
  ok r := ok (cxr_Tool r) ∧ ok (cxr_Query r) ∧ ok (cxr_Limit r);
|}.
#[export] Instance ContextInjectRule_lawful : LawfulCodec ContextInjectRule.
Proof. struct_lawful ContextInjectRule_codec. Qed.
#[export] Instance ContextInjectRule_nonnull : NonNull ContextInjectRule.
Proof. done. Qed.
#[export] Instance ContextInjectRule_shallow : Shallow ContextInjectRule 1.
Proof. struct_shallow ContextInjectRule_codec. Qed.

Record ToolHooksEntry := mkToolHooksEntry {
  the_BlockedCommands : list string;
  the_AllowedPaths : list string;
  the_AuditTools : list string;
  the_MemorySaveRules : list MemorySaveRule;
  the_ContextInjectTools : list ContextInjectRule;
}.
#[export] Instance ToolHooksEntry_fields : Fields ToolHooksEntry := λ r,
  mkToolHooksEntry (the_BlockedCommands r) (the_AllowedPaths r) (the_AuditTools r) (the_MemorySaveRules r)
    (the_ContextInjectTools r).
#[export] Instance ToolHooksEntry_codec : Codec ToolHooksEntry := {|
  enc r := JObj (
    opt "blockedCommands" (the_BlockedCommands r) ++
    opt "allowedPaths" (the_AllowedPaths r) ++
    opt "auditTools" (the_AuditTools r) ++
    opt "memorySaveRules" (the_MemorySaveRules r) ++
    opt "contextInjectTools" (the_ContextInjectTools r) ++ []);
  dec := dec_struct [
    fld "blockedCommands" the_BlockedCommands; fld "allowedPaths" the_AllowedPaths;
    fld "auditTools" the_AuditTools; fld "memorySaveRules" the_MemorySaveRules;
    fld "contextInjectTools" the_ContextInjectTools ];
  zero := mkToolHooksEntry zero zero zero zero zero;
  is_empty _ := false;
  ok r := ok (the_BlockedCommands r) ∧ ok (the_AllowedPaths r) ∧ ok (the_AuditTools r) ∧
    ok (the_MemorySaveRules r) ∧ ok (the_ContextInjectTools r);
|}.
#[export] Instance ToolHooksEntry_lawful : LawfulCodec ToolHooksEntry.
Proof. struct_lawful ToolHooksEntry_codec. Qed.
#[export] Instance ToolHooksEntry_nonnull : NonNull ToolHooksEntry.
Proof. done. Qed.
#[export] Instance ToolHooksEntry_shallow : Shallow ToolHooksEntry 4.
Proof. struct_shallow ToolHooksEntry_codec. Qed.

Record ContextEntry := mkContextEntry {
  cxe_Path : string;
}.
#[export] Instance ContextEntry_fields : Fields ContextEntry := λ r,
  mkContextEntry (cxe_Path r).
#[export] Instance ContextEntry_codec : Codec ContextEntry := {|
  enc r := JObj (
    req "path" (cxe_Path r) ++ []);
  dec := dec_struct [
    fld "path" cxe_Path ];
  zero := mkContextEntry zero;
  is_empty _ := false;
  ok r := ok (cxe_Path r);
|}.
#[export] Instance ContextEntry_lawful : LawfulCodec ContextEntry.
Proof. struct_lawful ContextEntry_codec. Qed.
#[export] Instance ContextEntry_nonnull : NonNull ContextEntry.
Proof. done. Qed.
#[export] Instance ContextEntry_shallow : Shallow ContextEntry 1.
Proof. struct_shallow ContextEntry_codec. Qed.

Record IntegrationGitHubEntry := mkIntegrationGitHubEntry {
  iegh_Owner : string;
  iegh_Repo : string;
  iegh_DefaultBranch : string;
  iegh_APIURL : string;
}.
#[export] Instance IntegrationGitHubEntry_fields : Fields IntegrationGitHubEntry := λ r,
  mkIntegrationGitHubEntry (iegh_Owner r) (iegh_Repo r) (iegh_DefaultBranch r) (iegh_APIURL r).
#[export] Instance IntegrationGitHubEntry_codec : Codec IntegrationGitHubEntry := {|
  enc r := JObj (
    req "owner" (iegh_Owner r) ++
    req "repo" (iegh_Repo r) ++
    opt "defaultBranch" (iegh_DefaultBranch r) ++
    opt "apiURL" (iegh_APIURL r) ++ []);
  dec := dec_struct [
    fld "owner" iegh_Owner; fld "repo" iegh_Repo; fld "defaultBranch" iegh_DefaultBranch;
    fld "apiURL" iegh_APIURL ];
  zero := mkIntegrationGitHubEntry zero zero zero zero;
  is_empty _ := false;
  ok r := ok (iegh_Owner r) ∧ ok (iegh_Repo r) ∧ ok (iegh_DefaultBranch r) ∧ ok (iegh_APIURL r);
|}.
#[export] Instance IntegrationGitHubEntry_lawful : LawfulCodec IntegrationGitHubEntry.
Proof. struct_lawful IntegrationGitHubEntry_codec. Qed.
#[export] Instance IntegrationGitHubEntry_nonnull : NonNull IntegrationGitHubEntry.
Proof. done. Qed.
#[export] Instance IntegrationGitHubEntry_shallow : Shallow IntegrationGitHubEntry 1.
Proof. struct_shallow IntegrationGitHubEntry_codec. Qed.

Record IntegrationGitHubOrgEntry := mkIntegrationGitHubOrgEntry {
  iego_Org : string;
  iego_RepoFilter : list string;
  iego_APIURL : string;
}.
#[export] Instance IntegrationGitHubOrgEntry_fields : Fields IntegrationGitHubOrgEntry := λ r,
  mkIntegrationGitHubOrgEntry (iego_Org r) (iego_RepoFilter r) (iego_APIURL r).
#[export] Instance IntegrationGitHubOrgEntry_codec : Codec IntegrationGitHubOrgEntry := {|
  enc r := JObj (
    req "org" (iego_Org r) ++
    opt "repoFilter" (iego_RepoFilter r) ++
    opt "apiURL" (iego_APIURL r) ++ []);
  dec := dec_struct [
    fld "org" iego_Org; fld "repoFilter" iego_RepoFilter; fld "apiURL" iego_APIURL ];
  zero := mkIntegrationGitHubOrgEntry zero zero zero;
  is_empty _ := false;
  ok r := ok (iego_Org r) ∧ ok (iego_RepoFilter r) ∧ ok (iego_APIURL r);
|}.
#[export] Instance IntegrationGitHubOrgEntry_lawful : LawfulCodec IntegrationGitHubOrgEntry.
Proof. struct_lawful IntegrationGitHubOrgEntry_codec. Qed.
#[export] Instance IntegrationGitHubOrgEntry_nonnull : NonNull IntegrationGitHubOrgEntry.
Proof. done. Qed.
#[export] Instance IntegrationGitHubOrgEntry_shallow : Shallow IntegrationGitHubOrgEntry 2.
Proof. struct_shallow IntegrationGitHubOrgEntry_codec. Qed.

Record IntegrationGitLabEntry := mkIntegrationGitLabEntry {
  iegl_BaseURL : string;
  iegl_Project : string;
  iegl_DefaultBranch : string;
}.
#[export] Instance IntegrationGitLabEntry_fields : Fields IntegrationGitLabEntry := λ r,
  mkIntegrationGitLabEntry (iegl_BaseURL r) (iegl_Project r) (iegl_DefaultBranch r).
#[export] Instance IntegrationGitLabEntry_codec : Codec IntegrationGitLabEntry := {|
  enc r := JObj (
    req "baseURL" (iegl_BaseURL r) ++
    req "project" (iegl_Project r) ++
    opt "defaultBranch" (iegl_DefaultBranch r) ++ []);
  dec := dec_struct [
    fld "baseURL" iegl_BaseURL; fld "project" iegl_Project;
    fld "defaultBranch" iegl_DefaultBranch ];
  zero := mkIntegrationGitLabEntry zero zero zero;
  is_empty _ := false;
  ok r := ok (iegl_BaseURL r) ∧ ok (iegl_Project r) ∧ ok (iegl_DefaultBranch r);
|}.
#[export] Instance IntegrationGitLabEntry_lawful : LawfulCodec IntegrationGitLabEntry.
Proof. struct_lawful IntegrationGitLabEntry_codec. Qed.
#[export] Instance IntegrationGitLabEntry_nonnull : NonNull IntegrationGitLabEntry.
Proof. done. Qed.
#[export] Instance IntegrationGitLabEntry_shallow : Shallow IntegrationGitLabEntry 1.
Proof. struct_shallow IntegrationGitLabEntry_codec. Qed.

Record IntegrationGitLabGroupEntry := mkIntegrationGitLabGroupEntry {
  iegg_BaseURL : string;
  iegg_Group : string;
  iegg_Projects : list string;
}.
#[export] Instance IntegrationGitLabGroupEntry_fields : Fields IntegrationGitLabGroupEntry := λ r,
  mkIntegrationGitLabGroupEntry (iegg_BaseURL r) (iegg_Group r) (iegg_Projects r).
#[export] Instance IntegrationGitLabGroupEntry_codec : Codec IntegrationGitLabGroupEntry := {|
  enc r := JObj (
    req "baseURL" (iegg_BaseURL r) ++
    req "group" (iegg_Group r) ++
    opt "projects" (iegg_Projects r) ++ []);
  dec := dec_struct [
    fld "baseURL" iegg_BaseURL; fld "group" iegg_Group; fld "projects" iegg_Projects ];
  zero := mkIntegrationGitLabGroupEntry zero zero zero;
  is_empty _ := false;
  ok r := ok (iegg_BaseURL r) ∧ ok (iegg_Group r) ∧ ok (iegg_Projects r);
|}.
#[export] Instance IntegrationGitLabGroupEntry_lawful : LawfulCodec IntegrationGitLabGroupEntry.
Proof. struct_lawful IntegrationGitLabGroupEntry_codec. Qed.
#[export] Instance IntegrationGitLabGroupEntry_nonnull : NonNull IntegrationGitLabGroupEntry.
Proof. done. Qed.
#[export] Instance IntegrationGitLabGroupEntry_shallow : Shallow IntegrationGitLabGroupEntry 2.
Proof. struct_shallow IntegrationGitLabGroupEntry_codec. Qed.

Record IntegrationGitEntry := mkIntegrationGitEntry {
  ieg_URL : string;
  ieg_Branch : string;
}.
#[export] Instance IntegrationGitEntry_fields : Fields IntegrationGitEntry := λ r,
  mkIntegrationGitEntry (ieg_URL r) (ieg_Branch r).
#[export] Instance IntegrationGitEntry_codec : Codec IntegrationGitEntry := {|
  enc r := JObj (
    req "url" (ieg_URL r) ++
    opt "branch" (ieg_Branch r) ++ []);
  dec := dec_struct [
    fld "url" ieg_URL; fld "branch" ieg_Branch ];
  zero := mkIntegrationGitEntry zero zero;
  is_empty _ := false;
  ok r := ok (ieg_URL r) ∧ ok (ieg_Branch r);
|}.
#[export] Instance IntegrationGitEntry_lawful : LawfulCodec IntegrationGitEntry.
Proof. struct_lawful IntegrationGitEntry_codec. Qed.
#[export] Instance IntegrationGitEntry_nonnull : NonNull IntegrationGitEntry.
Proof. done. Qed.
#[export] Instance IntegrationGitEntry_shallow : Shallow IntegrationGitEntry 1.
Proof. struct_shallow IntegrationGitEntry_codec. Qed.

Record IntegrationS3Entry := mkIntegrationS3Entry {
  ies_Bucket : string;
  ies_Region : string;
  ies_Endpoint : string;
  ies_Prefix : string;
}.
#[export] Instance IntegrationS3Entry_fields : Fields IntegrationS3Entry := λ r,
  mkIntegrationS3Entry (ies_Bucket r) (ies_Region r) (ies_Endpoint r) (ies_Prefix r).
#[export] Instance IntegrationS3Entry_codec : Codec IntegrationS3Entry := {|
  enc r := JObj (
    req "bucket" (ies_Bucket r) ++
    opt "region" (ies_Region r) ++
    opt "endpoint" (ies_Endpoint r) ++
    opt "prefix" (ies_Prefix r) ++ []);
  dec := dec_struct [
    fld "bucket" ies_Bucket; fld "region" ies_Region; fld "endpoint" ies_Endpoint;
    fld "prefix" ies_Prefix ];
  zero := mkIntegrationS3Entry zero zero zero zero;
  is_empty _ := false;
  ok r := ok (ies_Bucket r) ∧ ok (ies_Region r) ∧ ok (ies_Endpoint r) ∧ ok (ies_Prefix r);
|}.
#[export] Instance IntegrationS3Entry_lawful : LawfulCodec IntegrationS3Entry.
Proof. struct_lawful IntegrationS3Entry_codec. Qed.
#[export] Instance IntegrationS3Entry_nonnull : NonNull IntegrationS3Entry.
Proof. done. Qed.
#[export] Instance IntegrationS3Entry_shallow : Shallow IntegrationS3Entry 1.
Proof. struct_shallow IntegrationS3Entry_codec. Qed.

Record IntegrationDocumentationEntry := mkIntegrationDocumentationEntry {
  ied_URLs : list string;
}.
#[export] Instance IntegrationDocumentationEntry_fields : Fields IntegrationDocumentationEntry := λ r,
  mkIntegrationDocumentationEntry (ied_URLs r).
#[export] Instance IntegrationDocumentationEntry_codec : Codec IntegrationDocumentationEntry := {|
  enc r := JObj (
    opt "urls" (ied_URLs r) ++ []);
  dec := dec_struct [
    fld "urls" ied_URLs ];
  zero := mkIntegrationDocumentationEntry zero;
  is_empty _ := false;
  ok r := ok (ied_URLs r);
|}.
#[export] Instance IntegrationDocumentationEntry_lawful : LawfulCodec IntegrationDocumentationEntry.
Proof. struct_lawful IntegrationDocumentationEntry_codec. Qed.
#[export] Instance IntegrationDocumentationEntry_nonnull : NonNull IntegrationDocumentationEntry.
Proof. done. Qed.
#[export] Instance IntegrationDocumentationEntry_shallow : Shallow IntegrationDocumentationEntry 2.
Proof. struct_shallow IntegrationDocumentationEntry_codec. Qed.

Record IntegrationEntry := mkIntegrationEntry {
  ie_Name : string;
  ie_Kind : string;
  ie_DisplayName : string;
  ie_Description : string;
  ie_ReadOnly : bool;
  ie_AutoContext : bool;
  ie_GitHub : option IntegrationGitHubEntry;
  ie_GitHubOrg : option IntegrationGitHubOrgEntry;
  ie_GitLab : option IntegrationGitLabEntry;
  ie_GitLabGroup : option IntegrationGitLabGroupEntry;
  ie_Git : option IntegrationGitEntry;
  ie_S3 : option IntegrationS3Entry;
  ie_Documentation : option IntegrationDocumentationEntry;
}.
#[export] Instance IntegrationEntry_fields : Fields IntegrationEntry := λ r,
  mkIntegrationEntry (ie_Name r) (ie_Kind r) (ie_DisplayName r) (ie_Description r) (ie_ReadOnly r)
    (ie_AutoContext r) (ie_GitHub r) (ie_GitHubOrg r) (ie_GitLab r) (ie_GitLabGroup r)
    (ie_Git r) (ie_S3 r) (ie_Documentation r).
#[export] Instance IntegrationEntry_codec : Codec IntegrationEntry := {|
  enc r := JObj (
    req "name" (ie_Name r) ++
    req "kind" (ie_Kind r) ++
    req "displayName" (ie_DisplayName r) ++
    opt "description" (ie_Description r) ++
    opt "readOnly" (ie_ReadOnly r) ++
    opt "autoContext" (ie_AutoContext r) ++
    opt "github" (ie_GitHub r) ++
    opt "githubOrg" (ie_GitHubOrg r) ++
    opt "gitlab" (ie_GitLab r) ++
    opt "gitlabGroup" (ie_GitLabGroup r) ++
    opt "git" (ie_Git r) ++
    opt "s3" (ie_S3 r) ++
    opt "documentation" (ie_Documentation r) ++ []);
  dec := dec_struct [
    fld "name" ie_Name; fld "kind" ie_Kind; fld "displayName" ie_DisplayName;
    fld "description" ie_Description; fld "readOnly" ie_ReadOnly;
    fld "autoContext" ie_AutoContext; fld "github" ie_GitHub; fld "githubOrg" ie_GitHubOrg;
    fld "gitlab" ie_GitLab; fld "gitlabGroup" ie_GitLabGroup; fld "git" ie_Git;
    fld "s3" ie_S3; fld "documentation" ie_Documentation ];
  zero := mkIntegrationEntry zero zero zero zero zero zero zero zero zero zero zero zero zero;
  is_empty _ := false;
  ok r := ok (ie_Name r) ∧ ok (ie_Kind r) ∧ ok (ie_DisplayName r) ∧ ok (ie_Description r) ∧
    ok (ie_ReadOnly r) ∧ ok (ie_AutoContext r) ∧ ok (ie_GitHub r) ∧ ok (ie_GitHubOrg r) ∧
    ok (ie_GitLab r) ∧ ok (ie_GitLabGroup r) ∧ ok (ie_Git r) ∧ ok (ie_S3 r) ∧
    ok (ie_Documentation r);
|}.
#[export] Instance IntegrationEntry_lawful : LawfulCodec IntegrationEntry.
Proof. struct_lawful IntegrationEntry_codec. Qed.
#[export] Instance IntegrationEntry_nonnull : NonNull IntegrationEntry.
Proof. done. Qed.
#[export] Instance IntegrationEntry_shallow : Shallow IntegrationEntry 3.
Proof. struct_shallow IntegrationEntry_codec. Qed.

Record MemoryConfigEntry := mkMemoryConfigEntry {
  mce_ServerURL : string;
  mce_Project : string;
  mce_ContextLimit : Z;
  mce_AutoSummarize : bool;
  mce_AutoSave : bool;
  mce_AutoSearch : bool;
}.
#[export] Instance MemoryConfigEntry_fields : Fields MemoryConfigEntry := λ r,
  mkMemoryConfigEntry (mce_ServerURL r) (mce_Project r) (mce_ContextLimit r) (mce_AutoSummarize r)
    (mce_AutoSave r) (mce_AutoSearch r).
#[export] Instance MemoryConfigEntry_codec : Codec MemoryConfigEntry := {|
  enc r := JObj (
    req "serverURL" (mce_ServerURL r) ++
    req "project" (mce_Project r) ++
    req "contextLimit" (mce_ContextLimit r) ++
    req "autoSummarize" (mce_AutoSummarize r) ++
    req "autoSave" (mce_AutoSave r) ++
    req "autoSearch" (mce_AutoSearch r) ++ []);
  dec := dec_struct [
    fld "serverURL" mce_ServerURL; fld "project" mce_Project;
    fld "contextLimit" mce_ContextLimit; fld "autoSummarize" mce_AutoSummarize;
    fld "autoSave" mce_AutoSave; fld "autoSearch" mce_AutoSearch ];
  zero := mkMemoryConfigEntry zero zero zero zero zero zero;
  is_empty _ := false;
  ok r := ok (mce_ServerURL r) ∧ ok (mce_Project r) ∧ ok (mce_ContextLimit r) ∧
    ok (mce_AutoSummarize r) ∧ ok (mce_AutoSave r) ∧ ok (mce_AutoSearch r);
|}.
#[export] Instance MemoryConfigEntry_lawful : LawfulCodec MemoryConfigEntry.
Proof. struct_lawful MemoryConfigEntry_codec. Qed.
#[export] Instance MemoryConfigEntry_nonnull : NonNull MemoryConfigEntry.
Proof. done. Qed.
#[export] Instance MemoryConfigEntry_shallow : Shallow MemoryConfigEntry 1.
Proof. struct_shallow MemoryConfigEntry_codec. Qed.

Record DelegationConfigEntry := mkDelegationConfigEntry {
  dce_Team : GoSlice string;
  dce_MaxFanOut : Z;
}.
#[export] Instance DelegationConfigEntry_fields : Fields DelegationConfigEntry := λ r,
  mkDelegationConfigEntry (dce_Team r) (dce_MaxFanOut r).
#[export] Instance DelegationConfigEntry_codec : Codec DelegationConfigEntry := {|
  enc r := JObj (
    req "team" (dce_Team r) ++
    opt "maxFanOut" (dce_MaxFanOut r) ++ []);
  dec := dec_struct [
    fld "team" dce_Team; fld "maxFanOut" dce_MaxFanOut ];
  zero := mkDelegationConfigEntry zero zero;
  is_empty _ := false;
  ok r := ok (dce_Team r) ∧ ok (dce_MaxFanOut r);
|}.
#[export] Instance DelegationConfigEntry_lawful : LawfulCodec DelegationConfigEntry.
Proof. struct_lawful DelegationConfigEntry_codec. Qed.
#[export] Instance DelegationConfigEntry_nonnull : NonNull DelegationConfigEntry.
Proof. done. Qed.
#[export] Instance DelegationConfigEntry_shallow : Shallow DelegationConfigEntry 2.
Proof. struct_shallow DelegationConfigEntry_codec. Qed.

Section AgentConfigCodec.
Context `{FloatOps}.

Record AgentConfig := mkAgentConfig {
  acf_Runtime : string;
  acf_Providers : GoSlice ProviderEntry;
  acf_PrimaryProvider : string;
  acf_PrimaryModel : string;
  acf_FallbackModels : list string;
  acf_TitleModel : string;
  acf_SystemPrompt : string;
  acf_PlatformProtocol : string;
  acf_BuiltinTools : GoSlice string;
  acf_Tools : GoSlice ToolEntry;
  acf_ToolHooks : option ToolHooksEntry;
  acf_ContextFiles : list ContextEntry;
  acf_Temperature : option Q;
  acf_MaxOutputTokens : option Z;
  acf_MaxSteps : option Z;
  acf_MaxTokensBudget : option Z;
  acf_MaxRetries : option Z;
  acf_MaxToolResultChars : Z;
  acf_BudgetFraction : option Q;
  acf_PermissionTools : list string;
  acf_EnableQuestionTool : bool;
  acf_Resources : list IntegrationEntry;
  acf_Memory : option MemoryConfigEntry;
  acf_Delegation : option DelegationConfigEntry;
}.
#[export] Instance AgentConfig_fields : Fields AgentConfig := λ r,
  mkAgentConfig (acf_Runtime r) (acf_Providers r) (acf_PrimaryProvider r) (acf_PrimaryModel r)
    (acf_FallbackModels r) (acf_TitleModel r) (acf_SystemPrompt r) (acf_PlatformProtocol r)
    (acf_BuiltinTools r) (acf_Tools r) (acf_ToolHooks r) (acf_ContextFiles r)
    (acf_Temperature r) (acf_MaxOutputTokens r) (acf_MaxSteps r) (acf_MaxTokensBudget r)
    (acf_MaxRetries r) (acf_MaxToolResultChars r) (acf_BudgetFraction r)
    (acf_PermissionTools r) (acf_EnableQuestionTool r) (acf_Resources r) (acf_Memory r)
    (acf_Delegation r).
#[export] Instance AgentConfig_codec : Codec AgentConfig := {|
  enc r := JObj (
    req "runtime" (acf_Runtime r) ++
    req "providers" (acf_Providers r) ++
    opt "primaryProvider" (acf_PrimaryProvider r) ++
    req "primaryModel" (acf_PrimaryModel r) ++
    opt "fallbackModels" (acf_FallbackModels r) ++
    opt "titleModel" (acf_TitleModel r) ++
    opt "systemPrompt" (acf_SystemPrompt r) ++
    opt "platformProtocol" (acf_PlatformProtocol r) ++
    req "builtinTools" (acf_BuiltinTools r) ++
    req "tools" (acf_Tools r) ++
    opt "toolHooks" (acf_ToolHooks r) ++
    opt "contextFiles" (acf_ContextFiles r) ++
    opt "temperature" (acf_Temperature r) ++
    opt "maxOutputTokens" (acf_MaxOutputTokens r) ++
    opt "maxSteps" (acf_MaxSteps r) ++
    opt "maxTokensBudget" (acf_MaxTokensBudget r) ++
    opt "maxRetries" (acf_MaxRetries r) ++
    opt "maxToolResultChars" (acf_MaxToolResultChars r) ++
    opt "budgetFraction" (acf_BudgetFraction r) ++
    opt "permissionTools" (acf_PermissionTools r) ++
    opt "enableQuestionTool" (acf_EnableQuestionTool r) ++
    opt "resources" (acf_Resources r) ++
    opt "memory" (acf_Memory r) ++
    opt "delegation" (acf_Delegation r) ++ []);
  dec := dec_struct [
    fld "runtime" acf_Runtime; fld "providers" acf_Providers;
    fld "primaryProvider" acf_PrimaryProvider; fld "primaryModel" acf_PrimaryModel;
    fld "fallbackModels" acf_FallbackModels; fld "titleModel" acf_TitleModel;
    fld "systemPrompt" acf_SystemPrompt; fld "platformProtocol" acf_PlatformProtocol;
    fld "builtinTools" acf_BuiltinTools; fld "tools" acf_Tools;
    fld "toolHooks" acf_ToolHooks; fld "contextFiles" acf_ContextFiles;
    fld "temperature" acf_Temperature; fld "maxOutputTokens" acf_MaxOutputTokens;
    fld "maxSteps" acf_MaxSteps; fld "maxTokensBudget" acf_MaxTokensBudget;
    fld "maxRetries" acf_MaxRetries; fld "maxToolResultChars" acf_MaxToolResultChars;
    fld "budgetFraction" acf_BudgetFraction; fld "permissionTools" acf_PermissionTools;
    fld "enableQuestionTool" acf_EnableQuestionTool; fld "resources" acf_Resources;
    fld "memory" acf_Memory; fld "delegation" acf_Delegation ];
  zero := mkAgentConfig zero zero zero zero zero zero zero zero zero zero zero zero zero zero zero zero zero
    zero zero zero zero zero zero zero;
  is_empty _ := false;
  ok r := ok (acf_Runtime r) ∧ ok (acf_Providers r) ∧ ok (acf_PrimaryProvider r) ∧
    ok (acf_PrimaryModel r) ∧ ok (acf_FallbackModels r) ∧ ok (acf_TitleModel r) ∧
    ok (acf_SystemPrompt r) ∧ ok (acf_PlatformProtocol r) ∧ ok (acf_BuiltinTools r) ∧
    ok (acf_Tools r) ∧ ok (acf_ToolHooks r) ∧ ok (acf_ContextFiles r) ∧
    ok (acf_Temperature r) ∧ ok (acf_MaxOutputTokens r) ∧ ok (acf_MaxSteps r) ∧
    ok (acf_MaxTokensBudget r) ∧ ok (acf_MaxRetries r) ∧ ok (acf_MaxToolResultChars r) ∧
    ok (acf_BudgetFraction r) ∧ ok (acf_PermissionTools r) ∧ ok (acf_EnableQuestionTool r) ∧
    ok (acf_Resources r) ∧ ok (acf_Memory r) ∧ ok (acf_Delegation r);
|}.
#[export] Instance AgentConfig_lawful : LawfulCodec AgentConfig.
Proof. struct_lawful AgentConfig_codec. Qed.
#[export] Instance AgentConfig_nonnull : NonNull AgentConfig.
Proof. done. Qed.
#[export] Instance AgentConfig_shallow : Shallow AgentConfig 7.
Proof. struct_shallow AgentConfig_codec. Qed.

End AgentConfigCodec.
