(* ===== verification/ConfigMap.v ===== *)
(** * The runtime's configuration (internal/resources/configmap.go, the builders)

    From an Agent, its Integrations and Providers to the ConfigMap the runtime
    reads, and from that ConfigMap and the git tools of a run to the run's
    own ConfigMap. *)

From Stdlib Require Import QArith.
From S2P Require Import Prelude GoLib Json JsonEncode JsonCodec.
From S2P Require Import KubeTypes ApiTypes Effects ResourceCommon AgentGit ConfigTypes.

Open Scope string_scope.
Open Scope list_scope.

(** ** The platform protocol *)

Definition memoryProtocolHeader : string := "
## Memory System

You have persistent memory (survives restarts). Context from past sessions is auto-injected before each turn.
".

Definition memoryProtocolSave : string := "
### Saving — call mem_save after:
- Bug fixes, architecture/design decisions, non-obvious discoveries
- Config changes, established patterns, user preferences

Format: type (bugfix|decision|discovery|pattern|config|preference|learning), title (verb + what, searchable), content (what/why/where, plus gotchas if any), tags (keywords).

Save small focused memories as you go — don't batch.
".

Definition memoryProtocolSaveDisabled : string := "
### Saving
Do NOT call mem_save. The user manages memory via the console.
".

(** A phrase between double quotes. *)
Definition quoted (s : string) : string := GoFmt.dquote +:+ s +:+ GoFmt.dquote.

Definition memoryProtocolSearch : string := "
### Searching — call mem_search when:
- User references past work (" +:+ quoted "remember" +:+ ", " +:+ quoted "last time" +:+ ", "
  +:+ quoted "what did we do" +:+ ", " +:+ quoted "that bug" +:+ ")
- User asks " +:+ quoted "what have we done" +:+ " — search first, don't guess

Ask before searching on your own initiative during troubleshooting.
Do NOT search on conversation start or for simple questions.
".

Definition memoryProtocolSearchDisabled : string := "
### Searching
Do NOT call mem_search or mem_context. The user manages memory lookups via the console.
".

Definition buildMemoryProtocol (memory : MemorySpec) : string :=
  let autoSave := default true (mem_AutoSave memory) in
  let autoSearch := default true (mem_AutoSearch memory) in
  memoryProtocolHeader
  +:+ (if autoSave : bool then memoryProtocolSave else memoryProtocolSaveDisabled)
  +:+ (if autoSearch : bool then memoryProtocolSearch else memoryProtocolSearchDisabled).

Definition delegationProtocolTeamHeader : string := "
## Delegation

You coordinate work by delegating to your team of specialized agents. Use list_task_agents to see who is available. Use run_agent for single tasks or run_agents for parallel fan-out of independent subtasks.

When writing delegation prompts, include:
- Clear task description with acceptance criteria
- Relevant context the agent needs (not your full conversation)
- Specific resource references (repo, branch) when applicable
".

Definition buildDelegationProtocol (delegation : option DelegationSpec) : string :=
  match delegation with
  | None => ""
  | Some dl =>
      match elems (dg_Team dl) with
      | [] => ""
      | team =>
          let protocol := delegationProtocolTeamHeader in
          let protocol := protocol +:+ GoFmt.newline +:+ "Your team:" +:+ GoFmt.newline in
          let protocol := fold_left (λ p member, p +:+ "  - " +:+ member +:+ GoFmt.newline)
                            team protocol in
          if decide (0 < dg_MaxFanOut dl ∧ dg_MaxFanOut dl < 10)%Z then
            protocol +:+ GoFmt.newline +:+ "Maximum parallel delegations per fan-out: "
              +:+ GoFmt.d (dg_MaxFanOut dl) +:+ "." +:+ GoFmt.newline
          else protocol
      end
  end.

Definition buildPlatformProtocol (agent : Agent) : string :=
  let identity := "You are " +:+ om_name (ag_Meta agent) +:+ ", a " +:+ as_Mode (ag_Spec agent)
    +:+ " agent in the " +:+ om_namespace (ag_Meta agent) +:+ " namespace." in
  let parts := [identity] in
  let delegation := buildDelegationProtocol (as_Delegation (ag_Spec agent)) in
  let parts := if decide (delegation ≠ "") then parts ++ [delegation] else parts in
  let parts := match as_Memory (ag_Spec agent) with
               | Some memory => parts ++ [buildMemoryProtocol memory]
               | None => parts
               end in
  match parts with [] => "" | _ => GoStrings.Join parts GoFmt.newline end.

(** ** Names shared with the pod *)

Definition ProviderEnvVarName (providerName : string) : string :=
  GoStrings.ToUpper providerName +:+ "_API_KEY".
Definition OAuth2ClientIDEnvVar (providerName : string) : string :=
  GoStrings.ToUpper providerName +:+ "_OAUTH2_CLIENT_ID".
Definition OAuth2ClientSecretEnvVar (providerName : string) : string :=
  GoStrings.ToUpper providerName +:+ "_OAUTH2_CLIENT_SECRET".

Definition engramDefaultPort : Z := 7437.
Definition resolveMemoryServerURL (serverRef namespace : string) : string :=
  if decide (serverRef = "") then ""
  else "http://" +:+ serverRef +:+ "." +:+ namespace +:+ ".svc:" +:+ GoFmt.d engramDefaultPort.

(** ** Providers *)

Definition convertCallDefaults (src : ProviderCallDefaults) : ProviderCallDefaultsEntry :=
  {| pcde_Anthropic := (λ a, mkAnthropicCallDefaultsEntry (acd_Effort a)
                              (acd_ThinkingBudgetTokens a) (acd_DisableParallelToolUse a))
                       <$> pcd_Anthropic src;
     pcde_OpenAI := (λ o, mkOpenAICallDefaultsEntry (ocd_ReasoningEffort o) (ocd_ServiceTier o))
                    <$> pcd_OpenAI src;
     pcde_Google := (λ g, mkGoogleCallDefaultsEntry (gcd_ThinkingLevel g)
                            (gcd_ThinkingBudgetTokens g)
                            (map (λ ss, mkGoogleSafetySettingEntry (gss_Category ss) (gss_Threshold ss))
                              (gcd_SafetySettings g)))
                    <$> pcd_Google src |}.

(** The three blocks of [mergeCallDefaults], one per provider family. *)
Definition merge_anthropic (override base : option AnthropicCallDefaultsEntry)
  : option AnthropicCallDefaultsEntry :=
  match override with
  | None => base
  | Some oa =>
      match base with
      | None => Some oa
      | Some merged =>
          let merged := if decide (ace_Effort oa ≠ "")
            then merged <| ace_Effort := ace_Effort oa |> else merged in
          let merged := match ace_ThinkingBudgetTokens oa with
            | Some n => merged <| ace_ThinkingBudgetTokens := Some n |> | None => merged end in
          let merged := match ace_DisableParallelToolUse oa with
            | Some b => merged <| ace_DisableParallelToolUse := Some b |> | None => merged end in
          Some merged
      end
  end.

Definition merge_openai (override base : option OpenAICallDefaultsEntry)
  : option OpenAICallDefaultsEntry :=
  match override with
  | None => base
  | Some oo =>
      match base with
      | None => Some oo
      | Some merged =>
          let merged := if decide (oce_ReasoningEffort oo ≠ "")
            then merged <| oce_ReasoningEffort := oce_ReasoningEffort oo |> else merged in
          let merged := if decide (oce_ServiceTier oo ≠ "")
            then merged <| oce_ServiceTier := oce_ServiceTier oo |> else merged in
          Some merged
      end
  end.

Definition merge_google (override base : option GoogleCallDefaultsEntry)
  : option GoogleCallDefaultsEntry :=
  match override with
  | None => base
  | Some og =>
      match base with
      | None => Some og
      | Some merged =>
          let merged := if decide (gce_ThinkingLevel og ≠ "")
            then merged <| gce_ThinkingLevel := gce_ThinkingLevel og |> else merged in
          let merged := match gce_ThinkingBudgetTokens og with
            | Some n => merged <| gce_ThinkingBudgetTokens := Some n |> | None => merged end in
          let merged := match gce_SafetySettings og with
            | [] => merged | ss => merged <| gce_SafetySettings := ss |> end in
          Some merged
      end
  end.

Definition mergeCallDefaults (base override : option ProviderCallDefaultsEntry)
  : option ProviderCallDefaultsEntry :=
  match base, override with
  | None, _ => override
  | _, None => base
  | Some base, Some override =>
      let result := base in
      let result := result <| pcde_Anthropic ::= merge_anthropic (pcde_Anthropic override) |> in
      let result := result <| pcde_OpenAI ::= merge_openai (pcde_OpenAI override) |> in
      let result := result <| pcde_Google ::= merge_google (pcde_Google override) |> in
      Some result
  end.

Definition buildProviderEntry (prov : Provider) (binding : option ProviderBinding)
  : ProviderEntry :=
  let entry := (zero : ProviderEntry)
    <| pen_Name := om_name (prov_Meta prov) |>
    <| pen_Type := prs_Type (prov_Spec prov) |> in
  let entry :=
    match prs_Endpoint (prov_Spec prov) with
    | None => entry
    | Some ep =>
        let entry := entry <| pen_BaseURL := pe_BaseURL ep |> <| pen_Headers := pe_Headers ep |> in
        match pe_OAuth2ClientCredentials ep with
        | None => entry
        | Some oauth =>
            entry <| pen_OAuth2 := Some
              {| poe_TokenURL := oa_TokenURL oauth;
                 poe_ClientIDEnv := OAuth2ClientIDEnvVar (om_name (prov_Meta prov));
                 poe_ClientSecretEnv := OAuth2ClientSecretEnvVar (om_name (prov_Meta prov));
                 poe_Scopes := if decide (oa_Scope oauth ≠ "")
                               then GoStrings.Fields (oa_Scope oauth) else [] |} |>
        end
    end in
  let entry :=
    match prs_Config (prov_Spec prov) with
    | None => entry
    | Some cfg =>
        let entry := entry
          <| pen_Organization := pc_Organization cfg |>
          <| pen_Project := pc_Project cfg |>
          <| pen_UseResponsesAPI := pc_UseResponsesAPI cfg |>
          <| pen_AzureAPIVersion := pc_AzureAPIVersion cfg |>
          <| pen_Bedrock := pc_Bedrock cfg |> in
        match pc_Vertex cfg with
        | None => entry
        | Some v => entry <| pen_Vertex := Some (mkProviderVertexEntry (vx_Project v) (vx_Location v)) |>
        end
    end in
  let callDefaults := convertCallDefaults <$> prs_Defaults (prov_Spec prov) in
  let callDefaults :=
    match binding ≫= pb_Overrides with
    | None => callDefaults
    | Some ov => mergeCallDefaults callDefaults (Some (convertCallDefaults ov))
    end in
  entry <| pen_CallDefaults := callDefaults |>.

(** ** Integrations *)

Definition mapIntegrationKind (entry : IntegrationEntry) (res : Integration) : IntegrationEntry :=
  let s := ig_Spec res in
  if decide (is_Kind s = IntegrationKindGitHubRepo) then
    match is_GitHub s with
    | Some g => entry <| ie_GitHub := Some (mkIntegrationGitHubEntry
                  (ghr_Owner g) (ghr_Repo g) (ghr_DefaultBranch g) (ghr_APIURL g)) |>
    | None => entry end
  else if decide (is_Kind s = IntegrationKindGitHubOrg) then
    match is_GitHubOrg s with
    | Some g => entry <| ie_GitHubOrg := Some (mkIntegrationGitHubOrgEntry
                  (gho_Org g) (gho_RepoFilter g) (gho_APIURL g)) |>
    | None => entry end
  else if decide (is_Kind s = IntegrationKindGitLabProject) then
    match is_GitLab s with
    | Some g => entry <| ie_GitLab := Some (mkIntegrationGitLabEntry
                  (glr_BaseURL g) (glr_Project g) (glr_DefaultBranch g)) |>
    | None => entry end
  else if decide (is_Kind s = IntegrationKindGitLabGroup) then
    match is_GitLabGroup s with
    | Some g => entry <| ie_GitLabGroup := Some (mkIntegrationGitLabGroupEntry
                  (glg_BaseURL g) (glg_Group g) (glg_Projects g)) |>
    | None => entry end
  else if decide (is_Kind s = IntegrationKindGitRepo) then
    match is_Git s with
    | Some g => entry <| ie_Git := Some (mkIntegrationGitEntry (gr_URL g) (gr_Branch g)) |>
    | None => entry end
  else if decide (is_Kind s = IntegrationKindS3Bucket) then
    match is_S3 s with
    | Some b => entry <| ie_S3 := Some (mkIntegrationS3Entry
                  (s3_Bucket b) (s3_Region b) (s3_Endpoint b) (s3_Prefix b)) |>
    | None => entry end
  else if decide (is_Kind s = IntegrationKindDocumentation) then
    match is_Documentation s with
    | Some d => entry <| ie_Documentation := Some (mkIntegrationDocumentationEntry (doc_URLs d)) |>
    | None => entry end
  else entry.

(** A Go map filled from a list of bindings: a repeated name keeps its last
    binding. *)
Definition binding_map {B} (name : B → string) (l : list B) : gmap string B :=
  fold_left (λ m b, <[name b := b]> m) l ∅.

Definition integration_entry (bindings : gmap string IntegrationBinding) (res : Integration)
  : IntegrationEntry :=
  let binding := default (mkIntegrationBinding "" false false)
                   (bindings !! om_name (ig_Meta res)) in
  let entry := (zero : IntegrationEntry)
    <| ie_Name := om_name (ig_Meta res) |>
    <| ie_Kind := is_Kind (ig_Spec res) |>
    <| ie_DisplayName := is_DisplayName (ig_Spec res) |>
    <| ie_Description := is_Description (ig_Spec res) |>
    <| ie_ReadOnly := ib_ReadOnly binding |>
    <| ie_AutoContext := ib_AutoContext binding |> in
  mapIntegrationKind entry res.

(** ** The ConfigMaps *)

Definition memory_config (agent : Agent) : option MemoryConfigEntry :=
  memory ← as_Memory (ag_Spec agent);
  let serverURL := resolveMemoryServerURL (mem_ServerRef memory) (om_namespace (ag_Meta agent)) in
  if decide (serverURL ≠ "") then
    Some {| mce_ServerURL := serverURL;
            mce_Project := str_or (mem_Project memory) (om_name (ag_Meta agent));
            mce_ContextLimit := if decide (mem_ContextLimit memory = 0)%Z then 5%Z
                                else mem_ContextLimit memory;
            mce_AutoSummarize := default true (mem_AutoSummarize memory);
            mce_AutoSave := default true (mem_AutoSave memory);
            mce_AutoSearch := default true (mem_AutoSearch memory) |}
  else None.

Definition tool_hooks (th : ToolHooksSpec) : ToolHooksEntry :=
  {| the_BlockedCommands := th_BlockedCommands th;
     the_AllowedPaths := th_AllowedPaths th;
     the_AuditTools := th_AuditTools th;
     the_MemorySaveRules := map (λ r, mkMemorySaveRule (msr_Tool r) (msr_MatchOutput r)
                              (msr_MatchArgs r) (msr_Type r) (msr_Scope r)) (th_MemorySaveRules th);
     the_ContextInjectTools := map (λ r, mkContextInjectRule (cir_Tool r) (cir_Query r) (cir_Limit r))
                                 (th_ContextInjectTools th) |}.

Section Builders.
Context `{FloatOps}.

(** The [AgentConfig] value [BuildAgentConfigMap] fills in. *)
Definition agent_config (agent : Agent) (integrations : list Integration)
  (providers : list Provider) : AgentConfig :=
  let spec := ag_Spec agent in
  let config := (zero : AgentConfig)
    <| acf_Runtime := "fantasy" |>
    <| acf_PrimaryModel := as_Model spec |>
    <| acf_PrimaryProvider := as_PrimaryProvider spec |>
    <| acf_TitleModel := as_TitleModel spec |>
    <| acf_SystemPrompt := as_SystemPrompt spec |>
    <| acf_BuiltinTools := as_BuiltinTools spec |>
    <| acf_Temperature := as_Temperature spec |>
    <| acf_MaxOutputTokens := as_MaxOutputTokens spec |>
    <| acf_MaxSteps := as_MaxSteps spec |>
    <| acf_MaxTokensBudget := as_MaxTokensBudget spec |>
    <| acf_MaxRetries := as_MaxRetries spec |>
    <| acf_PermissionTools := as_PermissionTools spec |>
    <| acf_EnableQuestionTool := as_EnableQuestionTool spec |> in
  let config := config <| acf_Memory := memory_config agent |> in
  let protocol := buildPlatformProtocol agent in
  let config := if decide (protocol ≠ "")
                then config <| acf_PlatformProtocol := protocol |> else config in
  let config := config
    <| acf_Delegation := (λ dl, mkDelegationConfigEntry (dg_Team dl) (dg_MaxFanOut dl))
                         <$> as_Delegation spec |>
    <| acf_Tools ::= λ ts, append_all ts
         (map (λ tool, mkToolEntry (tb_Name tool) (MountTools +:+ "/" +:+ tb_Name tool)
                         (tb_Description tool) (tb_Category tool) (tb_UIHint tool)) (as_Tools spec)) |> in
  let providerBindingMap := binding_map pb_Name (as_ProviderRefs spec) in
  let config := config
    <| acf_Providers ::= λ ps, append_all ps
         (map (λ prov, buildProviderEntry prov (providerBindingMap !! om_name (prov_Meta prov))) providers) |>
    <| acf_FallbackModels := as_FallbackModels spec |>
    <| acf_ToolHooks := tool_hooks <$> as_ToolHooks spec |> in
  let bindingMap := binding_map ib_Name (as_Integrations spec) in
  config <| acf_Resources := map (integration_entry bindingMap) integrations |>.

Definition Marshal (config : AgentConfig) : string := MarshalIndent (enc config).
Definition Unmarshal (s : string) : option AgentConfig := v ← parse s; dec v zero.

(** Marshalling these structs cannot fail (the source's error is dead code). *)
Definition BuildAgentConfigMap (agent : Agent) (integrations : list Integration)
  (providers : list Provider) : res ConfigMap :=
  Ok {| cm_meta := newMeta (ObjectName (om_name (ag_Meta agent)) "config")
                     (om_namespace (ag_Meta agent))
                     (CommonLabels (om_name (ag_Meta agent)) "config");
        cm_data := {[ "config.json" := Marshal (agent_config agent integrations providers) ]} |}.

(** The loop over the git tools: a name the base configuration already has is
    skipped. *)
Definition add_git_tools (base : GoSlice ToolEntry) (git : list ToolEntry) : GoSlice ToolEntry :=
  let existing := te_Name <$> elems base in
  append_all base (filter (λ gt, te_Name gt ∉ existing) git).

Definition BuildAgentRunConfigMap (baseConfigMap : ConfigMap) (runName : string)
  (gitToolEntries : list ToolEntry) : res ConfigMap :=
  let configJSON := lookup_str (cm_data baseConfigMap) "config.json" in
  match Unmarshal configJSON with
  | None => Err (errorf "unmarshal base config")
  | Some config =>
      let config := config <| acf_Tools ::= λ ts, add_git_tools ts gitToolEntries |> in
      Ok {| cm_meta := newMeta (runName +:+ "-config") (om_namespace (cm_meta baseConfigMap))
                         (<["agents.agentops.io/run" := runName]> (om_labels (cm_meta baseConfigMap)));
            cm_data := {[ "config.json" := Marshal config ]} |}
  end.

End Builders.

(** ** Properties *)

Section RunConfig.
Context `{FloatOps}.

Lemma Unmarshal_Marshal c : ok c → Unmarshal (Marshal c) = Some c.
Proof.
  intros Hc. unfold Unmarshal, Marshal. rewrite parse_print.
  - by apply dec_enc.
  - by apply enc_wf.
  - pose proof (enc_depth c). unfold maxNestingDepth. lia.
Qed.

(** The value stays valid under a change of its tools. *)
Lemma ok_tools (c : AgentConfig) ts : ok c → Forall ok (elems ts) → ok (c <| acf_Tools := ts |>).
Proof. destruct c. cbn. intros Hok Hts. destruct_and! Hok. by split_and!. Qed.

Lemma add_git_tools_ok base git :
  Forall ok (elems base) → Forall ok git → Forall ok (elems (add_git_tools base git)).
Proof.
  intros Hb Hg. unfold add_git_tools. rewrite elems_append_all. apply Forall_app. split; [done|].
  rewrite Forall_forall in Hg |- *. intros t [_ Ht]%list_elem_of_filter. by apply Hg.
Qed.

Lemma add_git_tools_names base git :
  NoDup (te_Name <$> elems base) → NoDup (te_Name <$> git) →
  NoDup (te_Name <$> elems (add_git_tools base git)).
Proof.
  intros Hb Hg. unfold add_git_tools. rewrite elems_append_all, fmap_app. apply NoDup_app. split; [done|]. split.
  - intros n Hn (t & -> & Ht)%list_elem_of_fmap. apply list_elem_of_filter in Ht as [Ht _]. done.
  - clear Hb. induction git as [|g git IH]; [constructor|]. inversion_clear Hg as [|? ? Hn Hnd].
    rewrite filter_cons. case_decide; [|by apply IH]. cbn. constructor; [|by apply IH].
    intros (t & Ht & Hin)%list_elem_of_fmap. apply Hn. rewrite Ht.
    apply list_elem_of_fmap. exists t. by apply list_elem_of_filter in Hin as [_ Hin].
Qed.

Lemma add_git_tools_covers base git t :
  t ∈ git → te_Name t ∈ te_Name <$> elems (add_git_tools base git).
Proof.
  intros Ht. unfold add_git_tools. rewrite elems_append_all, fmap_app, elem_of_app.
  destruct (decide (te_Name t ∈ te_Name <$> elems base)) as [Hin|Hin]; [by left|].
  right. apply list_elem_of_fmap. exists t. by rewrite list_elem_of_filter.
Qed.

(** [C10] The configuration of a run is the agent's, with the git tools of its
    workspace added: what the runtime reads from the run's ConfigMap is
    exactly the configuration [BuildAgentConfigMap] marshalled, save that the
    tools not already there by name are appended — so no tool is configured
    twice and every git tool is available.  Everything else is as it was,
    nil slices nil and empty ones empty: an agent that sets builtinTools to []
    disables the built-in tools, one that omits it has them all, and its runs
    have the same.  The strings are valid UTF-8, as all that comes from the
    API server is, and the numbers have a text in JSON. *)
Theorem BuildAgentRunConfigMap_spec agent integrations providers runName git :
  let c := agent_config agent integrations providers in
  ok c → Forall ok git →
  ∃ base cm c',
    BuildAgentConfigMap agent integrations providers = Ok base ∧
    BuildAgentRunConfigMap base runName git = Ok cm ∧
    Unmarshal (lookup_str (cm_data cm) "config.json") = Some c' ∧
    c' = c <| acf_Tools := add_git_tools (acf_Tools c) git |> ∧
    acf_BuiltinTools c' = as_BuiltinTools (ag_Spec agent) ∧
    om_name (cm_meta cm) = runName +:+ "-config" ∧
    om_namespace (cm_meta cm) = om_namespace (ag_Meta agent) ∧
    (NoDup (tb_Name <$> as_Tools (ag_Spec agent)) → NoDup (te_Name <$> git) →
     NoDup (te_Name <$> elems (acf_Tools c'))) ∧
    (∀ t, t ∈ git → te_Name t ∈ te_Name <$> elems (acf_Tools c')).
Proof.
  intros c Hok Hgit. eexists _, _, _. split; [reflexivity|].
  unfold BuildAgentRunConfigMap, lookup_str. cbn [cm_data].
  rewrite lookup_singleton_eq. cbn [from_option id]. fold c.
  rewrite (Unmarshal_Marshal c Hok). split; [reflexivity|]. cbn [cm_data cm_meta].
  rewrite lookup_singleton_eq. cbn [from_option id].
  assert (Forall ok (elems (acf_Tools c))) as Hct by (by destruct c; cbn in Hok; destruct_and! Hok).
  split; [by apply Unmarshal_Marshal, ok_tools, add_git_tools_ok|].
  split_and!; [done|by unfold c, agent_config; case_decide|done|done| |apply add_git_tools_covers].
  intros Hb Hg. apply add_git_tools_names; [|done].
  replace (te_Name <$> elems (acf_Tools c)) with (tb_Name <$> as_Tools (ag_Spec agent)); [done|].
  assert (∃ f, (∀ tool, te_Name (f tool) = tb_Name tool) ∧
    acf_Tools c = append_all NilSlice (map f (as_Tools (ag_Spec agent)))) as (f & Hf & ->).
  { eexists. split; [|unfold c, agent_config; case_decide; reflexivity]. done. }
  rewrite elems_append_all. cbn. rewrite map_map. by apply map_ext.
Qed.

End RunConfig.

(** An agent with a tool of its own and a temperature, for a run that brings
    that tool again and another one. *)
Definition half_floats : FloatOps :=
  {| format_float _ := "0.5"; parse_float _ := Some (1 # 2)%Q |}.
Definition tooled_agent : Agent :=
  zeroAgent
    <| ag_Meta := newMeta "coder" "agents" ∅ |>
    <| ag_Spec := zeroAgentSpec
         <| as_Temperature := Some (1 # 2)%Q |>
         <| as_Tools := [mkToolBinding "gitlab" (mkOCIRef "r" "" "" None) "" "" "" []] |> |>.

Lemma BuildAgentRunConfigMap_spec_witness :
  let _ := half_floats in
  ∃ base cm, BuildAgentConfigMap tooled_agent [] [] = Ok base ∧
    BuildAgentRunConfigMap base "run-1"
      [mkToolEntry "gitlab" "" "" "" ""; mkToolEntry "github" "" "" "" ""] = Ok cm ∧
    (map te_Name ∘ elems ∘ acf_Tools) <$> Unmarshal (lookup_str (cm_data cm) "config.json")
      = Some ["gitlab"; "github"].
Proof.
  intros F.
  destruct (BuildAgentRunConfigMap_spec (H := F) tooled_agent [] [] "run-1"
    [mkToolEntry "gitlab" "" "" "" ""; mkToolEntry "github" "" "" "" ""])
    as (base & cm & c' & Hb & Hc & Hu & -> & _).
  - cbn. split_and!; try done; repeat constructor.
  - repeat constructor.
  - exists base, cm. split; [exact Hb|]. split; [exact Hc|]. rewrite Hu. reflexivity.
Defined.

Lemma union_None_l {A} (o : option A) : None ∪ o = o.
Proof. by destruct o. Qed.
Lemma union_None_r {A} (o : option A) : o ∪ None = o.
Proof. by destruct o. Qed.

Lemma union_Some_l {A} (x : A) o : Some x ∪ o = Some x.
Proof. by destruct o. Qed.

Ltac merge_settings :=
  repeat (case_decide; cbn in *); try congruence;
  rewrite ?union_None_r, ?union_None_l, ?union_Some_l; try done; exfalso; auto.
(** What a set of call defaults says of one setting, [None] when it leaves it
    unset. *)
Definition set_text (s : string) : option string := if decide (s = "") then None else Some s.
Definition set_list {A} (l : list A) : option (list A) :=
  match l with [] => None | _ => Some l end.

Definition anthropic {A} (f : AnthropicCallDefaultsEntry → option A)
  (c : option ProviderCallDefaultsEntry) : option A := e ← c; a ← pcde_Anthropic e; f a.
Definition openai {A} (f : OpenAICallDefaultsEntry → option A)
  (c : option ProviderCallDefaultsEntry) : option A := e ← c; a ← pcde_OpenAI e; f a.
Definition google {A} (f : GoogleCallDefaultsEntry → option A)
  (c : option ProviderCallDefaultsEntry) : option A := e ← c; a ← pcde_Google e; f a.

(** Per-call settings are merged one by one: each of the eight settings
    of the three provider families has the agent's override when the override
    sets it, and the Provider's default otherwise. *)
Theorem mergeCallDefaults_settings base override :
  let m := mergeCallDefaults base override in
  let text {E} (f : E → string) (e : E) := set_text (f e) in
  let over {A} (get : option ProviderCallDefaultsEntry → option A) :=
    get m = get override ∪ get base in
  over (anthropic (text ace_Effort)) ∧ over (anthropic ace_ThinkingBudgetTokens) ∧
  over (anthropic ace_DisableParallelToolUse) ∧
  over (openai (text oce_ReasoningEffort)) ∧ over (openai (text oce_ServiceTier)) ∧
  over (google (text gce_ThinkingLevel)) ∧ over (google gce_ThinkingBudgetTokens) ∧
  over (google (λ g, set_list (gce_SafetySettings g))).
Proof.
  cbv zeta. unfold set_text.
  destruct base as [[ba bo bg]|], override as [[oa oo og]|];
    [|by cbn; rewrite ?union_None_r, ?union_None_l..].
  cbn. unfold merge_anthropic, merge_openai, merge_google. split_and!.
  1-3: destruct ba as [[be bt bd]|], oa as [[oe [ot|] [od|]]|]; cbn; merge_settings.
  1-2: destruct bo as [[br bs]|], oo as [[or os]|]; cbn; merge_settings.
  all: destruct bg as [[bl bk bss]|], og as [[ol [k|] [|oss]]|]; cbn; merge_settings.
Qed.
