(* ===== verification/Builders.v ===== *)
(** * Objects around the pod (internal/resources: rbac.go, service.go, networkpolicy.go, pvc.go)

    The service accounts, roles, bindings, services, network policy and
    persistent volume claim the operator keeps for an Agent or a Channel. *)

From S2P Require Import Prelude GoLib KubeTypes ApiTypes ResourceCommon.

Open Scope string_scope.
Open Scope list_scope.

(** ** rbac.go *)

Definition RbacGroupName := "rbac.authorization.k8s.io".
Definition AgentsGroup := "agents.agentops.io".

Definition AgentServiceAccountName (agent : Agent) : string :=
  if decide (as_ServiceAccountName (ag_Spec agent) ≠ "")
  then as_ServiceAccountName (ag_Spec agent)
  else ObjectName (om_name (ag_Meta agent)) "agent".

Definition BuildAgentServiceAccount (agent : Agent) : ServiceAccount :=
  mkServiceAccount (newMeta (AgentServiceAccountName agent) (om_namespace (ag_Meta agent))
    (CommonLabels (om_name (ag_Meta agent)) "rbac")).

Definition BuildAgentRole (agent : Agent) : Role :=
  {| ro_meta := newMeta (ObjectName (om_name (ag_Meta agent)) "agent")
                  (om_namespace (ag_Meta agent)) (CommonLabels (om_name (ag_Meta agent)) "rbac");
     ro_rules :=
       [ mkRule [AgentsGroup] ["agentruns"] ["create"; "get"; "list"; "watch"];
         mkRule [AgentsGroup] ["agentruns/status"] ["get"; "patch"; "update"];
         mkRule [AgentsGroup] ["agents"] ["get"; "list"; "watch"];
         mkRule [AgentsGroup] ["integrations"] ["get"; "list"] ] |}.

Definition BuildAgentRoleBinding (agent : Agent) : RoleBinding :=
  {| rb_meta := newMeta (ObjectName (om_name (ag_Meta agent)) "agent")
                  (om_namespace (ag_Meta agent)) (CommonLabels (om_name (ag_Meta agent)) "rbac");
     rb_roleRef := mkRoleRef RbacGroupName "Role" (ObjectName (om_name (ag_Meta agent)) "agent");
     rb_subjects := [mkSubject "ServiceAccount" (AgentServiceAccountName agent)
                       (om_namespace (ag_Meta agent))] |}.

Definition ChannelServiceAccountName (ch : Channel) : string :=
  ObjectName (om_name (chn_Meta ch)) "channel".

Definition BuildChannelServiceAccount (ch : Channel) : ServiceAccount :=
  mkServiceAccount (newMeta (ChannelServiceAccountName ch) (om_namespace (chn_Meta ch))
    (CommonLabels (om_name (chn_Meta ch)) "channel")).

Definition BuildChannelRole (ch : Channel) : Role :=
  {| ro_meta := newMeta (ObjectName (om_name (chn_Meta ch)) "channel")
                  (om_namespace (chn_Meta ch)) (CommonLabels (om_name (chn_Meta ch)) "channel");
     ro_rules := [ mkRule [AgentsGroup] ["agentruns"] ["create"; "get"; "list"] ] |}.

Definition BuildChannelRoleBinding (ch : Channel) : RoleBinding :=
  {| rb_meta := newMeta (ObjectName (om_name (chn_Meta ch)) "channel")
                  (om_namespace (chn_Meta ch)) (CommonLabels (om_name (chn_Meta ch)) "channel");
     rb_roleRef := mkRoleRef RbacGroupName "Role" (ObjectName (om_name (chn_Meta ch)) "channel");
     rb_subjects := [mkSubject "ServiceAccount" (ChannelServiceAccountName ch)
                       (om_namespace (chn_Meta ch))] |}.

(** ** service.go *)

(** The [MatchLabels] of the daemon pods, written in service.go,
    networkpolicy.go and agent_deployment.go. *)
Definition runtime_selector (agentName : string) : gmap string string :=
  <[LabelAgent := agentName]> (<[LabelComponent := "runtime"]> ∅).

Definition BuildAgentService (agent : Agent) : Service :=
  {| sv_meta := newMeta (om_name (ag_Meta agent)) (om_namespace (ag_Meta agent))
                  (CommonLabels (om_name (ag_Meta agent)) "service");
     sv_selector := runtime_selector (om_name (ag_Meta agent));
     sv_ports := [mkServicePort "http" AgentRuntimePort AgentRuntimePort "TCP"];
     sv_type := "" |}.

Definition channel_selector (name : string) : gmap string string :=
  <[LabelComponent := "channel"]> (<["app" := name]> ∅).

Definition BuildChannelService (ch : Channel) : Service :=
  {| sv_meta := newMeta (om_name (chn_Meta ch)) (om_namespace (chn_Meta ch))
                  (<[LabelComponent := "channel"]> (<[LabelManagedBy := ManagedByValue]> ∅));
     sv_selector := channel_selector (om_name (chn_Meta ch));
     sv_ports := [mkServicePort "http" 8080 8080 "TCP"];
     sv_type := "" |}.

Definition AgentServiceURL (agent : Agent) : string :=
  "http://" +:+ om_name (ag_Meta agent) +:+ "." +:+ om_namespace (ag_Meta agent) +:+ ".svc:"
    +:+ GoFmt.d AgentRuntimePort.

(** ** networkpolicy.go *)

Definition BuildAgentNetworkPolicy (agent : Agent) : NetworkPolicy :=
  {| np_meta := newMeta (ObjectName (om_name (ag_Meta agent)) "netpol")
                  (om_namespace (ag_Meta agent))
                  (CommonLabels (om_name (ag_Meta agent)) "networkpolicy");
     np_podSelector := runtime_selector (om_name (ag_Meta agent));
     np_policyTypes := ["Ingress"];
     np_ingressPorts := [[AgentRuntimePort]] |}.

(** ** pvc.go *)

Section PVC.
(** [valid_quantity] is what [resource.MustParse] accepts; it panics on the
    rest ([None] here). *)
Variable valid_quantity : string → bool.

Definition BuildAgentPVC (agent : Agent) (storage : StorageSpec) : option PersistentVolumeClaim :=
  let pvcName := ObjectName (om_name (ag_Meta agent)) "storage" in
  let size := str_or (sto_Size storage) "1Gi" in
  if valid_quantity size then
    Some {| pvc_meta := newMeta pvcName (om_namespace (ag_Meta agent))
                          (CommonLabels (om_name (ag_Meta agent)) "storage");
            pvc_accessModes := ["ReadWriteOnce"];
            pvc_storage := size;
            pvc_storageClassName :=
              if decide (sto_StorageClass storage ≠ "") then Some (sto_StorageClass storage)
              else None |}
  else None.
End PVC.

(** ** Access: what the token of a service account may do

    The Kubernetes RBAC rule: a binding in a namespace gives its subjects the
    rules of the Role it refers to. *)
Definition rule_allows (r : PolicyRule) (group resource verb : string) : Prop :=
  group ∈ pol_apiGroups r ∧ resource ∈ pol_resources r ∧ verb ∈ pol_verbs r.

Definition role_allows (ro : Role) (group resource verb : string) : Prop :=
  ∃ r, r ∈ ro_rules ro ∧ rule_allows r group resource verb.

Definition grants (rb : RoleBinding) (ro : Role) (sa ns group resource verb : string) : Prop :=
  rb_roleRef rb = mkRoleRef RbacGroupName "Role" (om_name (ro_meta ro)) ∧
  om_namespace (rb_meta rb) = om_namespace (ro_meta ro) ∧ om_namespace (rb_meta rb) = ns ∧
  mkSubject "ServiceAccount" sa ns ∈ rb_subjects rb ∧
  role_allows ro group resource verb.

Lemma role_allows_cons m r rs group resource verb :
  role_allows (mkRole m (r :: rs)) group resource verb ↔
  rule_allows r group resource verb ∨ role_allows (mkRole m rs) group resource verb.
Proof.
  unfold role_allows. cbn. setoid_rewrite elem_of_cons. naive_solver.
Qed.

Lemma role_allows_nil m group resource verb :
  role_allows (mkRole m []) group resource verb ↔ False.
Proof. unfold role_allows. cbn. setoid_rewrite elem_of_nil. naive_solver. Qed.

(** Least privilege of the in-cluster identities: the service account an
    agent's pods run as can create and read AgentRuns, write their status and
    read Agents and Integrations, a channel's account can create and read
    AgentRuns, and neither can do anything else — nothing outside the
    operator's API group, no delete, and no change to an Agent, a Provider or
    an Integration. *)
Theorem rbac_least_privilege agent ch group resource verb :
  (grants (BuildAgentRoleBinding agent) (BuildAgentRole agent) (AgentServiceAccountName agent)
     (om_namespace (ag_Meta agent)) group resource verb ↔
   group = AgentsGroup ∧
   ((resource = "agentruns" ∧ verb ∈ ["create"; "get"; "list"; "watch"]) ∨
    (resource = "agentruns/status" ∧ verb ∈ ["get"; "patch"; "update"]) ∨
    (resource = "agents" ∧ verb ∈ ["get"; "list"; "watch"]) ∨
    (resource = "integrations" ∧ verb ∈ ["get"; "list"]))) ∧
  (grants (BuildChannelRoleBinding ch) (BuildChannelRole ch)
     (om_name (sa_meta (BuildChannelServiceAccount ch)))
     (om_namespace (chn_Meta ch)) group resource verb ↔
   group = AgentsGroup ∧ resource = "agentruns" ∧ verb ∈ ["create"; "get"; "list"]).
Proof.
  unfold grants, BuildAgentRole, BuildChannelRole. cbn [ro_rules ro_meta].
  rewrite !role_allows_cons, !role_allows_nil. unfold rule_allows. cbn.
  split; set_solver.
Qed.
