(* ===== verification/AgentPod.v ===== *)
(** * Agent pods (internal/resources/agent_deployment.go, agent_job.go)

    The pod of an agent: a main container that runs the runtime, one crane
    init container per OCI tool, the volumes they share.  A daemon agent gets
    it in a Deployment, a task run in a Job. *)

From S2P Require Import Prelude GoLib KubeTypes ApiTypes Json JsonCodec.
From S2P Require Import Effects ResourceCommon Security AgentGit ConfigTypes ConfigMap Builders.

Open Scope string_scope.
Open Scope list_scope.

(** ** Volumes *)

Definition context_volume_name (i : nat) : string := "context-" +:+ GoFmt.d (Z.of_nat i).
Definition pull_tool_name (tool : ToolBinding) : string := "init-pull-tool-" +:+ tb_Name tool.

Definition buildVolumes (agent : Agent) (taskMode : bool) : list Volume :=
  let spec := ag_Spec agent in
  let volumes :=
    [ mkVolume VolumeTools (EmptyDir None);
      mkVolume VolumeConfig (ConfigMapVolume (ObjectName (om_name (ag_Meta agent)) "config") []) ] in
  let volumes := volumes ++
    [ mkVolume VolumeData
        (if negb taskMode && bool_decide (is_Some (as_Storage spec))
         then PersistentVolumeClaimVolume (ObjectName (om_name (ag_Meta agent)) "storage")
         else EmptyDir None) ] in
  let volumes := volumes ++
    imap (λ i cf, let ref := cfr_ConfigMapRef cf in
                  mkVolume (context_volume_name i)
                    (ConfigMapVolume (skr_Name ref) [(skr_Key ref, skr_Key ref)]))
      (as_ContextFiles spec) in
  volumes ++
    omap (λ tool, (λ ps, mkVolume ("pull-secret-" +:+ pull_tool_name tool)
                           (SecretVolume (skr_Name ps))) <$> oci_PullSecret (tb_OCI tool))
      (as_Tools spec).

(** ** Init containers *)

Definition crane_command (ref destPath : string) : string :=
  "mkdir -p " +:+ ShellQuote destPath +:+ " && crane export " +:+ ShellQuote ref
    +:+ " - | tar -xf - -C " +:+ ShellQuote destPath.

Definition buildCraneInitContainer (name ref destPath volumeName mountPath : string)
  (pullSecret : option SecretKeyRef) : Container :=
  let cmd := crane_command ref destPath in
  let c := mkContainer name CraneImage "" ["sh"; "-c"; cmd] [EnvValue "HOME" MountTmp]
             [mkMount volumeName mountPath "" false] (mkResources None None) [] None None None in
  match pullSecret with
  | None => c
  | Some ps =>
      let configDir := "/tmp/docker-config" in
      let cmd := "mkdir -p " +:+ configDir +:+ " && cp /tmp/pull-secret/" +:+ skr_Key ps +:+ " "
                   +:+ configDir +:+ "/config.json && " +:+ cmd in
      let c := c <| ct_command := ["sh"; "-c"; cmd] |> in
      let c := c <| ct_env ::= λ env, env ++ [EnvValue "DOCKER_CONFIG" configDir] |> in
      c <| ct_volumeMounts ::= λ ms, ms ++ [mkMount ("pull-secret-" +:+ name) "/tmp/pull-secret" "" true] |>
  end.

Definition buildInitContainers (agent : Agent) : list Container :=
  map (λ tool, buildCraneInitContainer (pull_tool_name tool) (oci_Ref (tb_OCI tool))
                 (MountTools +:+ "/" +:+ tb_Name tool) VolumeTools MountTools
                 (oci_PullSecret (tb_OCI tool)))
    (as_Tools (ag_Spec agent)).

(** ** Environment *)

Definition providerNeedsOAuth2 (prov : Provider) : bool :=
  match prs_Endpoint (prov_Spec prov) with
  | Some ep => bool_decide (is_Some (pe_OAuth2ClientCredentials ep))
  | None => false
  end.

(** The body of the loop over the providers. *)
Definition provider_env (prov : Provider) : list EnvVar :=
  let name := om_name (prov_Meta prov) in
  let secret n (r : SecretKeyRef) := EnvSecret n (skr_Name r) (skr_Key r) in
  if bool_decide (prs_ApiKeySecret (prov_Spec prov) = None) && negb (providerNeedsOAuth2 prov)
  then []
  else
    match prs_ApiKeySecret (prov_Spec prov) with
    | Some r => [secret (ProviderEnvVarName name) r]
    | None => []
    end ++
    match (ep ← prs_Endpoint (prov_Spec prov); pe_OAuth2ClientCredentials ep) with
    | Some oauth => [secret (OAuth2ClientIDEnvVar name) (oa_ClientIDSecret oauth);
                     secret (OAuth2ClientSecretEnvVar name) (oa_ClientSecretSecret oauth)]
    | None => []
    end.

Definition buildEnvVars (agent : Agent) (providers : list Provider)
  (integrations : list Integration) (taskMode : bool) (infra : InfraConfig) : list EnvVar :=
  let spec := ag_Spec agent in
  let env :=
    [ EnvValue "AGENT_NAME" (om_name (ag_Meta agent));
      EnvValue "AGENT_NAMESPACE" (om_namespace (ag_Meta agent));
      EnvValue "AGENT_MODE" (as_Mode spec);
      EnvValue "AGENT_RUNTIME" "fantasy";
      EnvValue "WORKSPACE" MountData ] in
  let env := env ++
    [ EnvValue "OTEL_EXPORTER_OTLP_ENDPOINT" (OTel infra);
      EnvValue "OTEL_SERVICE_NAME" (om_name (ag_Meta agent)) ] in
  let env := env ++ [ EnvValue "NATS_URL" (NATS infra) ] in
  let env := env ++ map (λ kv, EnvValue (fst kv) (snd kv)) (sorted_keys (map_to_list (as_Env spec))) in
  let env := env ++ concat (map (λ tool, map (λ te, EnvValue (tev_Name te) (tev_Value te)) (tb_Env tool))
                              (as_Tools spec)) in
  let env := env ++ map (λ s, EnvSecret (sev_Name s) (skr_Name (sev_SecretRef s))
                                (skr_Key (sev_SecretRef s))) (as_Secrets spec) in
  let env := env ++ concat (map provider_env providers) in
  if negb taskMode && bool_decide (integrations ≠ []) then
    env ++ GitLabEnvFromIntegrations integrations (binding_map ib_Name (as_Integrations spec))
  else env.

(** ** The main container and the pod *)

Definition healthz (initialDelay period : Z) : Probe :=
  mkProbe "/healthz" AgentRuntimePort initialDelay period 1 1 3.

Definition buildMainContainer (agent : Agent) (providers : list Provider)
  (integrations : list Integration) (taskMode : bool) (infra : InfraConfig) : Container :=
  let spec := ag_Spec agent in
  let volumeMounts :=
    [ mkMount VolumeTools MountTools "" false; mkMount VolumeConfig MountConfig "" false ] in
  let volumeMounts := volumeMounts ++ [ mkMount VolumeData MountData "" false ] in
  let volumeMounts := volumeMounts ++
    imap (λ i cf, let key := skr_Key (cfr_ConfigMapRef cf) in
                  mkMount (context_volume_name i) ("/etc/context/" +:+ key) key false)
      (as_ContextFiles spec) in
  let env := buildEnvVars agent providers integrations taskMode infra in
  let command := if taskMode then ["/app/agent-runtime"; "task"]
                 else ["/app/agent-runtime"; "daemon"] in
  let container := mkContainer ContainerRuntime (RuntimeImage agent) "" command env volumeMounts
                     (mkResources None None) [] None None None in
  let container := match as_Resources spec with
                   | Some r => container <| ct_resources := r |> | None => container end in
  let container := container <| ct_resources ::= ensureEphemeralStorage |> in
  let container := container <| ct_imagePullPolicy := RuntimeImagePullPolicy agent |> in
  if taskMode then container
  else container
    <| ct_livenessProbe := Some (healthz 10 30) |>
    <| ct_readinessProbe := Some (healthz 5 10) |>
    <| ct_ports := [mkPort "http" AgentRuntimePort "TCP"] |>.

(** The caller's Agent after [buildMainContainer]: the resource maps of its
    spec are shared with the container's. *)
Definition agent_after_build (agent : Agent) : Agent :=
  agent <| ag_Spec ::= λ s, s <| as_Resources ::= fmap aliased |> |>.

Definition buildAgentPodSpec (agent : Agent) (providers : list Provider)
  (integrations : list Integration) (taskMode : bool) (infra : InfraConfig) : PodSpec :=
  let volumes := buildVolumes agent taskMode in
  let initContainers := buildInitContainers agent in
  let mainContainer := buildMainContainer agent providers integrations taskMode infra in
  let podSpec := mkPodSpec initContainers [mainContainer] volumes
                   (AgentServiceAccountName agent) None None "" in
  fst (ApplySecurity podSpec ContainerRuntime (as_Security (ag_Spec agent))).

Definition RecreateDeploymentStrategyType := "Recreate".

Definition BuildAgentDeployment (agent : Agent) (providers : list Provider)
  (integrations : list Integration) (infra : InfraConfig) : Deployment :=
  let labels := CommonLabels (om_name (ag_Meta agent)) "runtime" in
  let podSpec := buildAgentPodSpec agent providers integrations false infra in
  let deployment :=
    {| dp_meta := newMeta (om_name (ag_Meta agent)) (om_namespace (ag_Meta agent)) labels;
       dp_replicas := 1;
       dp_selector := runtime_selector (om_name (ag_Meta agent));
       dp_template := mkTemplate labels (as_PodAnnotations (ag_Spec agent)) podSpec;
       dp_strategy := "";
       dp_readyReplicas := 0 |} in
  match as_Storage (ag_Spec agent) with
  | Some _ => deployment <| dp_strategy := RecreateDeploymentStrategyType |>
  | None => deployment
  end.

(** ** The Job of a task run *)

Definition LabelRun := "agents.agentops.io/run".
Definition AnnotationTraceparent := "agents.agentops.io/traceparent".
Definition AnnotationParentAgent := "agents.agentops.io/parent-agent".

Definition optional_env (name value : string) : list EnvVar :=
  if decide (value ≠ "") then [EnvValue name value] else [].

(** The variables a run adds to the main container. *)
Definition run_env (run : AgentRun) (gitCfg : option GitWorkspaceConfig) : list EnvVar :=
  let annotation := lookup_str (om_annotations (ar_Meta run)) in
  [ EnvValue "AGENT_PROMPT" (ars_Prompt (ar_Spec run)) ] ++
  [ EnvValue "AGENT_RUN_NAME" (om_name (ar_Meta run)) ] ++
  optional_env "TRACEPARENT" (annotation AnnotationTraceparent) ++
  optional_env "AGENT_RUN_SOURCE_AGENT" (annotation AnnotationParentAgent) ++
  match gitCfg with Some g => GitEnvVars g | None => [] end.

(** The loop over the containers, which stops at the first of that name. *)
Fixpoint inject_env (env : list EnvVar) (cs : list Container) : list Container :=
  match cs with
  | [] => []
  | c :: cs' => if decide (ct_name c = ContainerRuntime)
                then c <| ct_env ::= λ e, e ++ env |> :: cs'
                else c :: inject_env env cs'
  end.

(** The loop over the volumes. *)
Fixpoint override_config (name : string) (vs : list Volume) : list Volume :=
  match vs with
  | [] => []
  | v :: vs' =>
      match v_source v with
      | ConfigMapVolume _ items =>
          if decide (v_name v = VolumeConfig)
          then mkVolume (v_name v) (ConfigMapVolume name items) :: vs'
          else v :: override_config name vs'
      | _ => v :: override_config name vs'
      end
  end.

Definition RestartPolicyNever := "Never".

(** [agent.Spec.Timeout] as the Job's deadline, in seconds. *)
Definition active_deadline (timeout : string) : Z :=
  let parsed :=
    if decide (timeout ≠ "") then
      d ← GoTime.ParseDuration timeout;
      if decide (0 < d)%Z then Some (GoTime.whole_seconds d) else None
    else None in
  default 1800%Z parsed.

Definition BuildAgentRunJob (run : AgentRun) (agent : Agent) (providers : list Provider)
  (gitCfg : option GitWorkspaceConfig) (runConfigMapName : string) (infra : InfraConfig) : Job :=
  let labels := <[LabelRun := om_name (ar_Meta run)]>
                  (CommonLabels (om_name (ag_Meta agent)) "task-run") in
  let podSpec := buildAgentPodSpec agent providers [] true infra in
  let podSpec := podSpec <| ps_containers ::= inject_env (run_env run gitCfg) |> in
  let podSpec := if decide (runConfigMapName ≠ "")
                 then podSpec <| ps_volumes ::= override_config runConfigMapName |>
                 else podSpec in
  let podSpec := podSpec <| ps_restartPolicy := RestartPolicyNever |> in
  {| jb_meta := newMeta (om_name (ar_Meta run)) (om_namespace (ar_Meta run)) labels;
     jb_backoffLimit := Some 0%Z;
     jb_activeDeadlineSeconds := Some (active_deadline (as_Timeout (ag_Spec agent)));
     jb_ttlSecondsAfterFinished := Some 120%Z;
     jb_template := mkTemplate labels (as_PodAnnotations (ag_Spec agent)) podSpec;
     jb_succeeded := 0;
     jb_failed := 0 |}.

(** ** Properties *)

(** *** The shell of the init containers *)

(** What a crane init container does with an image: mkdir, crane export into tar. *)
Definition pipeline (ref dest : string) : list Shell.token :=
  [ Shell.Word "mkdir"; Shell.Word "-p"; Shell.Word dest;
    Shell.Operator "&"; Shell.Operator "&";
    Shell.Word "crane"; Shell.Word "export"; Shell.Word ref; Shell.Word "-";
    Shell.Operator "|";
    Shell.Word "tar"; Shell.Word "-xf"; Shell.Word "-"; Shell.Word "-C"; Shell.Word dest ].

(** Before it, the pull secret is put where crane looks for it. *)
Definition docker_config (key : string) : list Shell.token :=
  [ Shell.Word "mkdir"; Shell.Word "-p"; Shell.Word "/tmp/docker-config";
    Shell.Operator "&"; Shell.Operator "&";
    Shell.Word "cp"; Shell.Word ("/tmp/pull-secret/" +:+ key); Shell.Word "/tmp/docker-config/config.json";
    Shell.Operator "&"; Shell.Operator "&" ].

(** The characters the keys of a Secret are made of. *)
Definition key_char (c : ascii) : bool :=
  let n := nat_of_ascii c in
  bool_decide (48 ≤ n ≤ 57 ∨ 65 ≤ n ≤ 90 ∨ 97 ≤ n ≤ 122 ∨ c ∈ ["-"; "."; "_"]%char)%nat.
Fixpoint secret_key (s : string) : bool :=
  match s with "" => true | String c s' => key_char c && secret_key s' end.

Lemma key_char_plain c : key_char c = true →
  c ≠ squote ∧ c ≠ backslash ∧ Shell.blank c = false ∧ Shell.operator c = false ∧ Shell.expansion c = false.
Proof. destruct c as [[] [] [] [] [] [] [] []]; vm_compute; intuition discriminate. Qed.

Lemma plain_key w s t : secret_key s = true →
  Shell.lex Shell.Plain (Some w) (s +:+ t) = Shell.lex Shell.Plain (Some (w +:+ s)) t.
Proof.
  revert w. induction s as [|c s IH]; intros w; cbn; [by rewrite GoStrings.app_nil_r|].
  intros [Hc Hs]%andb_true_iff. destruct (key_char_plain c Hc) as (H1 & H2 & -> & -> & ->).
  rewrite !decide_False by done. unfold Shell.snoc. cbn. by rewrite IH, GoStrings.app_assoc.
Qed.

Lemma crane_command_read ref dest : Shell.lex Shell.Plain None (crane_command ref dest) = Some (pipeline ref dest).
Proof.
  unfold crane_command.
  rewrite <- (GoStrings.app_nil_r (ShellQuote dest)) at 2.
  rewrite (Shell.lex_plain _ "mkdir -p " _ _ _ eq_refl), Shell.lex_ShellQuote, Shell.lex_blank,
    (Shell.lex_plain _ "&& crane export " _ _ _ eq_refl), Shell.lex_ShellQuote, Shell.lex_blank,
    (Shell.lex_plain _ "- | tar -xf - -C " _ _ _ eq_refl), Shell.lex_ShellQuote.
  reflexivity.
Qed.

(** [C11] The tool references are data, never shell syntax: whatever the
    reference and the destination, the shell reads the command of a crane init
    container as the same pipeline, mkdir, crane export into tar, with the two
    texts as single words; with a pull secret, after the two commands that copy it
    into place, provided its key is one a Secret can have (the key is not
    quoted: [pull_secret_key_unquoted]). *)
Theorem crane_command_words name ref dest vol mnt pull :
  ∃ cmd,
    ct_command (buildCraneInitContainer name ref dest vol mnt pull) = ["sh"; "-c"; cmd] ∧
    match pull with
    | None => Shell.read cmd = Some (pipeline ref dest)
    | Some s => secret_key (skr_Key s) = true →
        Shell.read cmd = Some (docker_config (skr_Key s) ++ pipeline ref dest)
    end.
Proof.
  destruct pull as [s|]; (eexists; split; [reflexivity|]); unfold Shell.read; [|apply crane_command_read].
  intros Hkey.
  change (Shell.lex Shell.Plain None ("mkdir -p /tmp/docker-config && cp /tmp/pull-secret/" +:+ skr_Key s +:+
    (" /tmp/docker-config/config.json && " +:+ crane_command ref dest)) = Some (docker_config (skr_Key s) ++ pipeline ref dest)).
  rewrite (Shell.lex_plain None "mkdir -p /tmp/docker-config && cp /tmp/pull-secret/" _
      (take 6 (docker_config "")) (Some "/tmp/pull-secret/") eq_refl), (plain_key _ _ _ Hkey),
    Shell.lex_blank, (Shell.lex_plain _ "/tmp/docker-config/config.json && " _ _ _ eq_refl), crane_command_read.
  reflexivity.
Qed.

Lemma crane_command_words_witness : secret_key ".dockerconfigjson" = true ∧
  ∃ cmd, ct_command (buildCraneInitContainer "t" "a; rm -rf /" "/tools/t" "tools" "/tools"
    (Some (mkSecretKeyRef "pull" ".dockerconfigjson"))) = ["sh"; "-c"; cmd] ∧
    Shell.read cmd = Some (docker_config ".dockerconfigjson" ++ pipeline "a; rm -rf /" "/tools/t").
Proof.
  split; [reflexivity|].
  destruct (crane_command_words "t" "a; rm -rf /" "/tools/t" "tools" "/tools"
    (Some (mkSecretKeyRef "pull" ".dockerconfigjson"))) as (cmd & Hc & Hr).
  exists cmd. split; [exact Hc|]. apply Hr. reflexivity.
Defined.

(** *** Volumes and their mounts *)

(** Every mount of every container is of a volume of the pod. *)
Definition mounts_declared (p : PodSpec) : Prop :=
  ∀ c m, c ∈ ps_initContainers p ++ ps_containers p → m ∈ ct_volumeMounts c →
    vm_name m ∈ v_name <$> ps_volumes p.

Definition mount_names (c : Container) : list string := vm_name <$> ct_volumeMounts c.

Lemma mounts_declared_names p :
  mounts_declared p ↔
  Forall (λ c, mount_names c ⊆ v_name <$> ps_volumes p) (ps_initContainers p ++ ps_containers p).
Proof.
  unfold mounts_declared, mount_names. rewrite Forall_forall. split.
  - intros H c Hc n (m & -> & Hm)%list_elem_of_fmap. eauto.
  - intros H c m Hc Hm. apply (H c Hc). apply list_elem_of_fmap. eauto.
Qed.

Lemma applyContainer_mount_names ov c : mount_names (applyContainer ov c) ⊆ mount_names c ++ [VolumeTmp].
Proof.
  unfold mount_names. rewrite applyContainer_mounts. case_bool_decide; set_solver.
Qed.

Lemma ApplySecurity_mounts ps main ov :
  mounts_declared ps → mounts_declared (fst (ApplySecurity ps main ov)).
Proof.
  rewrite !mounts_declared_names.
  destruct (ApplySecurity_parts ps main ov) as (_ & _ & Hi & Hm & Hv & _).
  rewrite Hi, Hm. pose proof (ApplySecurity_tmp_volume ps main ov) as Ht.
  unfold has_tmp_volume in Ht.
  assert (v_name <$> ps_volumes ps ⊆ v_name <$> ps_volumes (fst (ApplySecurity ps main ov))) as Hsub.
  { intros n Hn. rewrite Hv, fmap_app. apply elem_of_app. by left. }
  assert (∀ o c, mount_names c ⊆ v_name <$> ps_volumes ps →
            mount_names (applyContainer o c) ⊆ v_name <$> ps_volumes (fst (ApplySecurity ps main ov)))
    as Hc.
  { intros o c Hc n [Hn|Hn]%applyContainer_mount_names%elem_of_app; [auto|].
    apply list_elem_of_singleton in Hn as ->. exact Ht. }
  rewrite !Forall_app, !Forall_fmap. intros [H1 H2]. split.
  - eapply Forall_impl; [exact H1|]. intros c Hin. exact (Hc None c Hin).
  - eapply Forall_impl; [exact H2|]. intros c Hin. cbn.
    unfold main_or_sidecar. destruct (decide (ct_name c = main)); exact (Hc _ c Hin).
Qed.

(** The names of the pod's volumes before [ApplySecurity]. *)
Definition volume_names (agent : Agent) : list string :=
  [VolumeTools; VolumeConfig; VolumeData] ++
  imap (λ i _, context_volume_name i) (as_ContextFiles (ag_Spec agent)) ++
  omap (λ tool, (λ _, "pull-secret-" +:+ pull_tool_name tool) <$> oci_PullSecret (tb_OCI tool))
    (as_Tools (ag_Spec agent)).

Lemma fmap_omap {A B C} (f : B → C) (g : A → option B) (l : list A) :
  f <$> omap g l = omap (λ x, f <$> g x) l.
Proof. induction l as [|x l IH]; [done|]. cbn. destruct (g x); cbn; by rewrite IH. Qed.

Lemma buildVolumes_names agent task : v_name <$> buildVolumes agent task = volume_names agent.
Proof.
  unfold buildVolumes, volume_names. rewrite !fmap_app, fmap_imap, fmap_omap. cbn.
  do 4 f_equal. induction (as_Tools (ag_Spec agent)) as [|t l IH]; [done|]. cbn.
  destruct (oci_PullSecret (tb_OCI t)); cbn; by rewrite IH.
Qed.

Lemma init_mounts agent c :
  c ∈ buildInitContainers agent → mount_names c ⊆ volume_names agent.
Proof.
  unfold buildInitContainers. intros (tool & -> & Ht)%list_elem_of_fmap.
  unfold mount_names, buildCraneInitContainer, volume_names.
  destruct (oci_PullSecret (tb_OCI tool)) eqn:E; cbn; [|set_solver].
  intros n. rewrite !elem_of_cons, elem_of_nil. intros [->|[->|[]]]; [by left|].
  do 3 right. rewrite elem_of_app. right. apply list_elem_of_omap. exists tool.
  by rewrite E.
Qed.

Lemma main_mounts agent providers integrations task infra :
  mount_names (buildMainContainer agent providers integrations task infra) ⊆ volume_names agent.
Proof.
  unfold mount_names, volume_names.
  assert (ct_volumeMounts (buildMainContainer agent providers integrations task infra) =
    [ mkMount VolumeTools MountTools "" false; mkMount VolumeConfig MountConfig "" false;
      mkMount VolumeData MountData "" false ] ++
    imap (λ i cf, mkMount (context_volume_name i) ("/etc/context/" +:+ skr_Key (cfr_ConfigMapRef cf))
                    (skr_Key (cfr_ConfigMapRef cf)) false) (as_ContextFiles (ag_Spec agent))) as ->.
  { unfold buildMainContainer. destruct (as_Resources (ag_Spec agent)), task; reflexivity. }
  rewrite fmap_app, fmap_imap. cbn. set_solver.
Qed.

Lemma podSpec_mounts agent providers integrations task infra :
  mounts_declared (buildAgentPodSpec agent providers integrations task infra).
Proof.
  unfold buildAgentPodSpec. apply ApplySecurity_mounts, mounts_declared_names. cbn -[buildVolumes].
  rewrite buildVolumes_names. apply Forall_app. split.
  - apply Forall_forall. apply init_mounts.
  - apply Forall_singleton, main_mounts.
Qed.

Lemma inject_env_mounts env cs : mount_names <$> inject_env env cs = mount_names <$> cs.
Proof. induction cs as [|c cs IH]; [done|]. cbn. case_decide; cbn; by rewrite ?IH. Qed.

Lemma override_config_names n vs : v_name <$> override_config n vs = v_name <$> vs.
Proof.
  induction vs as [|[vn src] vs IH]; [done|]. cbn. destruct src; cbn; rewrite ?IH; try done.
  case_decide; cbn; by rewrite ?IH.
Qed.

Lemma Forall_fmap_eq {A B} (P : B → Prop) (f : A → B) (l l' : list A) :
  f <$> l = f <$> l' → Forall (P ∘ f) l → Forall (P ∘ f) l'.
Proof. intros Hl. by rewrite <- !Forall_fmap, Hl. Qed.

(** Two volumes never share a name, unless two tools do. *)
#[local] Instance context_volume_name_inj : Inj (=) (=) context_volume_name.
Proof.
  intros i j H. unfold context_volume_name in H.
  apply (GoStrings.app_inv_head "context-"), (inj GoFmt.d) in H. lia.
Qed.

Lemma context_names_NoDup (l : list ContextFileRef) n :
  NoDup (imap (λ i _, context_volume_name (n + i)) l).
Proof.
  revert n. induction l as [|x l IH]; intros n; cbn [imap]; constructor.
  - intros (i & y & Hi & _)%elem_of_lookup_imap.
    change (context_volume_name (n + 0) = context_volume_name (n + S i)) in Hi.
    apply (inj context_volume_name) in Hi. lia.
  - specialize (IH (S n)). erewrite imap_ext; [exact IH|]. intros i y _.
    unfold compose. f_equal. lia.
Qed.

Lemma pull_names_NoDup (l : list ToolBinding) :
  NoDup (tb_Name <$> l) →
  NoDup (omap (λ tool, (λ _, "pull-secret-" +:+ pull_tool_name tool) <$> oci_PullSecret (tb_OCI tool)) l).
Proof.
  induction l as [|t l IH]; cbn; [constructor|]. intros [Ht Hl]%NoDup_cons.
  destruct (oci_PullSecret (tb_OCI t)); cbn; [|by apply IH].
  constructor; [|by apply IH]. intros (t' & Hin & Ht')%list_elem_of_omap.
  destruct (oci_PullSecret (tb_OCI t')); [|done]. cbn in Ht'. injection Ht' as Ht'.
  unfold pull_tool_name in Ht'. apply Ht. rewrite <- Ht'. by apply list_elem_of_fmap_2.
Qed.

Lemma volume_names_NoDup agent :
  NoDup (tb_Name <$> as_Tools (ag_Spec agent)) → NoDup (volume_names agent ++ [VolumeTmp]).
Proof.
  intros Ht. unfold volume_names. rewrite <- (assoc_L (++)).
  pose proof (context_names_NoDup (as_ContextFiles (ag_Spec agent)) 0) as Hc.
  pose proof (pull_names_NoDup _ Ht) as Hp.
  set (cs := imap _ _) in *. set (ps := omap _ _) in *.
  assert (∀ n, n ∈ cs → ∃ t, n = "context-" +:+ t) as Hcs.
  { intros n (i & y & -> & _)%elem_of_lookup_imap. by eexists. }
  assert (∀ n, n ∈ ps → ∃ t, n = "pull-secret-" +:+ t) as Hps.
  { intros n (t & _ & Hn)%list_elem_of_omap. destruct (oci_PullSecret _); [|done].
    injection Hn as <-. by eexists. }
  clearbody cs ps.
  apply NoDup_app. split; [repeat constructor; set_solver|]. split.
  - intros n Hn. rewrite !elem_of_app. intros [[H|H]|H].
    + apply Hcs in H as [t ->]. set_solver.
    + apply Hps in H as [t ->]. set_solver.
    + apply list_elem_of_singleton in H as ->. set_solver.
  - apply NoDup_app. split; [|split].
    + apply NoDup_app. split; [done|]. split; [|done].
      intros n [t ->]%Hcs [t' Ht']%Hps. done.
    + intros n [H|H]%elem_of_app Hn; apply list_elem_of_singleton in Hn as ->;
        [apply Hcs in H as [t H] | apply Hps in H as [t H]]; done.
    + apply NoDup_singleton.
Qed.

(** The pod specs of the two workloads. *)
Definition deployment_pod (d : Deployment) : PodSpec := pt_spec (dp_template d).
Definition job_pod (j : Job) : PodSpec := pt_spec (jb_template j).

Lemma deployment_pod_eq agent providers integrations infra :
  deployment_pod (BuildAgentDeployment agent providers integrations infra)
  = buildAgentPodSpec agent providers integrations false infra.
Proof. unfold BuildAgentDeployment. by destruct (as_Storage (ag_Spec agent)). Qed.

Lemma job_pod_parts run agent providers git cm infra :
  let p := buildAgentPodSpec agent providers [] true infra in
  let p' := job_pod (BuildAgentRunJob run agent providers git cm infra) in
  ps_initContainers p' = ps_initContainers p ∧
  ps_containers p' = inject_env (run_env run git) (ps_containers p) ∧
  ps_volumes p' = (if decide (cm ≠ "") then override_config cm (ps_volumes p) else ps_volumes p) ∧
  ps_securityContext p' = ps_securityContext p ∧
  ps_serviceAccountName p' = ps_serviceAccountName p ∧
  ps_automountToken p' = ps_automountToken p.
Proof. unfold BuildAgentRunJob, job_pod. cbn. by case_decide. Qed.

Lemma job_volume_names run agent providers git cm infra :
  v_name <$> ps_volumes (job_pod (BuildAgentRunJob run agent providers git cm infra))
  = v_name <$> ps_volumes (buildAgentPodSpec agent providers [] true infra).
Proof.
  destruct (job_pod_parts run agent providers git cm infra) as (_ & _ & -> & _).
  case_decide; [by rewrite override_config_names | done].
Qed.

Lemma podSpec_volume_names agent providers integrations task infra :
  v_name <$> ps_volumes (buildAgentPodSpec agent providers integrations task infra)
  = volume_names agent ++ (if bool_decide (VolumeTmp ∈ volume_names agent) then [] else [VolumeTmp]).
Proof.
  unfold buildAgentPodSpec.
  match goal with |- context [ApplySecurity ?ps ?m ?o] =>
    destruct (ApplySecurity_parts ps m o) as (_ & _ & _ & _ & -> & _) end.
  unfold has_tmp_volume. cbn [ps_volumes]. rewrite fmap_app, buildVolumes_names. f_equal.
  by case_bool_decide.
Qed.

Lemma podSpec_volumes_NoDup agent providers integrations task infra :
  NoDup (tb_Name <$> as_Tools (ag_Spec agent)) →
  NoDup (v_name <$> ps_volumes (buildAgentPodSpec agent providers integrations task infra)).
Proof.
  intros Ht%volume_names_NoDup. rewrite podSpec_volume_names. case_bool_decide; [|done].
  rewrite app_nil_r. by apply NoDup_app in Ht as [Ht _].
Qed.

(** The pods an agent's workloads ask for can be scheduled: in the
    Deployment and in every run's Job, each mount of each container (init
    containers included) names a volume of the pod, and no two volumes share
    a name as long as no two tools do. *)
Theorem agent_pods_volumes run agent providers integrations git cm infra :
  let dep := deployment_pod (BuildAgentDeployment agent providers integrations infra) in
  let job := job_pod (BuildAgentRunJob run agent providers git cm infra) in
  mounts_declared dep ∧ mounts_declared job ∧
  (NoDup (tb_Name <$> as_Tools (ag_Spec agent)) →
   NoDup (v_name <$> ps_volumes dep) ∧ NoDup (v_name <$> ps_volumes job)).
Proof.
  cbv zeta. rewrite deployment_pod_eq. split; [apply podSpec_mounts|]. split.
  - apply mounts_declared_names. rewrite job_volume_names.
    destruct (job_pod_parts run agent providers git cm infra) as (-> & -> & _).
    pose proof (podSpec_mounts agent providers [] true infra) as Hm.
    apply mounts_declared_names in Hm. apply Forall_app in Hm as [Hi Hc].
    apply Forall_app. split; [exact Hi|].
    apply (Forall_fmap_eq (λ ns, ns ⊆ _) mount_names _ _ (eq_sym (inject_env_mounts _ _)) Hc).
  - intros Ht. split; [|rewrite job_volume_names]; by apply podSpec_volumes_NoDup.
Qed.

(** [C12] Traffic and policy reach exactly the daemon pods of their agent: the
    Service, the NetworkPolicy and the Deployment of an agent select the pods
    of an agent's Deployment exactly when it is the same agent, and never the
    pod of a task run. *)
Theorem agent_selectors a b run providers integrations git cm infra :
  let pod := pt_labels (dp_template (BuildAgentDeployment b providers integrations infra)) in
  let task := pt_labels (jb_template (BuildAgentRunJob run b providers git cm infra)) in
  let selectors := [ sv_selector (BuildAgentService a); np_podSelector (BuildAgentNetworkPolicy a);
                     dp_selector (BuildAgentDeployment a providers integrations infra) ] in
  Forall (λ sel, (selects sel pod ↔ om_name (ag_Meta a) = om_name (ag_Meta b))
                 ∧ ¬ selects sel task) selectors.
Proof.
  intros pod task selectors. apply Forall_forall. intros sel Hsel.
  assert (sel = runtime_selector (om_name (ag_Meta a))) as ->.
  { subst selectors. rewrite !elem_of_cons, elem_of_nil in Hsel.
    destruct Hsel as [->|[->|[->|[]]]]; [done..|].
    unfold BuildAgentDeployment. by destruct (as_Storage (ag_Spec a)). }
  assert (pod = CommonLabels (om_name (ag_Meta b)) "runtime") as ->.
  { subst pod. unfold BuildAgentDeployment. by destruct (as_Storage (ag_Spec b)). }
  subst task. cbn [BuildAgentRunJob jb_template pt_labels].
  unfold selects, runtime_selector, CommonLabels. rewrite map_subseteq_spec. split; [split|].
  - intros H. specialize (H LabelAgent (om_name (ag_Meta a))).
    rewrite !lookup_insert_eq in H. specialize (H eq_refl). congruence.
  - intros -> k v. rewrite !lookup_insert_Some. naive_solver.
  - rewrite map_subseteq_spec. intros H. specialize (H LabelComponent "runtime").
    rewrite lookup_insert_ne, lookup_insert_eq in H by done. specialize (H eq_refl).
    rewrite lookup_insert_ne, lookup_insert_ne, lookup_insert_eq in H by done. done.
Qed.

(** *** The environment and the configuration agree *)

Lemma provider_env_in agent providers integrations task infra prov e :
  prov ∈ providers → e ∈ provider_env prov →
  e ∈ buildEnvVars agent providers integrations task infra.
Proof.
  intros Hp He. unfold buildEnvVars.
  assert (e ∈ concat (map provider_env providers)) as Hin.
  { apply list_elem_of_In, in_concat. exists (provider_env prov).
    split; apply list_elem_of_In; [by apply list_elem_of_fmap_2 | done]. }
  case_match; rewrite ?elem_of_app; tauto.
Qed.

(** [C13] What config.json tells the runtime to read is there: for every
    provider of the agent, the variable its API key is read from and the two
    variables its OAuth2 entry names are in the pod's environment, as
    references to the secrets of that Provider. *)
Theorem provider_credentials_available `{FloatOps} agent providers integrations task infra prov :
  prov ∈ providers →
  let env := buildEnvVars agent providers integrations task infra in
  let secret n r := EnvSecret n (skr_Name r) (skr_Key r) in
  (∀ r, prs_ApiKeySecret (prov_Spec prov) = Some r →
     secret (ProviderEnvVarName (om_name (prov_Meta prov))) r ∈ env) ∧
  (∀ ep oauth, prs_Endpoint (prov_Spec prov) = Some ep →
     pe_OAuth2ClientCredentials ep = Some oauth →
     ∃ entry o, entry ∈ elems (acf_Providers (agent_config agent integrations providers)) ∧
       pen_Name entry = om_name (prov_Meta prov) ∧ pen_OAuth2 entry = Some o ∧
       poe_TokenURL o = oa_TokenURL oauth ∧
       secret (poe_ClientIDEnv o) (oa_ClientIDSecret oauth) ∈ env ∧
       secret (poe_ClientSecretEnv o) (oa_ClientSecretSecret oauth) ∈ env).
Proof.
  intros Hin env secret. split.
  - intros r Hr. apply (provider_env_in _ _ _ _ _ prov); [done|]. unfold provider_env.
    rewrite Hr. cbn. left.
  - intros ep oauth Hep Ho.
    exists (buildProviderEntry prov
      (binding_map pb_Name (as_ProviderRefs (ag_Spec agent)) !! om_name (prov_Meta prov))).
    eexists. split_and!.
    + assert (acf_Providers (agent_config agent integrations providers) = append_all NilSlice
        (map (λ prov, buildProviderEntry prov
          (binding_map pb_Name (as_ProviderRefs (ag_Spec agent)) !! om_name (prov_Meta prov))) providers)) as ->
        by (unfold agent_config; by case_decide).
      rewrite elems_append_all. apply list_elem_of_fmap. by exists prov.
    + unfold buildProviderEntry. rewrite Hep, Ho. by repeat case_match.
    + unfold buildProviderEntry. rewrite Hep, Ho.
      destruct (prs_Config (prov_Spec prov)) as [cfg|]; [destruct (pc_Vertex cfg)|]; reflexivity.
    + done.
    + apply (provider_env_in _ _ _ _ _ prov); [done|]. unfold provider_env, providerNeedsOAuth2.
      rewrite Hep, Ho. cbn. rewrite Ho, andb_false_r, elem_of_app. right. by left.
    + apply (provider_env_in _ _ _ _ _ prov); [done|]. unfold provider_env, providerNeedsOAuth2.
      rewrite Hep, Ho. cbn. rewrite Ho, andb_false_r, elem_of_app. right. by right; left.
Qed.

Definition oauth_provider : Provider :=
  zeroProvider
    <| prov_Meta := newMeta "dnabot" "agents" ∅ |>
    <| prov_Spec := mkProviderSpec "openaicompat" None
         (Some (mkProviderEndpoint "https://api" ∅
            (Some (mkOAuth2ClientCredentials "https://token" (mkSecretKeyRef "s" "id")
                     (mkSecretKeyRef "s" "secret") "" "")))) None None |>.

Lemma provider_credentials_available_witness :
  ∃ entry o, entry ∈ elems (acf_Providers (agent_config (H := half_floats) tooled_agent [] [oauth_provider])) ∧
    pen_OAuth2 entry = Some o ∧
    EnvSecret (poe_ClientIDEnv o) "s" "id"
      ∈ buildEnvVars tooled_agent [oauth_provider] [] true (mkInfra "" "").
Proof.
  destruct (provider_credentials_available (H := half_floats) tooled_agent [oauth_provider] [] true
              (mkInfra "" "") oauth_provider) as [_ Hoauth]; [left|].
  destruct (Hoauth _ _ eq_refl eq_refl) as (entry & o & He & _ & Ho & _ & Hid & _).
  exists entry, o. split; [exact He|]. split; [exact Ho | exact Hid].
Defined.

(** *** The Job of a run *)

Lemma whole_seconds_nonneg d : (0 < d)%Z → (0 ≤ GoTime.whole_seconds d)%Z.
Proof. intros. unfold GoTime.whole_seconds. apply Z.quot_pos; unfold GoTime.Second; lia. Qed.

Lemma podSpec_containers agent providers integrations task infra :
  ∃ main, ps_containers (buildAgentPodSpec agent providers integrations task infra) = [main] ∧
    ct_name main = ContainerRuntime ∧
    ct_env main = buildEnvVars agent providers integrations task infra ∧
    ct_image main = RuntimeImage agent ∧
    ct_command main = (if task then ["/app/agent-runtime"; "task"] else ["/app/agent-runtime"; "daemon"]).
Proof.
  unfold buildAgentPodSpec.
  match goal with |- context [ApplySecurity ?ps ?m ?o] =>
    destruct (ApplySecurity_parts ps m o) as (_ & _ & _ & -> & _) end.
  cbn [ps_containers map]. eexists. split; [reflexivity|].
  assert (ct_name (buildMainContainer agent providers integrations task infra) = ContainerRuntime
    ∧ ct_env (buildMainContainer agent providers integrations task infra)
      = buildEnvVars agent providers integrations task infra
    ∧ ct_image (buildMainContainer agent providers integrations task infra) = RuntimeImage agent
    ∧ ct_command (buildMainContainer agent providers integrations task infra)
      = (if task then ["/app/agent-runtime"; "task"] else ["/app/agent-runtime"; "daemon"]))
    as (Hn & He & Him & Hc).
  { unfold buildMainContainer. destruct (as_Resources (ag_Spec agent)), task; done. }
  unfold main_or_sidecar. rewrite Hn, decide_True by done.
  rewrite applyContainer_name, applyContainer_env, Hn, He. split; [done|]. split; [done|].
  unfold applyContainer. destruct (existsb _ _); done.
Qed.

(** The volume the operator configuration is read from. *)
Definition config_source (p : PodSpec) : option VolumeSource :=
  v_source <$> find (λ v, bool_decide (v_name v = VolumeConfig)) (ps_volumes p).

Lemma podSpec_config_source agent providers integrations task infra :
  config_source (buildAgentPodSpec agent providers integrations task infra)
  = Some (ConfigMapVolume (ObjectName (om_name (ag_Meta agent)) "config") []).
Proof.
  unfold config_source, buildAgentPodSpec.
  match goal with |- context [ApplySecurity ?ps ?m ?o] =>
    destruct (ApplySecurity_parts ps m o) as (_ & _ & _ & _ & -> & _) end.
  reflexivity.
Qed.

Lemma override_config_source cm ps name items :
  config_source ps = Some (ConfigMapVolume name items) →
  v_source <$> find (λ v, bool_decide (v_name v = VolumeConfig)) (override_config cm (ps_volumes ps))
  = Some (ConfigMapVolume cm items).
Proof.
  unfold config_source. induction (ps_volumes ps) as [|[n src] vs IH]; [done|]. cbn.
  case_bool_decide as Hn; cbn; [intros [= ->]; subst; reflexivity|].
  intros Hf%IH. destruct src; cbn; rewrite ?bool_decide_eq_false_2 by done; try done.
  rewrite decide_False by done. cbn. by rewrite bool_decide_eq_false_2.
Qed.

(** [C14] The Job of a task run runs the agent's task container exactly once:
    its only container is the runtime in task mode, with the agent's
    environment followed by the run's (prompt, run name, trace context, git
    workspace); it reads the run's ConfigMap when there is one and the
    agent's otherwise; it is never restarted or retried; and its deadline is
    the agent's timeout in whole seconds, or half an hour when the timeout is
    absent, unreadable or not positive, and always finite. *)
Theorem BuildAgentRunJob_spec run agent providers git cm infra :
  let job := BuildAgentRunJob run agent providers git cm infra in
  let p := job_pod job in
  (∃ main, ps_containers p = [main] ∧ ct_name main = ContainerRuntime ∧
     ct_command main = ["/app/agent-runtime"; "task"] ∧ ct_image main = RuntimeImage agent ∧
     ct_env main = buildEnvVars agent providers [] true infra ++ run_env run git) ∧
  config_source p = Some (ConfigMapVolume
    (if decide (cm ≠ "") then cm else ObjectName (om_name (ag_Meta agent)) "config") []) ∧
  ps_restartPolicy p = "Never" ∧ jb_backoffLimit job = Some 0%Z ∧
  (∃ deadline, jb_activeDeadlineSeconds job = Some deadline ∧
     deadline = match GoTime.ParseDuration (as_Timeout (ag_Spec agent)) with
                | Some d => if decide (0 < d)%Z then GoTime.whole_seconds d else 1800%Z
                | None => 1800%Z
                end ∧
     (0 ≤ deadline ≤ 9223372036)%Z).
Proof.
  cbv zeta. destruct (job_pod_parts run agent providers git cm infra) as (_ & Hc & Hv & _).
  destruct (podSpec_containers agent providers [] true infra) as (main & Hm & Hn & He & Hi & Hcmd).
  split_and!.
  - rewrite Hc, Hm. cbn [inject_env]. rewrite decide_True by done. eexists. split; [reflexivity|].
    cbn. by rewrite Hn, He, Hi, Hcmd.
  - pose proof (podSpec_config_source agent providers [] true infra) as Hs.
    unfold config_source at 1. rewrite Hv. case_decide; [exact (override_config_source cm _ _ _ Hs)|].
    exact Hs.
  - unfold BuildAgentRunJob, job_pod. cbn. by case_decide.
  - done.
  - eexists. split; [reflexivity|]. unfold active_deadline.
    destruct (decide (as_Timeout (ag_Spec agent) = "")) as [->|Ht].
    + rewrite decide_False by naive_solver. cbn. split; [reflexivity | lia].
    + rewrite decide_True by done.
      destruct (GoTime.ParseDuration (as_Timeout (ag_Spec agent))) as [d|] eqn:Hd; cbn;
        [|split; [done | lia]].
      destruct (decide (0 < d)%Z); cbn; [|split; [done | lia]]. split; [done|].
      split; [by apply whole_seconds_nonneg|].
      apply GoTime.ParseDuration_bound in Hd. unfold GoTime.whole_seconds, GoTime.two63, GoTime.Second in *.
      rewrite Z.quot_div_nonneg by lia. apply Z.lt_succ_r, Z.div_lt_upper_bound; lia.
Qed.

(** The key of a pull secret is spliced into the command unquoted: a key with a
    separator runs as a command of its own. *)
Lemma pull_secret_key_unquoted :
  ∃ cmd ts,
    ct_command (buildCraneInitContainer "n" "r" "d" "v" "m" (Some (mkSecretKeyRef "s" "k;id")))
      = ["sh"; "-c"; cmd] ∧
    Shell.read cmd = Some ts ∧
    Shell.Operator ";" :: [Shell.Word "id"] = take 2 (drop 7 ts).
Proof. eexists _, _. split; [reflexivity|]. split; vm_compute; reflexivity. Qed.
