(* ===== verification/CtrlCommon.v ===== *)
(** * What the controllers share (internal/controller/common.go)

    [reconcileOwnedResource] with one mutation per kind, [mergeLabels],
    [patchStatus] and the SecurityPolicyViolations condition. *)

From S2P Require Import Prelude GoLib KubeTypes ApiTypes Effects Security.

Open Scope string_scope.
Open Scope list_scope.

Definition requeueInterval : Z := 10 * GoTime.Second.

Definition mergeLabels (existing desired : gmap string string) : gmap string string :=
  if decide (desired = ∅) then existing
  else if decide (existing = ∅) then desired
  else desired ∪ existing.

(** [c.Status().Patch] of the difference, when there is one. *)
Definition patchStatus {k} (obj patch : obj k) : prog (option GoError) :=
  if decide (obj = patch) then mret None
  else x ← call (OpPatchStatus k patch obj);
       mret (match x with Ok _ => None | Err e => Some e end).

Section Conditions.
Context `{ConditionOps}.

Definition setSecurityPolicyViolationsCondition (conds : list Condition) (violations : list string)
  : list Condition :=
  match violations with
  | [] => SetStatusCondition conds
      (mkCondition ConditionSecurityPolicyViolations ConditionFalse "NoViolations"
         "Security overrides comply with the restricted Pod Security Standard.")
  | _ =>
      let msg := GoFmt.d (Z.of_nat (length violations))
        +:+ " override field(s) clamped to the restricted-PSS floor: "
        +:+ GoStrings.Join violations "; " in
      SetStatusCondition conds
        (mkCondition ConditionSecurityPolicyViolations ConditionTrue "OverridesClamped" msg)
  end.
End Conditions.

(** ** The mutations *)

Section Owned.
Context `{OwnerOps}.

(** The first lines of every mutation: the owner, labels and annotations. *)
Definition adopt (owner existing desired : ObjectMeta) : res ObjectMeta :=
  match SetControllerReference owner existing with
  | Some e => Err e
  | None => Ok (existing
      <| om_labels := mergeLabels (om_labels existing) (om_labels desired) |>
      <| om_annotations := mergeLabels (om_annotations existing) (om_annotations desired) |>)
  end.

Definition map_res {A B} (f : A → B) (r : res A) : res B :=
  match r with Ok a => Ok (f a) | Err e => Err e end.

Definition mutateService (owner : ObjectMeta) (d existing : Service) : res Service :=
  map_res (λ m,
    let existing := existing <| sv_meta := m |> <| sv_selector := sv_selector d |>
                             <| sv_ports := sv_ports d |> in
    if decide (sv_type d ≠ "") then existing <| sv_type := sv_type d |> else existing)
    (adopt owner (sv_meta existing) (sv_meta d)).

Definition mutateConfigMap (owner : ObjectMeta) (d existing : ConfigMap) : res ConfigMap :=
  map_res (λ m, existing <| cm_meta := m |> <| cm_data := cm_data d |>)
    (adopt owner (cm_meta existing) (cm_meta d)).

Definition is_new (m : ObjectMeta) : bool := bool_decide (om_creationTimestamp m = 0%Z).

Definition mutatePVC (owner : ObjectMeta) (d existing : PersistentVolumeClaim)
  : res PersistentVolumeClaim :=
  map_res (λ m,
    let existing := existing <| pvc_meta := m |> in
    if is_new m
    then existing <| pvc_accessModes := pvc_accessModes d |> <| pvc_storage := pvc_storage d |>
                  <| pvc_storageClassName := pvc_storageClassName d |>
    else existing)
    (adopt owner (pvc_meta existing) (pvc_meta d)).

Definition mutateNetworkPolicy (owner : ObjectMeta) (d existing : NetworkPolicy)
  : res NetworkPolicy :=
  map_res (λ m, existing <| np_meta := m |> <| np_podSelector := np_podSelector d |>
                  <| np_policyTypes := np_policyTypes d |> <| np_ingressPorts := np_ingressPorts d |>)
    (adopt owner (np_meta existing) (np_meta d)).

Definition mutateIngress (owner : ObjectMeta) (d existing : Ingress) : res Ingress :=
  map_res (λ m, d <| in_meta := m |>) (adopt owner (in_meta existing) (in_meta d)).

Definition mutateServiceAccount (owner : ObjectMeta) (d existing : ServiceAccount)
  : res ServiceAccount :=
  map_res (λ m, existing <| sa_meta := m |>) (adopt owner (sa_meta existing) (sa_meta d)).

Definition mutateRole (owner : ObjectMeta) (d existing : Role) : res Role :=
  map_res (λ m, existing <| ro_meta := m |> <| ro_rules := ro_rules d |>)
    (adopt owner (ro_meta existing) (ro_meta d)).

Definition mutateRoleBinding (owner : ObjectMeta) (d existing : RoleBinding) : res RoleBinding :=
  map_res (λ m,
    let existing := existing <| rb_meta := m |> in
    let existing := if is_new m then existing <| rb_roleRef := rb_roleRef d |> else existing in
    existing <| rb_subjects := rb_subjects d |>)
    (adopt owner (rb_meta existing) (rb_meta d)).

(** ** The dispatch on the desired object's type *)

Definition key_of {k} (d : obj k) : string :=
  om_namespace (obj_meta d) +:+ "/" +:+ om_name (obj_meta d).

Definition reconcileDeploymentSSA (owner : ObjectMeta) (d : Deployment) : prog (option GoError) :=
  match SetControllerReference owner (dp_meta d) with
  | Some e => mret (Some (wrapf ("set owner ref on Deployment " +:+ key_of (k := KDeployment) d) e))
  | None =>
      x ← call (OpApply d);
      mret (match x with
            | Err e => Some (wrapf ("apply Deployment " +:+ key_of (k := KDeployment) d) e)
            | Ok _ => None end)
  end.

Definition create_or_update {k} (what : string) (d : obj k) (mutate : obj k → res (obj k))
  : prog (option GoError) :=
  x ← call (OpCreateOrUpdate k (om_namespace (obj_meta d)) (om_name (obj_meta d)) mutate);
  mret (match x with
        | Err e => Some (wrapf ("reconcile " +:+ what +:+ " " +:+ key_of d) e)
        | Ok _ => None end).

(** The objects the switch has a case for, with their kind. *)
Definition reconcileOwnedResource (owner : ObjectMeta) (k : Kind) : obj k → prog (option GoError) :=
  match k with
  | KDeployment => reconcileDeploymentSSA owner
  | KService => λ d, create_or_update (k := KService) "Service" d (mutateService owner d)
  | KConfigMap => λ d, create_or_update (k := KConfigMap) "ConfigMap" d (mutateConfigMap owner d)
  | KPVC => λ d, create_or_update (k := KPVC) "PVC" d (mutatePVC owner d)
  | KNetworkPolicy => λ d,
      create_or_update (k := KNetworkPolicy) "NetworkPolicy" d (mutateNetworkPolicy owner d)
  | KIngress => λ d, create_or_update (k := KIngress) "Ingress" d (mutateIngress owner d)
  | KServiceAccount => λ d,
      create_or_update (k := KServiceAccount) "ServiceAccount" d (mutateServiceAccount owner d)
  | KRole => λ d, create_or_update (k := KRole) "Role" d (mutateRole owner d)
  | KRoleBinding => λ d,
      create_or_update (k := KRoleBinding) "RoleBinding" d (mutateRoleBinding owner d)
  | _ => λ _, mret (Some (errorf "unsupported resource type"))
  end.

End Owned.

(** ** Properties *)

Lemma mergeLabels_union existing desired : mergeLabels existing desired = desired ∪ existing.
Proof.
  unfold mergeLabels. repeat case_decide; subst.
  - by rewrite (left_id_L ∅ (∪)).
  - by rewrite (right_id_L ∅ (∪)).
  - done.
Qed.

Lemma mergeLabels_idemp e d : mergeLabels (mergeLabels e d) d = mergeLabels e d.
Proof. rewrite !mergeLabels_union. by rewrite (assoc_L (∪)), (idemp_L (∪)). Qed.

#[export] Hint Rewrite mergeLabels_union mergeLabels_idemp : agentops_rw.

(** Once an object may be owned it stays so, whatever its labels become. *)
Class OwnerStable `{OwnerOps} : Prop := owner_stable owner m m' :
  SetControllerReference owner m = None →
  om_name m' = om_name m → om_namespace m' = om_namespace m →
  SetControllerReference owner m' = None.

Section OwnedProps.
Context `{OwnerOps}.

Lemma adopt_Ok owner e d m :
  adopt owner e d = Ok m →
  om_labels m = om_labels d ∪ om_labels e ∧ om_annotations m = om_annotations d ∪ om_annotations e
  ∧ om_name m = om_name e ∧ om_namespace m = om_namespace e
  ∧ om_creationTimestamp m = om_creationTimestamp e ∧ SetControllerReference owner e = None.
Proof.
  unfold adopt. destruct (SetControllerReference owner e); [done|]. intros [= <-]. cbn.
  by autorewrite with agentops_rw.
Qed.

Lemma adopt_stable `{!OwnerStable} owner e d m : adopt owner e d = Ok m → adopt owner m d = Ok m.
Proof.
  unfold adopt. destruct (SetControllerReference owner e) eqn:E; [done|]. intros [= <-].
  rewrite (owner_stable owner e) by done. cbn. by rewrite !mergeLabels_idemp.
Qed.

(** A mutation that would change nothing a second time. *)
Definition converges {A} (mutate : A → res A) : Prop := ∀ x y, mutate x = Ok y → mutate y = Ok y.

Lemma map_res_Ok {A B} (f : A → B) r b : map_res f r = Ok b → ∃ a, r = Ok a ∧ b = f a.
Proof. destruct r; cbn; [intros [= <-]; eauto | done]. Qed.

(** Reconciliation settles: with an owner that may keep its objects, the
    mutation of every kind of owned object is stable, so a second pass over
    the object the first one left finds nothing to update. *)
Theorem owned_mutations_converge `{!OwnerStable} owner :
  (∀ d, converges (mutateService owner d)) ∧ (∀ d, converges (mutateConfigMap owner d)) ∧
  (∀ d, converges (mutatePVC owner d)) ∧ (∀ d, converges (mutateNetworkPolicy owner d)) ∧
  (∀ d, converges (mutateIngress owner d)) ∧ (∀ d, converges (mutateServiceAccount owner d)) ∧
  (∀ d, converges (mutateRole owner d)) ∧ (∀ d, converges (mutateRoleBinding owner d)).
Proof.
  split_and!; intros d x y (m & Hm & ->)%map_res_Ok;
    pose proof (adopt_stable _ _ _ _ Hm) as Hs.
  - unfold mutateService. cbv zeta. case_decide; cbn; by rewrite Hs.
  - unfold mutateConfigMap. cbn. by rewrite Hs.
  - unfold mutatePVC. cbv zeta. destruct (is_new m) eqn:E; cbn; rewrite Hs; cbn; by rewrite E.
  - unfold mutateNetworkPolicy. cbn. by rewrite Hs.
  - unfold mutateIngress. cbn. by rewrite Hs.
  - unfold mutateServiceAccount. cbn. by rewrite Hs.
  - unfold mutateRole. cbn. by rewrite Hs.
  - unfold mutateRoleBinding. cbv zeta. destruct (is_new m) eqn:E; cbn; rewrite Hs; cbn; by rewrite E.
Qed.

(** What must not change once it exists, and what others put on an object. *)
Lemma owned_mutations_respect owner :
  (∀ d x y, mutatePVC owner d x = Ok y → om_creationTimestamp (pvc_meta x) ≠ 0%Z →
     y = x <| pvc_meta := pvc_meta y |>) ∧
  (∀ d x y, mutateRoleBinding owner d x = Ok y → om_creationTimestamp (rb_meta x) ≠ 0%Z →
     rb_roleRef y = rb_roleRef x) ∧
  (∀ d x y k v, mutateConfigMap owner d x = Ok y →
     om_labels (cm_meta x) !! k = Some v → om_labels (cm_meta d) !! k = None →
     om_labels (cm_meta y) !! k = Some v).
Proof.
  split_and!.
  - intros d x y (m & Hm & ->)%map_res_Ok Hx. apply adopt_Ok in Hm as (_ & _ & _ & _ & Hc & _).
    unfold is_new. rewrite Hc, bool_decide_eq_false_2 by done. done.
  - intros d x y (m & Hm & ->)%map_res_Ok Hx. apply adopt_Ok in Hm as (_ & _ & _ & _ & Hc & _).
    unfold is_new. rewrite Hc, bool_decide_eq_false_2 by done. done.
  - intros d x y k v (m & Hm & ->)%map_res_Ok Hx Hd. apply adopt_Ok in Hm as (Hl & _). cbn.
    rewrite Hl, lookup_union_Some_raw. by right.
Qed.

End OwnedProps.

(** An owner that may keep everything. *)
Definition any_owner : OwnerOps := {| SetControllerReference := λ _ _, None |}.
Lemma any_owner_stable : @OwnerStable any_owner.
Proof. by intros owner m m' _ _ _. Qed.

Lemma owned_mutations_converge_witness :
  @OwnerStable any_owner ∧
  (∀ d, converges (@mutatePVC any_owner zeroMeta d)).
Proof.
  split; [exact any_owner_stable|].
  exact (proj1 (proj2 (proj2 (@owned_mutations_converge any_owner any_owner_stable zeroMeta)))).
Defined.
