(* ===== verification/Applying.v ===== *)
(** * Applying the objects an owner needs

    How the objects of an Agent or a Channel reach the server: one call for
    each, in order, with what was applied and acknowledged up to a point of an
    execution, shared by the properties of both controllers. *)

From S2P Require Import Prelude GoLib KubeTypes ApiTypes Effects CtrlCommon.

Open Scope string_scope.
Open Scope list_scope.

(** The one call with which an owned object is applied. *)
Definition apply_op `{OwnerOps} (owner : ObjectMeta) (k : Kind) : obj k → Op :=
  let create_or_update k (mutate : obj k → obj k → res (obj k)) (d : obj k) :=
    OpCreateOrUpdate k (om_namespace (obj_meta d)) (om_name (obj_meta d)) (mutate d) in
  match k return obj k → Op with
  | KDeployment => OpApply
  | KService => create_or_update KService (mutateService owner)
  | KConfigMap => create_or_update KConfigMap (mutateConfigMap owner)
  | KPVC => create_or_update KPVC (mutatePVC owner)
  | KNetworkPolicy => create_or_update KNetworkPolicy (mutateNetworkPolicy owner)
  | KIngress => create_or_update KIngress (mutateIngress owner)
  | KServiceAccount => create_or_update KServiceAccount (mutateServiceAccount owner)
  | KRole => create_or_update KRole (mutateRole owner)
  | KRoleBinding => create_or_update KRoleBinding (mutateRoleBinding owner)
  | _ => λ _, OpNow
  end.

Definition is_apply (o : Op) : bool :=
  match o with OpApply _ | OpCreateOrUpdate _ _ _ _ => true | _ => false end.
Definition applies (tr : Trace) : list Op := filter (λ o, is_apply o = true) (event_op <$> tr).

(** The server acknowledged the call, if it applies an object. *)
Definition acked (e : Event) : Prop :=
  match projT1 e as o return ans o → Prop with
  | OpApply _ => λ x, x = Ok tt
  | OpCreateOrUpdate _ _ _ _ => λ x, x = Ok tt
  | _ => λ _, True
  end (projT2 e).

Definition owned_kind (k : Kind) : bool :=
  match k with
  | KDeployment | KService | KConfigMap | KPVC | KNetworkPolicy | KIngress | KServiceAccount
  | KRole | KRoleBinding => true
  | _ => false
  end.

Lemma applies_app tr tr' : applies (tr ++ tr') = applies tr ++ applies tr'.
Proof. unfold applies. by rewrite fmap_app, filter_app. Qed.

Definition is_patch (o : Op) : bool := match o with OpPatchStatus _ _ _ => true | _ => false end.

(** What [tr0] holds was seen, and no status was written yet. *)
Definition seen (tr0 tr : Trace) : Prop :=
  tr0 ⊆ tr ∧ Forall (λ e, is_patch (event_op e) = false) tr.

(** After [w] was applied, all acknowledged, and what [tr0] holds was seen. *)
Record applied (tr0 : Trace) (w : list Op) (tr : Trace) : Prop := {
  ad_seen : seen tr0 tr;
  ad_applies : applies tr = w;
  ad_acked : Forall acked tr;
}.

Section Applying.
Context `{OwnerOps}.

Lemma applies_one e : applies [e] = if is_apply (event_op e) then [event_op e] else [].
Proof. unfold applies. rewrite fmap_cons, filter_cons. by destruct (is_apply (event_op e)). Qed.

Lemma seen_snoc tr0 tr e : seen tr0 tr → is_patch (event_op e) = false → seen tr0 (tr ++ [e]).
Proof. intros [S1 S2] He. split; [set_solver|]. apply Forall_app. split; [done | by repeat constructor]. Qed.

Lemma applied_snoc tr0 w tr e :
  applied tr0 w tr → acked e → is_patch (event_op e) = false →
  applied tr0 (w ++ if is_apply (event_op e) then [event_op e] else []) (tr ++ [e]).
Proof.
  intros [A1 A2 A3] He Hp. split.
  - by apply seen_snoc.
  - by rewrite applies_app, A2, applies_one.
  - apply Forall_app. split; [done | by repeat constructor].
Qed.

(** An owned object is applied with one call, or none when the owner may not
    have it; success means that the server acknowledged it. *)
Lemma wp_owned owner k (d : obj k) (Q : Trace → option GoError → Prop) tr0 w tr :
  owned_kind k = true → applied tr0 w tr →
  (∀ tr', applied tr0 (w ++ [apply_op owner k d]) tr' → Q tr' None) →
  (∀ tr' e, seen tr0 tr' → applies tr' `prefix_of` w ++ [apply_op owner k d] → Q tr' (Some e)) →
  wp any_answer (reconcileOwnedResource owner k d) Q tr.
Proof.
  intros Hk Htr Hok Herr.
  assert (∀ e, Q tr (Some e)) as Hstop.
  { intros e. apply Herr; [apply Htr|]. rewrite (ad_applies _ _ _ Htr). by apply prefix_app_r. }
  assert (∀ ev e, event_op ev = apply_op owner k d → is_apply (event_op ev) = true →
    is_patch (event_op ev) = false → Q (tr ++ [ev]) (Some e)) as Hfail.
  { intros ev e Hev Hap Hp. apply Herr; [apply seen_snoc; [apply Htr | done]|].
    by rewrite applies_app, (ad_applies _ _ _ Htr), applies_one, Hap, Hev. }
  assert (∀ ev, event_op ev = apply_op owner k d → is_apply (event_op ev) = true → acked ev →
    is_patch (event_op ev) = false → Q (tr ++ [ev]) None) as Hdone.
  { intros ev Hev Hap Hack Hp. apply Hok. pose proof (applied_snoc _ _ _ _ Htr Hack Hp) as Ha.
    by rewrite Hap, Hev in Ha. }
  destruct k; try discriminate Hk; cbn [reconcileOwnedResource].
  all: try (unfold reconcileDeploymentSSA;
            destruct (SetControllerReference owner (dp_meta d)); [apply Hstop|]).
  all: apply wp_call; intros x _; apply wp_ret; destruct x as [[]|e].
  all: match goal with
       | |- _ (_ ++ [?ev]) None => exact (Hdone ev eq_refl eq_refl eq_refl eq_refl)
       | |- _ (_ ++ [?ev]) (Some _) => exact (Hfail ev _ eq_refl eq_refl eq_refl)
       end.
Qed.

(** The same in a function that returns a value or an error. *)
Lemma wp_try_owned {A} owner k (d : obj k) (f : unit → prog (res A)) (Q : Trace → res A → Prop)
  tr0 w full tr :
  owned_kind k = true → applied tr0 w tr → w ++ [apply_op owner k d] `prefix_of` full →
  (∀ tr', applied tr0 (w ++ [apply_op owner k d]) tr' → wp any_answer (f tt) Q tr') →
  (∀ tr' e, seen tr0 tr' → applies tr' `prefix_of` full → Q tr' (Err e)) →
  wp any_answer (try_ (no_error (reconcileOwnedResource owner k d)) f) Q tr.
Proof.
  intros Hk Htr Hpre Hok Herr. unfold try_, no_error. apply wp_bind, wp_bind.
  eapply wp_owned; [done|exact Htr|..].
  - intros tr' Htr'. apply wp_ret. by apply Hok.
  - intros tr' e Hseen Hp. apply wp_ret, wp_ret. apply Herr; [done|]. by etrans.
Qed.
Lemma applied_other tr0 w tr e :
  applied tr0 w tr → is_apply (event_op e) = false → is_patch (event_op e) = false →
  acked e → applied tr0 w (tr ++ [e]).
Proof.
  intros Ha He Hp Hack. pose proof (applied_snoc _ _ _ _ Ha Hack Hp) as Hs. by rewrite He, app_nil_r in Hs.
Qed.

(** Resolving dependencies only reads. *)
Definition reads (tr : Trace) : Prop :=
  Forall (λ e, is_apply (event_op e) = false ∧ is_patch (event_op e) = false ∧ acked e) tr.

Lemma applied_reads tr0 w tr tr' : applied tr0 w tr → reads tr' → applied tr0 w (tr ++ tr').
Proof.
  intros Htr Hr. revert tr Htr. induction Hr as [|e tr' (R1 & R2 & R3) Hr IH]; intros tr Htr.
  - by rewrite app_nil_r.
  - rewrite cons_middle, app_assoc. by apply IH, applied_other.
Qed.

Lemma applied_reset tr0 w tr : applied tr0 w tr → applied tr w tr.
Proof. intros [[S1 S2] A2 A3]. by split. Qed.


(** The same before the rest of a reconciler. *)
Lemma wp_fail_owned owner k (d : obj k) (f : prog Outcome) (Q : Trace → Outcome → Prop) tr0 w full tr :
  owned_kind k = true → applied tr0 w tr → w ++ [apply_op owner k d] `prefix_of` full →
  (∀ tr', applied tr0 (w ++ [apply_op owner k d]) tr' → wp any_answer f Q tr') →
  (∀ tr' e, seen tr0 tr' → applies tr' `prefix_of` full → Q tr' (failed e)) →
  wp any_answer (or_fail (reconcileOwnedResource owner k d) f) Q tr.
Proof.
  intros Hk Htr Hpre Hok Herr. unfold or_fail. apply wp_bind.
  eapply wp_owned; [done|exact Htr|..].
  - intros tr' Htr'. by apply Hok.
  - intros tr' e Hseen Hp. apply wp_ret, Herr; [done|]. by etrans.
Qed.
End Applying.
