(* ===== verification/AgentRunCtrl.v ===== *)
(** * The AgentRun controller (internal/controller/agentrun_controller.go)

    [Reconcile] and everything it calls, as programs over the calls of
    Effects.v.  A function that mutates [run] in place returns the new run.
    Tracing spans and log lines are left out. *)

From S2P Require Import Prelude GoLib KubeTypes ApiTypes Json JsonEncode JsonCodec Effects.
From S2P Require Import ResourceCommon AgentGit ConfigTypes ConfigMap Builders AgentPod CtrlCommon.

Open Scope string_scope.
Open Scope list_scope.

Record AgentRunReconciler := mkAgentRunReconciler {
  (** The timeout of the configured HTTP client, if there is one. *)
  rc_HTTPClient : option Z;
  rc_Infra : InfraConfig;
}.

(** ** Decoded answers *)

(** The answer to a prompt. *)
Record DaemonResult := mkDaemonResult {
  dr_Output : string; dr_ToolCalls : Z; dr_TokensUsed : Z; dr_Cost : string;
  dr_Model : string; dr_TraceID : string;
}.
#[export] Instance DaemonResult_fields : Fields DaemonResult := λ r,
  mkDaemonResult (dr_Output r) (dr_ToolCalls r) (dr_TokensUsed r) (dr_Cost r) (dr_Model r)
    (dr_TraceID r).
Definition daemon_result_fields : list (Field DaemonResult) :=
  [ fld "output" dr_Output; fld "toolCalls" dr_ToolCalls; fld "tokensUsed" dr_TokensUsed;
    fld "cost" dr_Cost; fld "model" dr_Model; fld "traceID" dr_TraceID ].
Definition zeroDaemonResult : DaemonResult := mkDaemonResult "" 0 0 "" "" "".

(** The answer of the status endpoint. *)
Record DaemonStatus := mkDaemonStatus {
  ds_Busy : bool; ds_Output : string; ds_ToolCalls : Z; ds_TokensUsed : Z; ds_Cost : string;
  ds_Model : string; ds_TraceID : string;
}.
#[export] Instance DaemonStatus_fields : Fields DaemonStatus := λ r,
  mkDaemonStatus (ds_Busy r) (ds_Output r) (ds_ToolCalls r) (ds_TokensUsed r) (ds_Cost r)
    (ds_Model r) (ds_TraceID r).
Definition daemon_status_fields : list (Field DaemonStatus) :=
  [ fld "busy" ds_Busy; fld "output" ds_Output; fld "toolCalls" ds_ToolCalls;
    fld "tokensUsed" ds_TokensUsed; fld "cost" ds_Cost; fld "model" ds_Model;
    fld "traceID" ds_TraceID ].
Definition zeroDaemonStatus : DaemonStatus := mkDaemonStatus false "" 0 0 "" "" "".

Record taskRunOutput := mkTaskRunOutput {
  tro_Output : string; tro_Steps : Z; tro_Model : string; tro_Success : bool;
  tro_Error : string; tro_TraceID : string;
}.
#[export] Instance taskRunOutput_fields : Fields taskRunOutput := λ r,
  mkTaskRunOutput (tro_Output r) (tro_Steps r) (tro_Model r) (tro_Success r) (tro_Error r)
    (tro_TraceID r).
Definition task_output_fields : list (Field taskRunOutput) :=
  [ fld "output" tro_Output; fld "steps" tro_Steps; fld "model" tro_Model;
    fld "success" tro_Success; fld "error" tro_Error; fld "traceID" tro_TraceID ].
Definition zeroTaskRunOutput : taskRunOutput := mkTaskRunOutput "" 0 "" false "" "".

(** [json.Marshal] of the one-entry map. *)
Definition prompt_body (prompt : string) : string :=
  "{" +:+ string_of_list_ascii (quote "prompt") +:+ ":" +:+ string_of_list_ascii (quote prompt) +:+ "}".

Definition ContainerRuntimeName := "agent-runtime".

(** The first termination message of a runtime container. *)
Fixpoint first_message (l : list ContainerStatus) : option string :=
  match l with
  | [] => None
  | cs :: l' =>
      if decide (cs_name cs = ContainerRuntimeName) then
        match cs_terminated cs with
        | Some msg => if decide (msg = "") then first_message l' else Some msg
        | None => first_message l'
        end
      else first_message l'
  end.

Section Controller.
Context `{ConditionOps} `{OwnerOps} `{FloatOps}.
Variable rec : AgentRunReconciler.

Definition completed (run : AgentRun) (reason message : string) : AgentRun :=
  run <| ar_Status ::= λ s, s <| arst_Conditions ::= λ cs,
    SetStatusCondition cs (mkCondition AgentRunConditionComplete ConditionTrue reason message) |> |>.

Definition set_phase (p : AgentRunPhase) (run : AgentRun) : AgentRun :=
  run <| ar_Status ::= λ s, s <| arst_Phase := p |> |>.

Definition setRunFailedStatus (run : AgentRun) (message : string) : prog AgentRun :=
  now ← call OpNow;
  let run := run <| ar_Status ::= λ s, s
    <| arst_Phase := AgentRunPhaseFailed |>
    <| arst_CompletionTime := Some now |>
    <| arst_Output := message |> |> in
  mret (completed run "Failed" message).

(** ** Concurrency *)

Definition is_running (run : AgentRun) : bool :=
  bool_decide (arst_Phase (ar_Status run) = AgentRunPhaseRunning).

Definition maxRuns (agent : Agent) : Z :=
  match as_Concurrency (ag_Spec agent) with
  | Some c => if decide (0 < cc_MaxRuns c)%Z then cc_MaxRuns c else 1%Z
  | None => 1%Z
  end.
Definition policy (agent : Agent) : string :=
  match as_Concurrency (ag_Spec agent) with
  | Some c => if decide (cc_Policy c ≠ "") then cc_Policy c else "queue"
  | None => "queue"
  end.

Definition name_of (run : AgentRun) : string := om_name (ar_Meta run).

(** The runs the two loops look at. *)
Definition others_running (run : AgentRun) (items : list AgentRun) : list AgentRun :=
  filter (λ x, name_of x ≠ name_of run ∧ is_running x = true) items.

Definition activeCount (run : AgentRun) (items : list AgentRun) : Z :=
  Z.of_nat (length (others_running run items)).

Definition created (run : AgentRun) : Z := om_creationTimestamp (ar_Meta run).
Definition not_after (x y : AgentRun) : Prop := (created x ≤ created y)%Z.
#[export] Instance not_after_dec x y : Decision (not_after x y).
Proof. unfold not_after. apply _. Defined.

(** [sort.Slice] by creation time; it leaves the order of ties open, this sort
    keeps them as listed. *)
Definition sort_by_creation (l : list AgentRun) : list AgentRun := merge_sort not_after l.

Definition cancelOldestRun (current : AgentRun) (items : list AgentRun) : prog (option GoError) :=
  match sort_by_creation (others_running current items) with
  | [] => mret None
  | oldest :: _ =>
      let patch := oldest in
      let oldest := set_phase AgentRunPhaseFailed oldest in
      now ← call OpNow;
      let oldest := oldest <| ar_Status ::= λ s, s
        <| arst_CompletionTime := Some now |>
        <| arst_Output := "Cancelled by replace policy" |> |> in
      let oldest := completed oldest "Cancelled" ("Replaced by " +:+ name_of current) in
      patchStatus (k := KAgentRun) oldest patch
  end.

Definition checkConcurrency (run : AgentRun) (agent : Agent) (statusPatch : AgentRun)
  : prog (res bool) :=
  let fail (e : option GoError) (b : bool) : res bool :=
    match e with Some e => Err e | None => Ok b end in
  x ← call (OpList KAgentRun (om_namespace (ar_Meta run))
              {[ LabelAgent := om_name (ag_Meta agent) ]});
  match x with
  | Err e => mret (Err e)
  | Ok items =>
      if decide (maxRuns agent ≤ activeCount run items)%Z then
        if decide (policy agent = "queue") then
          if decide (arst_Phase (ar_Status run) ≠ AgentRunPhaseQueued) then
            e ← patchStatus (k := KAgentRun) (set_phase AgentRunPhaseQueued run) statusPatch;
            mret (fail e false)
          else mret (Ok false)
        else if decide (policy agent = "reject") then
          run ← setRunFailedStatus run "Rejected: max concurrent runs exceeded";
          e ← patchStatus (k := KAgentRun) run statusPatch;
          mret (fail e false)
        else if decide (policy agent = "replace") then
          e ← cancelOldestRun run items;
          mret (fail e true)
        else mret (Ok true)
      else mret (Ok true)
  end.

(** ** Task mode *)

Fixpoint resolve_providers (agent : Agent) (refs : list ProviderBinding) : prog (list Provider) :=
  match refs with
  | [] => mret []
  | ref :: refs' =>
      x ← call (OpGet KProvider (om_namespace (ag_Meta agent)) (pb_Name ref));
      rest ← resolve_providers agent refs';
      mret (match x with Ok prov => prov :: rest | Err _ => rest end)
  end.

Definition getJobOutput (job : Job) : prog taskRunOutput :=
  let result := zeroTaskRunOutput <| tro_Output := "(no output captured)" |> in
  x ← call (OpList KPod (om_namespace (jb_meta job)) {[ "job-name" := om_name (jb_meta job) ]});
  mret (match x with
        | Err _ => result
        | Ok pods =>
            match first_message (concat (map pod_containerStatuses pods)) with
            | None => result
            | Some msg =>
                match unmarshal_strict task_output_fields zeroTaskRunOutput msg with
                | Some parsed => if decide (tro_Output parsed ≠ "") then parsed
                                 else result <| tro_Output := msg |>
                | None => result <| tro_Output := msg |>
                end
            end
        end).

(** What a part of a reconcile leaves: the run and what it returns. *)
Definition Step : Type := AgentRun * Outcome.

(** The Job of the run does not exist: resolve the workspace. *)
Definition resolve_git (run : AgentRun) : prog (AgentRun + option GitWorkspaceConfig) :=
  match ars_Git (ar_Spec run) with
  | None => mret (inr None)
  | Some git =>
      x ← call (OpGet KIntegration (om_namespace (ar_Meta run)) (arg_IntegrationRef git));
      match x with
      | Err e =>
          run ← setRunFailedStatus run ("Integration " +:+ GoFmt.q (arg_IntegrationRef git)
                  +:+ " not found: " +:+ err_msg e);
          mret (inl run)
      | Ok integration =>
          match ResolveGitWorkspace git integration with
          | Err e =>
              run ← setRunFailedStatus run ("git workspace config error: " +:+ err_msg e);
              mret (inl run)
          | Ok cfg => mret (inr (Some cfg))
          end
      end
  end.

(** The per-run ConfigMap: its name, or the error to return. *)
Definition ensure_run_config (run : AgentRun) (agent : Agent) (gitCfg : option GitWorkspaceConfig)
  : prog (res string) :=
  match gitCfg with
  | None => mret (Ok "")
  | Some cfg =>
      x ← call (OpGet KConfigMap (om_namespace (ar_Meta run))
                  (ObjectName (om_name (ag_Meta agent)) "config"));
      match x with
      | Err e => mret (Err (wrapf "get base config" e))
      | Ok baseConfigMap =>
          match BuildAgentRunConfigMap baseConfigMap (name_of run) (GitToolEntries cfg) with
          | Err e => mret (Err (wrapf "build run config" e))
          | Ok runCM =>
              match SetControllerReference (ar_Meta run) (cm_meta runCM) with
              | Some e => mret (Err e)
              | None =>
                  y ← call (OpCreate KConfigMap runCM);
                  mret (match y with
                        | Err e => if err_alreadyExists e then Ok (om_name (cm_meta runCM))
                                   else Err (wrapf "create run config" e)
                        | Ok _ => Ok (om_name (cm_meta runCM))
                        end)
              end
          end
      end
  end.

Definition start_task (run : AgentRun) (agent : Agent) (providers : list Provider) : prog Step :=
  g ← resolve_git run;
  match g with
  | inl run => mret (run, done_)
  | inr gitCfg =>
      c ← ensure_run_config run agent gitCfg;
      match c with
      | Err e => mret (run, failed e)
      | Ok runConfigMapName =>
          let job := BuildAgentRunJob run agent providers gitCfg runConfigMapName (rc_Infra rec) in
          match SetControllerReference (ar_Meta run) (jb_meta job) with
          | Some e => mret (run, failed e)
          | None =>
              let job := job <| jb_meta ::= λ m,
                m <| om_labels ::= λ ls, <[LabelAgent := om_name (ag_Meta agent)]> ls |> |> in
              x ← call (OpCreate KJob job);
              let fatal := match x with
                           | Err e => if err_alreadyExists e then None else Some e
                           | Ok _ => None end in
              match fatal with
              | Some e => mret (run, failed e)
              | None =>
                  now ← call OpNow;
                  mret (run <| ar_Status ::= λ s, s
                          <| arst_Phase := AgentRunPhaseRunning |>
                          <| arst_StartTime := Some now |>
                          <| arst_JobName := om_name (jb_meta job) |>
                          <| arst_Model := as_Model (ag_Spec agent) |> |>,
                        requeue requeueInterval)
              end
          end
      end
  end.

(** [if s != EmptyString { field = s }]. *)
Definition keep_or (new old : string) : string := if decide (new ≠ "") then new else old.

(** The Job has succeeded. *)
Definition finish_succeeded (run : AgentRun) (job : Job) : prog Step :=
  result ← getJobOutput job;
  now ← call OpNow;
  let run := run <| ar_Status ::= λ s, s
    <| arst_Phase := AgentRunPhaseSucceeded |>
    <| arst_CompletionTime := Some now |>
    <| arst_Output := tro_Output result |>
    <| arst_Model ::= keep_or (tro_Model result) |>
    <| arst_TraceID ::= keep_or (tro_TraceID result) |>
    <| arst_ToolCalls := tro_Steps result |> |> in
  mret (completed run "Succeeded" "", done_).

(** The Job has failed. *)
Definition finish_failed (run : AgentRun) (job : Job) : prog Step :=
  result ← getJobOutput job;
  now ← call OpNow;
  let output := keep_or (tro_Error result) "Job failed" in
  let run := run <| ar_Status ::= λ s, s
    <| arst_Phase := AgentRunPhaseFailed |>
    <| arst_CompletionTime := Some now |>
    <| arst_Output := output |>
    <| arst_Model ::= keep_or (tro_Model result) |>
    <| arst_TraceID ::= keep_or (tro_TraceID result) |> |> in
  mret (completed run "Failed" output, done_).

Definition reconcileTaskRun (run : AgentRun) (agent : Agent) : prog Step :=
  resolvedProviders ← resolve_providers agent (as_ProviderRefs (ag_Spec agent));
  x ← call (OpGet KJob (om_namespace (ar_Meta run)) (name_of run));
  match x with
  | Err e => if err_notFound e then start_task run agent resolvedProviders
             else mret (run, failed e)
  | Ok existingJob =>
      if decide (0 < jb_succeeded existingJob)%Z then finish_succeeded run existingJob
      else if decide (0 < jb_failed existingJob)%Z then finish_failed run existingJob
      else mret (run, requeue requeueInterval)
  end.

(** ** Daemon mode *)

Definition defaultRunTimeout : Z := 30 * GoTime.Minute.
Definition run_timeout (agent : Agent) : Z :=
  let t := as_Timeout (ag_Spec agent) in
  if decide (t ≠ "") then
    match GoTime.ParseDuration t with
    | Some d => if decide (0 < d)%Z then d else defaultRunTimeout
    | None => defaultRunTimeout
    end
  else defaultRunTimeout.

Definition poll_agent (run : AgentRun) (agent : Agent) : prog Step :=
  let statusURL := AgentServiceURL agent +:+ "/status" in
  x ← call (OpHttp (mkHttp "GET" statusURL [] ""
              (default (10 * GoTime.Second)%Z (rc_HTTPClient rec))));
  match x with
  | Err _ => mret (run, requeue requeueInterval)
  | Ok resp =>
      match decode_strict daemon_status_fields zeroDaemonStatus (hs_body resp) with
      | None => mret (run, requeue requeueInterval)
      | Some status =>
          if ds_Busy status then mret (run, requeue requeueInterval)
          else
            now ← call OpNow;
            let run := run <| ar_Status ::= λ s, s
              <| arst_Phase := AgentRunPhaseSucceeded |>
              <| arst_CompletionTime := Some now |>
              <| arst_Output := ds_Output status |>
              <| arst_ToolCalls := ds_ToolCalls status |>
              <| arst_TokensUsed := ds_TokensUsed status |>
              <| arst_Cost := ds_Cost status |>
              <| arst_Model := ds_Model status |>
              <| arst_TraceID ::= keep_or (ds_TraceID status) |> |> in
            mret (completed run "Succeeded" "", done_)
      end
  end.

(** [http.NewRequestWithContext] cannot fail on the URLs of Kubernetes names;
    its error branch is left out. *)
Definition pollDaemonRunStatus (run : AgentRun) (agent : Agent) : prog Step :=
  match arst_StartTime (ar_Status run) with
  | Some start =>
      let timeout := run_timeout agent in
      now ← call OpNow;
      let elapsed := GoTime.since now start in
      if decide (timeout < elapsed)%Z then
        run ← setRunFailedStatus run ("Run timed out after "
                +:+ GoTime.to_string (GoTime.Round elapsed GoTime.Second)
                +:+ " (limit: " +:+ GoTime.to_string timeout +:+ ")");
        mret (run, done_)
      else poll_agent run agent
  | None => poll_agent run agent
  end.

Definition prompt_headers (run : AgentRun) : list (string * string) :=
  let annotation := lookup_str (om_annotations (ar_Meta run)) in
  let optional (h v : string) : list (string * string) :=
    if decide (v ≠ "") then [(h, v)] else [] in
  [("Content-Type", "application/json")] ++
  optional "Traceparent" (annotation AnnotationTraceparent) ++
  optional "X-AgentOps-Parent-Agent" (annotation AnnotationParentAgent) ++
  [("X-AgentOps-Run-Name", name_of run)].

Definition reconcileDaemonRun (run : AgentRun) (agent : Agent) : prog Step :=
  if is_running run then pollDaemonRunStatus run agent
  else
    let promptURL := AgentServiceURL agent +:+ "/prompt" in
    x ← call (OpHttp (mkHttp "POST" promptURL (prompt_headers run)
                (prompt_body (ars_Prompt (ar_Spec run)))
                (default (30 * GoTime.Second)%Z (rc_HTTPClient rec))));
    match x with
    | Err _ => mret (run, requeue requeueInterval)
    | Ok resp =>
        if decide (400 ≤ hs_status resp)%Z then
          run ← setRunFailedStatus run ("Agent returned " +:+ GoFmt.d (hs_status resp) +:+ ": "
                  +:+ GoStrings.limit_bytes 1048576 (hs_body resp));
          mret (run, done_)
        else
          let result := decode_lenient daemon_result_fields zeroDaemonResult (hs_body resp) in
          now ← call OpNow;
          if decide (dr_Output result ≠ "") then
            let run := run <| ar_Status ::= λ s, s
              <| arst_Phase := AgentRunPhaseSucceeded |>
              <| arst_CompletionTime := Some now |>
              <| arst_Output := dr_Output result |>
              <| arst_ToolCalls := dr_ToolCalls result |>
              <| arst_TokensUsed := dr_TokensUsed result |>
              <| arst_Cost := dr_Cost result |>
              <| arst_Model := dr_Model result |>
              <| arst_TraceID ::= keep_or (dr_TraceID result) |> |> in
            mret (completed run "Succeeded" "", done_)
          else
            mret (run <| ar_Status ::= λ s, s
                    <| arst_Phase := AgentRunPhaseRunning |>
                    <| arst_StartTime := Some now |>
                    <| arst_Model := as_Model (ag_Spec agent) |> |>,
                  requeue requeueInterval)
    end.

(** ** Reconcile *)

(** Dispatch on the mode, then the status patch that is always sent. *)
Definition execute (run : AgentRun) (agent : Agent) (statusPatch : AgentRun) : prog Outcome :=
  let run := if decide (arst_Phase (ar_Status run) = "")
             then set_phase AgentRunPhasePending run else run in
  step ←
    (if decide (as_Mode (ag_Spec agent) = AgentModeTask) then reconcileTaskRun run agent
     else if decide (as_Mode (ag_Spec agent) = AgentModeDaemon) then reconcileDaemonRun run agent
     else run ← setRunFailedStatus run ("Unknown agent mode: " +:+ as_Mode (ag_Spec agent));
          mret (run, done_));
  let '(run, result) := (step : Step) in
  or_fail (patchStatus (k := KAgentRun) run statusPatch)
    (mret (match snd result with Some e => failed e | None => result end)).

(** From the daemon readiness check on. *)
Definition reconcile_with_agent (run : AgentRun) (agent : Agent) (statusPatch : AgentRun)
  : prog Outcome :=
  let run := run <| ar_Status ::= λ s, s <| arst_Mode := as_Mode (ag_Spec agent) |> |> in
  if decide (as_Mode (ag_Spec agent) = AgentModeDaemon ∧ is_running run = false ∧
             ast_Phase (ag_Status agent) ≠ AgentPhaseRunning) then
    if decide (arst_Phase (ar_Status run) ≠ AgentRunPhasePending) then
      let run := set_phase AgentRunPhasePending run in
      let run := run <| ar_Status ::= λ s, s <| arst_Conditions ::= λ cs,
        SetStatusCondition cs (mkCondition "AgentReady" ConditionFalse "AgentNotRunning"
          ("Agent " +:+ GoFmt.q (om_name (ag_Meta agent)) +:+ " is in phase "
             +:+ GoFmt.q (ast_Phase (ag_Status agent)) +:+ ", waiting for Running")) |> |> in
      or_fail (patchStatus (k := KAgentRun) run statusPatch) (mret (requeue requeueInterval))
    else mret (requeue requeueInterval)
  else
    allowed ← checkConcurrency run agent statusPatch;
    match allowed with
    | Err e => mret (failed e)
    | Ok false => mret (requeue requeueInterval)
    | Ok true => execute run agent statusPatch
    end.

Definition is_terminal (run : AgentRun) : bool :=
  bool_decide (arst_Phase (ar_Status run) = AgentRunPhaseSucceeded)
  || bool_decide (arst_Phase (ar_Status run) = AgentRunPhaseFailed).

Definition Reconcile (ns name : string) : prog Outcome :=
  x ← call (OpGet KAgentRun ns name);
  match x with
  | Err e => mret (if err_notFound e then done_ else failed e)
  | Ok run =>
      if is_terminal run then mret done_
      else
        let statusPatch := run in
        y ← call (OpGet KAgent (om_namespace (ar_Meta run)) (ars_AgentRef (ar_Spec run)));
        match y with
        | Err _ =>
            run ← setRunFailedStatus run ("Agent " +:+ GoFmt.q (ars_AgentRef (ar_Spec run))
                    +:+ " not found");
            or_fail (patchStatus (k := KAgentRun) run statusPatch) (mret done_)
        | Ok agent =>
            if decide (om_labels (ar_Meta run) = ∅ ∨
                       lookup_str (om_labels (ar_Meta run)) LabelAgent ≠ om_name (ag_Meta agent)) then
              let run := run <| ar_Meta ::= λ m, m
                <| om_labels ::= λ ls, <[LabelAgent := om_name (ag_Meta agent)]> ls |> |> in
              z ← call (OpUpdate KAgentRun run);
              match z with
              | Err e => mret (failed e)
              | Ok run => reconcile_with_agent run agent statusPatch
              end
            else reconcile_with_agent run agent statusPatch
        end
  end.

End Controller.
