(* ===== verification/AgentRunProps.v ===== *)
(** * Properties of the AgentRun controller

    Specification side and theorems for AgentRunCtrl.v: the life cycle of a
    run, progress, exactly what a status write may change, and what is done
    at most once. *)

From S2P Require Import Prelude GoLib KubeTypes ApiTypes Json JsonEncode JsonCodec Effects.
From S2P Require Import ResourceCommon AgentGit ConfigTypes ConfigMap Builders AgentPod CtrlCommon.
From S2P Require Import AgentRunCtrl.

Open Scope string_scope.
Open Scope list_scope.

(** ** Specification *)

Abbreviation phase run := (arst_Phase (ar_Status run)).
Abbreviation outcome run := (arst_Outcome (ar_Status run)).

Definition terminal (p : AgentRunPhase) : Prop :=
  p = AgentRunPhaseSucceeded ∨ p = AgentRunPhaseFailed.
#[export] Instance terminal_dec p : Decision (terminal p).
Proof. unfold terminal. apply _. Defined.

(** The life cycle.  No rule leaves a terminal phase. *)
Inductive phase_step : AgentRunPhase → AgentRunPhase → Prop :=
| step_stay p : ¬ terminal p → p ≠ "" → phase_step p p
| step_wait p : ¬ terminal p → p ≠ AgentRunPhaseRunning → phase_step p AgentRunPhasePending
| step_queue p : ¬ terminal p → phase_step p AgentRunPhaseQueued
| step_start p : ¬ terminal p → phase_step p AgentRunPhaseRunning
| step_finish p q : ¬ terminal p → terminal q → phase_step p q.

(** A finished run says when it finished and that it is complete. *)
Definition stamped (run : AgentRun) : Prop :=
  is_Some (arst_CompletionTime (ar_Status run)) ∧
  ∃ c, find_condition AgentRunConditionComplete (arst_Conditions (ar_Status run)) = Some c ∧
       c_status c = ConditionTrue.

(** What a status write of the controller may do to a run [b]. *)
Record patch_ok (b n : AgentRun) : Prop := {
  po_name : om_name (ar_Meta n) = om_name (ar_Meta b);
  po_namespace : om_namespace (ar_Meta n) = om_namespace (ar_Meta b);
  po_spec : ar_Spec n = ar_Spec b;
  po_outcome : outcome n = outcome b;
  po_phase : phase_step (phase b) (phase n);
  po_stamped : terminal (phase n) → stamped n;
}.

(** The status writes to AgentRuns among the calls. *)
Definition run_patch (o : Op) : option (AgentRun * AgentRun) :=
  match o with
  | OpPatchStatus k b n =>
      match k return obj k → obj k → option (AgentRun * AgentRun) with
      | KAgentRun => λ b n, Some (b, n)
      | _ => λ _ _, None
      end b n
  | _ => None
  end.
Definition run_patch_ok (e : Event) : Prop :=
  match run_patch (event_op e) with Some (b, n) => patch_ok b n | None => True end.

(** Calls that cannot change an AgentRun or an Agent. *)
Definition quiet (e : Event) : Prop :=
  match event_op e with
  | OpCreate k _ | OpUpdate k _ | OpPatchStatus k _ _ | OpCreateOrUpdate k _ _ _ =>
      match k with KAgentRun | KAgent => False | _ => True end
  | _ => True
  end.

(** Calls that hand work to an agent: a Job, or a prompt. *)
Definition is_start (o : Op) : bool :=
  match o with
  | OpCreate KJob _ => true
  | OpHttp r => bool_decide (hr_method r = "POST")
  | _ => false
  end.

(** Calls that do neither. *)
Definition silent (e : Event) : Prop := quiet e ∧ is_start (event_op e) = false.

Lemma quiet_patch_ok e : quiet e → run_patch_ok e.
Proof. destruct e as [[] x]; try done. by destruct k. Qed.

(** The API server returns from an update the object it stored: what was
    sent, with the status it had (a conflicting version is refused). *)
Definition update_echoes (o : Op) : ans o → Prop :=
  match o return ans o → Prop with
  | OpUpdate _ o => λ x, ∀ o', x = Ok o' → o' = o
  | _ => λ _, True
  end.

(** ** Steps *)

Section Props.
Context `{ConditionOps} `{OwnerOps} `{FloatOps}.
Variable rec : AgentRunReconciler.

(** [n] is a later version of [b] in the same phase. *)
Record derived (b n : AgentRun) : Prop := {
  de_name : om_name (ar_Meta n) = om_name (ar_Meta b);
  de_namespace : om_namespace (ar_Meta n) = om_namespace (ar_Meta b);
  de_spec : ar_Spec n = ar_Spec b;
  de_outcome : outcome n = outcome b;
  de_phase : phase n = phase b;
}.

Lemma derived_refl b : derived b b.
Proof. by split. Qed.

Lemma patch_ok_derived b b' n : derived b b' → patch_ok b' n → patch_ok b n.
Proof.
  intros [D1 D2 D3 D4 D5] [P1 P2 P3 P4 P5 P6]. split; [congruence..|by rewrite <- D5|done].
Qed.

(** What a mode's handler leaves behind: a legal new version that is
    stamped when it is finished and comes back when it is not. *)
Definition step_ok (run : AgentRun) (s : Step) : Prop :=
  patch_ok run (fst s) ∧ (¬ terminal (phase (fst s)) → comes_back (snd s)).

Lemma stamped_completed run reason msg :
  is_Some (arst_CompletionTime (ar_Status run)) → stamped (completed run reason msg).
Proof.
  intros Ht. split; [exact Ht|].
  set (c := mkCondition AgentRunConditionComplete ConditionTrue reason msg).
  exists c. split; [exact (find_SetStatusCondition _ c) | done].
Qed.

Lemma comes_back_requeue : comes_back (requeue requeueInterval).
Proof. left. reflexivity. Qed.
Lemma comes_back_failed e : comes_back (failed e).
Proof. right. by eexists. Qed.
Hint Resolve comes_back_requeue comes_back_failed stamped_completed : agentops.

(** A run that stays as it is. *)
Lemma patch_ok_same run : ¬ terminal (phase run) → phase run ≠ "" → patch_ok run run.
Proof. intros Ht Hp. split; try done. by constructor. Qed.

Lemma stay_ok run out :
  ¬ terminal (phase run) → phase run ≠ "" → comes_back out → step_ok run (run, out).
Proof. intros Ht Hp Ho. split; [by apply patch_ok_same | done]. Qed.
Hint Resolve stay_ok patch_ok_same : agentops.

(** A run that is finished. *)
Lemma finish_ok run run' out reason msg :
  ¬ terminal (phase run) → terminal (phase run') → ar_Meta run' = ar_Meta run →
  ar_Spec run' = ar_Spec run → outcome run' = outcome run →
  is_Some (arst_CompletionTime (ar_Status run')) →
  step_ok run (completed run' reason msg, out).
Proof.
  intros Ht Ht' Hm Hs Ho Hc. split; [|by intros []].
  split; cbn; try congruence; [by apply step_finish|]. intros _. by apply stamped_completed.
Qed.

Lemma terminal_succeeded : terminal AgentRunPhaseSucceeded.
Proof. by left. Qed.
Lemma terminal_failed : terminal AgentRunPhaseFailed.
Proof. by right. Qed.
Hint Resolve terminal_succeeded terminal_failed : agentops.

Ltac finish := apply finish_ok; auto with agentops; by eexists.

Variable ok : ∀ o, ans o → Prop.

Lemma setRunFailedStatus_emits run msg (Φ : AgentRun → Prop) :
  (∀ now, Φ (completed (run <| ar_Status ::= λ s, s
    <| arst_Phase := AgentRunPhaseFailed |> <| arst_CompletionTime := Some now |>
    <| arst_Output := msg |> |>) "Failed" msg)) →
  emits ok silent (setRunFailedStatus run msg) Φ.
Proof.
  intros HΦ. apply emits_call. intros now _. split; [by split|]. apply emits_ret, HΦ.
Qed.

Lemma fail_ok run msg out now :
  ¬ terminal (phase run) →
  step_ok run (completed (run <| ar_Status ::= λ s, s
    <| arst_Phase := AgentRunPhaseFailed |> <| arst_CompletionTime := Some now |>
    <| arst_Output := msg |> |>) "Failed" msg, out).
Proof. intros Ht. finish. Qed.

Lemma set_failed_emits run msg out :
  ¬ terminal (phase run) →
  emits ok silent (setRunFailedStatus run msg) (λ run', step_ok run (run', out)).
Proof. intros Ht. apply setRunFailedStatus_emits. intros now. by apply fail_ok. Qed.

Ltac emit_silent := apply emits_call; let x := fresh "x" in intros x _; split; [by split|].

Lemma resolve_providers_emits agent refs :
  emits ok silent (resolve_providers agent refs) (λ _, True).
Proof.
  induction refs as [|ref refs IH]; [by apply emits_ret|].
  cbn [resolve_providers]. emit_silent. eapply emits_bind; [exact IH|]. intros; by apply emits_ret.
Qed.

Lemma getJobOutput_emits job : emits ok silent (getJobOutput job) (λ _, True).
Proof. unfold getJobOutput. emit_silent. by apply emits_ret. Qed.

Lemma resolve_git_emits run :
  ¬ terminal (phase run) →
  emits ok silent (resolve_git run)
    (λ g, match g with inl run' => step_ok run (run', done_) | inr _ => True end).
Proof.
  intros Ht. unfold resolve_git. destruct (ars_Git (ar_Spec run)); [|by apply emits_ret].
  emit_silent. destruct x as [i|e].
  - destruct (ResolveGitWorkspace _ i); [by apply emits_ret|].
    eapply emits_bind; [by apply (set_failed_emits _ _ done_)|].
    intros run' Hr. by apply emits_ret.
  - eapply emits_bind; [by apply (set_failed_emits _ _ done_)|].
    intros run' Hr. by apply emits_ret.
Qed.

Lemma ensure_run_config_emits run agent g :
  emits ok silent (ensure_run_config run agent g) (λ _, True).
Proof.
  unfold ensure_run_config. destruct g as [cfg|]; [|by apply emits_ret].
  emit_silent. destruct x; [|by apply emits_ret]. destruct (BuildAgentRunConfigMap _ _ _); [|by apply emits_ret].
  destruct (SetControllerReference _ _); [by apply emits_ret|]. emit_silent. by apply emits_ret.
Qed.

Lemma loudly {A} (p : prog A) Φ : emits ok silent p Φ → emits ok quiet p Φ.
Proof. intros Hp. eapply emits_mono; [exact Hp | by intros e [] | done]. Qed.

Ltac emit := apply emits_call; let x := fresh "x" in intros x _; split; [exact I|].

Lemma start_ok run run' out :
  ¬ terminal (phase run) → phase run' = AgentRunPhaseRunning → ar_Meta run' = ar_Meta run →
  ar_Spec run' = ar_Spec run → outcome run' = outcome run → comes_back out →
  step_ok run (run', out).
Proof.
  intros Ht Hp Hm Hs Ho Hc. split; [|done]. split; cbn; try congruence.
  - rewrite Hp. by apply step_start.
  - rewrite Hp. by intros [|].
Qed.

Lemma start_task_emits run agent providers :
  ¬ terminal (phase run) → phase run ≠ "" →
  emits ok quiet (start_task rec run agent providers) (step_ok run).
Proof.
  intros Ht Hp. eapply emits_bind; [by apply loudly, resolve_git_emits|].
  intros [run'|g] Hg; [by apply emits_ret|].
  eapply emits_bind; [apply loudly, ensure_run_config_emits|].
  intros [cm|e] _; [|apply emits_ret; auto with agentops]. cbv zeta.
  destruct (SetControllerReference _ _); [apply emits_ret; auto with agentops|].
  emit. destruct (match x with Ok _ => None | Err e => _ end);
    [apply emits_ret; auto with agentops|].
  emit. apply emits_ret, start_ok; auto with agentops.
Qed.

Lemma reconcileTaskRun_emits run agent :
  ¬ terminal (phase run) → phase run ≠ "" →
  emits ok quiet (reconcileTaskRun rec run agent) (step_ok run).
Proof.
  intros Ht Hp. eapply emits_bind; [apply loudly, resolve_providers_emits|]. intros providers _.
  emit. destruct x as [job|e].
  - case_decide; [|case_decide; [|apply emits_ret; auto with agentops]].
    all: eapply emits_bind; [apply loudly, getJobOutput_emits|]; intros out _; emit; apply emits_ret; finish.
  - destruct (err_notFound e); [by apply start_task_emits | apply emits_ret; auto with agentops].
Qed.

Lemma poll_agent_emits run agent :
  ¬ terminal (phase run) → phase run ≠ "" →
  emits ok quiet (poll_agent rec run agent) (step_ok run).
Proof.
  intros Ht Hp. unfold poll_agent. emit.
  destruct x as [resp|e]; [|apply emits_ret; auto with agentops].
  destruct (decode_strict _ _ _) as [st|]; [|apply emits_ret; auto with agentops].
  destruct (ds_Busy st); [apply emits_ret; auto with agentops|]. emit. apply emits_ret. finish.
Qed.

Lemma reconcileDaemonRun_emits run agent :
  ¬ terminal (phase run) → phase run ≠ "" →
  emits ok quiet (reconcileDaemonRun rec run agent) (step_ok run).
Proof.
  intros Ht Hp. unfold reconcileDaemonRun. destruct (is_running run).
  - unfold pollDaemonRunStatus. destruct (arst_StartTime _); [|by apply poll_agent_emits].
    emit. case_decide; [|by apply poll_agent_emits].
    eapply emits_bind; [by apply loudly, (set_failed_emits _ _ done_)|].
    intros run' Hr. by apply emits_ret.
  - emit. destruct x as [resp|e]; [|apply emits_ret; auto with agentops]. case_decide.
    + eapply emits_bind; [by apply loudly, (set_failed_emits _ _ done_)|].
      intros run' Hr. by apply emits_ret.
    + emit. case_decide; apply emits_ret; [finish | apply start_ok; auto with agentops].
Qed.

(** A handler's calls and step, where status writes are looked at. *)
Lemma quietly {A} (p : prog A) Φ : emits ok quiet p Φ → emits ok run_patch_ok p Φ.
Proof. intros Hp. eapply emits_mono; [exact Hp | exact quiet_patch_ok | done]. Qed.

Lemma patchStatus_emits (n b : AgentRun) :
  patch_ok b n → emits ok run_patch_ok (patchStatus (k := KAgentRun) n b) (λ _, True).
Proof.
  intros Hp. unfold patchStatus. case_decide; [by apply emits_ret|].
  apply emits_call. intros x _. split; [exact Hp | by apply emits_ret].
Qed.

Lemma or_fail_emits m k Ψ :
  emits ok run_patch_ok m (λ _, True) → (∀ e, Ψ (failed e)) → emits ok run_patch_ok k Ψ →
  emits ok run_patch_ok (or_fail m k) Ψ.
Proof.
  intros Hm He Hk. eapply emits_bind; [exact Hm|]. intros [e|] _; [by apply emits_ret | done].
Qed.

Lemma sorted_in x l xs : sort_by_creation l = x :: xs → x ∈ l.
Proof.
  intros Hs. rewrite <- (merge_sort_Permutation not_after l). unfold sort_by_creation in Hs.
  rewrite Hs. left.
Qed.

Lemma running_not_terminal run : is_running run = true → ¬ terminal (phase run).
Proof. unfold is_running. rewrite bool_decide_eq_true. intros ->. by intros [|]. Qed.

Lemma cancelOldestRun_emits current items :
  emits ok run_patch_ok (cancelOldestRun current items) (λ _, True).
Proof.
  unfold cancelOldestRun. destruct (sort_by_creation _) as [|o os] eqn:E; [by apply emits_ret|].
  apply sorted_in in E. apply list_elem_of_filter in E as [[_ Hr] _].
  cbv zeta. emit. apply patchStatus_emits.
  assert (∀ now m, step_ok o (completed (set_phase AgentRunPhaseFailed o <| ar_Status ::= λ s, s
    <| arst_CompletionTime := Some now |> <| arst_Output := "Cancelled by replace policy" |> |>)
    "Cancelled" m, done_)) as Hstep.
  { intros now m. pose proof (running_not_terminal _ Hr). finish. }
  apply (Hstep x).
Qed.

Lemma checkConcurrency_emits b run agent :
  derived b run → ¬ terminal (phase run) →
  emits ok run_patch_ok (checkConcurrency run agent b) (λ _, True).
Proof.
  intros Hd Ht. unfold checkConcurrency. cbv zeta. emit.
  destruct x as [items|e]; [|by apply emits_ret].
  case_decide; [|by apply emits_ret]. case_decide; [case_decide; [|by apply emits_ret]|
    case_decide; [|case_decide; [|by apply emits_ret]]].
  - eapply emits_bind; [apply patchStatus_emits, (patch_ok_derived b run); [done|]
                       | intros; by apply emits_ret].
    split; try done; [by apply step_queue | by intros [|]].
  - eapply emits_bind; [by apply quietly, loudly, (set_failed_emits _ _ done_)|]. intros run' [Hr _].
    eapply emits_bind; [|intros; by apply emits_ret].
    by apply patchStatus_emits, (patch_ok_derived b run).
  - eapply emits_bind; [apply cancelOldestRun_emits|]. intros; by apply emits_ret.
Qed.

Lemma execute_emits b run agent :
  derived b run → ¬ terminal (phase run) →
  emits ok run_patch_ok (execute rec run agent b) (λ _, True).
Proof.
  intros Hd Ht. unfold execute. cbv zeta.
  set (run1 := if decide (phase run = "") then _ else run).
  assert (¬ terminal (phase run1) ∧ phase run1 ≠ "" ∧
          ∀ n, patch_ok run1 n → patch_ok run n) as (Ht1 & Hp1 & Hn).
  { subst run1. case_decide as Hp; [|by split_and!]. split_and!; [by intros [|]|done|].
    intros n [P1 P2 P3 P4 P5 P6]. split; try done. cbn in P5. rewrite Hp in *.
    inversion P5; subst; by constructor. }
  eapply emits_bind with (Φ := step_ok run1).
  - case_decide; [by apply quietly, reconcileTaskRun_emits|].
    case_decide; [by apply quietly, reconcileDaemonRun_emits|].
    eapply emits_bind; [by apply quietly, loudly, (set_failed_emits _ _ done_)|]. intros; by apply emits_ret.
  - intros [run' out] [Hs _]. apply or_fail_emits; [|done|by apply emits_ret].
    apply patchStatus_emits, (patch_ok_derived b run); auto.
Qed.

Lemma reconcile_with_agent_emits b run agent :
  derived b run → ¬ terminal (phase run) →
  emits ok run_patch_ok (reconcile_with_agent rec run agent b) (λ _, True).
Proof.
  intros Hd Ht. unfold reconcile_with_agent. cbv zeta.
  set (run1 := run <| ar_Status ::= _ |>).
  assert (derived b run1) as Hd1 by (destruct Hd; by split).
  case_decide as Hw; [case_decide|].
  - apply or_fail_emits; [|done|by apply emits_ret].
    apply patchStatus_emits, (patch_ok_derived b run1); [done|].
    destruct Hw as (_ & Hr & _). unfold is_running in Hr. apply bool_decide_eq_false in Hr.
    split; try done; [by apply step_wait | by intros [|]].
  - by apply emits_ret.
  - eapply emits_bind; [by apply checkConcurrency_emits|].
    intros [[|]|e] _; try by apply emits_ret. by apply execute_emits.
Qed.

Lemma not_terminal run : is_terminal run = false → ¬ terminal (phase run).
Proof.
  unfold is_terminal, terminal. rewrite orb_false_iff, !bool_decide_eq_false. tauto.
Qed.

End Props.

(** [C2] The life cycle of a run, whatever the API server, the agent and the
    clock answer: every status write of a reconcile is a legal step from the
    phase it replaces (a finished run is never touched again), it leaves the
    spec and the outcome recorded by the runtime alone, and a run it finishes
    has its completion time and a true Complete condition. *)
Theorem Reconcile_status_writes `{ConditionOps} `{OwnerOps} `{FloatOps} rec ns name :
  emits update_echoes run_patch_ok (Reconcile rec ns name) (λ _, True).
Proof.
  unfold Reconcile. apply emits_call. intros x _. split; [exact I|].
  destruct x as [run|e]; [|by apply emits_ret].
  destruct (is_terminal run) eqn:Ht; [by apply emits_ret|]. apply not_terminal in Ht.
  cbv zeta. apply emits_call. intros y _. split; [exact I|]. destruct y as [agent|e].
  - case_decide.
    + apply emits_call. intros z Hz. split; [exact I|]. destruct z as [run'|e]; [|by apply emits_ret].
      rewrite (Hz run' eq_refl). apply reconcile_with_agent_emits; [by split | done].
    + apply reconcile_with_agent_emits; [by split | done].
  - eapply emits_bind; [by apply quietly, loudly, (set_failed_emits _ _ _ done_)|]. intros run' [Hr _].
    apply or_fail_emits; [by apply patchStatus_emits | done | by apply emits_ret].
Qed.

(** ** Progress *)

Definition got (ns name : string) (x : res AgentRun) : Event :=
  existT (OpGet KAgentRun ns name) x.
Definition patched (b n : AgentRun) (x : res AgentRun) : Event :=
  existT (OpPatchStatus KAgentRun b n) x.

(** The request needs no further reconcile: the run is gone, was finished
    already, or was read as [b] and the server acknowledged its end. *)
Inductive settled (ns name : string) (tr : Trace) : Prop :=
| settled_gone e : got ns name (Err e) ∈ tr → err_notFound e = true → settled ns name tr
| settled_before run : got ns name (Ok run) ∈ tr → terminal (phase run) → settled ns name tr
| settled_now b n n' : got ns name (Ok b) ∈ tr → patched b n (Ok n') ∈ tr →
    terminal (phase n) → settled ns name tr.

Definition not_forgotten (ns name : string) (tr : Trace) (out : Outcome) : Prop :=
  comes_back out ∨ settled ns name tr.

Section Progress.
Context `{ConditionOps} `{OwnerOps} `{FloatOps}.
Variable rec : AgentRunReconciler.
Variables ns name : string.

Local Abbreviation G := (not_forgotten ns name).
Local Abbreviation wp := (wp update_echoes).

Lemma not_forgotten_requeue tr : G tr (requeue requeueInterval).
Proof. left. apply comes_back_requeue. Qed.
Lemma not_forgotten_failed tr e : G tr (failed e).
Proof. left. apply comes_back_failed. Qed.
Hint Resolve not_forgotten_requeue not_forgotten_failed : agentops.

(** The last status write of a reconcile. *)
Lemma wp_final_patch b n out tr :
  got ns name (Ok b) ∈ tr → ¬ terminal (phase b) →
  (¬ terminal (phase n) → comes_back out) →
  wp (or_fail (patchStatus (k := KAgentRun) n b) (mret out)) G tr.
Proof.
  intros Hb Ht Ho. unfold or_fail. apply wp_bind. unfold patchStatus. case_decide as Heq.
  - subst n. apply wp_ret, wp_ret. left. auto.
  - intros x _. destruct x as [n'|e]; apply wp_ret; [|apply wp_ret; auto with agentops].
    destruct (decide (terminal (phase n))) as [Hn|Hn]; [|left; auto].
    right. apply (settled_now _ _ _ b n n'); [..|done].
    + apply elem_of_app. by left.
    + apply elem_of_app. right. left.
Qed.

Lemma execute_progress b run agent tr :
  derived b run → ¬ terminal (phase run) → got ns name (Ok b) ∈ tr →
  wp (execute rec run agent b) G tr.
Proof.
  intros Hd Ht Hb. unfold execute. cbv zeta.
  set (run1 := if decide (phase run = "") then _ else run).
  assert (¬ terminal (phase run1) ∧ phase run1 ≠ "") as [Ht1 Hp1].
  { subst run1. case_decide as Hp; [|by split]. split; [by intros [|] | done]. }
  eapply wp_emits with (E := run_patch_ok) (Φ := step_ok run1).
  - case_decide; [by apply quietly, reconcileTaskRun_emits|].
    case_decide; [by apply quietly, reconcileDaemonRun_emits|].
    eapply emits_bind; [by apply quietly, loudly, (set_failed_emits _ _ _ done_)|]. intros; by apply emits_ret.
  - intros tr' [run' out] _ [_ Ho]. cbn in Ho. apply wp_final_patch.
    + apply elem_of_app. by left.
    + by rewrite <- (de_phase _ _ Hd).
    + intros Hn. specialize (Ho Hn). destruct (snd out); [apply comes_back_failed | done].
Qed.

Lemma reconcile_with_agent_progress b run agent tr :
  derived b run → ¬ terminal (phase run) → got ns name (Ok b) ∈ tr →
  wp (reconcile_with_agent rec run agent b) G tr.
Proof.
  intros Hd Ht Hb. unfold reconcile_with_agent. cbv zeta.
  set (run1 := run <| ar_Status ::= _ |>).
  assert (derived b run1) as Hd1 by (destruct Hd; by split).
  case_decide; [case_decide|].
  - apply wp_final_patch; [done|by rewrite <- (de_phase _ _ Hd)|]. intros _. apply comes_back_requeue.
  - apply wp_ret. auto with agentops.
  - eapply wp_emits; [by apply (checkConcurrency_emits _ b)|].
    intros tr' [[|]|e] _ _; [|apply wp_ret; auto with agentops..].
    apply execute_progress; [done..|]. apply elem_of_app. by left.
Qed.

End Progress.

(** [C3] No run is forgotten: whatever the services answer, a reconcile either
    asks to be called again (a delay or an error), or the run is gone or
    finished, and in the last case the server has acknowledged the write. *)
Theorem Reconcile_progress `{ConditionOps} `{OwnerOps} `{FloatOps} rec ns name :
  wp update_echoes (Reconcile rec ns name) (not_forgotten ns name) [].
Proof.
  unfold Reconcile. apply wp_call. intros x _. destruct x as [run|e].
  - assert (got ns name (Ok run) ∈ [got ns name (Ok run)]) as Hin by left.
    destruct (is_terminal run) eqn:Ht.
    { apply wp_ret. right. apply (settled_before _ _ _ run); [done|].
      unfold is_terminal, terminal in *. by rewrite orb_true_iff, !bool_decide_eq_true in Ht. }
    apply not_terminal in Ht. cbv zeta. apply wp_call. intros y _. destruct y as [agent|e].
    + case_decide.
      * apply wp_call. intros z Hz. destruct z as [run'|e]; [|apply wp_ret, not_forgotten_failed].
        rewrite (Hz run' eq_refl). apply reconcile_with_agent_progress; [by split|done|].
        rewrite !elem_of_app. tauto.
      * apply reconcile_with_agent_progress; [by split|done|]. apply elem_of_app. by left.
    + eapply wp_emits; [by apply quietly, loudly, (set_failed_emits _ run _ done_)|].
      intros tr' run' _ [_ Ho]. apply wp_final_patch; [|done|done].
      rewrite !elem_of_app. tauto.
  - apply wp_ret. destruct (err_notFound e) eqn:He; [|apply not_forgotten_failed].
    right. apply (settled_gone _ _ _ e); [by left | done].
Qed.

(** ** Concurrency *)

(** The error of a call, if any. *)
Definition err_of {A} (x : res A) : option GoError :=
  match x with Ok _ => None | Err e => Some e end.
Definition answer_of (e : option GoError) (b : bool) : res bool :=
  match e with Some e => Err e | None => Ok b end.

Definition listed (ns agent : string) (x : res (list AgentRun)) : Event :=
  existT (OpList KAgentRun ns {[ LabelAgent := agent ]}) x.

(** [o] may be cancelled: it runs, is not the current run, and no other
    candidate is older. *)
Definition oldest_of (current : AgentRun) (items : list AgentRun) (o : AgentRun) : Prop :=
  o ∈ others_running current items ∧
  ∀ x, x ∈ others_running current items → (created o ≤ created x)%Z.

(** The outcome of the check, branch by branch: the calls after the list and
    the answer. *)
Inductive concurrency_outcome (run : AgentRun) (agent : Agent) (b : AgentRun)
  (items : list AgentRun) : Trace → res bool → Prop :=
| co_room : (activeCount run items < maxRuns agent)%Z →
    concurrency_outcome run agent b items [] (Ok true)
| co_queued : (maxRuns agent ≤ activeCount run items)%Z → policy agent = "queue" →
    phase run = AgentRunPhaseQueued ∨ set_phase AgentRunPhaseQueued run = b →
    concurrency_outcome run agent b items [] (Ok false)
| co_queue x : (maxRuns agent ≤ activeCount run items)%Z → policy agent = "queue" →
    concurrency_outcome run agent b items
      [patched b (set_phase AgentRunPhaseQueued run) x] (answer_of (err_of x) false)
| co_reject now n x : (maxRuns agent ≤ activeCount run items)%Z → policy agent = "reject" →
    phase n = AgentRunPhaseFailed →
    concurrency_outcome run agent b items
      [existT OpNow now; patched b n x] (answer_of (err_of x) false)
| co_replace o now n x : (maxRuns agent ≤ activeCount run items)%Z → policy agent = "replace" →
    oldest_of run items o → phase n = AgentRunPhaseFailed → name_of n = name_of o →
    concurrency_outcome run agent b items
      [existT OpNow now; patched o n x] (answer_of (err_of x) true)
| co_other : (maxRuns agent ≤ activeCount run items)%Z →
    policy agent ∉ ["queue"; "reject"; "replace"] →
    concurrency_outcome run agent b items [] (Ok true).

#[local] Instance not_after_total : Total not_after.
Proof. intros x y. unfold not_after. lia. Qed.
#[local] Instance not_after_trans : Transitive not_after.
Proof. intros x y z. unfold not_after. lia. Qed.

Lemma sorted_head_oldest current items o os :
  sort_by_creation (others_running current items) = o :: os → oldest_of current items o.
Proof.
  intros Hs. split; [by apply sorted_in in Hs|]. intros x Hx.
  pose proof (Sorted_StronglySorted not_after _
    (Sorted_merge_sort not_after (others_running current items))) as Hsort.
  unfold sort_by_creation in Hs. rewrite Hs in Hsort. inversion_clear Hsort as [|? ? _ Hall].
  rewrite <- (merge_sort_Permutation not_after), Hs in Hx.
  apply elem_of_cons in Hx as [->|Hx]; [done|]. rewrite Forall_forall in Hall. exact (Hall x Hx).
Qed.

(** The limit is at least one, so a full house has somebody to cancel. *)
Lemma maxRuns_pos agent : (0 < maxRuns agent)%Z.
Proof. unfold maxRuns. destruct (as_Concurrency _); [case_decide|]; lia. Qed.

(** A status write is one call, or none when nothing changed. *)
Lemma wp_patchStatus ok (n b : AgentRun) (Q : Trace → option GoError → Prop) tr :
  (n = b → Q tr None) → (∀ x, Q (tr ++ [patched b n x]) (err_of x)) →
  wp ok (patchStatus (k := KAgentRun) n b) Q tr.
Proof.
  intros Hs Hc. unfold patchStatus. case_decide; [by apply wp_ret, Hs|].
  intros x _. apply wp_ret, (Hc x).
Qed.

(** What the check does after the calls [tr]. *)
Definition checked (run : AgentRun) (agent : Agent) (b : AgentRun) (tr tr' : Trace)
  (a : res bool) : Prop :=
  ∃ x rest, tr' = tr ++ listed (om_namespace (ar_Meta run)) (om_name (ag_Meta agent)) x :: rest ∧
    match x with
    | Err e => rest = [] ∧ a = Err e
    | Ok items => concurrency_outcome run agent b items rest a
    end.

Lemma checkConcurrency_wp `{ConditionOps} (ok : ∀ o, ans o → Prop) run agent b tr :
  ¬ terminal (phase b) → wp ok (checkConcurrency run agent b) (checked run agent b tr) tr.
Proof.
  intros Hb. unfold checkConcurrency. cbv zeta. apply wp_call. intros x _.
  destruct x as [items|e]; [|apply wp_ret; by exists (Err e), []].
  case_decide as Hfull; [|apply wp_ret; exists (Ok items), []; split; [done|]; apply co_room; lia].
  case_decide as Hq; [case_decide as Hph|case_decide as Hrj; [|case_decide as Hrp]].
  - apply wp_bind. apply wp_patchStatus.
    + intros Heq. apply wp_ret. exists (Ok items), []. split; [done|]. apply co_queued; auto.
    + intros x. apply wp_ret. eexists (Ok items), [_]. split; [by rewrite <- app_assoc|]. by apply co_queue.
  - apply wp_ret. exists (Ok items), []. split; [done|]. apply co_queued; auto.
  - apply wp_bind. unfold setRunFailedStatus. apply wp_call. intros now _. apply wp_ret.
    apply wp_bind. apply wp_patchStatus.
    + intros Heq. exfalso. apply Hb. rewrite <- Heq. by right.
    + intros x. apply wp_ret. eexists (Ok items), [_; _]. split; [by rewrite <- !app_assoc|]. by eapply co_reject.
  - apply wp_bind. unfold cancelOldestRun.
    destruct (sort_by_creation _) as [|o os] eqn:Hs.
    { pose proof (maxRuns_pos agent). unfold activeCount in Hfull.
      rewrite <- (merge_sort_Permutation not_after (others_running run items)) in Hfull.
      unfold sort_by_creation in Hs. rewrite Hs in Hfull. cbn in Hfull. lia. }
    apply sorted_head_oldest in Hs. cbv zeta. apply wp_call. intros now _.
    apply wp_patchStatus.
    + intros Heq. exfalso. destruct Hs as [Hin _].
      apply list_elem_of_filter in Hin as [[_ Hr] _]. unfold is_running in Hr.
      apply bool_decide_eq_true in Hr. rewrite <- Heq in Hr. done.
    + intros x. apply wp_ret. eexists (Ok items), [_; _]. split; [by rewrite <- !app_assoc|]. by eapply co_replace.
  - apply wp_ret. exists (Ok items), []. split; [done|]. apply co_other; [done|]. set_solver.
Qed.

(** [C5] The concurrency policy, on every branch: with room the run proceeds;
    otherwise "queue" parks it (writing the phase once), "reject" fails it,
    "replace" fails the oldest other running run of the agent and lets it
    proceed only once the server acknowledged that, and an unknown policy is
    no limit.  An error of the list or of a write is returned. *)
Theorem checkConcurrency_spec `{ConditionOps} run agent b :
  ¬ terminal (phase b) →
  wp any_answer (checkConcurrency run agent b) (λ tr a,
    ∃ x rest, tr = listed (om_namespace (ar_Meta run)) (om_name (ag_Meta agent)) x :: rest ∧
      match x with
      | Err e => rest = [] ∧ a = Err e
      | Ok items => concurrency_outcome run agent b items rest a
      end) [].
Proof.
  intros Hb. eapply wp_mono; [|by apply checkConcurrency_wp]. intros tr a (x & rest & -> & Hx).
  by exists x, rest.
Qed.

(** A run without a phase and an agent with the default policy. *)
Lemma checkConcurrency_spec_witness :
  let run := zeroAgentRun <| ar_Meta ::= λ m, m <| om_name := "r1" |> |> in
  ¬ terminal (phase run) ∧
  wp any_answer (@checkConcurrency KubeTypes.set_condition_ops run zeroAgent run) (λ tr a,
    ∃ x rest, tr = listed "" "" x :: rest ∧
      match x with
      | Err e => rest = [] ∧ a = Err e
      | Ok items => concurrency_outcome run zeroAgent run items rest a
      end) [].
Proof.
  intros run. assert (Hb : ¬ terminal (phase run)) by (intros [Hp|Hp]; vm_compute in Hp; done).
  split; [exact Hb|]. exact (@checkConcurrency_spec KubeTypes.set_condition_ops run zeroAgent run Hb).
Defined.
