(* ===== verification/AgentRunStart.v ===== *)
(** * Starting work: at most once, for the right run, when there is room

    What must have happened in a reconcile before it creates the Job of a run
    or sends a daemon agent the prompt. *)

From S2P Require Import Prelude GoLib KubeTypes ApiTypes Json JsonEncode JsonCodec Effects.
From S2P Require Import ResourceCommon AgentGit ConfigTypes ConfigMap Builders AgentPod CtrlCommon.
From S2P Require Import AgentRunCtrl AgentRunProps.

Open Scope string_scope.
Open Scope list_scope.

(** ** Specification *)

(** Every call of a trace is allowed by [G] after the calls before it. *)
Definition guarded (G : Trace → Op → Prop) (tr : Trace) : Prop :=
  ∀ pre e post, tr = pre ++ e :: post → G pre (event_op e).

Definition no_start (tr : Trace) : Prop := Forall (λ e, is_start (event_op e) = false) tr.

(** The check let the run through: there was room, or the server acknowledged
    the end of the oldest other run, or the policy is no limit. *)
Definition admitted (run : AgentRun) (agent : Agent) (items : list AgentRun) (pre : Trace) : Prop :=
  (activeCount run items < maxRuns agent)%Z ∨
  (policy agent = "replace" ∧ ∃ o n n', oldest_of run items o ∧ phase n = AgentRunPhaseFailed ∧
     name_of n = name_of o ∧ patched o n (Ok n') ∈ pre) ∨
  policy agent ∉ ["queue"; "reject"; "replace"].

Definition got_agent (run : AgentRun) (agent : Agent) : Event :=
  existT (OpGet KAgent (om_namespace (ar_Meta run)) (ars_AgentRef (ar_Spec run))) (Ok agent).
Definition job_missing (run : AgentRun) (e : GoError) : Event :=
  existT (OpGet KJob (om_namespace (ar_Meta run)) (name_of run)) (Err e).

(** The run was read unfinished, its agent was read, and it was admitted. *)
Record prepared (ns name : string) (pre : Trace) (b : AgentRun) (agent : Agent) : Prop := {
  pr_fresh : no_start pre;
  pr_run : got ns name (Ok b) ∈ pre;
  pr_open : ¬ terminal (phase b);
  pr_agent : got_agent b agent ∈ pre;
  pr_admitted : ∃ items, listed (om_namespace (ar_Meta b)) (om_name (ag_Meta agent)) (Ok items) ∈ pre
                         ∧ admitted b agent items pre;
}.

(** When a call may be made. *)
Inductive cleared (ns name : string) (pre : Trace) : Op → Prop :=
| cl_other o : is_start o = false → cleared ns name pre o
| cl_job b agent e job : prepared ns name pre b agent → as_Mode (ag_Spec agent) = AgentModeTask →
    job_missing b e ∈ pre → err_notFound e = true →
    om_name (jb_meta job) = name_of b → om_namespace (jb_meta job) = om_namespace (ar_Meta b) →
    cleared ns name pre (OpCreate KJob job)
| cl_prompt b agent r : prepared ns name pre b agent →
    as_Mode (ag_Spec agent) = AgentModeDaemon → phase b ≠ AgentRunPhaseRunning →
    ast_Phase (ag_Status agent) = AgentPhaseRunning →
    hr_url r = AgentServiceURL agent +:+ "/prompt" →
    hr_body r = prompt_body (ars_Prompt (ar_Spec b)) →
    ("X-AgentOps-Run-Name", name_of b) ∈ hr_headers r →
    cleared ns name pre (OpHttp r).

(** ** Guards *)

Section Guards.
Variable G : Trace → Op → Prop.

Lemma guarded_nil : guarded G [].
Proof. intros pre e post H. by destruct pre. Qed.

Lemma guarded_snoc tr e : guarded G tr → G tr (event_op e) → guarded G (tr ++ [e]).
Proof.
  intros Htr He pre e' post Heq. destruct post as [|x post' _] using rev_ind.
  - apply app_inj_tail in Heq as [-> ->]. exact He.
  - rewrite app_comm_cons, app_assoc in Heq. apply app_inj_tail in Heq as [-> ->]. by eapply Htr.
Qed.

Lemma guarded_app tr tr' :
  guarded G tr → (∀ pre, Forall (λ e, G pre (event_op e)) tr') → guarded G (tr ++ tr').
Proof.
  intros Htr Htr'. induction tr' as [|e tr'' IH] using rev_ind; [by rewrite app_nil_r|].
  rewrite app_assoc. apply guarded_snoc.
  - apply IH. intros pre. by apply Forall_app with (1 := Htr' pre).
  - specialize (Htr' (tr ++ tr'')). apply Forall_app in Htr' as [_ Hl]. by inversion Hl.
Qed.
End Guards.

Section Starts.
Context `{ConditionOps} `{OwnerOps} `{FloatOps}.
Variable rec : AgentRunReconciler.
Variables ns name : string.
Variable ok : ∀ o, ans o → Prop.

Local Abbreviation G := (cleared ns name).
Local Abbreviation wp := (wp ok).

(** Calls that start nothing keep the guard and leave everything as it was. *)
Lemma guarded_silent tr tr' : guarded G tr → no_start tr' → guarded G (tr ++ tr').
Proof.
  intros Htr Hs. apply guarded_app; [done|]. intros pre.
  eapply Forall_impl; [exact Hs|]. intros e He. by apply cl_other.
Qed.

Lemma silent_no_start tr : Forall silent tr → no_start tr.
Proof. intros Htr. eapply Forall_impl; [exact Htr | by intros e []]. Qed.

Lemma prepared_app b agent tr tr' :
  prepared ns name tr b agent → no_start tr' → prepared ns name (tr ++ tr') b agent.
Proof.
  intros [P1 P2 P3 P4 (items & P5 & P6)] Hs. split; try (apply elem_of_app; by left); auto.
  - by apply Forall_app.
  - exists items. split; [apply elem_of_app; by left|].
    destruct P6 as [P6|[(Hp & o & n & n' & P6)|P6]]; [by left| |by right; right].
    right; left. split; [done|]. exists o, n, n'. rewrite elem_of_app. tauto.
Qed.

(** [n] is [b] as far as starting it is concerned. *)
Record kin (b n : AgentRun) : Prop := {
  ki_name : om_name (ar_Meta n) = om_name (ar_Meta b);
  ki_namespace : om_namespace (ar_Meta n) = om_namespace (ar_Meta b);
  ki_spec : ar_Spec n = ar_Spec b;
  ki_open : ¬ terminal (phase b) → ¬ terminal (phase n);
  ki_running : is_running n = false → phase b ≠ AgentRunPhaseRunning;
}.

Lemma derived_kin b n : derived b n → kin b n.
Proof.
  intros [D1 D2 D3 D4 D5]. split; rewrite <- ?D5; try done.
  unfold is_running. by rewrite bool_decide_eq_false.
Qed.

Lemma kin_pending b n : kin b n → phase n = "" → kin b (set_phase AgentRunPhasePending n).
Proof.
  intros [K1 K2 K3 K4 K5] Hn. split; try done; [by intros _ [|]|].
  intros _. apply K5. unfold is_running. apply bool_decide_eq_false. by rewrite Hn.
Qed.

Lemma wp_silent {A B} (p : prog A) Φ (f : A → prog B) Q tr :
  emits ok silent p Φ → guarded G tr →
  (∀ tr' a, no_start tr' → Φ a → guarded G (tr ++ tr') → wp (f a) Q (tr ++ tr')) →
  wp (p ≫= f) Q tr.
Proof.
  intros Hp Htr Hf. eapply wp_emits; [exact Hp|]. intros tr' a Ht' Ha.
  apply silent_no_start in Ht'. apply Hf; [done..|]. by apply guarded_silent.
Qed.

Lemma wp_other {B} o (f : ans o → prog B) Q tr :
  is_start o = false → guarded G tr →
  (∀ x, guarded G (tr ++ [existT o x]) → wp (f x) Q (tr ++ [existT o x])) →
  wp (call o ≫= f) Q tr.
Proof.
  intros Ho Htr Hf. apply wp_call. intros x _. apply Hf, guarded_snoc; [done | by apply cl_other].
Qed.

Local Abbreviation Q := (λ (tr : Trace) _, guarded G tr).

Lemma patch_guarded n b k tr :
  guarded G tr → (∀ tr', guarded G tr' → wp k Q tr') →
  wp (or_fail (patchStatus (k := KAgentRun) n b) k) Q tr.
Proof.
  intros Htr Hk. apply wp_bind, wp_patchStatus.
  - intros _. by apply Hk.
  - intros x. assert (guarded G (tr ++ [patched b n x])) as Htr'.
    { apply guarded_snoc; [done | by apply cl_other]. }
    destruct x; [by apply Hk | exact Htr'].
Qed.

Lemma start_task_guarded b run agent providers e tr :
  kin b run → prepared ns name tr b agent → as_Mode (ag_Spec agent) = AgentModeTask →
  job_missing b e ∈ tr → err_notFound e = true → guarded G tr →
  wp (start_task rec run agent providers) Q tr.
Proof.
  intros Hd Hp Hm Hj He Htr.
  assert (¬ terminal (phase run)) as Ht by apply (ki_open _ _ Hd), Hp.
  eapply wp_silent; [by apply resolve_git_emits | done|].
  intros tr1 [run'|g] Hs1 _ Htr1; [exact Htr1|].
  eapply wp_silent; [apply ensure_run_config_emits | done|].
  intros tr2 [cm|e'] Hs2 _ Htr2; [|exact Htr2]. cbv zeta.
  destruct (SetControllerReference _ _); [exact Htr2|]. apply wp_call. intros x _.
  match goal with |- wp _ _ (_ ++ [existT ?o _]) => set (start := o) in * end.
  assert (guarded G (((tr ++ tr1) ++ tr2) ++ [existT start x])) as Htr3.
  { apply guarded_snoc; [done|].
    apply (cl_job _ _ _ b agent e); [by apply prepared_app, Hs2; apply prepared_app|done| |done|..].
    - rewrite !elem_of_app. tauto.
    - apply Hd.
    - apply Hd. }
  destruct (match x with Ok _ => None | Err e => _ end); [exact Htr3|].
  apply wp_other; [done..|]. intros now Htr4. exact Htr4.
Qed.

Lemma reconcileTaskRun_guarded b run agent tr :
  kin b run → prepared ns name tr b agent → as_Mode (ag_Spec agent) = AgentModeTask →
  guarded G tr → wp (reconcileTaskRun rec run agent) Q tr.
Proof.
  intros Hd Hp Hm Htr. eapply wp_silent; [apply resolve_providers_emits | done|].
  intros tr1 providers Hs1 _ Htr1. apply wp_other; [done..|].
  intros [job|e] Htr2.
  - case_decide; [|case_decide; [|exact Htr2]].
    all: eapply wp_silent; [apply getJobOutput_emits | done|]; intros tr3 out Hs3 _ Htr3.
    all: apply wp_other; [done..|]; intros now Htr4; exact Htr4.
  - destruct (err_notFound e) eqn:He; [|exact Htr2].
    apply (start_task_guarded b _ _ _ e); [done| |done| |done..].
    + apply prepared_app; [by apply prepared_app | by repeat constructor].
    + apply elem_of_app. right. apply list_elem_of_singleton. unfold job_missing, name_of.
      by rewrite (ki_name _ _ Hd), (ki_namespace _ _ Hd).
Qed.

Lemma poll_guarded run agent tr :
  guarded G tr → wp (pollDaemonRunStatus rec run agent) Q tr.
Proof.
  intros Htr. assert (∀ tr, guarded G tr → wp (poll_agent rec run agent) Q tr) as Hpoll.
  { intros tr' Htr'. apply wp_other; [done..|]. intros [resp|e] Htr2; [|exact Htr2].
    destruct (decode_strict _ _ _) as [st|]; [|exact Htr2]. destruct (ds_Busy st); [exact Htr2|].
    apply wp_other; [done..|]. intros now Htr3. exact Htr3. }
  unfold pollDaemonRunStatus. destruct (arst_StartTime _); [|by apply Hpoll]. cbv zeta.
  apply wp_other; [done..|]. intros now Htr1. case_decide; [|by apply Hpoll].
  apply wp_other; [done..|]. intros now' Htr2. exact Htr2.
Qed.

Lemma reconcileDaemonRun_guarded b run agent tr :
  kin b run → prepared ns name tr b agent → as_Mode (ag_Spec agent) = AgentModeDaemon →
  (is_running run = false → ast_Phase (ag_Status agent) = AgentPhaseRunning) →
  guarded G tr → wp (reconcileDaemonRun rec run agent) Q tr.
Proof.
  intros Hd Hp Hm Hr Htr. unfold reconcileDaemonRun.
  destruct (is_running run) eqn:E; [by apply poll_guarded|]. cbv zeta. apply wp_call. intros x _.
  match goal with |- wp _ _ (_ ++ [existT ?o _]) => set (start := o) in * end.
  assert (guarded G (tr ++ [existT start x])) as Htr1.
  { apply guarded_snoc; [done|]. apply (cl_prompt _ _ _ b agent); auto.
    - by apply (ki_running _ _ Hd).
    - cbn. by rewrite (ki_spec _ _ Hd).
    - unfold prompt_headers, name_of. cbn. rewrite (ki_name _ _ Hd), !elem_of_cons, !elem_of_app.
      right. right. right. by left. }
  destruct x as [resp|e]; [|exact Htr1]. case_decide.
  - apply wp_other; [done..|]. intros now Htr2. exact Htr2.
  - apply wp_other; [done..|]. intros now Htr2. case_decide; exact Htr2.
Qed.

Lemma execute_guarded b run agent tr :
  kin b run → prepared ns name tr b agent →
  (as_Mode (ag_Spec agent) = AgentModeDaemon → is_running run = false →
   ast_Phase (ag_Status agent) = AgentPhaseRunning) →
  guarded G tr → wp (execute rec run agent b) Q tr.
Proof.
  intros Hd Hp Hr Htr. unfold execute. cbv zeta.
  set (run1 := if decide (phase run = "") then _ else run).
  assert (kin b run1) as Hd1 by (subst run1; case_decide; [by apply kin_pending | done]).
  assert (is_running run1 = false → is_running run = false) as Hr1.
  { subst run1. case_decide as Hp0; [|done]. unfold is_running. by rewrite Hp0. }
  apply wp_bind. eapply wp_mono with (Q := Q).
  { intros tr' [r out] Htr'. by apply patch_guarded. }
  case_decide; [by apply (reconcileTaskRun_guarded b)|].
  case_decide as Hm; [apply (reconcileDaemonRun_guarded b); auto|].
  apply wp_other; [done..|]. intros now Htr1. exact Htr1.
Qed.

Lemma admitted_checked b run agent items rest tr :
  kin b run → concurrency_outcome run agent b items rest (Ok true) →
  admitted b agent items (tr ++ rest).
Proof.
  intros Hd Hc.
  assert (others_running run items = others_running b items) as Ho.
  { unfold others_running, name_of. by rewrite (ki_name _ _ Hd). }
  unfold admitted, activeCount, oldest_of. rewrite <- Ho.
  inversion Hc as [Hroom| | | |o now n x _ Hp Hold Hn Hname Hrest Ha|]; subst.
  - by left.
  - destruct (err_of x); discriminate.
  - destruct (err_of x); discriminate.
  - right. left. split; [done|].
    destruct x as [n'|]; [|discriminate]. exists o, n, n'. rewrite elem_of_app.
    split_and!; try apply Hold; try done. right. right. left.
  - by right; right.
Qed.

Lemma outcome_no_start run agent b items rest a :
  concurrency_outcome run agent b items rest a → no_start rest.
Proof. by intros []; repeat constructor. Qed.

Lemma reconcile_with_agent_guarded b run agent tr :
  kin b run → no_start tr → got ns name (Ok b) ∈ tr → ¬ terminal (phase b) →
  got_agent b agent ∈ tr → guarded G tr → wp (reconcile_with_agent rec run agent b) Q tr.
Proof.
  intros Hd Hs Hb Ht Ha Htr. unfold reconcile_with_agent. cbv zeta.
  set (run1 := run <| ar_Status ::= _ |>).
  assert (kin b run1) as Hd1 by (destruct Hd; by split).
  case_decide as Hw; [case_decide; [by apply patch_guarded | exact Htr]|].
  apply wp_bind. eapply wp_mono; [|by apply checkConcurrency_wp].
  intros tr' a (x & rest & -> & Hx). destruct x as [items|e]; cycle 1.
  { destruct Hx as [-> ->]. apply guarded_silent; [done | by repeat constructor]. }
  pose proof (outcome_no_start _ _ _ _ _ _ Hx) as Hrest.
  match goal with |- wp _ _ ?t => set (tr' := t) end.
  assert (guarded G tr') as Htr' by (apply guarded_silent; [done | by constructor]).
  destruct a as [[|]|e]; [|exact Htr'..]. apply execute_guarded; [done| | |done].
  - split; try (apply elem_of_app; by left); try done.
    + apply Forall_app. split; [done | by constructor].
    + exists items. rewrite <- (ki_namespace _ _ Hd1). split.
      * apply elem_of_app. right. left.
      * unfold tr'. rewrite cons_middle, app_assoc. by apply (admitted_checked _ run1).
  - intros Hm Hr. destruct (decide (ast_Phase (ag_Status agent) = AgentPhaseRunning)); [done|].
    by destruct Hw.
Qed.

End Starts.

(** [C4] Work is started at most once in a reconcile, for the right run, and
    only when there is room: whatever the services answer, a Job is created
    or a prompt sent only after the run was read unfinished, its agent was
    read, the concurrency check let it through, and nothing was started
    before.  A Job only for an agent in task mode whose run has none yet, under
    the run's name; a prompt only for a daemon agent that runs and a run that
    does not, to that agent, with the run's prompt and name. *)
Theorem Reconcile_starts `{ConditionOps} `{OwnerOps} `{FloatOps} rec ns name :
  wp update_echoes (Reconcile rec ns name) (λ tr _, guarded (cleared ns name) tr) [].
Proof.
  unfold Reconcile. pose proof (guarded_nil (cleared ns name)) as Hnil.
  apply (wp_other ns name); [done..|]. intros [run|e] Htr; [|exact Htr].
  destruct (is_terminal run) eqn:Ht; [exact Htr|]. apply not_terminal in Ht.
  cbv zeta. apply (wp_other ns name); [done..|]. intros [agent|e] Htr1.
  - case_decide.
    + apply wp_call. intros z Hz. assert (guarded (cleared ns name)
        ((([] ++ [got ns name (Ok run)]) ++ [got_agent run agent]) ++ [existT _ z])) as Htr2.
      { apply guarded_snoc; [exact Htr1 | by apply cl_other]. }
      destruct z as [run'|e]; [|exact Htr2]. rewrite (Hz run' eq_refl) in *.
      apply reconcile_with_agent_guarded; try done;
        [by apply derived_kin; split | by repeat constructor | rewrite !elem_of_app; set_solver..].
    + apply reconcile_with_agent_guarded; try done;
        [by apply derived_kin; split | by repeat constructor | rewrite !elem_of_app; set_solver..].
  - apply (wp_other ns name); [done..|]. intros now Htr2. by apply patch_guarded.
Qed.
