(* ===== verification/AgentRunModes.v ===== *)
(** * The two modes of a run: the Job's end and the daemon's status

    What a handler concludes from the Job, the runtime's termination message,
    the agent's status and the clock. *)

From S2P Require Import Prelude GoLib KubeTypes ApiTypes Json JsonEncode JsonCodec Effects.
From S2P Require Import ResourceCommon AgentGit ConfigTypes ConfigMap Builders AgentPod CtrlCommon.
From S2P Require Import AgentRunCtrl AgentRunProps.

Open Scope string_scope.
Open Scope list_scope.

(** ** Daemon mode *)

Definition status_request (rec : AgentRunReconciler) (agent : Agent) : Op :=
  OpHttp (mkHttp "GET" (AgentServiceURL agent +:+ "/status") [] ""
    (default (10 * GoTime.Second)%Z (rc_HTTPClient rec))).

(** The agent says that it is done: a status that decodes and is not busy. *)
Definition reported (x : res HttpResponse) : option DaemonStatus :=
  match x with
  | Ok resp =>
      st ← decode_strict daemon_status_fields zeroDaemonStatus (hs_body resp);
      if ds_Busy st then None else Some st
  | Err _ => None
  end.

(** Finished at [now] with phase [p] and output [out], in the same place. *)
Record finished (run run' : AgentRun) (p : AgentRunPhase) (now : Z) (out : string) : Prop := {
  fi_phase : phase run' = p;
  fi_time : arst_CompletionTime (ar_Status run') = Some now;
  fi_output : arst_Output (ar_Status run') = out;
  fi_meta : ar_Meta run' = ar_Meta run;
  fi_spec : ar_Spec run' = ar_Spec run;
  fi_complete : stamped run';
}.

(** The clock was read, if the run has a start time, and is within the limit. *)
Inductive within_limit (run : AgentRun) (agent : Agent) : Trace → Prop :=
| wl_unstarted : arst_StartTime (ar_Status run) = None → within_limit run agent []
| wl_started start now : arst_StartTime (ar_Status run) = Some start →
    (GoTime.since now start ≤ run_timeout agent)%Z → within_limit run agent [existT OpNow now].

(** The steps of a poll: the clock (if the run has a start time), then the
    agent, then the clock when there is something to record. *)
Inductive polled (rec : AgentRunReconciler) (run : AgentRun) (agent : Agent) : Trace → Step → Prop :=
| po_expired start now now' run' msg :
    arst_StartTime (ar_Status run) = Some start → (run_timeout agent < GoTime.since now start)%Z →
    finished run run' AgentRunPhaseFailed now' msg →
    polled rec run agent [existT OpNow now; existT OpNow now'] (run', done_)
| po_waiting clock x :
    within_limit run agent clock → reported x = None →
    polled rec run agent (clock ++ [existT (status_request rec agent) x])
      (run, requeue requeueInterval)
| po_reported clock x st now run' :
    within_limit run agent clock → reported x = Some st →
    finished run run' AgentRunPhaseSucceeded now (ds_Output st) →
    polled rec run agent (clock ++ [existT (status_request rec agent) x; existT OpNow now])
      (run', done_).

(** ** Task mode *)

(** The runtime's message: the first termination message of a runtime
    container among the Job's pods, read as its report, kept as plain text
    when it is no report with an output. *)
Definition report_of (pods : res (list Pod)) : taskRunOutput :=
  let plain (s : string) := zeroTaskRunOutput <| tro_Output := s |> in
  match pods with
  | Err _ => plain "(no output captured)"
  | Ok pods =>
      match first_message (concat (map pod_containerStatuses pods)) with
      | None => plain "(no output captured)"
      | Some msg =>
          match unmarshal_strict task_output_fields zeroTaskRunOutput msg with
          | Some r => if decide (tro_Output r ≠ "") then r else plain msg
          | None => plain msg
          end
      end
  end.

Definition pods_of (job : Job) (x : res (list Pod)) : Event :=
  existT (OpList KPod (om_namespace (jb_meta job)) {[ "job-name" := om_name (jb_meta job) ]}) x.

(** What the handler concludes from the Job it read. *)
Inductive job_concluded (run : AgentRun) (job : Job) : Trace → Step → Prop :=
| jc_succeeded pods now run' : (0 < jb_succeeded job)%Z →
    finished run run' AgentRunPhaseSucceeded now (tro_Output (report_of pods)) →
    job_concluded run job [pods_of job pods; existT OpNow now] (run', done_)
| jc_failed pods now run' : (jb_succeeded job ≤ 0 < jb_failed job)%Z →
    finished run run' AgentRunPhaseFailed now (keep_or (tro_Error (report_of pods)) "Job failed") →
    job_concluded run job [pods_of job pods; existT OpNow now] (run', done_)
| jc_active : (jb_succeeded job ≤ 0)%Z → (jb_failed job ≤ 0)%Z →
    job_concluded run job [] (run, requeue requeueInterval).

Section Modes.
Context `{ConditionOps} `{OwnerOps} `{FloatOps}.
Variable rec : AgentRunReconciler.

Lemma finished_completed run run' p now out reason msg :
  phase run' = p → arst_CompletionTime (ar_Status run') = Some now →
  arst_Output (ar_Status run') = out → ar_Meta run' = ar_Meta run → ar_Spec run' = ar_Spec run →
  finished run (completed run' reason msg) p now out.
Proof. intros E1 E2 E3 E4 E5. split; try done. apply stamped_completed. by eexists. Qed.

Lemma run_timeout_pos agent : (0 < run_timeout agent)%Z.
Proof.
  unfold run_timeout. cbv zeta. repeat (case_decide || case_match); try done; reflexivity.
Qed.

Lemma poll_agent_wp run agent clock :
  within_limit run agent clock →
  wp any_answer (poll_agent rec run agent) (polled rec run agent) clock.
Proof.
  intros Hc. unfold poll_agent. cbv zeta. apply wp_call. intros x _.
  change (existT _ x) with (existT (status_request rec agent) x).
  destruct x as [resp|e]; [|by apply wp_ret, po_waiting].
  destruct (decode_strict _ _ _) as [st|] eqn:Hst.
  - destruct (ds_Busy st) eqn:Hb.
    + apply wp_ret, po_waiting; [done|]. unfold reported. rewrite Hst. cbn. by rewrite Hb.
    + apply wp_call. intros now _. apply wp_ret. rewrite <- app_assoc.
      apply (po_reported _ _ _ _ _ st); [done| |by apply finished_completed].
      unfold reported. rewrite Hst. cbn. by rewrite Hb.
  - apply wp_ret, po_waiting; [done|]. unfold reported. by rewrite Hst.
Qed.

Definition provider_read (agent : Agent) (e : Event) : Prop :=
  ∃ name, event_op e = OpGet KProvider (om_namespace (ag_Meta agent)) name.

Lemma resolve_providers_reads agent refs :
  emits any_answer (provider_read agent) (resolve_providers agent refs) (λ _, True).
Proof.
  induction refs as [|ref refs IH]; [by apply emits_ret|]. cbn [resolve_providers].
  apply emits_call. intros x _. split; [by eexists|].
  eapply emits_bind; [exact IH|]. intros; by apply emits_ret.
Qed.

Lemma getJobOutput_wp job tr :
  wp any_answer (getJobOutput job)
    (λ tr' r, ∃ pods, tr' = tr ++ [pods_of job pods] ∧ r = report_of pods) tr.
Proof. apply wp_call. intros pods _. apply wp_ret. exists pods. by destruct pods. Qed.

End Modes.

(** [C15] Waiting for a daemon agent, on every branch: a run past its limit is
    failed without asking the agent; otherwise the agent is asked once for its
    status, and the run is finished with the reported output exactly when the
    answer decodes and is not busy; an unreachable, unintelligible or busy
    agent leaves the run as it is and the request comes back.  The limit is
    always positive, so no run waits for ever once it has a start time. *)
Theorem pollDaemonRunStatus_spec `{ConditionOps} rec run agent :
  (0 < run_timeout agent)%Z ∧
  wp any_answer (pollDaemonRunStatus rec run agent) (polled rec run agent) [].
Proof.
  split; [apply run_timeout_pos|]. unfold pollDaemonRunStatus.
  destruct (arst_StartTime _) as [start|] eqn:Hs; [|by apply poll_agent_wp, wl_unstarted].
  cbv zeta. apply wp_call. intros now _. case_decide.
  - apply wp_call. intros now' _. apply wp_ret. cbn.
    eapply po_expired; [done..|]. by apply finished_completed.
  - apply poll_agent_wp. apply (wl_started _ _ start); [done | lia].
Qed.

(** [C16] Waiting for a Job, on every branch: once the providers and the Job were
    read, the run is finished exactly when the Job has succeeded (or, if not,
    failed), with what the runtime's termination message says, and otherwise
    left as it is; an error of the read other than "not found" is returned and
    nothing else is done. *)
Theorem reconcileTaskRun_concludes `{ConditionOps} `{OwnerOps} `{FloatOps} rec run agent :
  wp any_answer (reconcileTaskRun rec run agent) (λ tr s, ∃ pre x rest,
    tr = pre ++ existT (OpGet KJob (om_namespace (ar_Meta run)) (name_of run)) x :: rest ∧
    Forall (provider_read agent) pre ∧
    match x with
    | Ok job => job_concluded run job rest s
    | Err e => err_notFound e = false → rest = [] ∧ s = (run, failed e)
    end) [].
Proof.
  eapply wp_emits; [apply resolve_providers_reads|]. intros pre providers Hpre _. cbn [app].
  apply wp_call. intros x _. destruct x as [job|e].
  - set (Q := λ (tr : Trace) (s : Step), _). 
    assert (∀ rest s, job_concluded run job rest s →
      Q ((pre ++ [existT (OpGet KJob (om_namespace (ar_Meta run)) (name_of run)) (Ok job)]) ++ rest) s) as HQ.
    { intros rest s Hc. exists pre, (Ok job), rest. by rewrite <- app_assoc. }
    case_decide; [|case_decide].
    + apply wp_bind. eapply wp_mono; [|apply getJobOutput_wp]. intros tr r (pods & -> & ->).
      apply wp_call. intros now _. apply wp_ret. rewrite <- app_assoc. apply HQ.
      eapply jc_succeeded; [done|]. by apply finished_completed.
    + apply wp_bind. eapply wp_mono; [|apply getJobOutput_wp]. intros tr r (pods & -> & ->).
      apply wp_call. intros now _. apply wp_ret. rewrite <- app_assoc. apply HQ.
      eapply jc_failed; [lia|]. by apply finished_completed.
    + apply wp_ret. rewrite <- (app_nil_r (pre ++ _)). apply HQ, jc_active; lia.
  - destruct (err_notFound e) eqn:He.
    + apply wp_trace. eapply wp_mono with (Q := λ _ _, True).
      * intros tr s _. exists pre, (Err e), tr. rewrite <- app_assoc. by rewrite He.
      * apply wp_true.
    + apply wp_ret. by exists pre, (Err e), [].
Qed.
