(* ===== verification/AgentRunWorld.v ===== *)
(** * The concurrency limit over time

    The AgentRun controller against an API server that answers from its
    current state, one reconcile at a time, other parties changing the cluster
    in between: the limit [maxRuns] of an agent whose policy has one is never
    exceeded.  Calls may fail at any point, with or without effect. *)

From S2P Require Import Prelude GoLib KubeTypes ApiTypes Json JsonEncode JsonCodec Effects.
From S2P Require Import ResourceCommon AgentGit ConfigTypes ConfigMap Builders AgentPod CtrlCommon.
From S2P Require Import AgentRunCtrl AgentRunProps.

Open Scope string_scope.
Open Scope list_scope.

(** ** The cluster *)

Abbreviation Key := (string * string)%type.

Record World := mkWorld { w_runs : gmap Key AgentRun; w_agents : gmap Key Agent }.
#[export] Instance World_fields : Fields World := λ w, mkWorld (w_runs w) (w_agents w).

Definition run_key (r : AgentRun) : Key := (om_namespace (ar_Meta r), om_name (ar_Meta r)).
Definition agent_key (a : Agent) : Key := (om_namespace (ag_Meta a), om_name (ag_Meta a)).
Definition label_of (r : AgentRun) : option string := om_labels (ar_Meta r) !! LabelAgent.

(** [served w o x w']: the server in state [w] may answer [x] to [o] and be in
    state [w'].  A call
    that fails may have had its effect.  A list is what matches, in some order.  An update stores what
    is sent but keeps the status; a status patch changes the phase if the two
    versions it is computed from differ there. *)
Definition served_get_run (w : World) (k : Key) (x : res AgentRun) (w' : World) : Prop :=
  w' = w ∧ ∀ r, x = Ok r → w_runs w !! k = Some r.
Definition served_get_agent (w : World) (k : Key) (x : res Agent) (w' : World) : Prop :=
  w' = w ∧ ∀ a, x = Ok a → w_agents w !! k = Some a.
Definition served_list (w : World) (ns : string) (sel : gmap string string)
  (x : res (list AgentRun)) (w' : World) : Prop :=
  w' = w ∧ ∀ items, x = Ok items →
    items ≡ₚ snd <$> filter (λ kr, kr.1.1 = ns ∧ sel ⊆ om_labels (ar_Meta kr.2))
                       (map_to_list (w_runs w)).
Definition served_update (w : World) (n : AgentRun) (x : res AgentRun) (w' : World) : Prop :=
  (w' = w ∧ ∃ e, x = Err e) ∨
  ∃ r, w_runs w !! run_key n = Some r ∧
    let stored := n <| ar_Status := ar_Status r |> in
    w' = w <| w_runs ::= <[run_key n := stored]> |> ∧ ∀ o, x = Ok o → o = stored.
Definition patched_run (b n r r' : AgentRun) : Prop :=
  ar_Meta r' = ar_Meta r ∧ ar_Spec r' = ar_Spec r ∧
  phase r' = if decide (phase n = phase b) then phase r else phase n.
Definition served_patch (w : World) (b n : AgentRun) (x : res AgentRun) (w' : World) : Prop :=
  (w' = w ∧ ∃ e, x = Err e) ∨
  ∃ r r', w_runs w !! run_key b = Some r ∧ patched_run b n r r' ∧
    w' = w <| w_runs ::= <[run_key b := r']> |>.

Definition served (w : World) (o : Op) : ans o → World → Prop :=
  match o return ans o → World → Prop with
  | OpGet k ns n =>
      match k return res (obj k) → World → Prop with
      | KAgentRun => served_get_run w (ns, n)
      | KAgent => served_get_agent w (ns, n)
      | _ => λ _ w', w' = w
      end
  | OpList k ns sel =>
      match k return res (list (obj k)) → World → Prop with
      | KAgentRun => served_list w ns sel
      | _ => λ _ w', w' = w
      end
  | OpUpdate k n =>
      match k return obj k → res (obj k) → World → Prop with
      | KAgentRun => served_update w
      | KAgent => λ _ _ _, True
      | _ => λ _ _ w', w' = w
      end n
  | OpPatchStatus k b n =>
      match k return obj k → obj k → res (obj k) → World → Prop with
      | KAgentRun => served_patch w
      | KAgent => λ _ _ _ _, True
      | _ => λ _ _ _ w', w' = w
      end b n
  | OpCreate k _ | OpCreateOrUpdate k _ _ _ =>
      λ _ w', match k with KAgentRun | KAgent => True | _ => w' = w end
  | OpApply _ | OpNow | OpHttp _ => λ _ w', w' = w
  end.

(** The trace is a history of the server from [w] to [w']. *)
Fixpoint explains (w : World) (tr : Trace) (w' : World) : Prop :=
  match tr with
  | [] => w' = w
  | e :: tr' => ∃ m, served w (projT1 e) (projT2 e) m ∧ explains m tr' w'
  end.

(** ** The limit *)

Definition limited (a : Agent) : Prop := policy a ∈ ["queue"; "reject"; "replace"].

Definition runs_for (ns a : string) (kr : Key * AgentRun) : Prop :=
  kr.1.1 = ns ∧ is_running kr.2 = true ∧ label_of kr.2 = Some a.
#[export] Instance runs_for_dec ns a kr : Decision (runs_for ns a kr).
Proof. unfold runs_for. apply _. Defined.

Definition running_of (w : World) (ns a : string) : nat := count (runs_for ns a) (w_runs w).

Record bounded (w : World) : Prop := {
  bd_runs : ∀ k r, w_runs w !! k = Some r → run_key r = k;
  bd_agents : ∀ k a, w_agents w !! k = Some a → agent_key a = k ∧ k.2 ≠ "";
  bd_label : ∀ k r, w_runs w !! k = Some r → is_running r = true →
    label_of r = Some (ars_AgentRef (ar_Spec r));
  bd_limit : ∀ k a, w_agents w !! k = Some a → limited a →
    (Z.of_nat (running_of w k.1 k.2) ≤ maxRuns a)%Z;
}.

(** What other parties may do between reconciles: create runs that do not run
    yet, delete runs, change anything about a run but start it, and for a
    running one its agent and label; and edit agents, but not lower a limit
    below the number of runs. *)
Record others_act (w w' : World) : Prop := {
  oa_runs : ∀ k r', w_runs w' !! k = Some r' → run_key r' = k;
  oa_running : ∀ k r', w_runs w' !! k = Some r' → is_running r' = true →
    ∃ r, w_runs w !! k = Some r ∧ is_running r = true ∧
         label_of r' = label_of r ∧ ars_AgentRef (ar_Spec r') = ars_AgentRef (ar_Spec r);
  oa_agents : ∀ k a', w_agents w' !! k = Some a' → agent_key a' = k ∧ k.2 ≠ "" ∧
    (limited a' →
     (∃ a, w_agents w !! k = Some a ∧ limited a ∧ (maxRuns a ≤ maxRuns a')%Z) ∨
     (Z.of_nat (running_of w k.1 k.2) ≤ maxRuns a')%Z);
}.

(** A reconcile of some request, answered by the server. *)
Definition reconciled `{ConditionOps} `{OwnerOps} `{FloatOps} (rec : AgentRunReconciler)
  (w w' : World) : Prop :=
  ∃ ns name tr out, exec update_echoes (Reconcile rec ns name) tr out ∧ explains w tr w'.

Inductive reachable `{ConditionOps} `{OwnerOps} `{FloatOps} (rec : AgentRunReconciler)
  (w0 : World) : World → Prop :=
| reach_start : reachable rec w0 w0
| reach_reconcile w w' : reachable rec w0 w → reconciled rec w w' → reachable rec w0 w'
| reach_others w w' : reachable rec w0 w → others_act w w' → reachable rec w0 w'.

(** ** Steps that keep the limit *)

Lemma explains_app w tr tr' w' :
  explains w (tr ++ tr') w' ↔ ∃ m, explains w tr m ∧ explains m tr' w'.
Proof.
  revert w. induction tr as [|e tr IH]; intros w; cbn.
  - naive_solver.
  - setoid_rewrite IH. naive_solver.
Qed.

Lemma quiet_served w e w' : quiet e → served w (projT1 e) (projT2 e) w' → w' = w.
Proof. destruct e as [o x]. by destruct o as [[]|[]|[]|[]|[]| |[]| |]; cbn; intros ? Hs; try apply Hs. Qed.

(** [P] holds of every state the history [tr] can lead to. *)
Definition holds (w0 : World) (tr : Trace) (P : World → Prop) : Prop :=
  ∀ w, explains w0 tr w → P w.

Lemma holds_snoc w0 tr o x (P P' : World → Prop) :
  holds w0 tr P → (∀ w w', P w → served w o x w' → P' w') → holds w0 (tr ++ [existT o x]) P'.
Proof.
  intros HP Hs w (m & Hm & m' & Hm' & ->)%explains_app. by apply (Hs m), Hm'; apply HP.
Qed.

Lemma holds_quiet w0 tr tr' P : Forall quiet tr' → holds w0 tr P → holds w0 (tr ++ tr') P.
Proof.
  intros Hq. revert tr. induction Hq as [|[o x] tr' He Hq IH]; intros tr HP; [by rewrite app_nil_r|].
  rewrite cons_middle, app_assoc. apply IH, (holds_snoc _ _ _ _ P); [done|].
  intros w w' Hw Hs. by rewrite (quiet_served w (existT o x) w' He Hs).
Qed.

(** How many other runs of agent [a] run beside the one at [k]. *)
Definition beside (w : World) (k : Key) (a : string) : nat :=
  count (runs_for k.1 a) (delete k (w_runs w)).

Definition room (w : World) (k : Key) (a : string) : Prop :=
  ∀ agent, w_agents w !! (k.1, a) = Some agent → limited agent →
    (Z.of_nat (beside w k a) < maxRuns agent)%Z.

Lemma beside_le w k a : (beside w k a ≤ running_of w k.1 a)%nat.
Proof.
  apply count_mono. intros k' r. rewrite lookup_delete_Some. naive_solver.
Qed.

(** Storing a run keeps the limit if there is room for it to run. *)
Lemma store_bounded w k r :
  bounded w → run_key r = k →
  (is_running r = true → label_of r = Some (ars_AgentRef (ar_Spec r)) ∧
                         room w k (ars_AgentRef (ar_Spec r))) →
  bounded (w <| w_runs ::= <[k := r]> |>).
Proof.
  intros [B1 B2 B3 B4] Hk Hr. split; cbn.
  - intros k' r' [[<- <-]|[_ Hr']]%lookup_insert_Some; eauto.
  - exact B2.
  - intros k' r' [[<- <-]|[_ Hr']]%lookup_insert_Some; [apply Hr|eauto].
  - intros ka a Ha Hl. unfold running_of. cbn. rewrite count_delete_insert. case_decide as HP.
    + destruct HP as (Hns & Hrun & Hla). cbn [fst snd] in Hns, Hrun, Hla. destruct (Hr Hrun) as [Hla' Hroom].
      rewrite Hla in Hla'. injection Hla' as Hla'. rewrite <- Hla' in Hroom. destruct ka as [ns n].
      cbn [fst snd] in *. subst ns. specialize (Hroom a Ha Hl). unfold beside in Hroom. lia.
    + specialize (B4 ka a Ha Hl). pose proof (count_mono (runs_for ka.1 ka.2) (runs_for ka.1 ka.2)
        (delete k (w_runs w)) (w_runs w)) as Hle.
      unfold running_of in B4. enough (count (runs_for ka.1 ka.2) (delete k (w_runs w)) ≤
        count (runs_for ka.1 ka.2) (w_runs w))%nat by lia.
      apply Hle. intros k' r'. rewrite lookup_delete_Some. naive_solver.
Qed.

(** A run that runs has its room. *)
Lemma running_room w k r :
  bounded w → w_runs w !! k = Some r → is_running r = true →
  label_of r = Some (ars_AgentRef (ar_Spec r)) ∧ room w k (ars_AgentRef (ar_Spec r)).
Proof.
  intros [B1 B2 B3 B4] Hk Hr. split; [by apply (B3 k)|]. intros agent Ha Hl.
  specialize (B4 _ _ Ha Hl). cbn in B4. unfold running_of in B4.
  rewrite (count_lookup _ _ _ _ Hk), decide_True in B4; [unfold beside; lia|].
  split; [done|]. split; [done|]. by apply (B3 k).
Qed.

(** ** The controller's writes *)

(** The run read as [b] is stored as [s], and is labelled for its agent. *)
Record stored_as (b s : AgentRun) (agent : Agent) (w : World) : Prop := {
  sa_bounded : bounded w;
  sa_run : w_runs w !! run_key b = Some s;
  sa_agent : w_agents w !! (om_namespace (ar_Meta b), om_name (ag_Meta agent)) = Some agent;
  sa_phase : phase s = phase b;
  sa_label : label_of s = Some (ars_AgentRef (ar_Spec s));
  sa_ref : ars_AgentRef (ar_Spec s) = om_name (ag_Meta agent);
}.
Definition with_room (b s : AgentRun) (agent : Agent) (w : World) : Prop :=
  stored_as b s agent w ∧ room w (run_key b) (om_name (ag_Meta agent)).

Lemma served_patch_bounded w b s n x w' :
  bounded w → w_runs w !! run_key b = Some s → phase s = phase b →
  (is_running n = true → phase n ≠ phase b →
   label_of s = Some (ars_AgentRef (ar_Spec s)) ∧ room w (run_key b) (ars_AgentRef (ar_Spec s))) →
  served_patch w b n x w' → bounded w'.
Proof.
  intros Hb Hs Hp Hn [[-> _]|(r & r' & Hr & (Em & Es & Ep) & ->)]; [done|].
  rewrite Hr in Hs. injection Hs as ->. apply store_bounded; [done|..].
  - unfold run_key. rewrite Em. by apply (bd_runs _ Hb).
  - unfold label_of. rewrite Em, Es. unfold is_running in *. intros Hrun.
    apply bool_decide_eq_true in Hrun. rewrite Ep in Hrun. case_decide as Hc.
    + apply (running_room w (run_key b)); [done..|]. by apply bool_decide_eq_true.
    + apply Hn; [by apply bool_decide_eq_true | done].
Qed.

Section World.
Context `{ConditionOps} `{OwnerOps} `{FloatOps}.
Variable rec : AgentRunReconciler.
Variable ok : ∀ o, ans o → Prop.
Variable w0 : World.

Local Abbreviation wp := (wp ok).
Local Abbreviation Q := (λ (tr : Trace) _, holds w0 tr bounded).

(** A status write that starts the run only if there is room. *)
Lemma patch_bounded b s n (P : World → Prop) k tr :
  (∀ w, P w → bounded w ∧ w_runs w !! run_key b = Some s ∧ phase s = phase b ∧
     (is_running n = true → phase n ≠ phase b →
      label_of s = Some (ars_AgentRef (ar_Spec s)) ∧ room w (run_key b) (ars_AgentRef (ar_Spec s)))) →
  holds w0 tr P →
  wp (or_fail (patchStatus (k := KAgentRun) n b) (mret k)) Q tr.
Proof.
  intros HP Htr. apply wp_bind, wp_patchStatus.
  - intros _. apply wp_ret. intros w Hw. by apply HP, Htr.
  - intros x. assert (holds w0 (tr ++ [patched b n x]) bounded).
    { apply (holds_snoc _ _ _ _ P); [done|]. intros w w' Hw.
      destruct (HP w Hw) as (? & ? & ? & ?). by apply (served_patch_bounded _ _ s). }
    by destruct (err_of x); apply wp_ret.
Qed.

Lemma execute_bounded b s run agent tr :
  ¬ terminal (phase run) → holds w0 tr (with_room b s agent) →
  wp (execute rec run agent b) Q tr.
Proof.
  intros Ht Htr. unfold execute. cbv zeta.
  set (run1 := if decide (phase run = "") then _ else run).
  assert (¬ terminal (phase run1) ∧ phase run1 ≠ "") as [Ht1 Hp1].
  { subst run1. case_decide as Hp; [|by split]. split; [by intros [|] | done]. }
  eapply wp_emits with (E := quiet) (Φ := step_ok run1).
  - case_decide; [by apply reconcileTaskRun_emits|].
    case_decide; [by apply reconcileDaemonRun_emits|].
    eapply emits_bind; [by apply loudly, (set_failed_emits _ _ _ done_)|]. intros; by apply emits_ret.
  - intros tr' [n out] Htr' _. apply (patch_bounded b s n (with_room b s agent)).
    + intros w [[S1 S2 S3 S4 S5 S6] Hroom]. split_and!; try done. intros _ _. split; [done|].
      by rewrite S6.
    + by apply holds_quiet.
Qed.

(** The count of the check is the number of runs beside this one. *)
Lemma activeCount_beside w run k ns a items :
  bounded w → run_key run = k → ns = k.1 →
  items ≡ₚ snd <$> filter (λ kr, kr.1.1 = ns ∧ {[ LabelAgent := a ]} ⊆ om_labels (ar_Meta kr.2))
              (map_to_list (w_runs w)) →
  activeCount run items = Z.of_nat (beside w k a).
Proof.
  intros Hb <- -> Hi. unfold activeCount, others_running. f_equal.
  rewrite Hi, length_filter_fmap, list_filter_filter. unfold beside.
  transitivity (count (λ kr, runs_for (run_key run).1 a kr ∧ kr.1 ≠ run_key run) (w_runs w)).
  - rewrite count_list. f_equal. apply list_filter_ext_in. intros [k r] Hin%elem_of_map_to_list.
    apply (bd_runs _ Hb) in Hin. subst k. unfold runs_for, label_of, name_of, run_key. cbn [fst snd].
    rewrite map_singleton_subseteq_l. split; [naive_solver|].
    intros ((Hns & Hr & Hl) & Hne). split_and!; try done. intros Hn. apply Hne. by rewrite Hns, Hn.
  - apply Nat.le_antisymm; apply count_mono; intros k r;
      setoid_rewrite lookup_delete_Some; naive_solver.
Qed.

(** Cancelling another run that ran makes room. *)
Lemma cancel_makes_room w k o n x w' agent :
  bounded w → w_runs w !! run_key o = Some o → run_key o ≠ k → (run_key o).1 = k.1 →
  is_running o = true → label_of o = Some (om_name (ag_Meta agent)) →
  phase n = AgentRunPhaseFailed → w_agents w !! (k.1, om_name (ag_Meta agent)) = Some agent →
  served_patch w o n x w' →
  bounded w' ∧ w_agents w' = w_agents w ∧ w_runs w' !! k = w_runs w !! k ∧
  (∀ n', x = Ok n' → room w' k (om_name (ag_Meta agent))).
Proof.
  intros Hb Ho Hne Hns Hr Hl Hn Ha Hs. split.
  { apply (served_patch_bounded w o o n x); try done. intros Hn'.
    unfold is_running in Hn'. apply bool_decide_eq_true in Hn'. by rewrite Hn in Hn'. }
  destruct Hs as [[-> [e ->]]|(r & r' & Hr' & (Em & Es & Ep) & ->)]; [done|].
  rewrite Ho in Hr'. injection Hr' as <-.
  split_and!; [done | cbv [upd]; cbn; by rewrite lookup_insert_ne |]. intros _ _ a Ha' Hlim.
  cbn in Ha'. rewrite Ha in Ha'. injection Ha' as <-.
  pose proof (bd_limit _ Hb _ _ Ha Hlim) as Hmax. pose proof (beside_le w k (om_name (ag_Meta agent))) as Hle.
  unfold beside in *. cbn in *. rewrite delete_insert_ne by done.
  rewrite count_delete_insert, decide_False.
  - rewrite (count_lookup _ _ (run_key o) o) in Hle
      by (by rewrite lookup_delete_ne).
    rewrite decide_True in Hle by done. lia.
  - intros (_ & Hrun & _). cbn in Hrun. unfold is_running in *. apply bool_decide_eq_true in Hrun, Hr.
    rewrite Ep, Hr, Hn in Hrun. by case_decide.
Qed.

(** The run and its agent as they were read. *)
Definition found (w : World) (b : AgentRun) (agent : Agent) : Prop :=
  bounded w ∧ w_runs w !! run_key b = Some b ∧
  w_agents w !! (om_namespace (ar_Meta b), ars_AgentRef (ar_Spec b)) = Some agent ∧
  om_name (ag_Meta agent) = ars_AgentRef (ar_Spec b) ∧ ars_AgentRef (ar_Spec b) ≠ "".

(** The list was answered when the run was stored. *)
Definition counted (b s : AgentRun) (agent : Agent) (items : list AgentRun) (w : World) : Prop :=
  stored_as b s agent w ∧
  items ≡ₚ snd <$> filter (λ kr, kr.1.1 = om_namespace (ar_Meta b) ∧
                              {[ LabelAgent := om_name (ag_Meta agent) ]} ⊆ om_labels (ar_Meta kr.2))
              (map_to_list (w_runs w)).

Lemma counted_beside b s agent items run w :
  counted b s agent items w → run_key run = run_key b →
  activeCount run items = Z.of_nat (beside w (run_key b) (om_name (ag_Meta agent))).
Proof. intros [Hs Hi] Hk. by eapply (activeCount_beside w run); [apply Hs| | |exact Hi]. Qed.

Lemma counted_oldest b s agent items run w o :
  counted b s agent items w → run_key run = run_key b → oldest_of run items o →
  w_runs w !! run_key o = Some o ∧ run_key o ≠ run_key b ∧ (run_key o).1 = (run_key b).1 ∧
  is_running o = true ∧ label_of o = Some (om_name (ag_Meta agent)).
Proof.
  intros [Hs Hi] Hk [Hin _]. apply list_elem_of_filter in Hin as [[Hn Hr] Hin].
  rewrite Hi in Hin. apply list_elem_of_fmap in Hin as ([k o'] & -> & Hin).
  apply list_elem_of_filter in Hin as [[Hns Hl] Hin]. apply elem_of_map_to_list in Hin.
  cbn [fst snd] in *. pose proof (bd_runs _ (sa_bounded _ _ _ _ Hs) _ _ Hin) as Hko. subst k.
  split_and!; try done; [|by apply map_singleton_subseteq_l].
  intros He. apply Hn. unfold name_of, run_key in *. congruence.
Qed.

(** After the check: the run goes on only with room, and what the check wrote
    keeps the limit. *)
Lemma outcome_bounded b s run agent items rest a tr :
  run_key run = run_key b → phase run = phase b → ¬ terminal (phase b) →
  concurrency_outcome run agent b items rest a → holds w0 tr (counted b s agent items) →
  wp (match a with
      | Err e => mret (failed e)
      | Ok false => mret (requeue requeueInterval)
      | Ok true => execute rec run agent b
      end) Q (tr ++ rest).
Proof.
  intros Hk Hp Ht Ho Hc.
  assert (holds w0 tr bounded) as Hb by (intros w Hw; apply (Hc w Hw)).
  assert (∀ n x, is_running n = false → holds w0 (tr ++ [patched b n x]) bounded) as Hpatch.
  { intros n x Hn. apply (holds_snoc _ _ _ _ (counted b s agent items)); [done|].
    intros w w' [Hw _]. apply (served_patch_bounded _ _ s); try apply Hw. by rewrite Hn. }
  assert (∀ (o : option GoError) tr', holds w0 tr' bounded →
    wp (match answer_of o false with
        | Err e => mret (failed e)
        | Ok false => mret (requeue requeueInterval)
        | Ok true => execute rec run agent b
        end) Q tr') as Hstop by (by intros []).
  destruct Ho as [Hroom|_ _ _|x|now n x _ _ Hn|o now n x _ Hpol Hold Hn Hname|_ Hpol].
  - rewrite app_nil_r. apply (execute_bounded _ s); [by rewrite Hp|]. intros w Hw.
    pose proof (Hc w Hw) as Hcw. split; [apply Hcw|]. intros a Ha _.
    rewrite (counted_beside b s agent items run w) in Hroom by done.
    pose proof (sa_agent _ _ _ _ (proj1 Hcw)) as Ha'. unfold run_key in Ha. cbn [fst] in Ha.
    rewrite Ha' in Ha. by injection Ha as <-.
  - rewrite app_nil_r. exact Hb.
  - by apply Hstop, Hpatch.
  - assert (holds w0 (tr ++ [existT OpNow now]) (counted b s agent items)) as Hc'.
    { apply holds_quiet; [by repeat constructor | done]. }
    apply Hstop. rewrite cons_middle, app_assoc.
    apply (holds_snoc _ _ _ _ (counted b s agent items)); [done|].
    intros w w' [Hw _]. apply (served_patch_bounded _ _ s); try apply Hw.
    unfold is_running. by rewrite Hn.
  - rewrite cons_middle, app_assoc.
    assert (holds w0 (tr ++ [existT OpNow now]) (counted b s agent items)) as Hc'.
    { apply holds_quiet; [by repeat constructor | done]. }
    assert (holds w0 ((tr ++ [existT OpNow now]) ++ [patched o n x])
      (λ w, bounded w ∧ (∀ n', x = Ok n' → with_room b s agent w))) as Hcancel.
    { apply (holds_snoc _ _ _ _ (counted b s agent items)); [done|]. intros w w' Hw Hs.
      destruct (counted_oldest _ _ _ _ _ _ _ Hw Hk Hold) as (O1 & O2 & O3 & O4 & O5).
      destruct Hw as [[S1 S2 S3 S4 S5 S6] _].
      destruct (cancel_makes_room w (run_key b) o n x w' agent) as (Hb' & Ea & Er & Hroom); try done.
      split; [done|]. intros n' Hx. split; [|by eapply Hroom]. split; congruence. }
    destruct x as [n'|e].
    + apply (execute_bounded _ s); [by rewrite Hp|]. intros w Hw. by eapply (Hcancel w Hw).
    + apply wp_ret. intros w Hw. apply (Hcancel w Hw).
  - rewrite app_nil_r. apply (execute_bounded _ s); [by rewrite Hp|]. intros w Hw.
    pose proof (Hc w Hw) as Hcw. split; [apply Hcw|]. intros a Ha Hl.
    pose proof (sa_agent _ _ _ _ (proj1 Hcw)) as Ha'. unfold run_key in Ha. cbn [fst] in Ha.
    rewrite Ha' in Ha. by injection Ha as <-.
Qed.

Lemma reconcile_with_agent_bounded b s run agent tr :
  run_key run = run_key b → phase run = phase b → ¬ terminal (phase b) →
  holds w0 tr (stored_as b s agent) → wp (reconcile_with_agent rec run agent b) Q tr.
Proof.
  intros Hk Hp Ht Htr. unfold reconcile_with_agent. cbv zeta.
  set (run1 := run <| ar_Status ::= _ |>).
  assert (run_key run1 = run_key b ∧ phase run1 = phase b) as [Hk1 Hp1] by done.
  case_decide; [case_decide|].
  - apply (patch_bounded b s _ (stored_as b s agent)); [|done].
    intros w Hw. split_and!; try apply Hw. done.
  - apply wp_ret. intros w Hw. by apply (sa_bounded _ _ _ _ (Htr w Hw)).
  - apply wp_bind. eapply wp_mono; [|by apply checkConcurrency_wp].
    intros tr' a (x & rest & -> & Hx). rewrite cons_middle, app_assoc.
    destruct x as [items|e]; cycle 1.
    { destruct Hx as [-> ->]. apply wp_ret. rewrite app_nil_r.
      apply (holds_snoc _ _ _ _ (stored_as b s agent)); [done|].
      intros w w' Hw [-> _]. apply Hw. }
    assert (holds w0 (tr ++ [listed (om_namespace (ar_Meta run1)) (om_name (ag_Meta agent)) (Ok items)])
              (counted b s agent items)) as Hc.
    { apply (holds_snoc _ _ _ _ (stored_as b s agent)); [done|]. intros w w' Hw [-> Hi].
      split; [done|]. injection Hk as Hns _. rewrite <- Hns. by apply Hi. }
    revert Hc. generalize (tr ++ [listed (om_namespace (ar_Meta run1)) (om_name (ag_Meta agent)) (Ok items)]).
    clear tr Htr. intros tr Hc. by apply (outcome_bounded b s run1 _ items).
Qed.

End World.

(** The run after its label was set, which only happens before it runs. *)
Lemma labelled_stored w b agent z w' :
  let n := b <| ar_Meta ::= λ m, m <| om_labels ::= <[LabelAgent := om_name (ag_Meta agent)]> |> |> in
  found w b agent →
  om_labels (ar_Meta b) = ∅ ∨ lookup_str (om_labels (ar_Meta b)) LabelAgent ≠ om_name (ag_Meta agent) →
  served_update w n z w' → bounded w' ∧ (∀ n', z = Ok n' → stored_as b n agent w').
Proof.
  intros n (Hw & Hb & Ha & Hn & Hne) Hlab [[-> [e ->]]|(r & Hr & -> & _)]; [done|].
  change (run_key n) with (run_key b) in *. rewrite Hb in Hr. injection Hr as <-.
  replace (n <| ar_Status := ar_Status b |>) with n by (by destruct b).
  assert (label_of n = Some (ars_AgentRef (ar_Spec n))) as Hl.
  { unfold label_of, n. cbn. by rewrite lookup_insert_eq, Hn. }
  assert (bounded (w <| w_runs ::= <[run_key b := n]> |>)) as Hw'.
  { apply store_bounded; [done..|]. intros Hrun. exfalso.
    pose proof (bd_label _ Hw _ _ Hb Hrun) as Hlb. unfold label_of in Hlb. destruct Hlab as [He|He].
    - by rewrite He in Hlb.
    - apply He. unfold lookup_str. by rewrite Hlb, Hn. }
  split; [done|]. intros n' _. split; try done; [apply lookup_insert_eq|]. by rewrite Hn.
Qed.

(** One reconcile keeps the limit. *)
Lemma Reconcile_bounded `{ConditionOps} `{OwnerOps} `{FloatOps} rec ns name w0 :
  bounded w0 → wp update_echoes (Reconcile rec ns name) (λ tr _, holds w0 tr bounded) [].
Proof.
  intros Hw0. assert (holds w0 [] bounded) as Hnil by by intros w ->.
  unfold Reconcile. apply wp_call. intros [b|e] _.
  - assert (holds w0 [got ns name (Ok b)] (λ w, bounded w ∧ w_runs w !! (ns, name) = Some b)) as Hb.
    { apply (holds_snoc _ [] _ _ bounded); [done|]. intros w w' Hw [-> Hr]. split; [done|].
      by apply Hr. }
    destruct (is_terminal b) eqn:Ht.
    { apply wp_ret. intros w Hw. apply (Hb w Hw). }
    apply not_terminal in Ht. cbv zeta. apply wp_call. intros [agent|e] _.
    + match goal with |- wp _ _ _ ?t => assert (holds w0 t (λ w, found w b agent)) as Ha end.
      { apply (holds_snoc _ _ _ _ (λ w, bounded w ∧ w_runs w !! (ns, name) = Some b)); [done|].
        intros w w' [Hw Hr] [-> Ha]. specialize (Ha agent eq_refl). unfold found.
        pose proof (bd_runs _ Hw _ _ Hr) as Hk. pose proof (bd_agents _ Hw _ _ Ha) as [Hka Hne].
        injection Hka as _ Hn. by rewrite Hk, Hn. }
      case_decide as Hlab.
      * apply wp_call. intros z Hz.
        match goal with |- wp _ _ _ (_ ++ [existT (OpUpdate _ ?m) _]) => set (n := m) in * end.
        match goal with |- wp _ _ _ ?t => assert (holds w0 t
          (λ w, bounded w ∧ (∀ n', z = Ok n' → stored_as b n agent w))) as Hn end.
        { apply (holds_snoc _ _ _ _ (λ w, found w b agent)); [done|]. intros w w' Hw Hs.
          by apply (labelled_stored w b agent z). }
        destruct z as [run'|e]; [|apply wp_ret; intros w Hw; apply (Hn w Hw)].
        rewrite (Hz run' eq_refl) in *. apply (reconcile_with_agent_bounded _ _ _ _ n); try done.
        intros w Hw. by eapply (Hn w Hw).
      * apply (reconcile_with_agent_bounded _ _ _ _ b); try done. intros w Hw.
        destruct (Ha w Hw) as (Hbd & Hrun & Hag & Hn & Hne). split; try done.
        -- by rewrite Hn.
        -- unfold label_of. apply Decidable.not_or in Hlab as [_ Hlab]. apply dec_stable in Hlab.
           unfold lookup_str in Hlab. rewrite Hn in *.
           destruct (om_labels (ar_Meta b) !! LabelAgent); cbn in Hlab; congruence.
    + apply wp_call. intros now _.
      apply (patch_bounded _ _ b b _ (λ w, bounded w ∧ w_runs w !! run_key b = Some b)).
      * intros w [Hw Hr]. by split_and!.
      * apply (holds_quiet _ _ [existT OpNow now]); [by repeat constructor|].
        apply (holds_quiet _ _ [existT (OpGet KAgent _ _) (Err e)]); [by repeat constructor|].
        intros w Hw. destruct (Hb w Hw) as [Hw' Hr]. by rewrite (bd_runs _ Hw' _ _ Hr).
  - apply wp_ret. apply (holds_quiet _ []); [by repeat constructor | done].
Qed.

Lemma others_bounded w w' : bounded w → others_act w w' → bounded w'.
Proof.
  intros Hw [O1 O2 O3]. split; [done|intros k a Ha; by destruct (O3 k a Ha) as (? & ? & _)|..].
  - intros k r Hr Hrun. destruct (O2 k r Hr Hrun) as (r0 & Hr0 & Hrun0 & -> & ->).
    by apply (bd_label _ Hw k).
  - intros k a Ha Hl.
    assert (running_of w' k.1 k.2 ≤ running_of w k.1 k.2)%nat as Hle.
    { apply count_mono. intros k' r Hr (Hns & Hrun & Hlab). cbn [fst snd] in *.
      destruct (O2 k' r Hr Hrun) as (r0 & Hr0 & Hrun0 & Hl0 & _). exists r0. split; [done|].
      split_and!; [done..|]. cbn [snd]. by rewrite <- Hl0. }
    destruct (O3 k a Ha) as (_ & _ & Hlim).
    destruct (Hlim Hl) as [(a0 & Ha0 & Hl0 & Hmax)|Hmax]; [|lia].
    pose proof (bd_limit _ Hw k a0 Ha0 Hl0). lia.
Qed.

(** [C1] The concurrency limit is an invariant of the cluster: starting where
    no agent is over its limit, after any sequence of reconciles of any
    requests (calls failing anywhere, with or without effect) and of actions
    of other parties that start no run, an agent whose policy is queue, reject
    or replace never has more than [maxRuns] runs running. *)
Theorem running_bounded `{ConditionOps} `{OwnerOps} `{FloatOps} rec w0 w k agent :
  bounded w0 → reachable rec w0 w → w_agents w !! k = Some agent → limited agent →
  (Z.of_nat (running_of w k.1 k.2) ≤ maxRuns agent)%Z.
Proof.
  intros Hw0 Hr. assert (bounded w) as Hw.
  { induction Hr as [|w w' _ IH (ns & name & tr & out & He & Hx)|w w' _ IH Ho]; [done| |].
    - apply (wp_exec _ _ _ [] _ _ He (Reconcile_bounded rec ns name w IH)), Hx.
    - by apply (others_bounded w). }
  apply (bd_limit _ Hw).
Qed.

(** ** A server that serves so *)

Definition missing : GoError := mkErr "not found" true false.
Definition conflict : GoError := mkErr "conflict" false false.

Definition server_update (w : World) (n : AgentRun) : res AgentRun * World :=
  match w_runs w !! run_key n with
  | Some r => if decide (ar_Status r = ar_Status n)
              then (Ok n, w <| w_runs ::= <[run_key n := n]> |>) else (Err conflict, w)
  | None => (Err missing, w)
  end.

Definition server_patch (w : World) (b n : AgentRun) : res AgentRun * World :=
  match w_runs w !! run_key b with
  | Some r =>
      let p := if decide (phase n = phase b) then phase r else phase n in
      let r' := r <| ar_Status := (ar_Status n) <| arst_Phase := p |> |> in
      (Ok r', w <| w_runs ::= <[run_key b := r']> |>)
  | None => (Err missing, w)
  end.

Definition server_list (w : World) (ns : string) (sel : gmap string string) : list AgentRun :=
  snd <$> filter (λ kr, kr.1.1 = ns ∧ sel ⊆ om_labels (ar_Meta kr.2)) (map_to_list (w_runs w)).

Definition found_or {A} (x : option A) : res A := match x with Some a => Ok a | None => Err missing end.

(** Runs and agents are served from the state; there are no other objects,
    agents accept every prompt, and it is always noon. *)
Definition server (o : Op) (w : World) : ans o * World :=
  match o return ans o * World with
  | OpGet k ns n =>
      (match k return res (obj k) with
       | KAgentRun => found_or (w_runs w !! (ns, n))
       | KAgent => found_or (w_agents w !! (ns, n))
       | _ => Err missing
       end, w)
  | OpList k ns sel =>
      (match k return res (list (obj k)) with
       | KAgentRun => Ok (server_list w ns sel)
       | _ => Ok []
       end, w)
  | OpUpdate k n =>
      match k return obj k → res (obj k) * World with
      | KAgentRun => server_update w
      | _ => λ _, (Err conflict, w)
      end n
  | OpPatchStatus k b n =>
      match k return obj k → obj k → res (obj k) * World with
      | KAgentRun => server_patch w
      | _ => λ _ _, (Err conflict, w)
      end b n
  | OpCreate _ _ | OpApply _ | OpCreateOrUpdate _ _ _ _ => (Ok tt, w)
  | OpNow => (43200%Z, w)
  | OpHttp _ => (Ok (mkHttpResp 202 "{}"), w)
  end.

Lemma server_echoes o w : update_echoes o (fst (server o w)).
Proof.
  destruct o as [| | |k n| | | | |]; try done. cbn. intros n'.
  destruct k; try done. unfold server_update. destruct (w_runs w !! _); [|done].
  case_decide; [|done]. by intros [= <-].
Qed.

Lemma server_serves o w : served w o (fst (server o w)) (snd (server o w)).
Proof.
  destruct o as [k ns n|k ns sel|k n|k n|k b n| | | |]; try destruct k; cbn; try done.
  - split; [done|]. intros r. by destruct (w_agents w !! _); cbn; [intros [= <-]|].
  - split; [done|]. intros r. by destruct (w_runs w !! _); cbn; [intros [= <-]|].
  - split; [done|]. by intros items [= <-].
  - unfold server_update, served_update. destruct (w_runs w !! run_key n) as [r|] eqn:E; [|left; eauto].
    case_decide as Hs; [|left; eauto]. right. exists r. split; [done|]. rewrite Hs.
    replace (n <| ar_Status := ar_Status n |>) with n by (by destruct n).
    split; [done|]. by intros o [= <-].
  - unfold server_patch, served_patch. destruct (w_runs w !! run_key b) as [r|] eqn:E; [|left; eauto].
    right. eexists r, _. split; [done|]. split; [|done]. by split_and!.
Qed.

Lemma run_history {A} (p : prog A) w pre :
  ∃ a w' tr, run server p w pre = (a, w', pre ++ tr) ∧ exec update_echoes p tr a ∧ explains w tr w'.
Proof.
  revert w pre. induction p as [a|o k IH]; intros w pre.
  - exists a, w, []. rewrite app_nil_r. split; [done|]. split; [constructor | done].
  - cbn. pose proof (server_echoes o w) as He. pose proof (server_serves o w) as Hs.
    destruct (server o w) as [x m]. cbn in *.
    destruct (IH x m (pre ++ [existT o x])) as (a & w' & tr & -> & Hx & Hw).
    exists a, w', (existT o x :: tr). rewrite <- app_assoc. split; [done|].
    split; [by constructor | by exists m].
Qed.

Lemma run_reconciled `{ConditionOps} `{OwnerOps} `{FloatOps} rec ns name w :
  reconciled rec w (snd (fst (run server (Reconcile rec ns name) w []))).
Proof.
  destruct (run_history (Reconcile rec ns name) w []) as (a & w' & tr & -> & He & Hx).
  by exists ns, name, tr, a.
Qed.

(** Two runs of one daemon agent with the default limit: the first reconcile
    starts the first run, the second queues the other. *)
Definition one_agent : Agent :=
  zeroAgent <| ag_Meta := newMeta "a" "ns" ∅ |>
            <| ag_Spec ::= λ s, s <| as_Mode := AgentModeDaemon |> |>
            <| ag_Status ::= λ s, s <| ast_Phase := AgentPhaseRunning |> |>.
Definition a_run (name : string) : AgentRun :=
  zeroAgentRun <| ar_Meta := newMeta name "ns" ∅ |>
               <| ar_Spec := mkAgentRunSpec "a" "do it" "" "" None None |>.
Definition two_runs : World :=
  mkWorld {[ ("ns", "r1") := a_run "r1"; ("ns", "r2") := a_run "r2" ]} {[ ("ns", "a") := one_agent ]}.
Definition bare_reconciler : AgentRunReconciler := mkAgentRunReconciler None (mkInfra "" "").
Definition after (name : string) (w : World) : World :=
  snd (fst (run server (@Reconcile KubeTypes.set_condition_ops any_owner half_floats
                          bare_reconciler "ns" name) w [])).

Lemma two_runs_bounded : bounded two_runs.
Proof.
  split.
  - intros k r. unfold two_runs. cbn [w_runs].
    intros [[<- <-]|[_ [<- <-]%lookup_singleton_Some]]%lookup_insert_Some; done.
  - intros k a. unfold two_runs. cbn [w_agents]. by intros [<- <-]%lookup_singleton_Some.
  - intros k r. unfold two_runs. cbn [w_runs].
    intros [[<- <-]|[_ [<- <-]%lookup_singleton_Some]]%lookup_insert_Some; done.
  - intros k a. unfold two_runs at 1. cbn [w_agents]. intros [<- <-]%lookup_singleton_Some _.
    vm_compute. discriminate.
Qed.

Lemma running_bounded_witness :
  let w := after "r2" (after "r1" two_runs) in
  ((λ r, phase r) <$> (w_runs w !! ("ns", "r1")) = Some AgentRunPhaseRunning) ∧
  ((λ r, phase r) <$> (w_runs w !! ("ns", "r2")) = Some AgentRunPhaseQueued) ∧
  (Z.of_nat (running_of w "ns" "a") ≤ maxRuns one_agent)%Z.
Proof.
  intros w. split; [vm_compute; reflexivity|]. split; [vm_compute; reflexivity|].
  apply (@running_bounded KubeTypes.set_condition_ops any_owner half_floats bare_reconciler
           two_runs w ("ns", "a") one_agent two_runs_bounded).
  - apply (reach_reconcile _ _ (after "r1" two_runs)); [|apply run_reconciled].
    apply (reach_reconcile _ _ two_runs); [apply reach_start | apply run_reconciled].
  - vm_compute. reflexivity.
  - unfold limited. vm_compute. left.
Defined.
