(* ===== verification/AgentCtrl.v ===== *)
(** * The Agent controller (internal/controller/agent_controller.go)

    [Reconcile] and everything it calls, as programs over the calls of
    Effects.v.  A function that mutates the agent in place returns the new
    agent; [BuildAgentDeployment] writes into the resource maps of the agent's
    own spec, which [agent_after_build] accounts for.  Log lines and
    [SetupWithManager] are left out. *)

From S2P Require Import Prelude GoLib KubeTypes ApiTypes Json JsonEncode JsonCodec Effects.
From S2P Require Import ResourceCommon Security AgentGit ConfigTypes ConfigMap Builders AgentPod CtrlCommon.

Open Scope string_scope.
Open Scope list_scope.

Section Controller.
Context `{ConditionOps} `{OwnerOps} `{FloatOps}.
(** What [resource.MustParse] accepts. *)
Variable valid_quantity : string → bool.
Variable infra : InfraConfig.

Definition set_cond (c : Condition) (agent : Agent) : Agent :=
  agent <| ag_Status ::= λ s, s <| ast_Conditions ::= λ cs, SetStatusCondition cs c |> |>.

Definition setAgentFailedStatus (agent : Agent) (phase : AgentPhase) (message : string) : Agent :=
  set_cond (mkCondition AgentConditionReady ConditionFalse phase message)
    (agent <| ag_Status ::= λ s, s <| ast_Phase := phase |> |>).

Definition owned (agent : Agent) (k : Kind) (desired : obj k) : prog (option GoError) :=
  reconcileOwnedResource (ag_Meta agent) k desired.

Definition reconcileAgentRBAC (agent : Agent) : prog (option GoError) :=
  e ← owned agent KServiceAccount (BuildAgentServiceAccount agent);
  match e with Some e => mret (Some e) | None =>
    e ← owned agent KRole (BuildAgentRole agent);
    match e with Some e => mret (Some e) | None =>
      owned agent KRoleBinding (BuildAgentRoleBinding agent)
    end
  end.

(** The loop of [resolveIntegrations] and [resolveProviders]. *)
Fixpoint get_all (k : Kind) (what ns : string) (names : list string) : prog (res (list (obj k))) :=
  match names with
  | [] => mret (Ok [])
  | name :: names' =>
      x ← call (OpGet k ns name);
      match x with
      | Err e => mret (Err (wrapf (what +:+ " " +:+ GoFmt.q name +:+ " not found") e))
      | Ok o => rest ←? get_all k what ns names'; mret (Ok (o :: rest))
      end
  end.

Definition resolveIntegrations (agent : Agent) : prog (res (list Integration)) :=
  get_all KIntegration "integration" (om_namespace (ag_Meta agent))
    (ib_Name <$> as_Integrations (ag_Spec agent)).
Definition resolveProviders (agent : Agent) : prog (res (list Provider)) :=
  get_all KProvider "provider" (om_namespace (ag_Meta agent))
    (pb_Name <$> as_ProviderRefs (ag_Spec agent)).

(** The loop of [validateIntegrationsReady] and [validateProvidersReady]. *)
Fixpoint first_not_ready {A} (what ready : string) (name phase : A → string) (l : list A)
  : option GoError :=
  match l with
  | [] => None
  | x :: l' =>
      if decide (phase x ≠ ready)
      then Some (errorf (what +:+ " " +:+ GoFmt.q (name x) +:+ " is not Ready (phase: "
                          +:+ phase x +:+ ")"))
      else first_not_ready what ready name phase l'
  end.

Definition validateIntegrationsReady : list Integration → option GoError :=
  first_not_ready "integration" IntegrationPhaseReady (λ i, om_name (ig_Meta i))
    (λ i, ist_Phase (ig_Status i)).
Definition validateProvidersReady : list Provider → option GoError :=
  first_not_ready "provider" ProviderPhaseReady (λ p, om_name (prov_Meta p))
    (λ p, prst_Phase (prov_Status p)).

(** ** Daemon mode *)

(** The PVC of an agent with storage; [resource.MustParse] panics on a size it
    does not accept. *)
Definition daemon_pvc (agent : Agent) : prog (res Agent) :=
  match as_Storage (ag_Spec agent) with
  | None => mret (Ok agent)
  | Some storage =>
      match BuildAgentPVC valid_quantity agent storage with
      | None => mret (Err (panic "cannot parse quantity"))
      | Some pvc =>
          _ ←? no_error (owned agent KPVC pvc);
          mret (Ok (agent <| ag_Status ::= λ s, s <| ast_StoragePVC := om_name (pvc_meta pvc) |> |>))
      end
  end.

Definition netpol_enabled (agent : Agent) : bool :=
  match as_NetworkPolicy (ag_Spec agent) with Some np => nps_Enabled np | None => false end.

Definition daemon_netpol (agent : Agent) : prog (res unit) :=
  if netpol_enabled agent then no_error (owned agent KNetworkPolicy (BuildAgentNetworkPolicy agent))
  else mret (Ok tt).

(** The status after the rollout, from the Deployment as it is. *)
Definition daemon_status (agent : Agent) : prog (Agent * Result) :=
  x ← call (OpGet KDeployment (om_namespace (ag_Meta agent)) (om_name (ag_Meta agent)));
  let agent := match x with
               | Ok d => agent <| ag_Status ::= λ s, s <| ast_ReadyReplicas := dp_readyReplicas d |> |>
               | Err _ => agent
               end in
  let agent := agent <| ag_Status ::= λ s, s
    <| ast_ServiceURL := AgentServiceURL agent |>
    <| ast_ActiveModel := as_Model (ag_Spec agent) |> |> in
  mret (if decide (0 < ast_ReadyReplicas (ag_Status agent))%Z then
          (set_cond (mkCondition AgentConditionReady ConditionTrue "Running" "")
             (agent <| ag_Status ::= λ s, s <| ast_Phase := AgentPhaseRunning |> |>), noResult)
        else
          (set_cond (mkCondition AgentConditionReady ConditionFalse "Pending"
                       "Waiting for deployment to be ready")
             (agent <| ag_Status ::= λ s, s <| ast_Phase := AgentPhasePending |> |>),
           mkResult requeueInterval)).

Definition reconcileDaemon (agent : Agent) (integrations : list Integration)
  (providers : list Provider) : prog (res (Agent * Result)) :=
  agent ←? daemon_pvc agent;
  configMap ←? mret (BuildAgentConfigMap agent integrations providers);
  _ ←? no_error (owned agent KConfigMap configMap);
  let deployment := BuildAgentDeployment agent providers integrations infra in
  let agent := agent_after_build agent in
  _ ←? no_error (owned agent KDeployment deployment);
  _ ←? no_error (owned agent KService (BuildAgentService agent));
  _ ←? daemon_netpol agent;
  r ← daemon_status agent; mret (Ok r).

(** ** Task mode *)

Definition reconcileTask (agent : Agent) (integrations : list Integration)
  (providers : list Provider) : prog (res (Agent * Result)) :=
  configMap ←? mret (BuildAgentConfigMap agent integrations providers);
  _ ←? no_error (owned agent KConfigMap configMap);
  let agent := agent <| ag_Status ::= λ s, s
    <| ast_Phase := AgentPhaseReady |> <| ast_ActiveModel := as_Model (ag_Spec agent) |> |> in
  let toolCount := (BuiltinToolCount agent + Z.of_nat (length (as_Tools (ag_Spec agent))))%Z in
  mret (Ok (set_cond (mkCondition AgentConditionReady ConditionTrue "Ready"
                        (GoFmt.d toolCount +:+ " tool packages configured")) agent, noResult)).

(** ** Reconcile *)

(** The dependencies are in place: branch by mode, then patch the status. *)
Definition reconcile_mode (agent : Agent) (integrations : list Integration)
  (providers : list Provider) (statusPatch : Agent) : prog Outcome :=
  x ← (if decide (as_Mode (ag_Spec agent) = AgentModeDaemon)
       then reconcileDaemon agent integrations providers
       else if decide (as_Mode (ag_Spec agent) = AgentModeTask)
       then reconcileTask agent integrations providers
       else mret (Err (errorf ("unknown agent mode: " +:+ as_Mode (ag_Spec agent)))));
  match x with
  | Err e => mret (failed e)
  | Ok (agent, result) =>
      or_fail (patchStatus (k := KAgent) agent statusPatch) (mret (result, None))
  end.

(** From the resolution of the providers on. *)
Definition reconcile_providers (agent : Agent) (integrations : list Integration)
  (statusPatch : Agent) : prog Outcome :=
  let not_ready reason (e : GoError) :=
    let agent := set_cond (mkCondition AgentConditionProvidersReady ConditionFalse reason (err_msg e))
                   agent in
    or_fail (patchStatus (k := KAgent) agent statusPatch) (mret (requeue requeueInterval)) in
  x ← resolveProviders agent;
  match x with
  | Err e => not_ready "ProviderNotFound" e
  | Ok providers =>
      match validateProvidersReady providers with
      | Some e => not_ready "ProviderNotReady" e
      | None =>
          let agent := set_cond (mkCondition AgentConditionProvidersReady ConditionTrue "Configured"
            (GoFmt.d (Z.of_nat (length providers)) +:+ " providers registered")) agent in
          let agent := agent <| ag_Status ::= λ s, s <| ast_Conditions ::= λ cs,
            setSecurityPolicyViolationsCondition cs
              (ComputeSecurityViolations (as_Security (ag_Spec agent))) |> |> in
          reconcile_mode agent integrations providers statusPatch
      end
  end.

(** From the resolution of the integrations on. *)
Definition reconcile_integrations (agent statusPatch : Agent) : prog Outcome :=
  x ← resolveIntegrations agent;
  match x with
  | Err e =>
      let agent := set_cond (mkCondition AgentConditionResourcesReady ConditionFalse
                               "IntegrationNotFound" (err_msg e)) agent in
      let agent := setAgentFailedStatus agent AgentPhaseFailed (err_msg e) in
      or_fail (patchStatus (k := KAgent) agent statusPatch) (mret (requeue requeueInterval))
  | Ok integrations =>
      match validateIntegrationsReady integrations with
      | Some e =>
          let agent := set_cond (mkCondition AgentConditionResourcesReady ConditionFalse
                                   "ResourceNotReady" (err_msg e)) agent in
          or_fail (patchStatus (k := KAgent) agent statusPatch) (mret (requeue requeueInterval))
      | None =>
          let agent := if decide (as_Integrations (ag_Spec agent) ≠ [])
            then set_cond (mkCondition AgentConditionResourcesReady ConditionTrue "AllReady"
                   (GoFmt.d (Z.of_nat (length integrations)) +:+ " resources bound")) agent
            else agent in
          reconcile_providers agent integrations statusPatch
      end
  end.

Definition Reconcile (ns name : string) : prog Outcome :=
  x ← call (OpGet KAgent ns name);
  match x with
  | Err e => mret (if err_notFound e then done_ else failed e)
  | Ok agent =>
      let statusPatch := agent in
      if decide (as_ServiceAccountName (ag_Spec agent) = "") then
        e ← reconcileAgentRBAC agent;
        match e with
        | Some e =>
            let agent := setAgentFailedStatus agent AgentPhaseFailed (err_msg e) in
            or_fail (patchStatus (k := KAgent) agent statusPatch) (mret (failed e))
        | None => reconcile_integrations agent statusPatch
        end
      else reconcile_integrations agent statusPatch
  end.

End Controller.
