(* ===== verification/AgentProps.v ===== *)
(** * Properties of the Agent controller

    What a reconcile of an Agent applies, in which order, under which
    conditions, and which phase it records. *)

From S2P Require Import Prelude GoLib KubeTypes ApiTypes Json JsonEncode JsonCodec Effects.
From S2P Require Import ResourceCommon Security AgentGit ConfigTypes ConfigMap Builders AgentPod CtrlCommon Applying AgentCtrl.

Open Scope string_scope.
Open Scope list_scope.

(** ** Specification *)

(** Agents that differ in their status alone; what is built from them is the
    same. *)
Definition same_agent (a b : Agent) : Prop := ag_Meta b = ag_Meta a ∧ ag_Spec b = ag_Spec a.

Section Spec.
Context `{OwnerOps} `{FloatOps}.
Variable valid_quantity : string → bool.
Variable infra : InfraConfig.

Definition agent_op (a : Agent) (k : Kind) (d : obj k) : Op := apply_op (ag_Meta a) k d.

(** The identity of the agent's pods, unless it brings its own. *)
Definition rbac_ops (a : Agent) : list Op :=
  if decide (as_ServiceAccountName (ag_Spec a) = "") then
    [ agent_op a KServiceAccount (BuildAgentServiceAccount a); agent_op a KRole (BuildAgentRole a);
      agent_op a KRoleBinding (BuildAgentRoleBinding a) ]
  else [].

Definition config_ops (a : Agent) (igs : list Integration) (provs : list Provider) : list Op :=
  match BuildAgentConfigMap a igs provs with Ok cm => [agent_op a KConfigMap cm] | Err _ => [] end.
Definition pvc_ops (a : Agent) : list Op :=
  match as_Storage (ag_Spec a) with
  | Some storage =>
      match BuildAgentPVC valid_quantity a storage with
      | Some pvc => [agent_op a KPVC pvc]
      | None => []
      end
  | None => []
  end.
Definition netpol_ops (a : Agent) : list Op :=
  if netpol_enabled a then [agent_op a KNetworkPolicy (BuildAgentNetworkPolicy a)] else [].

(** What is applied for an agent, in order. *)
Definition mode_ops (a : Agent) (igs : list Integration) (provs : list Provider) : list Op :=
  if decide (as_Mode (ag_Spec a) = AgentModeDaemon) then
    pvc_ops a ++ config_ops a igs provs ++
    [ agent_op a KDeployment (BuildAgentDeployment a provs igs infra);
      agent_op a KService (BuildAgentService a) ] ++ netpol_ops a
  else if decide (as_Mode (ag_Spec a) = AgentModeTask) then config_ops a igs provs
  else [].
Definition rollout (a : Agent) (igs : list Integration) (provs : list Provider) : list Op :=
  rbac_ops a ++ mode_ops a igs provs.

(** The dependencies were read in the reconcile, and are ready. *)
Definition integration_ready (tr : Trace) (a : Agent) (b : IntegrationBinding) (i : Integration) : Prop :=
  existT (OpGet KIntegration (om_namespace (ag_Meta a)) (ib_Name b)) (Ok i) ∈ tr ∧
  ist_Phase (ig_Status i) = IntegrationPhaseReady.
Definition provider_ready (tr : Trace) (a : Agent) (b : ProviderBinding) (p : Provider) : Prop :=
  existT (OpGet KProvider (om_namespace (ag_Meta a)) (pb_Name b)) (Ok p) ∈ tr ∧
  prst_Phase (prov_Status p) = ProviderPhaseReady.
Record ready_deps (tr : Trace) (a : Agent) (igs : list Integration) (provs : list Provider) : Prop := {
  rd_integrations : Forall2 (integration_ready tr a) (as_Integrations (ag_Spec a)) igs;
  rd_providers : Forall2 (provider_ready tr a) (as_ProviderRefs (ag_Spec a)) provs;
}.

(** The phase an agent has after a complete rollout: a task agent is Ready; a
    daemon agent runs if its Deployment has ready replicas (the last known
    number, when the Deployment cannot be read). *)
Definition reached (a n : Agent) (tr : Trace) : Prop :=
  (as_Mode (ag_Spec a) = AgentModeTask ∧ ast_Phase (ag_Status n) = AgentPhaseReady) ∨
  (as_Mode (ag_Spec a) = AgentModeDaemon ∧
   ∃ x, existT (OpGet KDeployment (om_namespace (ag_Meta a)) (om_name (ag_Meta a))) x ∈ tr ∧
     let replicas := match x with Ok d => dp_readyReplicas d | Err _ => ast_ReadyReplicas (ag_Status a) end in
     ast_ReadyReplicas (ag_Status n) = replicas ∧
     ast_Phase (ag_Status n) = if decide (0 < replicas)%Z then AgentPhaseRunning else AgentPhasePending).

Lemma same_refl a : same_agent a a.
Proof. done. Qed.

Lemma config_same a b igs provs :
  same_agent a b → BuildAgentConfigMap b igs provs = BuildAgentConfigMap a igs provs.
Proof. destruct a, b. intros [Em Es]. cbn in Em, Es. subst. reflexivity. Qed.

Lemma deployment_same a b igs provs :
  same_agent a b → BuildAgentDeployment b provs igs infra = BuildAgentDeployment a provs igs infra.
Proof. destruct a, b. intros [Em Es]. cbn in Em, Es. subst. reflexivity. Qed.

Lemma rollout_same a b igs provs : same_agent a b → mode_ops b igs provs = mode_ops a igs provs.
Proof.
  intros Hs. unfold mode_ops, config_ops, pvc_ops, netpol_ops, agent_op.
  rewrite (config_same a b igs provs Hs), (deployment_same a b igs provs Hs).
  destruct a, b, Hs as [Em Es]. cbn in Em, Es. subst. reflexivity.
Qed.
End Spec.

Section Proofs.
Context `{ConditionOps} `{OwnerOps} `{FloatOps}.
Variable valid_quantity : string → bool.
Variable infra : InfraConfig.

Local Abbreviation wp := (wp any_answer).

(** After a mode's handler: it applied a part of the rollout, in order, and
    all of it when it succeeded. *)
Definition rolled (a : Agent) (igs : list Integration) (provs : list Provider) (w : list Op)
  (tr0 tr : Trace) (r : res (Agent * Result)) : Prop :=
  seen tr0 tr ∧ applies tr `prefix_of` w ++ mode_ops valid_quantity infra a igs provs ∧
  match r with
  | Err _ => True
  | Ok (n, out) =>
      applied tr0 (w ++ mode_ops valid_quantity infra a igs provs) tr ∧ reached a n tr ∧
      (ast_Phase (ag_Status n) = AgentPhasePending → (0 < requeueAfter out)%Z)
  end.

Lemma daemon_status_wp a b (Q : Trace → Agent * Result → Prop) tr0 w tr :
  ag_Meta b = ag_Meta a → as_Mode (ag_Spec a) = AgentModeDaemon →
  ast_ReadyReplicas (ag_Status b) = ast_ReadyReplicas (ag_Status a) → applied tr0 w tr →
  (∀ tr' n out, applied tr0 w tr' → reached a n tr' →
     (ast_Phase (ag_Status n) = AgentPhasePending → (0 < requeueAfter out)%Z) → Q tr' (n, out)) →
  wp (daemon_status b) Q tr.
Proof.
  intros Hm Hd Hr Htr HQ. apply wp_call. intros x _. cbv zeta. apply wp_ret.
  match goal with |- context [if decide ?P then _ else _] => destruct (decide P) as [Hpos|Hpos] end.
  all: apply HQ; [by apply applied_other| |done].
  all: right; split; [done|]; exists x; rewrite <- Hm; split; [apply elem_of_app; right; left|].
  all: destruct x; cbn in *; rewrite <- ?Hr; (split; [done|]).
  all: first [by rewrite decide_True | by rewrite decide_False].
Qed.

Lemma daemon_pvc_wp b (Q : Trace → res Agent → Prop) tr0 w tr :
  applied tr0 w tr →
  (∀ tr' b', applied tr0 (w ++ pvc_ops valid_quantity b) tr' → same_agent b b' →
     ast_ReadyReplicas (ag_Status b') = ast_ReadyReplicas (ag_Status b) → Q tr' (Ok b')) →
  (∀ tr' e, seen tr0 tr' → applies tr' `prefix_of` w ++ pvc_ops valid_quantity b → Q tr' (Err e)) →
  wp (daemon_pvc valid_quantity b) Q tr.
Proof.
  intros Htr Hok Herr. unfold daemon_pvc, pvc_ops in *.
  destruct (as_Storage (ag_Spec b)) as [st|];
    [|rewrite app_nil_r in Hok; by apply Hok].
  destruct (BuildAgentPVC valid_quantity b st) as [pvc|].
  - eapply wp_try_owned; [done|exact Htr|reflexivity| |exact Herr].
    intros tr' Htr'. apply wp_ret, Hok; [exact Htr'|done..].
  - apply wp_ret, Herr; [apply Htr|]. by rewrite app_nil_r, (ad_applies _ _ _ Htr).
Qed.

Lemma daemon_netpol_wp a b (Q : Trace → res unit → Prop) tr0 w tr :
  applied tr0 w tr → ag_Meta b = ag_Meta a → netpol_enabled b = netpol_enabled a →
  (∀ tr', applied tr0 (w ++ netpol_ops a) tr' → Q tr' (Ok tt)) →
  (∀ tr' e, seen tr0 tr' → applies tr' `prefix_of` w ++ netpol_ops a → Q tr' (Err e)) →
  wp (daemon_netpol b) Q tr.
Proof.
  intros Htr Em En Hok Herr. unfold daemon_netpol, netpol_ops, owned, BuildAgentNetworkPolicy in *.
  rewrite En, Em. destruct (netpol_enabled a).
  - unfold no_error. apply wp_bind. eapply wp_owned; [done|exact Htr|..].
    + intros tr' Htr'. by apply wp_ret, Hok.
    + intros tr' e Hseen Hp. by apply wp_ret, Herr.
  - rewrite app_nil_r in Hok. by apply wp_ret, Hok.
Qed.

Lemma reconcileDaemon_wp a b igs provs w tr0 tr :
  same_agent a b → as_Mode (ag_Spec a) = AgentModeDaemon →
  ast_ReadyReplicas (ag_Status b) = ast_ReadyReplicas (ag_Status a) → applied tr0 w tr →
  wp (reconcileDaemon valid_quantity infra b igs provs) (rolled a igs provs w tr0) tr.
Proof.
  intros Hs Hd Hr Htr.
  assert (mode_ops valid_quantity infra a igs provs = pvc_ops valid_quantity b ++ config_ops b igs provs ++
    [ agent_op b KDeployment (BuildAgentDeployment b provs igs infra);
      agent_op b KService (BuildAgentService b) ] ++ netpol_ops b) as Em.
  { rewrite <- (rollout_same valid_quantity infra a b) by done. unfold mode_ops.
    by rewrite decide_True by (by rewrite (proj2 Hs)). }
  assert (∀ tr' e, seen tr0 tr' → applies tr' `prefix_of` w ++ mode_ops valid_quantity infra a igs provs →
    rolled a igs provs w tr0 tr' (Err e)) as Herr by done.
  apply wp_try, (daemon_pvc_wp _ _ tr0 w); [done| |].
  2: { intros tr' e Hseen Hp. apply Herr; [done|]. etrans; [exact Hp|]. rewrite Em, (assoc_L (++)).
       by apply prefix_app_r. }
  intros tr1 b1 Htr1 Hs1 Hr1. apply wp_try. unfold config_ops in Em.
  rewrite (config_same b b1 igs provs Hs1). destruct (BuildAgentConfigMap b igs provs) as [cm|e];
    apply wp_ret; [|apply Herr; [apply Htr1|]; rewrite (ad_applies _ _ _ Htr1), Em, (assoc_L (++));
                    by apply prefix_app_r].
  rewrite (deployment_same infra b b1 igs provs Hs1).
  assert (ag_Meta (agent_after_build b1) = ag_Meta b) as Em1 by exact (proj1 Hs1).
  assert (BuildAgentService (agent_after_build b1) = BuildAgentService b) as Es
    by (unfold BuildAgentService; by rewrite Em1).
  unfold owned, agent_op in *. cbv zeta. rewrite Es, Em1, (proj1 Hs1).
  eapply wp_try_owned; [done|exact Htr1| |intros tr2 Htr2|exact Herr].
  { rewrite Em. eexists. by rewrite <- !app_assoc. }
  eapply wp_try_owned; [done|exact Htr2| |intros tr3 Htr3|exact Herr].
  { rewrite Em. eexists. rewrite <- !app_assoc. reflexivity. }
  eapply wp_try_owned; [done|exact Htr3| |intros tr4 Htr4|exact Herr].
  { rewrite Em. eexists. rewrite <- !app_assoc. reflexivity. }
  apply wp_try, (daemon_netpol_wp b (agent_after_build b1) _ tr0 _ _ Htr4).
  - exact Em1.
  - unfold netpol_enabled. cbn. by rewrite (proj2 Hs1).
  - intros tr5 Htr5. apply wp_bind.
    eapply (daemon_status_wp a); [|done| |exact Htr5|].
    + rewrite Em1. apply Hs.
    + cbn. by rewrite Hr1.
    + intros tr6 n out Htr6 Hn Hout. apply wp_ret. destruct Htr6 as [T1 T2 T3]. unfold rolled.
      assert (applies tr6 = w ++ mode_ops valid_quantity infra a igs provs) as Ea.
      { rewrite T2, Em, <- !app_assoc. reflexivity. }
      split; [done|]. rewrite Ea. by split.
  - intros tr5 e Hseen Hp. apply Herr; [done|]. etrans; [exact Hp|].
    rewrite Em, <- !app_assoc. reflexivity.
Qed.

Lemma reconcileTask_wp a b igs provs w tr0 tr :
  same_agent a b → as_Mode (ag_Spec a) = AgentModeTask → applied tr0 w tr →
  wp (reconcileTask b igs provs) (rolled a igs provs w tr0) tr.
Proof.
  intros Hs Hd Htr.
  assert (mode_ops valid_quantity infra a igs provs = config_ops b igs provs) as Em.
  { rewrite <- (rollout_same valid_quantity infra a b) by done. unfold mode_ops.
    rewrite decide_False, decide_True; [done|..]; by rewrite (proj2 Hs), Hd. }
  apply wp_try. unfold config_ops in Em. destruct (BuildAgentConfigMap b igs provs) as [cm|e];
    apply wp_ret.
  - eapply wp_try_owned; [done|exact Htr| |intros tr1 Htr1|].
    + unfold agent_op in Em. by rewrite <- Em.
    + apply wp_ret. destruct Htr1 as [T1 T2 T3]. unfold agent_op in Em. unfold rolled. rewrite Em.
      split; [done|]. rewrite T2. split; [done|]. split; [done|]. split; [|done]. by left.
    + intros tr1 e Hseen Hp. by split.
  - split; [apply Htr|]. split; [|done]. rewrite (ad_applies _ _ _ Htr). by apply prefix_app_r.
Qed.

Lemma get_all_wp k what ns names tr :
  wp (get_all k what ns names) (λ tr' r, ∃ ext, tr' = tr ++ ext ∧ reads ext ∧
    match r with
    | Ok os => Forall2 (λ name o, existT (OpGet k ns name) (Ok o) ∈ ext) names os
    | Err _ => True
    end) tr.
Proof.
  revert tr. induction names as [|name names IH]; intros tr; cbn [get_all].
  - apply wp_ret. exists []. rewrite app_nil_r. repeat split; constructor.
  - apply wp_call. intros x _. destruct x as [o|e]; [|apply wp_ret; eexists [_]; by repeat constructor].
    apply wp_try. eapply wp_mono; [|apply IH]. cbn. intros tr' r (ext & -> & Hr & Hg).
    assert (reads (existT (OpGet k ns name) (Ok o) :: ext)) by by repeat constructor.
    destruct r as [os|e]; eexists; rewrite <- app_assoc; (split; [reflexivity|]); (split; [done|]); [|done].
    constructor; [left|]. eapply Forall2_impl; [exact Hg|]. intros n' o' Hin. by right.
Qed.

Lemma first_not_ready_None {A} what ready name phase (l : list A) :
  first_not_ready what ready name phase l = None ↔ Forall (λ x, phase x = ready) l.
Proof.
  induction l as [|x l IH]; cbn; [done|]. rewrite Forall_cons, <- IH. case_decide; naive_solver.
Qed.

(** ** The end of a reconcile *)

(** A part of what is applied for the agent, nothing beyond its identity
    unless its dependencies are ready. *)
Definition partly (a : Agent) (tr : Trace) : Prop :=
  applies tr `prefix_of` rbac_ops a ∨
  ∃ igs provs, ready_deps tr a igs provs ∧
               applies tr `prefix_of` rollout valid_quantity infra a igs provs.

(** All of it, acknowledged, and the phase of [n] is the one reached. *)
Definition complete (a n : Agent) (tr : Trace) : Prop :=
  ∃ igs provs, ready_deps tr a igs provs ∧ Forall acked tr ∧ reached a n tr ∧
               applies tr = rollout valid_quantity infra a igs provs.

(** A status write of the reconcile of [a]. *)
Definition agent_patch (b n : Agent) (x : res Agent) : Event := existT (OpPatchStatus KAgent b n) x.
Definition patch_of (o : Op) : option (Agent * Agent) :=
  match o with
  | OpPatchStatus k b n =>
      match k return obj k → obj k → option (Agent * Agent) with
      | KAgent => λ b n, Some (b, n)
      | _ => λ _ _, None
      end b n
  | _ => None
  end.
Definition status_ok (a : Agent) (tr : Trace) : Prop :=
  ∀ b n x, agent_patch b n x ∈ tr →
    b = a ∧ (ast_Phase (ag_Status n) = ast_Phase (ag_Status a) ∨
             ast_Phase (ag_Status n) = AgentPhaseFailed ∨ complete a n tr).

(** Nothing is left to do: the agent is up and its record of it is, too. *)
Definition up (a : Agent) (tr : Trace) : Prop :=
  ∃ n, complete a n tr ∧ ast_Phase (ag_Status n) ≠ AgentPhasePending ∧
       (n = a ∨ ∃ n', agent_patch a n (Ok n') ∈ tr).

Record concluded (a : Agent) (tr : Trace) (out : Outcome) : Prop := {
  cl_partly : partly a tr;
  cl_status : status_ok a tr;
  cl_again : comes_back out ∨ up a tr;
}.

Lemma ready_deps_mono tr tr' a igs provs :
  tr ⊆ tr' → ready_deps tr a igs provs → ready_deps tr' a igs provs.
Proof.
  intros Hs [R1 R2]. split; (eapply Forall2_impl; [eassumption|]); intros b x [Hx ?];
    (split; [by apply Hs|done]).
Qed.

Section Patched.
Variables (a n : Agent) (x : res Agent) (tr : Trace).
Let tr' := tr ++ [agent_patch a n x].

Lemma applies_patched : applies tr' = applies tr.
Proof. unfold tr'. by rewrite applies_app, applies_one, app_nil_r. Qed.

Lemma sub_patched : tr ⊆ tr'.
Proof. unfold tr'. set_solver. Qed.

Lemma partly_patched : partly a tr → partly a tr'.
Proof.
  intros [Hp|(igs & provs & Hr & Hp)]; unfold partly; rewrite applies_patched; [by left|].
  right. exists igs, provs. split; [|done]. by apply (ready_deps_mono tr), Hr; apply sub_patched.
Qed.

Lemma complete_patched m : complete a m tr → complete a m tr'.
Proof.
  intros (igs & provs & Hr & Ha & Hm & Hp). exists igs, provs. rewrite applies_patched.
  split; [by apply (ready_deps_mono tr), Hr; apply sub_patched|].
  split; [apply Forall_app; split; [done | by repeat constructor]|]. split; [|done].
  destruct Hm as [Hm|(Hd & d & Hin & Hm)]; [by left|]. right. split; [done|]. exists d.
  split; [by apply sub_patched | done].
Qed.
End Patched.

(** The status write that ends a reconcile. *)
Lemma wp_conclude a n out tr0 tr :
  seen tr0 tr → partly a tr →
  ast_Phase (ag_Status n) = ast_Phase (ag_Status a) ∨ ast_Phase (ag_Status n) = AgentPhaseFailed ∨
    complete a n tr →
  comes_back out ∨ complete a n tr ∧ ast_Phase (ag_Status n) ≠ AgentPhasePending →
  wp (or_fail (patchStatus (k := KAgent) n a) (mret out)) (concluded a) tr.
Proof.
  intros [_ Hnp] Hp Hn Ho.
  unfold or_fail, patchStatus. apply wp_bind. case_decide as He.
  - apply wp_ret, wp_ret. split; [done| |].
    + intros b m x Hin. rewrite Forall_forall in Hnp. by apply Hnp in Hin.
    + destruct Ho as [Ho|[Hc Hne]]; [by left|]. right. exists n. auto.
  - apply wp_call. intros x _. apply wp_ret. change (existT _ x) with (agent_patch a n x).
    assert (status_ok a (tr ++ [agent_patch a n x])) as Hst.
    { intros b m y [Hin|Hin]%elem_of_app; [rewrite Forall_forall in Hnp; by apply Hnp in Hin|].
      apply list_elem_of_singleton in Hin. unfold agent_patch in Hin.
      apply (f_equal (patch_of ∘ event_op)) in Hin. injection Hin as -> ->.
      split; [done|]. destruct Hn as [Hn|[Hn|Hn]]; auto using complete_patched. }
    destruct x as [n'|e]; apply wp_ret; split; try done; try by apply partly_patched.
    + destruct Ho as [Ho|[Hc Hne]]; [by left|]. right. exists n. split; [by apply complete_patched|].
      split; [done|]. right. exists n'. apply elem_of_app. right. left.
    + left. right. by eexists.
Qed.

(** A reconcile that ends with an error before any status write. *)
Lemma concluded_error a e tr0 tr : seen tr0 tr → partly a tr → concluded a tr (failed e).
Proof.
  intros [_ Hnp] Hp. split; [done| |left; right; by eexists].
  intros b m x Hin. rewrite Forall_forall in Hnp. by apply Hnp in Hin.
Qed.

Lemma partly_applied a igs provs tr0 tr :
  applied tr0 (rollout valid_quantity infra a igs provs) tr → ready_deps tr a igs provs →
  partly a tr.
Proof. intros Ha Hr. right. exists igs, provs. split; [done|]. by rewrite (ad_applies _ _ _ Ha). Qed.

Lemma reconcile_mode_wp a b igs provs tr :
  same_agent a b → ast_ReadyReplicas (ag_Status b) = ast_ReadyReplicas (ag_Status a) →
  ready_deps tr a igs provs → applied tr (rbac_ops a) tr →
  wp (reconcile_mode valid_quantity infra b igs provs a) (concluded a) tr.
Proof.
  intros Hs Hr Hdeps Htr. unfold reconcile_mode. apply wp_bind.
  eapply wp_mono with (Q := rolled a igs provs (rbac_ops a) tr).
  - intros tr' r (Hseen & Hp & Hok).
    assert (ready_deps tr' a igs provs) as Hdeps' by (eapply ready_deps_mono, Hdeps; apply Hseen).
    assert (partly a tr') as Hpart by (right; by exists igs, provs).
    destruct r as [[n out]|e]; [|by apply wp_ret, (concluded_error _ _ tr)].
    destruct Hok as (Happ & Hn & Hout).
    assert (complete a n tr') as Hc.
    { exists igs, provs. split; [done|]. split; [apply Happ|]. split; [done|]. apply Happ. }
    apply (wp_conclude _ _ _ tr); [done..|auto|].
    destruct (decide (ast_Phase (ag_Status n) = AgentPhasePending)); [left; left; auto | by right].
  - rewrite (proj2 Hs). case_decide as Hd; [by apply reconcileDaemon_wp|].
    case_decide as Ht; [by apply reconcileTask_wp|]. apply wp_ret. split; [apply Htr|]. split; [|done].
    rewrite (ad_applies _ _ _ Htr). by apply prefix_app_r.
Qed.

Lemma applied_partly a tr0 tr : applied tr0 (rbac_ops a) tr → partly a tr.
Proof. intros Ha. left. by rewrite (ad_applies _ _ _ Ha). Qed.

(** The objects read by name, all of which are in the phase [Q]. *)
Lemma read_ready {B A} (f : B → string) (P : string → A → Prop) (Q : A → Prop) bs os :
  Forall2 P (f <$> bs) os → Forall Q os → Forall2 (λ b o, P (f b) o ∧ Q o) bs os.
Proof.
  rewrite Forall2_fmap_l. induction 1 as [|b o bs os Hb Hbs IH]; intros Hq; [constructor|].
  inversion_clear Hq. constructor; auto.
Qed.

Lemma reconcile_providers_wp a b igs tr :
  same_agent a b → ast_ReadyReplicas (ag_Status b) = ast_ReadyReplicas (ag_Status a) →
  ast_Phase (ag_Status b) = ast_Phase (ag_Status a) →
  Forall2 (integration_ready tr a) (as_Integrations (ag_Spec a)) igs → applied tr (rbac_ops a) tr →
  wp (reconcile_providers valid_quantity infra b igs a) (concluded a) tr.
Proof.
  intros Hs Hr Hph Higs Htr. unfold reconcile_providers, resolveProviders. cbv zeta. apply wp_bind.
  rewrite (proj1 Hs), (proj2 Hs). eapply wp_mono; [|apply (get_all_wp KProvider)].
  intros tr' r (ext & -> & Hreads & Hg).
  pose proof (applied_reads _ _ _ _ Htr Hreads) as Htr'.
  destruct r as [provs|e]; [|apply (wp_conclude _ _ _ tr); [apply Htr'|by eapply applied_partly|by left|left; by left]].
  destruct (validateProvidersReady provs) as [e|] eqn:Hv;
    [apply (wp_conclude _ _ _ tr); [apply Htr'|by eapply applied_partly|by left|left; by left]|].
  apply reconcile_mode_wp; [done|done| |].
  - apply first_not_ready_None in Hv. split.
    + eapply Forall2_impl; [exact Higs|]. intros ?? [? ?]. split; [|done]. apply elem_of_app. by left.
    + eapply Forall2_impl; [exact (read_ready _ _ _ _ _ Hg Hv)|]. intros p o [Hin Hph']. split; [|done].
      apply elem_of_app. by right.
  - by eapply applied_reset.
Qed.

Lemma reconcile_integrations_wp a tr :
  applied tr (rbac_ops a) tr → wp (reconcile_integrations valid_quantity infra a a) (concluded a) tr.
Proof.
  intros Htr. unfold reconcile_integrations, resolveIntegrations. apply wp_bind.
  eapply wp_mono; [|apply (get_all_wp KIntegration)]. intros tr' r (ext & -> & Hreads & Hg).
  pose proof (applied_reads _ _ _ _ Htr Hreads) as Htr'.
  destruct r as [igs|e]; cycle 1.
  { apply (wp_conclude _ _ _ tr); [apply Htr'|by eapply applied_partly|by right; left|left; by left]. }
  destruct (validateIntegrationsReady igs) as [e|] eqn:Hv.
  { apply (wp_conclude _ _ _ tr); [apply Htr'|by eapply applied_partly|by left|left; by left]. }
  apply first_not_ready_None in Hv. cbv zeta.
  apply reconcile_providers_wp; try by case_decide.
  - eapply Forall2_impl; [exact (read_ready _ _ _ _ _ Hg Hv)|]. intros p o [Hin Hph']. split; [|done].
    apply elem_of_app. by right.
  - by eapply applied_reset.
Qed.

Lemma reconcileAgentRBAC_wp a (Q : Trace → option GoError → Prop) tr0 tr :
  as_ServiceAccountName (ag_Spec a) = "" → applied tr0 [] tr →
  (∀ tr', applied tr0 (rbac_ops a) tr' → Q tr' None) →
  (∀ tr' e, seen tr0 tr' → applies tr' `prefix_of` rbac_ops a → Q tr' (Some e)) →
  wp (reconcileAgentRBAC a) Q tr.
Proof.
  intros Hsa Htr Hok Herr. unfold rbac_ops in *. rewrite decide_True in * by done.
  unfold reconcileAgentRBAC, owned, agent_op in *.
  apply wp_bind. eapply wp_owned; [done|exact Htr|intros tr1 Htr1|].
  2: { intros tr' e Hs Hp. apply wp_ret, Herr; [done|]. etrans; [exact Hp|]. by eexists. }
  apply wp_bind. eapply wp_owned; [done|exact Htr1|intros tr2 Htr2|].
  2: { intros tr' e Hs Hp. apply wp_ret, Herr; [done|]. etrans; [exact Hp|]. by eexists. }
  eapply wp_owned; [done|exact Htr2|exact Hok|exact Herr].
Qed.

(** Every execution of a reconcile, by what its first read answered. *)
Lemma Reconcile_wp ns name :
  wp (Reconcile valid_quantity infra ns name) (λ tr out, ∃ x rest,
    tr = existT (OpGet KAgent ns name) x :: rest ∧
    match x with
    | Err e => rest = [] ∧ out = (if err_notFound e then done_ else failed e)
    | Ok a => concluded a tr out
    end) [].
Proof.
  unfold Reconcile. apply wp_call. intros x _. destruct x as [a|e]; [|apply wp_ret; by eexists (Err e), []].
  set (tr1 := [existT (OpGet KAgent ns name) (Ok a)] : Trace).
  assert (applied tr1 [] tr1) as Htr1.
  { split; [split; [done | by repeat constructor] | done | by repeat constructor]. }
  eapply wp_mono; [|apply (wp_prefix _ _ (concluded a) tr1)].
  { intros tr out [[rest ->] Hc]. by exists (Ok a), rest. }
  cbv zeta. case_decide as Hsa.
  - apply wp_bind, (reconcileAgentRBAC_wp a _ tr1); [done..| |].
    + intros tr' Htr'. apply reconcile_integrations_wp. by eapply applied_reset.
    + intros tr' e Hs Hp. apply (wp_conclude _ _ _ tr1); [done|by left|by right; left|].
      left. right. by eexists.
  - apply reconcile_integrations_wp. unfold rbac_ops. rewrite decide_False by done. exact Htr1.
Qed.

End Proofs.

(** ** Theorems *)

(** [C17] What a reconcile of an Agent applies: the objects of the agent, each
    built from the Agent and the dependencies read in this reconcile, in the
    order identity, storage, configuration, Deployment, Service, network
    policy, and nothing else; only the identity before every Integration and
    Provider it names was read and is Ready; and a status write changes the
    phase to anything but Failed only after all of it was applied and
    acknowledged, to Ready for a task agent, and for a daemon agent to Running
    exactly when the Deployment has ready replicas. *)
Theorem Reconcile_rollout `{ConditionOps} `{OwnerOps} `{FloatOps} valid_quantity infra ns name :
  wp any_answer (Reconcile valid_quantity infra ns name) (λ tr out, ∃ x rest,
    tr = existT (OpGet KAgent ns name) x :: rest ∧
    match x with
    | Err _ => rest = []
    | Ok a => partly valid_quantity infra a tr ∧ status_ok valid_quantity infra a tr
    end) [].
Proof.
  eapply wp_mono; [|apply Reconcile_wp]. intros tr out (x & rest & -> & Hx). exists x, rest.
  split; [done|]. destruct x; [by destruct Hx | by destruct Hx].
Qed.

(** [C18] An Agent is never left behind: a reconcile asks to be called again
    unless the Agent is gone or it is completely rolled out, in phase Running
    or Ready, and its status says so. *)
Theorem Reconcile_settles `{ConditionOps} `{OwnerOps} `{FloatOps} valid_quantity infra ns name :
  wp any_answer (Reconcile valid_quantity infra ns name) (λ tr out,
    comes_back out ∨
    (∃ e rest, tr = existT (OpGet KAgent ns name) (Err e) :: rest ∧ err_notFound e = true) ∨
    (∃ a rest, tr = existT (OpGet KAgent ns name) (Ok a) :: rest ∧ up valid_quantity infra a tr)) [].
Proof.
  eapply wp_mono; [|apply Reconcile_wp]. intros tr out (x & rest & -> & Hx). destruct x as [a|e].
  - destruct Hx as [_ _ [Hc|Hu]]; [by left | right; right; by exists a, rest].
  - destruct Hx as [-> ->]. destruct (err_notFound e) eqn:He.
    + right. left. by exists e, [].
    + left. right. by eexists.
Qed.
