(* ===== verification/ProviderCtrl.v ===== *)
(** * The Provider controller (internal/controller/provider_controller.go)

    Reconcile with its deletion protection, the validation of the
    configuration and the secret, and the watch functions that map a change of
    a Secret or an Agent to requests. *)

From S2P Require Import Prelude GoLib KubeTypes ApiTypes Effects CtrlCommon.

Open Scope string_scope.
Open Scope list_scope.

(** ** Finalizers

    The helpers of controller-runtime, with what their documentation says. *)
Class FinalizerOps := {
  ContainsFinalizer : ObjectMeta → string → bool;
  (** The metadata with the finalizer, and whether that is a change. *)
  AddFinalizer : ObjectMeta → string → ObjectMeta * bool;
  RemoveFinalizer : ObjectMeta → string → ObjectMeta;
  ContainsFinalizer_spec m f : ContainsFinalizer m f = true ↔ f ∈ om_finalizers m;
  AddFinalizer_changed m f : snd (AddFinalizer m f) = negb (ContainsFinalizer m f);
  AddFinalizer_spec m f : ∃ fs, fst (AddFinalizer m f) = m <| om_finalizers := fs |> ∧
    ∀ g, g ∈ fs ↔ g = f ∨ g ∈ om_finalizers m;
  RemoveFinalizer_spec m f : ∃ fs, RemoveFinalizer m f = m <| om_finalizers := fs |> ∧
    ∀ g, g ∈ fs ↔ g ≠ f ∧ g ∈ om_finalizers m;
}.

(** [controllerutil] of controller-runtime, as a witness that the laws can hold. *)
Program Definition finalizer_ops : FinalizerOps := {|
  ContainsFinalizer m f := bool_decide (f ∈ om_finalizers m);
  AddFinalizer m f :=
    if decide (f ∈ om_finalizers m) then (m <| om_finalizers := om_finalizers m |>, false)
    else (m <| om_finalizers ::= λ fs, fs ++ [f] |>, true);
  RemoveFinalizer m f := m <| om_finalizers ::= filter (λ g, g ≠ f) |>;
|}.
Next Obligation. intros. apply bool_decide_eq_true. Qed.
Next Obligation. intros m f. cbn. by case_decide; case_bool_decide. Qed.
Next Obligation.
  intros m f. cbn. case_decide as Hin; eexists; (split; [reflexivity|]); intros g;
    [|rewrite elem_of_app, list_elem_of_singleton; tauto].
  split; [intros ?; by right | by intros [->|?]].
Qed.
Next Obligation.
  intros m f. eexists. split; [reflexivity|]. intros g. cbn. by rewrite list_elem_of_filter.
Qed.

(** [!t.IsZero()] on the deletion timestamp. *)
Definition deleting (m : ObjectMeta) : bool := bool_decide (om_deletionTimestamp m ≠ 0%Z).

Section Controller.
Context `{ConditionOps} `{FinalizerOps}.

Definition set_cond (c : Condition) (p : Provider) : Provider :=
  p <| prov_Status ::= λ s, s <| prst_Conditions ::= λ cs, SetStatusCondition cs c |> |>.

(** ** Validation *)

Definition vertex_issues (type : ProviderType) (cfg : ProviderConfig) : list string :=
  if decide (is_Some (pc_Vertex cfg) ∧ type ≠ ProviderTypeAnthropic ∧ type ≠ ProviderTypeGoogle)
  then ["vertex config is only valid for anthropic and google providers"] else [].
Definition bedrock_issues (type : ProviderType) (cfg : ProviderConfig) : list string :=
  if decide (pc_Bedrock cfg = true ∧ type ≠ ProviderTypeAnthropic ∧ type ≠ ProviderTypeBedrock)
  then ["bedrock config is only valid for anthropic and bedrock providers"] else [].
Definition azure_issues (type : ProviderType) (cfg : ProviderConfig) : list string :=
  if decide (pc_AzureAPIVersion cfg ≠ "" ∧ type ≠ ProviderTypeAzure)
  then ["azureAPIVersion is only valid for azure providers"] else [].
Definition organization_issues (type : ProviderType) (cfg : ProviderConfig) : list string :=
  if decide ((pc_Organization cfg ≠ "" ∨ pc_Project cfg ≠ "") ∧ type ≠ ProviderTypeOpenAI)
  then ["organization/project config is only valid for openai providers"] else [].
Definition responses_issues (type : ProviderType) (cfg : ProviderConfig) : list string :=
  if decide (pc_UseResponsesAPI cfg = true ∧ type ≠ ProviderTypeOpenAI ∧
             type ≠ ProviderTypeAzure ∧ type ≠ ProviderTypeOpenAICompat)
  then ["useResponsesAPI is only valid for openai, azure, and openaicompat providers"] else [].

Definition no_base_url (p : Provider) : Prop :=
  match prs_Endpoint (prov_Spec p) with Some e => pe_BaseURL e = "" | None => True end.
#[export] Instance no_base_url_dec p : Decision (no_base_url p).
Proof. unfold no_base_url. destruct (prs_Endpoint _); apply _. Defined.
Definition endpoint_issues (p : Provider) : list string :=
  if decide (prs_Type (prov_Spec p) = ProviderTypeOpenAICompat ∧ no_base_url p)
  then ["openaicompat providers require endpoint.baseURL"] else [].

Definition hasAPIKey (p : Provider) : bool := bool_decide (is_Some (prs_ApiKeySecret (prov_Spec p))).
Definition hasOAuth (p : Provider) : bool :=
  bool_decide (is_Some (prs_Endpoint (prov_Spec p) ≫= pe_OAuth2ClientCredentials)).
Definition auth_issues (p : Provider) : list string :=
  match hasAPIKey p, hasOAuth p with
  | false, false =>
      ["provider must set either spec.apiKeySecret or spec.endpoint.oauth2ClientCredentials"]
  | true, true =>
      ["provider must set only one of spec.apiKeySecret or spec.endpoint.oauth2ClientCredentials, not both"]
  | _, _ => []
  end.

Definition config_issues (p : Provider) : list string :=
  let type := prs_Type (prov_Spec p) in
  match prs_Config (prov_Spec p) with
  | Some cfg => vertex_issues type cfg ++ bedrock_issues type cfg ++ azure_issues type cfg ++
                organization_issues type cfg ++ responses_issues type cfg
  | None => []
  end ++ endpoint_issues p ++ auth_issues p.

Definition validateConfig (p : Provider) : Provider * bool :=
  match config_issues p with
  | issue :: _ =>
      (set_cond (mkCondition ProviderConditionConfigValid ConditionFalse "InvalidConfig" issue) p, false)
  | [] =>
      (set_cond (mkCondition ProviderConditionConfigValid ConditionTrue "Valid"
                   ("Config is valid for type " +:+ prs_Type (prov_Spec p))) p, true)
  end.

Definition validateSecret (p : Provider) : prog (Provider * bool) :=
  let secret_cond status reason msg :=
    set_cond (mkCondition ProviderConditionSecretReady status reason msg) p in
  match prs_ApiKeySecret (prov_Spec p) with
  | None =>
      mret (secret_cond ConditionTrue "NotApplicable"
              "No apiKeySecret configured; authentication handled via OAuth2 client credentials", true)
  | Some ref =>
      x ← call (OpGet KSecret (om_namespace (prov_Meta p)) (skr_Name ref));
      mret (match x with
      | Err e =>
          (if err_notFound e
           then secret_cond ConditionFalse "SecretNotFound"
                  ("Secret " +:+ GoFmt.q (skr_Name ref) +:+ " not found in namespace "
                   +:+ GoFmt.q (om_namespace (prov_Meta p)))
           else secret_cond ConditionFalse "SecretError"
                  ("Failed to get secret " +:+ GoFmt.q (skr_Name ref) +:+ ": " +:+ err_msg e), false)
      | Ok secret =>
          match sec_data secret !! skr_Key ref with
          | None => (secret_cond ConditionFalse "KeyNotFound"
                       ("Secret " +:+ GoFmt.q (skr_Name ref) +:+ " does not contain key "
                        +:+ GoFmt.q (skr_Key ref)), false)
          | Some _ => (secret_cond ConditionTrue "SecretExists"
                         ("Secret " +:+ GoFmt.q (skr_Name ref) +:+ " contains key "
                          +:+ GoFmt.q (skr_Key ref)), true)
          end
      end)
  end.

(** An Agent is counted once, however often it names the provider. *)
Definition refers_to_provider (name : string) (agent : Agent) : bool :=
  existsb (λ ref, bool_decide (pb_Name ref = name)) (as_ProviderRefs (ag_Spec agent)).

Definition countBoundAgents (p : Provider) : prog (res Z) :=
  x ← call (OpList KAgent (om_namespace (prov_Meta p)) ∅);
  mret (match x with
        | Err e => Err e
        | Ok agents => Ok (Z.of_nat (length
            (filter (λ a, refers_to_provider (om_name (prov_Meta p)) a = true) agents)))
        end).

(** ** Deletion *)

Definition reconcileDelete (p : Provider) : prog Outcome :=
  if negb (ContainsFinalizer (prov_Meta p) ProviderFinalizer) then mret done_
  else
    x ← countBoundAgents p;
    match x with
    | Err e => mret (failed e)
    | Ok boundAgents =>
        if decide (0 < boundAgents)%Z then
          let statusPatch := p in
          let p := p <| prov_Status ::= λ s, s <| prst_BoundAgents := boundAgents |> |> in
          let p := set_cond (mkCondition ProviderConditionInUse ConditionTrue "ReferencedByAgents"
                     ("deletion blocked: " +:+ GoFmt.d boundAgents
                      +:+ " agent(s) still reference this provider")) p in
          or_fail (patchStatus (k := KProvider) p statusPatch) (mret (requeue requeueInterval))
        else
          let p := p <| prov_Meta ::= λ m, RemoveFinalizer m ProviderFinalizer |> in
          y ← call (OpUpdate KProvider p);
          mret (match y with Err e => failed e | Ok _ => done_ end)
    end.

(** ** Reconcile *)

(** The phase and message from the two checks. *)
Definition set_overall (configValid secretReady : bool) (p : Provider) : Provider :=
  p <| prov_Status ::= λ s,
    if configValid && secretReady then
      s <| prst_Phase := ProviderPhaseReady |>
        <| prst_Message := "Provider " +:+ GoFmt.q (om_name (prov_Meta p)) +:+ " ("
             +:+ prs_Type (prov_Spec p) +:+ ") is ready" |>
    else
      s <| prst_Phase := ProviderPhaseFailed |>
        <| prst_Message := if negb secretReady then "Secret not ready"
                           else "Config validation failed" |> |>.

Definition Reconcile (ns name : string) : prog Outcome :=
  x ← call (OpGet KProvider ns name);
  match x with
  | Err e => mret (if err_notFound e then done_ else failed e)
  | Ok p =>
      if deleting (prov_Meta p) then reconcileDelete p
      else
        let '(m, changed) := AddFinalizer (prov_Meta p) ProviderFinalizer in
        if changed then
          y ← call (OpUpdate KProvider (p <| prov_Meta := m |>));
          mret (match y with Err e => failed e | Ok _ => done_ end)
        else
          let statusPatch := p in
          let '(p, configValid) := validateConfig p in
          r ← validateSecret p;
          let '(p, secretReady) := (r : Provider * bool) in
          z ← countBoundAgents p;
          let boundAgents := match z with Ok n => n | Err _ => 0%Z end in
          let p := p <| prov_Status ::= λ s, s <| prst_BoundAgents := boundAgents |> |> in
          let p := set_overall configValid secretReady p in
          or_fail (patchStatus (k := KProvider) p statusPatch) (mret done_)
  end.

(** ** Watches *)

Definition secretToProviderRequests (secret : Secret) : prog (list (string * string)) :=
  x ← call (OpList KProvider (om_namespace (sec_meta secret)) ∅);
  mret (match x with
        | Err _ => []
        | Ok providers =>
            map (λ p, (om_namespace (prov_Meta p), om_name (prov_Meta p)))
              (filter (λ p, (skr_Name <$> prs_ApiKeySecret (prov_Spec p))
                            = Some (om_name (sec_meta secret))) providers)
        end).

(** The [seen] map keeps the first of each name. *)
Fixpoint first_of_each (seen : list string) (names : list string) : list string :=
  match names with
  | [] => []
  | n :: ns => if decide (n ∈ seen) then first_of_each seen ns
               else n :: first_of_each (n :: seen) ns
  end.
Definition agentToProviderRequests (agent : Agent) : list (string * string) :=
  map (pair (om_namespace (ag_Meta agent)))
    (first_of_each [] (map pb_Name (as_ProviderRefs (ag_Spec agent)))).

End Controller.
