(* ===== verification/IntegrationCtrl.v ===== *)
(** * The Integration controller (internal/controller/integration_controller.go) *)

From S2P Require Import Prelude GoLib KubeTypes ApiTypes Effects CtrlCommon ProviderCtrl.

Open Scope string_scope.
Open Scope list_scope.

Section Controller.
Context `{ConditionOps} `{FinalizerOps}.

Definition set_integration_cond (c : Condition) (i : Integration) : Integration :=
  i <| ig_Status ::= λ s, s <| ist_Conditions ::= λ cs, SetStatusCondition cs c |> |>.

(** An Agent is counted once, however often it binds the integration. *)
Definition binds_integration (name : string) (agent : Agent) : bool :=
  existsb (λ b, bool_decide (ib_Name b = name)) (as_Integrations (ag_Spec agent)).

Definition countBoundAgents (i : Integration) : prog (res Z) :=
  x ← call (OpList KAgent (om_namespace (ig_Meta i)) ∅);
  mret (match x with
        | Err e => Err e
        | Ok agents => Ok (Z.of_nat (length
            (filter (λ a, binds_integration (om_name (ig_Meta i)) a = true) agents)))
        end).

Definition reconcileDelete (i : Integration) : prog Outcome :=
  if negb (ContainsFinalizer (ig_Meta i) IntegrationFinalizer) then mret done_
  else
    x ← countBoundAgents i;
    match x with
    | Err e => mret (failed e)
    | Ok boundAgents =>
        if decide (0 < boundAgents)%Z then
          let statusPatch := i in
          let i := set_integration_cond (mkCondition IntegrationConditionInUse ConditionTrue "BoundByAgents"
                     ("deletion blocked: " +:+ GoFmt.d boundAgents
                      +:+ " agent(s) still bind this integration")) i in
          or_fail (patchStatus (k := KIntegration) i statusPatch) (mret (requeue requeueInterval))
        else
          let i := i <| ig_Meta ::= λ m, RemoveFinalizer m IntegrationFinalizer |> in
          y ← call (OpUpdate KIntegration i);
          mret (match y with Err e => failed e | Ok _ => done_ end)
    end.

Definition required {A} (config : option A) (name kind : string) : option GoError :=
  match config with
  | Some _ => None
  | None => Some (errorf (name +:+ " config is required for kind=" +:+ kind))
  end.

Definition validateResource (i : Integration) : option GoError :=
  let s := ig_Spec i in
  let kind := is_Kind s in
  if decide (kind = IntegrationKindGitHubRepo) then required (is_GitHub s) "github" kind
  else if decide (kind = IntegrationKindGitHubOrg) then required (is_GitHubOrg s) "githubOrg" kind
  else if decide (kind = IntegrationKindGitLabProject) then required (is_GitLab s) "gitlab" kind
  else if decide (kind = IntegrationKindGitLabGroup) then required (is_GitLabGroup s) "gitlabGroup" kind
  else if decide (kind = IntegrationKindGitRepo) then required (is_Git s) "git" kind
  else if decide (kind = IntegrationKindS3Bucket) then required (is_S3 s) "s3" kind
  else if decide (kind = IntegrationKindDocumentation)
  then required (is_Documentation s) "documentation" kind
  else Some (errorf ("unknown resource kind: " +:+ kind)).

Definition setFailedStatus (i : Integration) (message : string) : Integration :=
  set_integration_cond (mkCondition IntegrationConditionReady ConditionFalse "Failed" message)
    (i <| ig_Status ::= λ s, s <| ist_Phase := IntegrationPhaseFailed |> |>).

Definition Reconcile (ns name : string) : prog Outcome :=
  x ← call (OpGet KIntegration ns name);
  match x with
  | Err e => mret (if err_notFound e then done_ else failed e)
  | Ok i =>
      if deleting (ig_Meta i) then reconcileDelete i
      else
        let '(m, changed) := AddFinalizer (ig_Meta i) IntegrationFinalizer in
        if changed then
          y ← call (OpUpdate KIntegration (i <| ig_Meta := m |>));
          mret (match y with Err e => failed e | Ok _ => done_ end)
        else
          let statusPatch := i in
          match validateResource i with
          | Some e =>
              or_fail (patchStatus (k := KIntegration) (setFailedStatus i (err_msg e)) statusPatch)
                (mret done_)
          | None =>
              let i := i <| ig_Status ::= λ s, s <| ist_Phase := IntegrationPhaseReady |> |> in
              let i := set_integration_cond (mkCondition IntegrationConditionReady ConditionTrue "Valid"
                ("Integration " +:+ GoFmt.q (is_DisplayName (ig_Spec i)) +:+ " ("
                 +:+ is_Kind (ig_Spec i) +:+ ") is ready")) i in
              or_fail (patchStatus (k := KIntegration) i statusPatch) (mret done_)
          end
  end.

End Controller.
