(* ===== verification/DependencyProps.v ===== *)
(** * Properties of the Provider and Integration controllers

    Every execution of the two reconcilers, branch by branch: when a
    dependency is Ready, and that it is only let go when no Agent names it. *)

From S2P Require Import Prelude GoLib KubeTypes ApiTypes Effects CtrlCommon ProviderCtrl IntegrationCtrl.

Open Scope string_scope.
Open Scope list_scope.

(** The end of a reconcile after a write that answered [x]. *)
Definition after_write {A} (x : res A) (out : Outcome) : Outcome :=
  match x with Ok _ => out | Err e => failed e end.

(** The agents in the namespace of the object, as listed. *)
Definition agents_listed (ns : string) (x : res (list Agent)) : Event :=
  existT (OpList KAgent ns ∅) x.

Lemma wp_status_end {k} (n b : obj k) out (Q : Trace → Outcome → Prop) tr :
  (n = b → Q tr out) →
  (∀ x, Q (tr ++ [existT (OpPatchStatus k b n) x]) (after_write x out)) →
  wp any_answer (or_fail (patchStatus n b) (mret out)) Q tr.
Proof.
  intros Hs Hc. unfold or_fail, patchStatus. apply wp_bind. case_decide as He.
  - apply wp_ret, wp_ret. auto.
  - apply wp_call. intros x _. apply wp_ret. specialize (Hc x). destruct x; exact Hc.
Qed.

(** [n]'s status is written over [b]'s, unless that changes nothing. *)
Inductive status_written (k : Kind) (b n : obj k) (out : Outcome) : Trace → Outcome → Prop :=
| sw_same : n = b → status_written k b n out [] out
| sw_patch x : status_written k b n out [existT (OpPatchStatus k b n) x] (after_write x out).

(** ** Providers *)

Definition names_provider (a : Agent) (p : Provider) : Prop :=
  om_name (prov_Meta p) ∈ pb_Name <$> as_ProviderRefs (ag_Spec a).
#[export] Instance names_provider_dec a p : Decision (names_provider a p).
Proof. unfold names_provider. apply _. Defined.
Definition users_of (p : Provider) (l : list Agent) : Z :=
  Z.of_nat (length (filter (λ a, names_provider a p) l)).

(** The provider on its way out: let go when no listed agent names it, held
    back, with the number of agents on record, when one does. *)
Inductive provider_deletion (p : Provider) : Trace → Outcome → Prop :=
| pd_gone : ProviderFinalizer ∉ om_finalizers (prov_Meta p) → provider_deletion p [] done_
| pd_unknown e : ProviderFinalizer ∈ om_finalizers (prov_Meta p) →
    provider_deletion p [agents_listed (om_namespace (prov_Meta p)) (Err e)] (failed e)
| pd_held agents n tr out : ProviderFinalizer ∈ om_finalizers (prov_Meta p) →
    Exists (λ a, names_provider a p) agents →
    prov_Meta n = prov_Meta p → prov_Spec n = prov_Spec p →
    prst_BoundAgents (prov_Status n) = users_of p agents →
    (∃ c, find_condition ProviderConditionInUse (prst_Conditions (prov_Status n)) = Some c ∧
          c_status c = ConditionTrue) →
    status_written KProvider p n (requeue requeueInterval) tr out →
    provider_deletion p (agents_listed (om_namespace (prov_Meta p)) (Ok agents) :: tr) out
| pd_released agents p' x : ProviderFinalizer ∈ om_finalizers (prov_Meta p) →
    Forall (λ a, ¬ names_provider a p) agents →
    (∀ f, f ∈ om_finalizers (prov_Meta p') ↔ f ≠ ProviderFinalizer ∧ f ∈ om_finalizers (prov_Meta p)) →
    prov_Spec p' = prov_Spec p →
    provider_deletion p [agents_listed (om_namespace (prov_Meta p)) (Ok agents);
                         existT (OpUpdate KProvider p') x] (after_write x done_).

(** The secret a provider names, with the reads that looked for it. *)
Inductive secret_checked (p : Provider) : Trace → bool → Prop :=
| sc_none : prs_ApiKeySecret (prov_Spec p) = None → secret_checked p [] true
| sc_read ref x : prs_ApiKeySecret (prov_Spec p) = Some ref →
    secret_checked p [existT (OpGet KSecret (om_namespace (prov_Meta p)) (skr_Name ref)) x]
      (match x with Ok s => bool_decide (is_Some (sec_data s !! skr_Key ref)) | Err _ => false end).

(** The provider in service. *)
Inductive provider_served (p : Provider) : Trace → Outcome → Prop :=
| ps_adopt p' x : ProviderFinalizer ∉ om_finalizers (prov_Meta p) →
    (∀ f, f ∈ om_finalizers (prov_Meta p') ↔ f = ProviderFinalizer ∨ f ∈ om_finalizers (prov_Meta p)) →
    prov_Spec p' = prov_Spec p → prov_Status p' = prov_Status p →
    provider_served p [existT (OpUpdate KProvider p') x] (after_write x done_)
| ps_checked tr1 ready agents n tr2 out : ProviderFinalizer ∈ om_finalizers (prov_Meta p) →
    secret_checked p tr1 ready →
    prov_Meta n = prov_Meta p → prov_Spec n = prov_Spec p →
    prst_Phase (prov_Status n) =
      (if bool_decide (config_issues p = []) && ready then ProviderPhaseReady else ProviderPhaseFailed) →
    prst_BoundAgents (prov_Status n) =
      match agents with
      | Ok l => users_of p l | Err _ => 0%Z end →
    status_written KProvider p n done_ tr2 out →
    provider_served p (tr1 ++ agents_listed (om_namespace (prov_Meta p)) agents :: tr2) out.

Section Provider.
Context `{ConditionOps} `{FinalizerOps}.

Lemma refers_names a p : refers_to_provider (om_name (prov_Meta p)) a = true ↔ names_provider a p.
Proof.
  unfold refers_to_provider, names_provider. rewrite existsb_elem_of, list_elem_of_fmap.
  setoid_rewrite bool_decide_eq_true. naive_solver.
Qed.

Lemma countBoundAgents_wp p0 p (Q : Trace → res Z → Prop) tr :
  prov_Meta p = prov_Meta p0 →
  (∀ x, Q (tr ++ [agents_listed (om_namespace (prov_Meta p0)) x])
          (match x with Ok l => Ok (users_of p0 l) | Err e => Err e end)) →
  wp any_answer (ProviderCtrl.countBoundAgents p) Q tr.
Proof.
  intros Hm HQ. unfold ProviderCtrl.countBoundAgents. rewrite Hm.
  apply wp_call. intros x _. apply wp_ret. specialize (HQ x). destruct x as [l|e]; [|exact HQ].
  unfold users_of in HQ. erewrite list_filter_iff; [exact HQ|]. intros a. apply refers_names.
Qed.

Lemma users_of_pos p l : (0 < users_of p l)%Z ↔ Exists (λ a, names_provider a p) l.
Proof.
  unfold users_of. rewrite Exists_exists. etrans; [|apply (length_filter_pos (λ a, names_provider a p))].
  lia.
Qed.

Lemma provider_deletion_wp p :
  wp any_answer (ProviderCtrl.reconcileDelete p) (provider_deletion p) [].
Proof.
  unfold ProviderCtrl.reconcileDelete.
  destruct (ContainsFinalizer (prov_Meta p) ProviderFinalizer) eqn:Hf.
  - apply ContainsFinalizer_spec in Hf. apply wp_bind, (countBoundAgents_wp p); [done|].
    intros [l|e]; [|by apply wp_ret, pd_unknown]. case_decide as Hu; cbv zeta.
    + apply wp_status_end.
      * intros Heq. eapply pd_held; [done|by apply users_of_pos|..|by apply sw_same]; try done.
        eexists. split; [exact (find_SetStatusCondition _ (mkCondition ProviderConditionInUse _ _ _))|done].
      * intros x. eapply pd_held; [done|by apply users_of_pos|..|by apply sw_patch]; try done.
        eexists. split; [exact (find_SetStatusCondition _ (mkCondition ProviderConditionInUse _ _ _))|done].
    + apply wp_call. intros x _. apply wp_ret.
      destruct (RemoveFinalizer_spec (prov_Meta p) ProviderFinalizer) as (fs & Hm & Hfs).
      eapply (pd_released _ l _ x); [done| | |done].
      * rewrite users_of_pos in Hu. by apply Forall_Exists_neg in Hu.
      * intros f. cbn. rewrite Hm. cbn. apply Hfs.
  - apply wp_ret, pd_gone. rewrite <- ContainsFinalizer_spec. by rewrite Hf.
Qed.

Lemma validateConfig_spec p :
  ∃ cs, ProviderCtrl.validateConfig p =
        (p <| prov_Status ::= λ s, s <| prst_Conditions := cs |> |>,
         bool_decide (config_issues p = [])).
Proof.
  unfold ProviderCtrl.validateConfig. destruct (config_issues p) as [|i l]; eexists.
  - rewrite bool_decide_eq_true_2 by done. reflexivity.
  - rewrite bool_decide_eq_false_2 by done. reflexivity.
Qed.

Lemma validateSecret_wp p0 p (Q : Trace → Provider * bool → Prop) tr :
  prov_Meta p = prov_Meta p0 → prov_Spec p = prov_Spec p0 →
  (∀ tr1 ready cs, secret_checked p0 tr1 ready →
     Q (tr ++ tr1) (p <| prov_Status ::= λ s, s <| prst_Conditions := cs |> |>, ready)) →
  wp any_answer (ProviderCtrl.validateSecret p) Q tr.
Proof.
  intros Hm Hs HQ. unfold ProviderCtrl.validateSecret. cbv zeta. rewrite Hm, Hs.
  destruct (prs_ApiKeySecret (prov_Spec p0)) as [ref|] eqn:Href.
  - apply wp_call. intros x _. apply wp_ret.
    pose proof (λ cs, HQ _ _ cs (sc_read p0 ref x Href)) as HQx. clear HQ.
    destruct x as [s|e]; cbn [fst snd] in *.
    + destruct (sec_data s !! skr_Key ref); eapply HQx.
    + destruct (err_notFound e); eapply HQx.
  - apply wp_ret. rewrite <- (app_nil_r tr). eapply HQ. by apply sc_none.
Qed.

(** What a Reconcile of the named provider may do. *)
Definition provider_reconciled (ns name : string) (tr : Trace) (out : Outcome) : Prop :=
  ∃ x rest, tr = existT (OpGet KProvider ns name) x :: rest ∧
  match x with
  | Err e => rest = [] ∧ out = (if err_notFound e then done_ else failed e)
  | Ok p => if decide (om_deletionTimestamp (prov_Meta p) = 0%Z)
            then provider_served p rest out else provider_deletion p rest out
  end.

Lemma provider_reconcile_wp ns name :
  wp any_answer (ProviderCtrl.Reconcile ns name) (provider_reconciled ns name) [].
Proof.
  apply wp_call. intros x _. apply wp_trace. cbn [app].
  eapply (wp_mono _ _ (λ tr out, match x with
    | Err e => tr = [] ∧ out = (if err_notFound e then done_ else failed e)
    | Ok p => if decide (om_deletionTimestamp (prov_Meta p) = 0%Z)
              then provider_served p tr out else provider_deletion p tr out end)).
  { intros tr out HQ. by exists x, tr. }
  destruct x as [p|e]; [|by apply wp_ret]. unfold deleting.
  destruct (decide (om_deletionTimestamp (prov_Meta p) = 0%Z)) as [Hd|Hd];
    [rewrite bool_decide_eq_false_2 by (by intros ?) | rewrite bool_decide_eq_true_2 by done;
     apply provider_deletion_wp].
  pose proof (AddFinalizer_changed (prov_Meta p) ProviderFinalizer) as Hch.
  destruct (AddFinalizer_spec (prov_Meta p) ProviderFinalizer) as (fs & Hm & Hfs).
  destruct (AddFinalizer (prov_Meta p) ProviderFinalizer) as [m changed]. cbn [fst snd] in *.
  subst m changed. destruct (ContainsFinalizer (prov_Meta p) ProviderFinalizer) eqn:Hf; cbn [negb].
  - apply ContainsFinalizer_spec in Hf. destruct (validateConfig_spec p) as [cs1 ->].
    apply wp_bind, (validateSecret_wp p); [done..|]. intros tr1 ready cs Hsec. apply wp_bind, (countBoundAgents_wp p); [done|].
    intros l. apply wp_status_end.
    + intros Heq. rewrite <- app_assoc. cbn [app].
      eapply ps_checked; [done|done|..|by apply sw_same]; try done; cbn.
      * by destruct (_ && _).
      * destruct (_ && _); by destruct l.
    + intros x. rewrite <- !app_assoc. cbn [app].
      eapply ps_checked; [done|done|..|by apply sw_patch]; try done; cbn.
      * by destruct (_ && _).
      * destruct (_ && _); by destruct l.
  - apply wp_call. intros x _. apply wp_ret. eapply (ps_adopt _ _ x); [..|done|done].
    + rewrite <- ContainsFinalizer_spec. by rewrite Hf.
    + intros f. cbn. apply Hfs.
Qed.

(** [C20] A Provider is deleted only after a list of its namespace showed no
    Agent naming it; until then it is held with the number of those Agents on
    record and looked at again.  A live Provider first gets its finalizer, and
    is then marked Ready exactly when its configuration has no issue and the
    key it names is in its secret, Failed otherwise; its users are counted,
    and the status is written only when that changes it. *)
Theorem provider_reconcile_spec ns name :
  wp any_answer (ProviderCtrl.Reconcile ns name) (provider_reconciled ns name) [].
Proof. apply provider_reconcile_wp. Qed.
End Provider.

(** ** Integrations *)

Definition binds (a : Agent) (i : Integration) : Prop :=
  om_name (ig_Meta i) ∈ ib_Name <$> as_Integrations (ag_Spec a).
#[export] Instance binds_dec a i : Decision (binds a i).
Proof. unfold binds. apply _. Defined.

(** The block of the integration's kind is there. *)
Definition kind_configured (s : IntegrationSpec) : Prop :=
  (is_Kind s = IntegrationKindGitHubRepo ∧ is_Some (is_GitHub s)) ∨
  (is_Kind s = IntegrationKindGitHubOrg ∧ is_Some (is_GitHubOrg s)) ∨
  (is_Kind s = IntegrationKindGitLabProject ∧ is_Some (is_GitLab s)) ∨
  (is_Kind s = IntegrationKindGitLabGroup ∧ is_Some (is_GitLabGroup s)) ∨
  (is_Kind s = IntegrationKindGitRepo ∧ is_Some (is_Git s)) ∨
  (is_Kind s = IntegrationKindS3Bucket ∧ is_Some (is_S3 s)) ∨
  (is_Kind s = IntegrationKindDocumentation ∧ is_Some (is_Documentation s)).

#[export] Instance kind_configured_dec s : Decision (kind_configured s).
Proof. unfold kind_configured. apply _. Defined.

Lemma required_None {A} (c : option A) name kind : required c name kind = None ↔ is_Some c.
Proof. destruct c; cbn; [by split|]. split; [done|by intros [? ?]]. Qed.

Lemma validateResource_None i : validateResource i = None ↔ kind_configured (ig_Spec i).
Proof.
  unfold validateResource, kind_configured. cbv zeta. destruct (ig_Spec i) as []; cbn.
  repeat case_decide; subst; rewrite ?required_None; naive_solver.
Qed.

(** The integration on its way out. *)
Inductive integration_deletion (i : Integration) : Trace → Outcome → Prop :=
| id_gone : IntegrationFinalizer ∉ om_finalizers (ig_Meta i) → integration_deletion i [] done_
| id_unknown e : IntegrationFinalizer ∈ om_finalizers (ig_Meta i) →
    integration_deletion i [agents_listed (om_namespace (ig_Meta i)) (Err e)] (failed e)
| id_held agents n tr out : IntegrationFinalizer ∈ om_finalizers (ig_Meta i) →
    Exists (λ a, binds a i) agents →
    ig_Meta n = ig_Meta i → ig_Spec n = ig_Spec i →
    (∃ c, find_condition IntegrationConditionInUse (ist_Conditions (ig_Status n)) = Some c ∧
          c_status c = ConditionTrue) →
    status_written KIntegration i n (requeue requeueInterval) tr out →
    integration_deletion i (agents_listed (om_namespace (ig_Meta i)) (Ok agents) :: tr) out
| id_released agents i' x : IntegrationFinalizer ∈ om_finalizers (ig_Meta i) →
    Forall (λ a, ¬ binds a i) agents →
    (∀ f, f ∈ om_finalizers (ig_Meta i') ↔
          f ≠ IntegrationFinalizer ∧ f ∈ om_finalizers (ig_Meta i)) →
    ig_Spec i' = ig_Spec i →
    integration_deletion i [agents_listed (om_namespace (ig_Meta i)) (Ok agents);
                            existT (OpUpdate KIntegration i') x] (after_write x done_).

(** The integration in service: its phase and its Ready condition agree. *)
Inductive integration_served (i : Integration) : Trace → Outcome → Prop :=
| is_adopt i' x : IntegrationFinalizer ∉ om_finalizers (ig_Meta i) →
    (∀ f, f ∈ om_finalizers (ig_Meta i') ↔
          f = IntegrationFinalizer ∨ f ∈ om_finalizers (ig_Meta i)) →
    ig_Spec i' = ig_Spec i → ig_Status i' = ig_Status i →
    integration_served i [existT (OpUpdate KIntegration i') x] (after_write x done_)
| is_checked n c tr out : IntegrationFinalizer ∈ om_finalizers (ig_Meta i) →
    ig_Meta n = ig_Meta i → ig_Spec n = ig_Spec i →
    (ist_Phase (ig_Status n) = IntegrationPhaseReady ∨ ist_Phase (ig_Status n) = IntegrationPhaseFailed) →
    (ist_Phase (ig_Status n) = IntegrationPhaseReady ↔ kind_configured (ig_Spec i)) →
    find_condition IntegrationConditionReady (ist_Conditions (ig_Status n)) = Some c →
    (c_status c = ConditionTrue ↔ kind_configured (ig_Spec i)) →
    status_written KIntegration i n done_ tr out → integration_served i tr out.

Definition integration_reconciled (ns name : string) (tr : Trace) (out : Outcome) : Prop :=
  ∃ x rest, tr = existT (OpGet KIntegration ns name) x :: rest ∧
  match x with
  | Err e => rest = [] ∧ out = (if err_notFound e then done_ else failed e)
  | Ok i => if decide (om_deletionTimestamp (ig_Meta i) = 0%Z)
            then integration_served i rest out else integration_deletion i rest out
  end.

Section Integration.
Context `{ConditionOps} `{FinalizerOps}.

Lemma binds_names a i : binds_integration (om_name (ig_Meta i)) a = true ↔ binds a i.
Proof.
  unfold binds_integration, binds. rewrite existsb_elem_of, list_elem_of_fmap.
  setoid_rewrite bool_decide_eq_true. naive_solver.
Qed.

Lemma bound_pos i l : (0 < Z.of_nat (length
    (filter (λ a, binds_integration (om_name (ig_Meta i)) a = true) l)))%Z ↔
  Exists (λ a, binds a i) l.
Proof.
  etrans; [|symmetry; apply Exists_exists].
  etrans; [|apply (length_filter_pos (λ a, binds a i))].
  rewrite (list_filter_iff _ (λ a, binds a i)) by (intros a; apply binds_names). lia.
Qed.

Lemma integration_deletion_wp i :
  wp any_answer (IntegrationCtrl.reconcileDelete i) (integration_deletion i) [].
Proof.
  unfold IntegrationCtrl.reconcileDelete.
  destruct (ContainsFinalizer (ig_Meta i) IntegrationFinalizer) eqn:Hf.
  - apply ContainsFinalizer_spec in Hf. apply wp_bind, wp_call. intros [l|e] _; apply wp_ret;
      [|by apply wp_ret, id_unknown]. case_decide as Hu; cbv zeta.
    + apply bound_pos in Hu. apply wp_status_end.
      * intros Heq. eapply id_held; [done|done|..|by apply sw_same]; try done.
        eexists. split; [exact (find_SetStatusCondition _ (mkCondition IntegrationConditionInUse _ _ _))|done].
      * intros x. eapply id_held; [done|done|..|by apply sw_patch]; try done.
        eexists. split; [exact (find_SetStatusCondition _ (mkCondition IntegrationConditionInUse _ _ _))|done].
    + apply wp_call. intros x _. apply wp_ret.
      destruct (RemoveFinalizer_spec (ig_Meta i) IntegrationFinalizer) as (fs & Hm & Hfs).
      eapply (id_released _ l _ x); [done| | |done].
      * rewrite bound_pos in Hu. by apply Forall_Exists_neg in Hu.
      * intros f. cbn. rewrite Hm. cbn. apply Hfs.
  - apply wp_ret, id_gone. rewrite <- ContainsFinalizer_spec. by rewrite Hf.
Qed.

(** Either end of the validation writes the same kind of status. *)
Lemma integration_checked i n c :
  IntegrationFinalizer ∈ om_finalizers (ig_Meta i) →
  ig_Meta n = ig_Meta i → ig_Spec n = ig_Spec i →
  ist_Phase (ig_Status n) = (if decide (kind_configured (ig_Spec i))
                             then IntegrationPhaseReady else IntegrationPhaseFailed) →
  find_condition IntegrationConditionReady (ist_Conditions (ig_Status n)) = Some c →
  c_status c = (if decide (kind_configured (ig_Spec i)) then ConditionTrue else ConditionFalse) →
  wp any_answer (or_fail (patchStatus (k := KIntegration) n i) (mret done_)) (integration_served i) [].
Proof.
  intros Hf Hm Hs Hp Hc Hcs. apply wp_status_end; [intros Heq | intros x];
    (eapply is_checked; [done|done|done|..|by constructor]; [| |done|];
     rewrite ?Hp, ?Hcs; by case_decide; auto).
Qed.

Lemma integration_reconcile_wp ns name :
  wp any_answer (IntegrationCtrl.Reconcile ns name) (integration_reconciled ns name) [].
Proof.
  apply wp_call. intros x _. apply wp_trace. cbn [app].
  eapply (wp_mono _ _ (λ tr out, match x with
    | Err e => tr = [] ∧ out = (if err_notFound e then done_ else failed e)
    | Ok i => if decide (om_deletionTimestamp (ig_Meta i) = 0%Z)
              then integration_served i tr out else integration_deletion i tr out end)).
  { intros tr out HQ. by exists x, tr. }
  destruct x as [i|e]; [|by apply wp_ret]. unfold deleting.
  destruct (decide (om_deletionTimestamp (ig_Meta i) = 0%Z)) as [Hd|Hd];
    [rewrite bool_decide_eq_false_2 by (by intros ?) | rewrite bool_decide_eq_true_2 by done;
     apply integration_deletion_wp].
  pose proof (AddFinalizer_changed (ig_Meta i) IntegrationFinalizer) as Hch.
  destruct (AddFinalizer_spec (ig_Meta i) IntegrationFinalizer) as (fs & Hm & Hfs).
  destruct (AddFinalizer (ig_Meta i) IntegrationFinalizer) as [m changed]. cbn [fst snd] in *.
  subst m changed. destruct (ContainsFinalizer (ig_Meta i) IntegrationFinalizer) eqn:Hf; cbn [negb].
  - apply ContainsFinalizer_spec in Hf. pose proof (validateResource_None i) as Hv.
    destruct (validateResource i) as [e|].
    + assert (¬ kind_configured (ig_Spec i)) by (intros Hk; by apply Hv in Hk).
      eapply integration_checked; [done|done|done|..].
      * by rewrite decide_False by done.
      * exact (find_SetStatusCondition _ (mkCondition IntegrationConditionReady _ _ _)).
      * by rewrite decide_False by done.
    + assert (kind_configured (ig_Spec i)) by by apply Hv.
      eapply integration_checked; [done|done|done|..].
      * by rewrite decide_True by done.
      * exact (find_SetStatusCondition _ (mkCondition IntegrationConditionReady _ _ _)).
      * by rewrite decide_True by done.
  - apply wp_call. intros x _. apply wp_ret. eapply (is_adopt _ _ x); [..|done|done].
    + rewrite <- ContainsFinalizer_spec. by rewrite Hf.
    + intros f. cbn. apply Hfs.
Qed.

(** [C21] An Integration is deleted only after a list of its namespace showed no
    Agent binding it.  A live one first gets its finalizer, and is then Ready,
    in phase and in condition, exactly when the block that belongs to its kind
    is set. *)
Theorem integration_reconcile_spec ns name :
  wp any_answer (IntegrationCtrl.Reconcile ns name) (integration_reconciled ns name) [].
Proof. apply integration_reconcile_wp. Qed.
End Integration.
