(* ===== verification/FieldErrors.v ===== *)
(** * Admission: field errors and what a validating webhook answers

    [field.Error] and [apierrors.NewInvalid] of apimachinery as data: where
    the fault is, of which type, the value and the detail. *)

From Stdlib Require Import QArith.
From S2P Require Import Prelude GoLib KubeTypes ApiTypes.

Open Scope string_scope.
Open Scope list_scope.

Inductive PathElem := Child (name : string) | Index (i : nat).
Abbreviation Path := (list PathElem) (only parsing).
Definition specPath : Path := [Child "spec"].

Inductive BadValue := BadString (s : string) | BadFloat (q : Q) | BadInt (z : Z).
Inductive ErrorType := ErrorTypeInvalid (v : BadValue) | ErrorTypeRequired | ErrorTypeForbidden.

Record FieldError := mkFieldError { fe_path : Path; fe_type : ErrorType; fe_detail : string }.
Abbreviation ErrorList := (list FieldError) (only parsing).

Definition Invalid (p : Path) (v : BadValue) (detail : string) : FieldError :=
  mkFieldError p (ErrorTypeInvalid v) detail.
Definition Required (p : Path) (detail : string) : FieldError :=
  mkFieldError p ErrorTypeRequired detail.
Definition Forbidden (p : Path) (detail : string) : FieldError :=
  mkFieldError p ErrorTypeForbidden detail.

Record StatusInvalid := mkInvalid { inv_kind : string; inv_name : string; inv_errors : ErrorList }.

(** The warnings, and the error when the object is rejected. *)
Definition Admission : Type := list string * option StatusInvalid.
Definition admitted (r : Admission) : Prop := snd r = None.

(** [if len(allErrs) > 0 { return warnings, apierrors.NewInvalid(...) }] *)
Definition answer (warnings : list string) (kind name : string) (allErrs : ErrorList) : Admission :=
  (warnings, match allErrs with [] => None | _ => Some (mkInvalid kind name allErrs) end).

(** [if P { errs = append(errs, e) }] *)
Definition fail_if (P : Prop) `{Decision P} (e : FieldError) : ErrorList :=
  if decide P then [e] else [].

(** [for i, x := range l { errs = append(errs, f(i, x)...) }] *)
Definition each {A} (f : nat → A → ErrorList) (l : list A) : ErrorList := concat (imap f l).

Lemma answer_admitted warnings kind name errs :
  admitted (answer warnings kind name errs) ↔ errs = [].
Proof. unfold admitted, answer. by destruct errs. Qed.

Lemma fail_if_nil (P : Prop) `{Decision P} e : fail_if P e = [] ↔ ¬ P.
Proof. unfold fail_if. by case_decide. Qed.

Lemma elem_of_fail_if (P : Prop) `{Decision P} e e' : e' ∈ fail_if P e ↔ P ∧ e' = e.
Proof. unfold fail_if. case_decide; rewrite ?list_elem_of_singleton; set_solver. Qed.

Lemma app_nil_iff {A} (l k : list A) : l ++ k = [] ↔ l = [] ∧ k = [].
Proof. split; [apply app_nil | by intros [-> ->]]. Qed.

Lemma elem_of_each {A} (f : nat → A → ErrorList) l e :
  e ∈ each f l ↔ ∃ i x, l !! i = Some x ∧ e ∈ f i x.
Proof.
  unfold each. rewrite list_elem_of_In, in_concat. setoid_rewrite <- list_elem_of_In.
  setoid_rewrite elem_of_lookup_imap. naive_solver.
Qed.

Lemma each_nil {A} (f : nat → A → ErrorList) l :
  each f l = [] ↔ ∀ i x, l !! i = Some x → f i x = [].
Proof.
  split.
  - intros Hnil i x Hx. apply elem_of_nil_inv. intros e He.
    apply (not_elem_of_nil e). rewrite <- Hnil. apply elem_of_each. eauto.
  - intros Hall. apply elem_of_nil_inv. intros e (i & x & Hx & He)%elem_of_each.
    rewrite (Hall i x Hx) in He. by apply not_elem_of_nil in He.
Qed.
