(* ===== verification/AgentWebhook.v ===== *)
(** * The validating webhook of Agent (api/v1alpha1/agent_webhook.go) *)

From Stdlib Require Import QArith.
From S2P Require Import Prelude GoLib KubeTypes ApiTypes FieldErrors.

Open Scope string_scope.
Open Scope list_scope.

Definition builtinTools : list string :=
  ["bash"; "read"; "edit"; "write"; "grep"; "ls"; "glob"; "fetch"].

Definition storage_size_missing (a : Agent) : Prop :=
  match as_Storage (ag_Spec a) with Some s => sto_Size s = "" | None => False end.
#[export] Instance storage_size_missing_dec a : Decision (storage_size_missing a).
Proof. unfold storage_size_missing. destruct (as_Storage _); apply _. Defined.

Definition validateMode (a : Agent) (path : Path) : ErrorList :=
  let mode := as_Mode (ag_Spec a) in
  fail_if (mode ≠ AgentModeDaemon ∧ mode ≠ AgentModeTask)
    (Invalid (path ++ [Child "mode"]) (BadString mode) "must be 'daemon' or 'task'")
  ++ fail_if (mode = AgentModeTask ∧ is_Some (as_Storage (ag_Spec a)))
    (Forbidden (path ++ [Child "storage"]) "storage is not allowed for task-mode agents")
  ++ fail_if (storage_size_missing a)
    (Required (path ++ [Child "storage"; Child "size"])
       ("storage size is required when storage is configured (e.g. " +:+ GoFmt.q "1Gi" +:+ ")")).

Definition temperature_errors (t : option Q) (path : Path) : ErrorList :=
  match t with
  | Some t => if negb (Qle_bool 0 t) || negb (Qle_bool t 2)
              then [Invalid (path ++ [Child "temperature"]) (BadFloat t) "must be between 0.0 and 2.0"]
              else []
  | None => []
  end.

Definition max_steps_errors (n : option Z) (path : Path) : ErrorList :=
  match n with
  | Some n => fail_if (n ≤ 0)%Z (Invalid (path ++ [Child "maxSteps"]) (BadInt n) "must be > 0")
  | None => []
  end.

Definition validateRuntime (a : Agent) (path : Path) : ErrorList :=
  each (λ i tool, fail_if (tool ∉ builtinTools)
    (Invalid (path ++ [Child "builtinTools"; Index i]) (BadString tool)
       "valid tools: bash, read, edit, write, grep, ls, glob, fetch")) (elems (as_BuiltinTools (ag_Spec a)))
  ++ temperature_errors (as_Temperature (ag_Spec a)) path
  ++ max_steps_errors (as_MaxSteps (ag_Spec a)) path.

Definition slash : ascii := ascii_of_nat 47.

Definition fallback_errors (providerNames : list string) (path : Path) (i : nat) (model : string)
  : ErrorList :=
  match GoStrings.SplitN2 model slash with
  | (provider, Some _) =>
      fail_if (provider ∉ providerNames)
        (Invalid (path ++ [Child "fallbackModels"; Index i]) (BadString model)
           ("provider " +:+ GoFmt.q provider +:+ " is not configured in providerRefs"))
  | (_, None) => []
  end.

Definition validateProviders (a : Agent) (path : Path) : ErrorList :=
  fail_if (as_ProviderRefs (ag_Spec a) = [])
    (Required (path ++ [Child "providerRefs"]) "at least one Provider CR reference is required")
  ++ each (fallback_errors (pb_Name <$> as_ProviderRefs (ag_Spec a)) path)
       (as_FallbackModels (ag_Spec a)).

Definition validateTools (a : Agent) (path : Path) : ErrorList :=
  let toolCount := (Z.of_nat (length (as_Tools (ag_Spec a))) + BuiltinToolCount a)%Z in
  fail_if (toolCount = 0%Z)
    (Required (path ++ [Child "tools"]) "agents need at least one tool (builtinTools or tools)").

Definition validateSchedule (a : Agent) (path : Path) : ErrorList :=
  fail_if (as_Schedule (ag_Spec a) ≠ "" ∧ as_SchedulePrompt (ag_Spec a) = "")
    (Required (path ++ [Child "schedulePrompt"]) "schedulePrompt is required when schedule is set").

Definition knownTools (a : Agent) : list string :=
  elems (as_BuiltinTools (ag_Spec a)) ++ (tb_Name <$> as_Tools (ag_Spec a)) ++ ["run_agent"; "get_agent_run"].

(** [filepath.IsAbs] of a Unix system. *)
Definition IsAbs (path : string) : bool := GoStrings.HasPrefix path "/".

Definition validateToolHooks (a : Agent) (path : Path) : ErrorList * list string :=
  match as_ToolHooks (ag_Spec a) with
  | None => ([], [])
  | Some th =>
      (each (λ i p, fail_if (IsAbs p = false)
         (Invalid (path ++ [Child "toolHooks"; Child "allowedPaths"; Index i]) (BadString p)
            "must be an absolute path")) (th_AllowedPaths th),
       (λ tool, "toolHooks.auditTools: " +:+ GoFmt.q tool +:+ " is not a known tool name") <$>
         filter (λ tool, tool ∉ knownTools a) (th_AuditTools th))
  end.

(** The loop of [validateIntegrations], from index [i] on. *)
Fixpoint binding_errors (path : Path) (seen : list string) (i : nat) (l : list IntegrationBinding)
  : ErrorList :=
  match l with
  | [] => []
  | rb :: l' =>
      let at_ := path ++ [Child "integrations"; Index i; Child "name"] in
      if decide (ib_Name rb = "") then
        Required at_ "integration binding name is required" :: binding_errors path seen (S i) l'
      else
        fail_if (ib_Name rb ∈ seen)
          (Invalid at_ (BadString (ib_Name rb)) "duplicate integration binding name")
        ++ binding_errors path (ib_Name rb :: seen) (S i) l'
  end.

Definition validateIntegrations (a : Agent) (path : Path) : ErrorList :=
  binding_errors path [] 0 (as_Integrations (ag_Spec a)).

Definition validate (a : Agent) : Admission :=
  let '(hook_errs, warnings) := validateToolHooks a specPath in
  answer warnings "Agent" (om_name (ag_Meta a))
    (validateMode a specPath ++ validateRuntime a specPath ++ validateProviders a specPath
     ++ validateTools a specPath ++ hook_errs ++ validateIntegrations a specPath
     ++ validateSchedule a specPath).

Definition ValidateCreate (a : Agent) : Admission := validate a.
Definition ValidateUpdate (old new : Agent) : Admission := validate new.
Definition ValidateDelete (a : Agent) : Admission := ([], None).

(** ** What is admitted *)

(** The part of a model name before its slash, when it has one. *)
Definition model_provider (model provider : string) : Prop :=
  ∃ rest, model = provider +:+ String slash rest ∧ slash ∉ GoStrings.chars provider.

Record AgentValid (a : Agent) : Prop := {
  av_mode : as_Mode (ag_Spec a) = AgentModeDaemon ∨ as_Mode (ag_Spec a) = AgentModeTask;
  av_task_storage : as_Mode (ag_Spec a) = AgentModeTask → as_Storage (ag_Spec a) = None;
  av_storage_size s : as_Storage (ag_Spec a) = Some s → sto_Size s ≠ "";
  av_builtin tool : tool ∈ elems (as_BuiltinTools (ag_Spec a)) → tool ∈ builtinTools;
  av_temperature t : as_Temperature (ag_Spec a) = Some t → (0 <= t <= 2)%Q;
  av_maxSteps n : as_MaxSteps (ag_Spec a) = Some n → (0 < n)%Z;
  av_providers : as_ProviderRefs (ag_Spec a) ≠ [];
  av_fallbacks model provider : model ∈ as_FallbackModels (ag_Spec a) →
    model_provider model provider → provider ∈ pb_Name <$> as_ProviderRefs (ag_Spec a);
  av_tools : as_Tools (ag_Spec a) ≠ [] ∨ elems (as_BuiltinTools (ag_Spec a)) ≠ [];
  av_paths th p : as_ToolHooks (ag_Spec a) = Some th → p ∈ th_AllowedPaths th →
    ∃ rest, p = String slash rest;
  av_bound b : b ∈ as_Integrations (ag_Spec a) → ib_Name b ≠ "";
  av_bindings : NoDup (ib_Name <$> as_Integrations (ag_Spec a));
  av_schedule : as_Schedule (ag_Spec a) ≠ "" → as_SchedulePrompt (ag_Spec a) ≠ "";
}.

(** An audited tool the agent does not have. *)
Definition unknown_audit (a : Agent) (tool : string) : Prop :=
  (∃ th, as_ToolHooks (ag_Spec a) = Some th ∧ tool ∈ th_AuditTools th) ∧
  tool ∉ elems (as_BuiltinTools (ag_Spec a)) ∧ tool ∉ tb_Name <$> as_Tools (ag_Spec a) ∧
  tool ≠ "run_agent" ∧ tool ≠ "get_agent_run".

Lemma validateMode_nil a path :
  validateMode a path = [] ↔
  (as_Mode (ag_Spec a) = AgentModeDaemon ∨ as_Mode (ag_Spec a) = AgentModeTask) ∧
  (as_Mode (ag_Spec a) = AgentModeTask → as_Storage (ag_Spec a) = None) ∧
  (∀ s, as_Storage (ag_Spec a) = Some s → sto_Size s ≠ "").
Proof.
  unfold validateMode, storage_size_missing. cbv zeta. rewrite !app_nil_iff, !fail_if_nil.
  assert (∀ P Q : Prop, Decision P → Decision Q → (¬ (¬ P ∧ ¬ Q) ↔ P ∨ Q)) as Hor.
  { intros P Q [?|?] [?|?]; tauto. }
  rewrite Hor by apply _. clear Hor. destruct (as_Storage (ag_Spec a)) as [s|].
  - rewrite is_Some_alt. naive_solver.
  - rewrite is_Some_alt. naive_solver.
Qed.

Lemma temperature_errors_nil t path :
  temperature_errors t path = [] ↔ ∀ q, t = Some q → (0 <= q <= 2)%Q.
Proof.
  destruct t as [q|]; cbn; [|naive_solver].
  destruct (Qle_bool 0 q) eqn:E1, (Qle_bool q 2) eqn:E2; cbn;
    rewrite <- ?not_true_iff_false, ?Qle_bool_iff in *; naive_solver.
Qed.

Lemma max_steps_errors_nil n path :
  max_steps_errors n path = [] ↔ ∀ z, n = Some z → (0 < z)%Z.
Proof.
  destruct n as [z|]; cbn; [rewrite fail_if_nil; split; [intros ? ? [= <-]; lia|]|naive_solver].
  intros Hz. specialize (Hz z eq_refl). lia.
Qed.

Lemma fallback_errors_nil names path i model :
  fallback_errors names path i model = [] ↔
  ∀ provider, model_provider model provider → provider ∈ names.
Proof.
  unfold fallback_errors, GoStrings.SplitN2, model_provider.
  destruct (GoStrings.cut slash model) as [[x y]|] eqn:E.
  - apply GoStrings.cut_Some in E as [Hm Hx]. rewrite fail_if_nil. split.
    + intros Hin provider (rest & Hr & Hp). destruct (decide (x ∈ names)) as [Hi|]; [|done].
      assert (GoStrings.cut slash model = Some (x, y)) as H1 by (apply GoStrings.cut_Some; by split).
      assert (GoStrings.cut slash model = Some (provider, rest)) as H2
        by (apply GoStrings.cut_Some; by split).
      congruence.
    + intros Hall Hn. apply Hn, Hall. eauto.
  - apply GoStrings.cut_None in E. split; [|done]. intros _ provider (rest & -> & _).
    exfalso. apply E. rewrite GoStrings.chars_app. cbn. set_solver.
Qed.

Lemma IsAbs_spec p : IsAbs p = true ↔ ∃ rest, p = String slash rest.
Proof. unfold IsAbs. rewrite GoStrings.HasPrefix_spec. naive_solver. Qed.

(** A binding is at fault exactly when it has no name or the name of an
    earlier one. *)
Definition binding_fault (l : list IntegrationBinding) (seen : list string) (i : nat) : Prop :=
  ∃ b, l !! i = Some b ∧
  (ib_Name b = "" ∨ ib_Name b ∈ seen ∨ ∃ j c, (j < i)%nat ∧ l !! j = Some c ∧ ib_Name c = ib_Name b).

Lemma binding_fault_cons b l seen i :
  binding_fault (b :: l) seen (S i) ↔
  binding_fault l (if decide (ib_Name b = "") then seen else ib_Name b :: seen) i.
Proof.
  unfold binding_fault. cbn. split; intros (c & Hc & Hf); exists c; (split; [done|]).
  - destruct Hf as [?|[?|([|j] & c' & Hj & Hl & Hn)]]; [by left| | |].
    + right; left. case_decide; set_solver.
    + cbn in Hl. simplify_eq. case_decide; [left; congruence|right; left; set_solver].
    + right; right. exists j, c'. split; [lia|done].
  - destruct Hf as [?|[Hin|(j & c' & Hj & Hl & Hn)]]; [by left| |].
    + case_decide; [by right; left|]. apply elem_of_cons in Hin as [Hin|?]; [|by right; left].
      right; right. exists 0%nat, b. split; [lia|done].
    + right; right. exists (S j), c'. split; [lia|done].
Qed.

Lemma binding_errors_spec path seen k l e :
  e ∈ binding_errors path seen k l →
  ∃ i, binding_fault l seen i ∧ fe_path e = path ++ [Child "integrations"; Index (k + i); Child "name"].
Proof.
  revert seen k. induction l as [|b l IH]; intros seen k; cbn; [by intros ?%not_elem_of_nil|].
  intros He. assert (
    (binding_fault (b :: l) seen 0 ∧ fe_path e = path ++ [Child "integrations"; Index k; Child "name"])
    ∨ e ∈ binding_errors path (if decide (ib_Name b = "") then seen else ib_Name b :: seen) (S k) l)
    as [[Hf Hp]|Hl].
  { case_decide as Hn.
    - apply elem_of_cons in He as [->|He]; [left|by right]. split; [|done]. exists b. by split; [|left].
    - apply elem_of_app in He as [(Hs & ->)%elem_of_fail_if|He]; [left|by right].
      split; [|done]. exists b. by split; [|right; left]. }
  - exists 0%nat. split; [done|]. by rewrite Nat.add_0_r.
  - apply IH in Hl as (i & Hi & Hp). exists (S i). rewrite binding_fault_cons.
    split; [done|]. by rewrite Nat.add_succ_r.
Qed.

Lemma binding_errors_complete path seen k l i :
  binding_fault l seen i →
  ∃ e, e ∈ binding_errors path seen k l ∧
       fe_path e = path ++ [Child "integrations"; Index (k + i); Child "name"].
Proof.
  revert seen k i. induction l as [|b l IH]; intros seen k i Hf; [by destruct Hf as (? & ? & _)|].
  cbn. destruct i as [|i].
  - destruct Hf as (c & [= <-] & Hf). rewrite Nat.add_0_r. case_decide as Hn.
    + eexists. split; [left|done].
    + destruct Hf as [?|[Hs|(? & ? & ? & _)]]; [done| |lia].
      eexists. split; [apply elem_of_app; left; by apply elem_of_fail_if|done].
  - apply binding_fault_cons in Hf. apply (IH _ (S k)) in Hf as (e & He & Hp).
    exists e. split; [|by rewrite Nat.add_succ_r]. case_decide; set_solver.
Qed.

Lemma no_binding_fault l :
  (∀ i, ¬ binding_fault l [] i) ↔ (∀ b, b ∈ l → ib_Name b ≠ "") ∧ NoDup (ib_Name <$> l).
Proof.
  split.
  - intros Hnf. split.
    + intros b (i & Hi)%list_elem_of_lookup Hn. apply (Hnf i). exists b. by split; [|left].
    + apply NoDup_alt. intros i j x. rewrite !list_lookup_fmap.
      intros (b & Hb & ->)%fmap_Some (c & Hc & Hn)%fmap_Some.
      destruct (lt_eq_lt_dec i j) as [[Hlt|]|Hlt]; [exfalso|done|exfalso].
      * apply (Hnf j). exists c. split; [done|]. right; right. exists i, b. done.
      * apply (Hnf i). exists b. split; [done|]. right; right. exists j, c. done.
  - intros [Hne Hnd] i (b & Hb & [Hn|[Hn|(j & c & Hj & Hc & Hn)]]).
    + apply (Hne b); [by eapply list_elem_of_lookup_2|done].
    + by apply not_elem_of_nil in Hn.
    + assert (j = i); [|lia]. apply (NoDup_lookup (ib_Name <$> l) j i (ib_Name b) Hnd); rewrite list_lookup_fmap.
      * rewrite Hc. cbn. by rewrite Hn.
      * by rewrite Hb.
Qed.

Lemma validateIntegrations_nil a :
  validateIntegrations a specPath = [] ↔
  (∀ b, b ∈ as_Integrations (ag_Spec a) → ib_Name b ≠ "") ∧
  NoDup (ib_Name <$> as_Integrations (ag_Spec a)).
Proof.
  rewrite <- no_binding_fault. unfold validateIntegrations. split.
  - intros Hnil i Hf. apply (binding_errors_complete specPath [] 0) in Hf as (e & He & _).
    rewrite Hnil in He. by apply not_elem_of_nil in He.
  - intros Hnf. apply elem_of_nil_inv. intros e (i & Hf & _)%binding_errors_spec. by apply (Hnf i).
Qed.

Lemma hooks_nil a :
  fst (validateToolHooks a specPath) = [] ↔
  ∀ th p, as_ToolHooks (ag_Spec a) = Some th → p ∈ th_AllowedPaths th → ∃ rest, p = String slash rest.
Proof.
  unfold validateToolHooks. destruct (as_ToolHooks (ag_Spec a)) as [th|]; cbn; [|naive_solver].
  rewrite each_nil. setoid_rewrite fail_if_nil. split.
  - intros Hall th' p [= <-] (i & Hi)%list_elem_of_lookup. apply IsAbs_spec.
    specialize (Hall i p Hi). by destruct (IsAbs p).
  - intros Hall i p Hi%list_elem_of_lookup_2. rewrite (proj2 (IsAbs_spec p)); [done|]. eauto.
Qed.

Lemma hooks_warnings a w :
  w ∈ snd (validateToolHooks a specPath) ↔
  ∃ tool, unknown_audit a tool ∧ w = "toolHooks.auditTools: " +:+ GoFmt.q tool +:+ " is not a known tool name".
Proof.
  unfold validateToolHooks, unknown_audit, knownTools.
  destruct (as_ToolHooks (ag_Spec a)) as [th|]; cbn; [|set_solver].
  rewrite list_elem_of_fmap. setoid_rewrite list_elem_of_filter. set_solver.
Qed.

Lemma agent_admitted a : admitted (ValidateCreate a) ↔ AgentValid a.
Proof.
  unfold ValidateCreate, validate. pose proof (hooks_nil a) as Hh.
  destruct (validateToolHooks a specPath) as [hook_errs warnings]. cbn in Hh.
  rewrite answer_admitted, !app_nil_iff, Hh, validateIntegrations_nil, validateMode_nil.
  unfold validateRuntime, validateProviders, validateTools, validateSchedule, BuiltinToolCount.
  rewrite !app_nil_iff, !each_nil, temperature_errors_nil, max_steps_errors_nil.
  setoid_rewrite fallback_errors_nil. cbv zeta. rewrite !fail_if_nil. setoid_rewrite fail_if_nil.
  split.
  + intros ((Hm & Ht & Hs) & (Hb & Hq & Hn) & (Hp & Hf) & Hc & Hpath & (Hne & Hnd) & Hsch).
    split; try done.
    * intros tool (i & Hi)%list_elem_of_lookup. specialize (Hb i tool Hi).
      by destruct (decide (tool ∈ builtinTools)).
    * intros model provider (i & Hi)%list_elem_of_lookup. eauto.
    * destruct (as_Tools _); [|by left]. right. intros Hnil. by rewrite Hnil in Hc.
    * intros H1 H2. by apply Hsch.
  + intros []. split_and!; try done.
    * intros i tool Hi%list_elem_of_lookup_2. auto.
    * intros i model Hi%list_elem_of_lookup_2. eauto.
    * destruct (as_Tools _), (elems (as_BuiltinTools _)); naive_solver lia.
    * intros [H1 H2]. by apply av_schedule0.
Qed.

(** The same agent with another model name, other concurrency settings and another
    schedule, of which the webhook asks only whether there is one. *)
Definition respecified (a : Agent) (model schedule : string) (c : option ConcurrencySpec) : Agent :=
  a <| ag_Spec ::= λ s, s <| as_Model := model |> <| as_Schedule := schedule |> <| as_Concurrency := c |> |>.

Lemma respecified_valid a model schedule c : (schedule = "" ↔ as_Schedule (ag_Spec a) = "") →
  AgentValid (respecified a model schedule c) ↔ AgentValid a.
Proof.
  intros Hs. destruct a as [m [] st]. cbn in Hs.
  split; intros []; split; cbn in *; try assumption; tauto.
Qed.

(** [C22] The Agent webhook, on create and on update, admits exactly the agents
    that are valid: a known mode, storage only for daemons and with a size,
    builtin tools by their names, temperature and steps in range, at least one
    provider and one tool that is named (no builtinTools at all, documented as
    all defaults, counts as none), fallback models of its own providers, absolute
    paths, integrations bound once each and by name, a prompt for a schedule.
    It reports a binding exactly when it has no name or repeats an earlier
    one, and warns of exactly the audited tools the agent does not have.  The text
    of the model, the concurrency policy and the cron expression, which the README
    has it check, make no difference to it. *)
Theorem agent_admitted_iff_valid a :
  (admitted (ValidateCreate a) ↔ AgentValid a) ∧
  (∀ old, ValidateUpdate old a = ValidateCreate a) ∧
  (∀ i, (∃ e, e ∈ validateIntegrations a specPath ∧
              fe_path e = [Child "spec"; Child "integrations"; Index i; Child "name"])
        ↔ binding_fault (as_Integrations (ag_Spec a)) [] i) ∧
  (∀ w, w ∈ fst (ValidateCreate a) ↔ ∃ tool, unknown_audit a tool ∧
        w = "toolHooks.auditTools: " +:+ GoFmt.q tool +:+ " is not a known tool name") ∧
  (∀ model schedule c, (schedule = "" ↔ as_Schedule (ag_Spec a) = "") →
     admitted (ValidateCreate (respecified a model schedule c)) ↔ admitted (ValidateCreate a)).
Proof.
  split_and!; [by apply agent_admitted|done| | |].
  - intros i. unfold validateIntegrations. split.
    + intros (e & (j & Hf & Hp)%binding_errors_spec & He). rewrite He in Hp.
      by injection Hp as ->.
    + intros Hf. by apply (binding_errors_complete specPath [] 0) in Hf.
  - intros w. rewrite <- hooks_warnings. unfold ValidateCreate, validate.
    by destruct (validateToolHooks a specPath).
  - intros model schedule c Hs. rewrite !agent_admitted. by apply respecified_valid.
Qed.
