(* ===== verification/ProviderWebhook.v ===== *)
(** * The validating webhook of Provider (api/v1alpha1/provider_webhook.go)

    With what its answer means for the Provider controller. *)

From S2P Require Import Prelude GoLib KubeTypes ApiTypes FieldErrors ProviderCtrl.

Open Scope string_scope.
Open Scope list_scope.

Definition validTypes : list ProviderType :=
  [ProviderTypeAnthropic; ProviderTypeOpenAI; ProviderTypeGoogle; ProviderTypeAzure;
   ProviderTypeBedrock; ProviderTypeOpenRouter; ProviderTypeOpenAICompat].

Definition validateType (p : Provider) (path : Path) : ErrorList :=
  fail_if (prs_Type (prov_Spec p) ∉ validTypes)
    (Invalid (path ++ [Child "type"]) (BadString (prs_Type (prov_Spec p)))
       "must be one of: anthropic, openai, google, azure, bedrock, openrouter, openaicompat").

Definition validateEndpoint (p : Provider) (path : Path) : ErrorList :=
  fail_if (prs_Type (prov_Spec p) = ProviderTypeOpenAICompat ∧
           match prs_Endpoint (prov_Spec p) with Some e => pe_BaseURL e = "" | None => True end)
    (Required (path ++ [Child "endpoint"; Child "baseURL"])
       "openaicompat providers require a base URL").

Definition validateConfig (p : Provider) (path : Path) : ErrorList :=
  match prs_Config (prov_Spec p) with
  | None => []
  | Some cfg =>
      let type := prs_Type (prov_Spec p) in
      let configPath := path ++ [Child "config"] in
      fail_if (is_Some (pc_Vertex cfg) ∧ type ≠ ProviderTypeAnthropic ∧ type ≠ ProviderTypeGoogle)
        (Forbidden (configPath ++ [Child "vertex"])
           "vertex config is only valid for anthropic and google providers")
      ++ fail_if (pc_Bedrock cfg = true ∧ type ≠ ProviderTypeAnthropic ∧ type ≠ ProviderTypeBedrock)
        (Forbidden (configPath ++ [Child "bedrock"])
           "bedrock config is only valid for anthropic and bedrock providers")
      ++ fail_if (is_Some (pc_Vertex cfg) ∧ pc_Bedrock cfg = true)
        (Forbidden (configPath ++ [Child "bedrock"]) "vertex and bedrock are mutually exclusive")
      ++ fail_if (pc_AzureAPIVersion cfg ≠ "" ∧ type ≠ ProviderTypeAzure)
        (Forbidden (configPath ++ [Child "azureAPIVersion"])
           "azureAPIVersion is only valid for azure providers")
      ++ (if decide ((pc_Organization cfg ≠ "" ∨ pc_Project cfg ≠ "") ∧ type ≠ ProviderTypeOpenAI) then
            fail_if (pc_Organization cfg ≠ "")
              (Forbidden (configPath ++ [Child "organization"])
                 "organization is only valid for openai providers")
            ++ fail_if (pc_Project cfg ≠ "")
              (Forbidden (configPath ++ [Child "project"]) "project is only valid for openai providers")
          else [])
      ++ fail_if (pc_UseResponsesAPI cfg = true ∧
                  type ∉ [ProviderTypeOpenAI; ProviderTypeAzure; ProviderTypeOpenAICompat])
        (Forbidden (configPath ++ [Child "useResponsesAPI"])
           "useResponsesAPI is only valid for openai, azure, and openaicompat providers")
  end.

(** The two ways to set Gemini's thinking, both set. *)
Definition thinking_clash (defs : ProviderCallDefaults) : Prop :=
  match pcd_Google defs with
  | Some g => gcd_ThinkingLevel g ≠ "" ∧ is_Some (gcd_ThinkingBudgetTokens g)
  | None => False
  end.
#[export] Instance thinking_clash_dec defs : Decision (thinking_clash defs).
Proof. unfold thinking_clash. destruct (pcd_Google defs); apply _. Defined.

Definition validateDefaults (p : Provider) (path : Path) : ErrorList :=
  match prs_Defaults (prov_Spec p) with
  | None => []
  | Some defs =>
      let type := prs_Type (prov_Spec p) in
      let defaultsPath := path ++ [Child "defaults"] in
      fail_if (is_Some (pcd_Anthropic defs) ∧ type ≠ ProviderTypeAnthropic ∧ type ≠ ProviderTypeBedrock)
        (Forbidden (defaultsPath ++ [Child "anthropic"])
           ("anthropic call defaults are not valid for " +:+ type +:+ " providers"))
      ++ fail_if (is_Some (pcd_OpenAI defs) ∧
                  type ∉ [ProviderTypeOpenAI; ProviderTypeAzure; ProviderTypeOpenAICompat;
                          ProviderTypeOpenRouter])
        (Forbidden (defaultsPath ++ [Child "openai"])
           ("openai call defaults are not valid for " +:+ type +:+ " providers"))
      ++ fail_if (is_Some (pcd_Google defs) ∧ type ≠ ProviderTypeGoogle)
        (Forbidden (defaultsPath ++ [Child "google"])
           ("google call defaults are not valid for " +:+ type +:+ " providers"))
      ++ fail_if (thinking_clash defs)
        (Forbidden (defaultsPath ++ [Child "google"; Child "thinkingBudgetTokens"])
           "thinkingLevel and thinkingBudgetTokens are mutually exclusive")
  end.

Definition validate (p : Provider) : Admission :=
  answer [] "Provider" (om_name (prov_Meta p))
    (validateType p specPath ++ validateEndpoint p specPath ++ validateConfig p specPath
     ++ validateDefaults p specPath).

Definition ValidateCreate (p : Provider) : Admission := validate p.
Definition ValidateUpdate (old new : Provider) : Admission := validate new.
Definition ValidateDelete (p : Provider) : Admission := ([], None).

(** ** What is admitted *)

(** The API a setting belongs to, by the provider types that have it. *)
Record ProviderValid (p : Provider) : Prop := {
  pv_type : prs_Type (prov_Spec p) ∈ validTypes;
  pv_endpoint : prs_Type (prov_Spec p) = ProviderTypeOpenAICompat →
    ∃ e, prs_Endpoint (prov_Spec p) = Some e ∧ pe_BaseURL e ≠ "";
  pv_vertex cfg v : prs_Config (prov_Spec p) = Some cfg → pc_Vertex cfg = Some v →
    prs_Type (prov_Spec p) ∈ [ProviderTypeAnthropic; ProviderTypeGoogle] ∧ pc_Bedrock cfg = false;
  pv_bedrock cfg : prs_Config (prov_Spec p) = Some cfg → pc_Bedrock cfg = true →
    prs_Type (prov_Spec p) ∈ [ProviderTypeAnthropic; ProviderTypeBedrock];
  pv_azure cfg : prs_Config (prov_Spec p) = Some cfg → pc_AzureAPIVersion cfg ≠ "" →
    prs_Type (prov_Spec p) = ProviderTypeAzure;
  pv_openai cfg : prs_Config (prov_Spec p) = Some cfg →
    pc_Organization cfg ≠ "" ∨ pc_Project cfg ≠ "" → prs_Type (prov_Spec p) = ProviderTypeOpenAI;
  pv_responses cfg : prs_Config (prov_Spec p) = Some cfg → pc_UseResponsesAPI cfg = true →
    prs_Type (prov_Spec p) ∈ [ProviderTypeOpenAI; ProviderTypeAzure; ProviderTypeOpenAICompat];
  pv_anthropic_defaults d x : prs_Defaults (prov_Spec p) = Some d → pcd_Anthropic d = Some x →
    prs_Type (prov_Spec p) ∈ [ProviderTypeAnthropic; ProviderTypeBedrock];
  pv_openai_defaults d x : prs_Defaults (prov_Spec p) = Some d → pcd_OpenAI d = Some x →
    prs_Type (prov_Spec p) ∈ [ProviderTypeOpenAI; ProviderTypeAzure; ProviderTypeOpenAICompat;
                              ProviderTypeOpenRouter];
  pv_google_defaults d g : prs_Defaults (prov_Spec p) = Some d → pcd_Google d = Some g →
    prs_Type (prov_Spec p) = ProviderTypeGoogle ∧
    (gcd_ThinkingLevel g = "" ∨ gcd_ThinkingBudgetTokens g = None);
}.

(** Exactly one way to authenticate. *)
Definition one_auth (p : Provider) : Prop :=
  (is_Some (prs_ApiKeySecret (prov_Spec p)) ∧
   prs_Endpoint (prov_Spec p) ≫= pe_OAuth2ClientCredentials = None) ∨
  (prs_ApiKeySecret (prov_Spec p) = None ∧
   is_Some (prs_Endpoint (prov_Spec p) ≫= pe_OAuth2ClientCredentials)).

Lemma auth_issues_nil p : auth_issues p = [] ↔ one_auth p.
Proof.
  unfold auth_issues, one_auth, hasAPIKey, hasOAuth.
  destruct (prs_ApiKeySecret _), (prs_Endpoint _ ≫= _); cbn;
    repeat case_bool_decide; rewrite ?is_Some_alt in *; naive_solver.
Qed.

(** A condition that an error reports, read the other way round. *)
Lemma not_fault (P : Prop) (t : string) (l : list string) : ¬ (P ∧ t ∉ l) ↔ (P → t ∈ l).
Proof. destruct (decide (t ∈ l)); tauto. Qed.
Lemma not_fault_1 (P : Prop) (t x : string) : ¬ (P ∧ t ≠ x) ↔ (P → t = x).
Proof. destruct (decide (t = x)); tauto. Qed.
Lemma not_fault_2 (P : Prop) (t x y : string) : ¬ (P ∧ t ≠ x ∧ t ≠ y) ↔ (P → t ∈ [x; y]).
Proof. rewrite <- not_fault. set_solver. Qed.

Lemma validateType_nil p path : validateType p path = [] ↔ prs_Type (prov_Spec p) ∈ validTypes.
Proof.
  unfold validateType. rewrite fail_if_nil. destruct (decide (prs_Type (prov_Spec p) ∈ validTypes)); tauto.
Qed.

Lemma validateEndpoint_nil p path :
  validateEndpoint p path = [] ↔
  (prs_Type (prov_Spec p) = ProviderTypeOpenAICompat →
   ∃ e, prs_Endpoint (prov_Spec p) = Some e ∧ pe_BaseURL e ≠ "").
Proof.
  unfold validateEndpoint. rewrite fail_if_nil.
  destruct (prs_Endpoint (prov_Spec p)) as [e|]; [|naive_solver].
  destruct (decide (pe_BaseURL e = "")); naive_solver.
Qed.

Lemma organization_nil (t o j : string) path :
  (if decide ((o ≠ "" ∨ j ≠ "") ∧ t ≠ ProviderTypeOpenAI) then
     fail_if (o ≠ "") (Forbidden (path ++ [Child "organization"]) "organization is only valid for openai providers")
     ++ fail_if (j ≠ "") (Forbidden (path ++ [Child "project"]) "project is only valid for openai providers")
   else []) = [] ↔ (o ≠ "" ∨ j ≠ "" → t = ProviderTypeOpenAI).
Proof.
  rewrite <- not_fault_1. case_decide as Hc; [|by split].
  rewrite app_nil_iff, !fail_if_nil. tauto.
Qed.

Lemma validateConfig_nil p path :
  validateConfig p path = [] ↔ ∀ cfg, prs_Config (prov_Spec p) = Some cfg →
  let t := prs_Type (prov_Spec p) in
  (is_Some (pc_Vertex cfg) → t ∈ [ProviderTypeAnthropic; ProviderTypeGoogle]) ∧
  (pc_Bedrock cfg = true → t ∈ [ProviderTypeAnthropic; ProviderTypeBedrock]) ∧
  ¬ (is_Some (pc_Vertex cfg) ∧ pc_Bedrock cfg = true) ∧
  (pc_AzureAPIVersion cfg ≠ "" → t = ProviderTypeAzure) ∧
  (pc_Organization cfg ≠ "" ∨ pc_Project cfg ≠ "" → t = ProviderTypeOpenAI) ∧
  (pc_UseResponsesAPI cfg = true →
   t ∈ [ProviderTypeOpenAI; ProviderTypeAzure; ProviderTypeOpenAICompat]).
Proof.
  unfold validateConfig. destruct (prs_Config (prov_Spec p)) as [cfg|]; [|by split].
  cbv zeta. rewrite !app_nil_iff, organization_nil, !fail_if_nil, !not_fault_2, not_fault_1, not_fault.
  split; [by intros ? ? [= <-]|eauto].
Qed.

Lemma validateDefaults_nil p path :
  validateDefaults p path = [] ↔ ∀ d, prs_Defaults (prov_Spec p) = Some d →
  let t := prs_Type (prov_Spec p) in
  (is_Some (pcd_Anthropic d) → t ∈ [ProviderTypeAnthropic; ProviderTypeBedrock]) ∧
  (is_Some (pcd_OpenAI d) → t ∈ [ProviderTypeOpenAI; ProviderTypeAzure; ProviderTypeOpenAICompat;
                                 ProviderTypeOpenRouter]) ∧
  (is_Some (pcd_Google d) → t = ProviderTypeGoogle) ∧ ¬ thinking_clash d.
Proof.
  unfold validateDefaults. destruct (prs_Defaults (prov_Spec p)) as [d|]; [|by split].
  cbv zeta. rewrite !app_nil_iff, !fail_if_nil, not_fault_2, not_fault_1, not_fault.
  split; [by intros ? ? [= <-]|eauto].
Qed.

Lemma thinking_clash_spec d :
  ¬ thinking_clash d ↔
  ∀ g, pcd_Google d = Some g → gcd_ThinkingLevel g = "" ∨ gcd_ThinkingBudgetTokens g = None.
Proof.
  unfold thinking_clash. destruct (pcd_Google d) as [g|]; [|naive_solver].
  split; [intros Hn g' [= <-] | intros Hall [Hl [z Hz]]; destruct (Hall g eq_refl); congruence].
  destruct (decide (gcd_ThinkingLevel g = "")); [by left|right].
  destruct (gcd_ThinkingBudgetTokens g); [|done]. exfalso. apply Hn. by split; [|eexists].
Qed.

(** What the controller finds wrong with a valid provider is at most its
    authentication. *)
Lemma valid_config_issues p : ProviderValid p → config_issues p = auth_issues p.
Proof.
  intros []. unfold config_issues. cbv zeta.
  assert (endpoint_issues p = []) as ->.
  { unfold endpoint_issues, no_base_url. rewrite decide_False; [done|].
    intros [Ht Hb]. destruct (pv_endpoint0 Ht) as (e & He & Hn). by rewrite He in Hb. }
  destruct (prs_Config (prov_Spec p)) as [cfg|]; [|done].
  unfold vertex_issues, bedrock_issues, azure_issues, organization_issues, responses_issues.
  rewrite !decide_False; [done|..].
  - intros [Hr Ht]. specialize (pv_responses0 cfg eq_refl Hr). set_solver.
  - intros [Hr Ht]. naive_solver.
  - intros [Hr Ht]. naive_solver.
  - intros [Hr Ht]. specialize (pv_bedrock0 cfg eq_refl Hr). set_solver.
  - intros [[v Hv] Ht]. destruct (pv_vertex0 cfg v eq_refl Hv) as [Hi _]. set_solver.
Qed.

(** A setting that belongs to no API of the provider's type. *)
Definition foreign_setting (p : Provider) : Prop :=
  ∃ cfg, prs_Config (prov_Spec p) = Some cfg ∧
  let t := prs_Type (prov_Spec p) in
  (is_Some (pc_Vertex cfg) ∧ t ∉ [ProviderTypeAnthropic; ProviderTypeGoogle]) ∨
  (pc_Bedrock cfg = true ∧ t ∉ [ProviderTypeAnthropic; ProviderTypeBedrock]) ∨
  (pc_AzureAPIVersion cfg ≠ "" ∧ t ≠ ProviderTypeAzure) ∨
  ((pc_Organization cfg ≠ "" ∨ pc_Project cfg ≠ "") ∧ t ≠ ProviderTypeOpenAI) ∨
  (pc_UseResponsesAPI cfg = true ∧ t ∉ [ProviderTypeOpenAI; ProviderTypeAzure; ProviderTypeOpenAICompat]).

Lemma foreign_setting_invalid p : foreign_setting p → ¬ ProviderValid p.
Proof.
  intros (cfg & Hc & Hf) []. cbv zeta in Hf. destruct Hf as [[[v Hv] Ht]|[[Hb Ht]|[[Ha Ht]|[[Ho Ht]|[Hr Ht]]]]].
  - by destruct (pv_vertex0 cfg v Hc Hv).
  - by apply Ht, (pv_bedrock0 cfg).
  - by apply Ht, (pv_azure0 cfg).
  - by apply Ht, (pv_openai0 cfg).
  - by apply Ht, (pv_responses0 cfg).
Qed.

(** [C23] The Provider webhook, on create and on update, admits exactly the
    providers that are valid: a known type, with a base URL where the type
    needs one, and each setting only for the types that have it.  A setting of
    another type is refused, where the API documents it as ignored.  What the
    Provider controller then finds wrong with an admitted provider is only its
    authentication: its configuration has no issue exactly when it has one of
    an API key and OAuth2 credentials, and not both. *)
Theorem provider_admitted_iff_valid p :
  (admitted (ValidateCreate p) ↔ ProviderValid p) ∧
  (∀ old, ValidateUpdate old p = ValidateCreate p) ∧
  (admitted (ValidateCreate p) → (config_issues p = [] ↔ one_auth p)) ∧
  (foreign_setting p → ¬ admitted (ValidateCreate p)).
Proof.
  assert (admitted (ValidateCreate p) ↔ ProviderValid p) as Hiff.
  { unfold ValidateCreate, validate.
    rewrite answer_admitted, !app_nil_iff, validateType_nil, validateEndpoint_nil,
      validateConfig_nil, validateDefaults_nil. cbv zeta.
    setoid_rewrite thinking_clash_spec. split.
    - intros (Ht & He & Hc & Hd). split; try done.
      + intros cfg v Hcfg Hv. destruct (Hc cfg Hcfg) as (H1 & _ & H3 & _).
        split; [by apply H1; eexists|]. destruct (pc_Bedrock cfg); [|done].
        exfalso. apply H3. by split; [eexists|].
      + intros cfg Hcfg. by destruct (Hc cfg Hcfg) as (_ & H2 & _).
      + intros cfg Hcfg. by destruct (Hc cfg Hcfg) as (_ & _ & _ & H4 & _).
      + intros cfg Hcfg. by destruct (Hc cfg Hcfg) as (_ & _ & _ & _ & H5 & _).
      + intros cfg Hcfg. by destruct (Hc cfg Hcfg) as (_ & _ & _ & _ & _ & H6).
      + intros d x Hdef Hx. apply (Hd d Hdef). by eexists.
      + intros d x Hdef Hx. apply (Hd d Hdef). by eexists.
      + intros d g Hdef Hg. destruct (Hd d Hdef) as (_ & _ & H3 & H4).
        split; [by apply H3; eexists|auto].
    - intros []. split_and!; try done.
      + intros cfg Hcfg. split_and!; eauto.
        * intros [v Hv]. by apply (pv_vertex0 cfg v).
        * intros [[v Hv] Hb]. destruct (pv_vertex0 cfg v Hcfg Hv) as [_ Hf]. congruence.
      + intros d Hdef. split_and!.
        * intros [x Hx]. eauto.
        * intros [x Hx]. eauto.
        * intros [g Hg]. by apply (pv_google_defaults0 d g).
        * intros g Hg. by apply (pv_google_defaults0 d g). }
  split_and!; [done|done| |].
  - intros Ha%Hiff. rewrite (valid_config_issues p Ha). apply auth_issues_nil.
  - rewrite Hiff. apply foreign_setting_invalid.
Qed.
