(* ===== verification/IntegrationWebhook.v ===== *)
(** * The validating webhook of Integration (api/v1alpha1/integration_webhook.go)

    Go ranges over a map in an order of its own: [order] is the one of the
    call, any permutation of the kinds.  With what the answer means for the
    Integration controller. *)

From S2P Require Import Prelude GoLib KubeTypes ApiTypes Effects FieldErrors IntegrationCtrl DependencyProps.

Open Scope string_scope.
Open Scope list_scope.

(** The keys of [configPresent] and of [kindToField]. *)
Definition kinds : list IntegrationKind :=
  [IntegrationKindGitHubRepo; IntegrationKindGitHubOrg; IntegrationKindGitLabProject;
   IntegrationKindGitLabGroup; IntegrationKindGitRepo; IntegrationKindS3Bucket;
   IntegrationKindDocumentation].

Definition configPresent (s : IntegrationSpec) : gmap IntegrationKind bool :=
  list_to_map [
    (IntegrationKindGitHubRepo, bool_decide (is_Some (is_GitHub s)));
    (IntegrationKindGitHubOrg, bool_decide (is_Some (is_GitHubOrg s)));
    (IntegrationKindGitLabProject, bool_decide (is_Some (is_GitLab s)));
    (IntegrationKindGitLabGroup, bool_decide (is_Some (is_GitLabGroup s)));
    (IntegrationKindGitRepo, bool_decide (is_Some (is_Git s)));
    (IntegrationKindS3Bucket, bool_decide (is_Some (is_S3 s)));
    (IntegrationKindDocumentation, bool_decide (is_Some (is_Documentation s)))].

Definition kindToField : gmap IntegrationKind string :=
  list_to_map [
    (IntegrationKindGitHubRepo, "github"); (IntegrationKindGitHubOrg, "githubOrg");
    (IntegrationKindGitLabProject, "gitlab"); (IntegrationKindGitLabGroup, "gitlabGroup");
    (IntegrationKindGitRepo, "git"); (IntegrationKindS3Bucket, "s3");
    (IntegrationKindDocumentation, "documentation")].

(** [m[k]] of a map of booleans. *)
Definition present (s : IntegrationSpec) (kind : IntegrationKind) : bool :=
  default false (configPresent s !! kind).

Section Webhook.
Variable order : list IntegrationKind.

Definition validateKindConfig (i : Integration) (path : Path) : ErrorList :=
  let s := ig_Spec i in
  match kindToField !! is_Kind s with
  | Some fieldName =>
      fail_if (present s (is_Kind s) = false)
        (Required (path ++ [Child fieldName])
           (fieldName +:+ " config is required for kind=" +:+ is_Kind s))
  | None => []
  end
  ++ each (λ _ kind,
       let otherField := default "" (kindToField !! kind) in
       fail_if (present s kind = true ∧ kind ≠ is_Kind s)
         (Forbidden (path ++ [Child otherField])
            (otherField +:+ " config is not allowed for kind=" +:+ is_Kind s))) order.

Definition validateTriggers (i : Integration) (path : Path) : ErrorList :=
  each (λ n t,
    let triggerPath := path ++ [Child "triggers"; Index n] in
    fail_if (itr_On t = "") (Required (triggerPath ++ [Child "on"]) "event type is required")
    ++ fail_if (itr_AgentRef t = "")
         (Required (triggerPath ++ [Child "agentRef"]) "agent reference is required")
    ++ fail_if (itr_Prompt t = "")
         (Required (triggerPath ++ [Child "prompt"]) "prompt template is required"))
    (is_Triggers (ig_Spec i)).

Definition validate (i : Integration) : Admission :=
  answer [] "Integration" (om_name (ig_Meta i))
    (validateKindConfig i specPath ++ validateTriggers i specPath).

Definition ValidateCreate (i : Integration) : Admission := validate i.
Definition ValidateUpdate (old new : Integration) : Admission := validate new.
Definition ValidateDelete (i : Integration) : Admission := ([], None).

End Webhook.

(** ** What is admitted *)

(** The blocks set are the one of the kind, and the triggers are complete. *)
Record IntegrationValid (s : IntegrationSpec) : Prop := {
  iv_block kind : kind ∈ kinds → (present s kind = true ↔ is_Kind s = kind);
  iv_triggers t : t ∈ is_Triggers s → itr_On t ≠ "" ∧ itr_AgentRef t ≠ "" ∧ itr_Prompt t ≠ "";
}.

Lemma kindToField_Some kind : is_Some (kindToField !! kind) ↔ kind ∈ kinds.
Proof.
  unfold kindToField. rewrite <- elem_of_dom, dom_list_to_map_L. cbn. unfold kinds. set_solver.
Qed.

Lemma validateKindConfig_nil order i path : order ≡ₚ kinds →
  validateKindConfig order i path = [] ↔
  ∀ kind, kind ∈ kinds → (present (ig_Spec i) kind = true ↔ is_Kind (ig_Spec i) = kind).
Proof.
  intros Ho. unfold validateKindConfig. cbv zeta. rewrite app_nil_iff, each_nil.
  setoid_rewrite fail_if_nil. set (s := ig_Spec i). split.
  - intros [Hreq Hforb] kind Hk. split.
    + intros Hp. rewrite <- Ho in Hk. apply list_elem_of_lookup in Hk as [n Hn].
      specialize (Hforb n kind Hn). destruct (decide (kind = is_Kind s)); [done|tauto].
    + intros <-. apply kindToField_Some in Hk as [f Hf]. rewrite Hf, fail_if_nil in Hreq.
      by destruct (present s (is_Kind s)).
  - intros Hall. split.
    + destruct (kindToField !! is_Kind s) as [f|] eqn:Hf; [|done]. rewrite fail_if_nil.
      rewrite (proj2 (Hall (is_Kind s) (proj1 (kindToField_Some _) (mk_is_Some _ _ Hf)))); done.
    + intros n kind Hn%list_elem_of_lookup_2 [Hp Hne]. rewrite Ho in Hn. apply Hne. symmetry. by apply Hall.
Qed.

Lemma validateTriggers_nil i path :
  validateTriggers i path = [] ↔
  ∀ t, t ∈ is_Triggers (ig_Spec i) → itr_On t ≠ "" ∧ itr_AgentRef t ≠ "" ∧ itr_Prompt t ≠ "".
Proof.
  unfold validateTriggers. rewrite each_nil. cbv zeta. setoid_rewrite app_nil_iff.
  setoid_rewrite app_nil_iff. setoid_rewrite fail_if_nil. split.
  - intros Hall t (n & Hn)%list_elem_of_lookup. eauto.
  - intros Hall n t Hn%list_elem_of_lookup_2. eauto.
Qed.

Lemma present_spec s :
  (present s IntegrationKindGitHubRepo = true ↔ is_Some (is_GitHub s)) ∧
  (present s IntegrationKindGitHubOrg = true ↔ is_Some (is_GitHubOrg s)) ∧
  (present s IntegrationKindGitLabProject = true ↔ is_Some (is_GitLab s)) ∧
  (present s IntegrationKindGitLabGroup = true ↔ is_Some (is_GitLabGroup s)) ∧
  (present s IntegrationKindGitRepo = true ↔ is_Some (is_Git s)) ∧
  (present s IntegrationKindS3Bucket = true ↔ is_Some (is_S3 s)) ∧
  (present s IntegrationKindDocumentation = true ↔ is_Some (is_Documentation s)).
Proof. split_and!; unfold present, configPresent; cbn; apply bool_decide_eq_true. Qed.

Lemma valid_kind_configured s :
  IntegrationValid s → (kind_configured s ↔ is_Kind s ∈ kinds).
Proof.
  intros [Hb _]. unfold kind_configured, kinds.
  destruct (present_spec s) as (P1 & P2 & P3 & P4 & P5 & P6 & P7).
  rewrite <- P1, <- P2, <- P3, <- P4, <- P5, <- P6, <- P7.
  rewrite !Hb by (by apply (bool_decide_unpack _)).
  unfold kinds. rewrite !elem_of_cons, elem_of_nil. tauto.
Qed.

(** [C24] In whatever order the map is ranged over, the Integration webhook
    admits exactly the integrations that set the block of their kind and no
    other and whose triggers name an event, an agent and a prompt.  The
    controller then marks an admitted integration Ready exactly when its kind
    is a known one. *)
Theorem integration_admitted_iff_valid order i : order ≡ₚ kinds →
  (admitted (ValidateCreate order i) ↔ IntegrationValid (ig_Spec i)) ∧
  (∀ old, ValidateUpdate order old i = ValidateCreate order i) ∧
  (admitted (ValidateCreate order i) →
   (validateResource i = None ↔ is_Kind (ig_Spec i) ∈ kinds)).
Proof.
  intros Ho.
  assert (admitted (ValidateCreate order i) ↔ IntegrationValid (ig_Spec i)) as Hiff.
  { unfold ValidateCreate, validate.
    rewrite answer_admitted, app_nil_iff, (validateKindConfig_nil order) by done.
    rewrite validateTriggers_nil. split; [by intros [? ?]; split|by intros []]. }
  split_and!; [done|done|]. intros Ha%Hiff. rewrite validateResource_None.
  by apply valid_kind_configured.
Qed.

Lemma integration_admitted_iff_valid_witness :
  (kinds : list string) ≡ₚ kinds ∧
  ¬ admitted (ValidateCreate kinds (mkIntegration zeroMeta
      (mkIntegrationSpec IntegrationKindGitRepo "" "" None None None None None None None None [])
      zeroIntegrationStatus)).
Proof.
  split; [done|].
  rewrite (proj1 (integration_admitted_iff_valid kinds _ (Permutation_refl kinds))).
  intros [Hb _]. specialize (Hb IntegrationKindGitRepo). cbn in Hb.
  destruct Hb as [_ Hb]; [by apply (bool_decide_unpack _)|]. discriminate (Hb eq_refl).
Defined.
