(* ===== verification/ChannelWebhook.v ===== *)
(** * The validating webhook of Channel (api/v1alpha1/channel_webhook.go) *)

From S2P Require Import Prelude GoLib KubeTypes ApiTypes FieldErrors.

Open Scope string_scope.
Open Scope list_scope.

(** [if r.Spec.X == nil { required }] for the block of the type. *)
Definition required_block {A} (block : option A) (fieldName type : string) : ErrorList :=
  fail_if (block = None)
    (Required (specPath ++ [Child fieldName])
       (fieldName +:+ " config is required for type=" +:+ type)).

(** The same for the polling types, whose block names an Integration. *)
Definition required_ref {A} (block : option A) (ref : A → string) (fieldName type : string)
  : ErrorList :=
  match block with
  | None => [Required (specPath ++ [Child fieldName])
               (fieldName +:+ " config is required for type=" +:+ type)]
  | Some b =>
      fail_if (ref b = "")
        (Required (specPath ++ [Child fieldName; Child "integrationRef"])
           ("integrationRef is required for type=" +:+ type))
  end.

Definition platform_errors (s : ChannelSpec) : ErrorList :=
  let t := cs_Type s in
  if decide (t = ChannelTypeTelegram) then required_block (cs_Telegram s) "telegram" t
  else if decide (t = ChannelTypeSlack) then required_block (cs_Slack s) "slack" t
  else if decide (t = ChannelTypeDiscord) then required_block (cs_Discord s) "discord" t
  else if decide (t = ChannelTypeGitLab) then required_block (cs_GitLab s) "gitlab" t
  else if decide (t = ChannelTypeGitHub) then required_block (cs_GitHub s) "github" t
  else if decide (t = ChannelTypeGitLabLabel)
  then required_ref (cs_GitLabLabel s) gll_IntegrationRef "gitlabLabel" t
  else if decide (t = ChannelTypeGitLabComment)
  then required_ref (cs_GitLabComment s) glcm_IntegrationRef "gitlabComment" t
  else [].

Definition prompt_errors (s : ChannelSpec) : ErrorList :=
  fail_if (IsEventType (cs_Type s) = true ∧ cs_Type s ≠ ChannelTypeGitLabLabel ∧
           cs_Type s ≠ ChannelTypeGitLabComment ∧ cs_Prompt s = "")
    (Required (specPath ++ [Child "prompt"])
       ("prompt template is required for event-type channel (" +:+ cs_Type s +:+ ")")).

Definition validate (ch : Channel) : Admission :=
  answer [] "Channel" (om_name (chn_Meta ch))
    (platform_errors (chn_Spec ch) ++ prompt_errors (chn_Spec ch)).

Definition ValidateCreate (ch : Channel) : Admission := validate ch.
Definition ValidateUpdate (old new : Channel) : Admission := validate new.
Definition ValidateDelete (ch : Channel) : Admission := ([], None).

(** ** What is admitted *)

Record ChannelValid (s : ChannelSpec) : Prop := {
  cv_telegram : cs_Type s = ChannelTypeTelegram → is_Some (cs_Telegram s);
  cv_slack : cs_Type s = ChannelTypeSlack → is_Some (cs_Slack s);
  cv_discord : cs_Type s = ChannelTypeDiscord → is_Some (cs_Discord s);
  cv_gitlab : cs_Type s = ChannelTypeGitLab → is_Some (cs_GitLab s);
  cv_github : cs_Type s = ChannelTypeGitHub → is_Some (cs_GitHub s);
  cv_label : cs_Type s = ChannelTypeGitLabLabel →
    ∃ c, cs_GitLabLabel s = Some c ∧ gll_IntegrationRef c ≠ "";
  cv_comment : cs_Type s = ChannelTypeGitLabComment →
    ∃ c, cs_GitLabComment s = Some c ∧ glcm_IntegrationRef c ≠ "";
  cv_prompt : cs_Type s ∈ [ChannelTypeGitLab; ChannelTypeGitHub; ChannelTypeWebhook] → cs_Prompt s ≠ "";
}.

Lemma required_block_nil {A} (b : option A) f t : required_block b f t = [] ↔ is_Some b.
Proof. unfold required_block. rewrite fail_if_nil. by rewrite not_eq_None_Some. Qed.

Lemma required_ref_nil {A} (b : option A) ref f t :
  required_ref b ref f t = [] ↔ ∃ c, b = Some c ∧ ref c ≠ "".
Proof. destruct b; cbn; [rewrite fail_if_nil|]; naive_solver. Qed.

Lemma prompt_errors_nil s :
  prompt_errors s = [] ↔
  (cs_Type s ∈ [ChannelTypeGitLab; ChannelTypeGitHub; ChannelTypeWebhook] → cs_Prompt s ≠ "").
Proof.
  unfold prompt_errors, IsEventType. rewrite fail_if_nil, !orb_true_iff, !bool_decide_eq_true.
  split.
  - intros Hn Ht Hp. apply Hn. set_unfold in Ht.
    destruct Ht as [Ht|[Ht|[Ht|[]]]]; rewrite Ht; split_and!; try done; auto 6.
  - intros Hn (Ht & Hl & Hc & Hp). apply Hn; [|done]. set_unfold. tauto.
Qed.

Lemma platform_errors_nil s :
  platform_errors s = [] ↔
  (cs_Type s = ChannelTypeTelegram → is_Some (cs_Telegram s)) ∧
  (cs_Type s = ChannelTypeSlack → is_Some (cs_Slack s)) ∧
  (cs_Type s = ChannelTypeDiscord → is_Some (cs_Discord s)) ∧
  (cs_Type s = ChannelTypeGitLab → is_Some (cs_GitLab s)) ∧
  (cs_Type s = ChannelTypeGitHub → is_Some (cs_GitHub s)) ∧
  (cs_Type s = ChannelTypeGitLabLabel → ∃ c, cs_GitLabLabel s = Some c ∧ gll_IntegrationRef c ≠ "") ∧
  (cs_Type s = ChannelTypeGitLabComment → ∃ c, cs_GitLabComment s = Some c ∧ glcm_IntegrationRef c ≠ "").
Proof.
  unfold platform_errors. cbv zeta.
  repeat (let Ht := fresh "Ht" in case_decide as Ht; [rewrite Ht, ?required_block_nil, ?required_ref_nil; clear;
    (split; [intros Hb; split_and!; intros Heq; first [exact Hb|discriminate Heq]
            |intros (?&?&?&?&?&?&?); auto])|]).
  split; [intros _; split_and!; intros ?; contradiction | done].
Qed.

Lemma channel_admitted ch : admitted (ValidateCreate ch) ↔ ChannelValid (chn_Spec ch).
Proof.
  unfold ValidateCreate, validate.
  rewrite answer_admitted, app_nil_iff, platform_errors_nil, prompt_errors_nil.
  split; [by intros ((?&?&?&?&?&?&?)&?); split|by intros []].
Qed.

(** The same channel with the blocks of other types beside its own. *)
Record more_blocks (s s' : ChannelSpec) : Prop := {
  mb_type : cs_Type s' = cs_Type s;
  mb_prompt : cs_Prompt s' = cs_Prompt s;
  mb_telegram x : cs_Telegram s = Some x → cs_Telegram s' = Some x;
  mb_slack x : cs_Slack s = Some x → cs_Slack s' = Some x;
  mb_discord x : cs_Discord s = Some x → cs_Discord s' = Some x;
  mb_gitlab x : cs_GitLab s = Some x → cs_GitLab s' = Some x;
  mb_label x : cs_GitLabLabel s = Some x → cs_GitLabLabel s' = Some x;
  mb_comment x : cs_GitLabComment s = Some x → cs_GitLabComment s' = Some x;
  mb_github x : cs_GitHub s = Some x → cs_GitHub s' = Some x;
}.

Lemma more_blocks_valid s s' : more_blocks s s' → ChannelValid s → ChannelValid s'.
Proof.
  intros [Ht Hp M1 M2 M3 M4 M5 M6 M7] [V1 V2 V3 V4 V5 V6 V7 V8]. split; rewrite Ht, ?Hp; try done.
  - intros [x Hx]%V1. eauto.
  - intros [x Hx]%V2. eauto.
  - intros [x Hx]%V3. eauto.
  - intros [x Hx]%V4. eauto.
  - intros [x Hx]%V5. eauto.
  - intros (x & Hx & Hr)%V6. eauto.
  - intros (x & Hx & Hr)%V7. eauto.
Qed.

Definition known_types : list ChannelType :=
  [ChannelTypeTelegram; ChannelTypeSlack; ChannelTypeDiscord; ChannelTypeGitLab; ChannelTypeGitHub;
   ChannelTypeWebhook; ChannelTypeGitLabLabel; ChannelTypeGitLabComment].

Lemma unknown_type_valid s : cs_Type s ∉ known_types → ChannelValid s.
Proof.
  intros Hn. split; intros Ht; try (destruct Hn; rewrite Ht; set_solver).
  destruct Hn. set_unfold. naive_solver.
Qed.

(** [C25] The Channel webhook, on create and on update, admits exactly the
    channels that carry the block of their type, with the Integration a
    polling type works on, and a prompt for the webhook types.  It asks no more:
    blocks of other types, any text as the template of the prompt, and a type
    it does not know (which the schema of the CRD refuses) make no difference to
    it, although the API and the README say that it looks. *)
Theorem channel_admitted_iff_valid ch :
  (admitted (ValidateCreate ch) ↔ ChannelValid (chn_Spec ch)) ∧
  (∀ old, ValidateUpdate old ch = ValidateCreate ch) ∧
  (∀ s', more_blocks (chn_Spec ch) s' →
     admitted (ValidateCreate ch) → admitted (ValidateCreate (ch <| chn_Spec := s' |>))) ∧
  (∀ text, text ≠ "" → admitted (ValidateCreate ch) →
     admitted (ValidateCreate (ch <| chn_Spec ::= λ s, s <| cs_Prompt := text |> |>))) ∧
  (cs_Type (chn_Spec ch) ∉ known_types → admitted (ValidateCreate ch)).
Proof.
  split_and!; [apply channel_admitted|done|..].
  - intros s' Hm. rewrite !channel_admitted. by apply more_blocks_valid.
  - intros text Ht. rewrite !channel_admitted. destruct ch as [m [] st]. cbn. intros []. by split.
  - rewrite channel_admitted. apply unknown_type_valid.
Qed.
