(* ===== verification/ChannelRes.v ===== *)
(** * Channel bridges (internal/resources/channel.go)

    The Deployment and the Ingress of a channel, with the environment of every
    platform and the default prompts.  [BuildChannelDeployment] writes into the
    channel it is given: its resource maps are shared with the container's and
    its security overrides are completed in place; [channel_after_build] is
    the caller's channel afterwards. *)

From S2P Require Import Prelude GoLib KubeTypes ApiTypes ResourceCommon Security Builders.

Open Scope string_scope.
Open Scope list_scope.

(** ** The default prompts of the polling bridges *)

Definition defaultGitLabLabelPrompt : string := GoStrings.Join [
  "You are an autonomous coding agent working a GitLab work board for project {{.gitlab.project}}.";
  EmptyString;
  "A {{.gitlab.target}} item needs your attention:";
  "- #{{.gitlab.iid}}: {{.gitlab.title}}";
  "- URL: {{.gitlab.web_url}}";
  "- Trigger: {{.gitlab.label}}";
  EmptyString;
  "The board has already moved this item to `agent::in-progress`. Your repository is cloned and checked out on your feature branch.";
  "{{if eq .gitlab.target " +:+ GoFmt.dquote +:+ "merge_requests" +:+ GoFmt.dquote +:+ "}}";
  "The work-board CARD is merge request !{{.gitlab.iid}}. You will review/iterate on it.";
  EmptyString;
  "DEFINITION OF DONE — you have NOT finished until the card (merge request !{{.gitlab.iid}}) has been moved to `agent::needs-review`. Leaving a comment or saving to memory does NOT complete the task. Your VERY LAST tool call MUST be gitlab_update_mr on iid {{.gitlab.iid}} that adds `agent::needs-review` and removes `agent::in-progress`. Do not end your turn before doing this.";
  EmptyString;
  "Steps:";
  "1. Read the merge request with gitlab_get_mr and gitlab_get_mr_diff to understand it.";
  "2. Make the requested changes, commit, and push the branch.";
  "3. REQUIRED FINAL ACTION: gitlab_update_mr with iid {{.gitlab.iid}}, add_labels " +:+ GoFmt.dquote +:+ "agent::needs-review" +:+ GoFmt.dquote +:+ ", remove_labels " +:+ GoFmt.dquote +:+ "agent::in-progress" +:+ GoFmt.dquote +:+ ".";
  "{{else}}";
  "The work-board CARD is issue #{{.gitlab.iid}} — NOT any merge request. The merge request you open is the deliverable; do NOT relabel the merge request. The label that drives this board lives on the ISSUE.";
  EmptyString;
  "DEFINITION OF DONE — you have NOT finished until issue #{{.gitlab.iid}} has been moved to `agent::needs-review`. Opening the merge request, commenting, relabeling the merge request, or saving to memory does NOT complete the task. Your VERY LAST tool call MUST be gitlab_update_issue on iid {{.gitlab.iid}} that adds `agent::needs-review` and removes `agent::in-progress`. Do not end your turn before doing this.";
  "{{if eq .gitlab.label " +:+ GoFmt.dquote +:+ "agent::changes-requested" +:+ GoFmt.dquote +:+ "}}";
  "THIS IS A REWORK. A merge request already exists for this issue and a human has requested changes. Do NOT open a new merge request (gitlab_create_mr will fail — one already exists for your branch).";
  EmptyString;
  "Steps:";
  "1. Find the open merge request for this issue: gitlab_list_mrs and match the one whose source branch is your feature branch.";
  "2. Read the reviewer feedback: gitlab_list_mr_notes on that merge request IID, plus gitlab_get_mr_diff to see current state. Address every requested change.";
  "3. Implement the requested changes, commit, and push to the SAME existing feature branch (the merge request updates automatically). Do NOT create a new branch or a new merge request.";
  "4. REQUIRED FINAL ACTION: gitlab_update_issue with iid {{.gitlab.iid}}, add_labels " +:+ GoFmt.dquote +:+ "agent::needs-review" +:+ GoFmt.dquote +:+ ", remove_labels " +:+ GoFmt.dquote +:+ "agent::in-progress" +:+ GoFmt.dquote +:+ ".";
  "{{else}}";
  "Steps:";
  "1. Read the full issue with gitlab_get_issue to understand exactly what is requested.";
  "2. Explore the repository and implement the change.";
  "3. Commit your work and push the feature branch.";
  "4. Open a merge request targeting the default branch with gitlab_create_mr. Reference issue #{{.gitlab.iid}} in the description. Do NOT add work-board labels to this merge request.";
  "5. REQUIRED FINAL ACTION: gitlab_update_issue with iid {{.gitlab.iid}}, add_labels " +:+ GoFmt.dquote +:+ "agent::needs-review" +:+ GoFmt.dquote +:+ ", remove_labels " +:+ GoFmt.dquote +:+ "agent::in-progress" +:+ GoFmt.dquote +:+ ".";
  "{{end}}";
  "{{end}}";
  "Do NOT merge the merge request — a human reviews and merges. If you genuinely cannot complete the task, your required final action is the same {{if eq .gitlab.target " +:+ GoFmt.dquote +:+ "merge_requests" +:+ GoFmt.dquote +:+ "}}gitlab_update_mr{{else}}gitlab_update_issue{{end}} call but adding `agent::changes-requested` instead of `agent::needs-review` (and removing `agent::in-progress`), after explaining why with a note. Either way, your last tool call always moves card #{{.gitlab.iid}} off agent::in-progress."] GoFmt.newline.

Definition defaultGitLabCommentPrompt : string := GoStrings.Join [
  "You are an interactive planning agent collaborating with a human on GitLab issue #{{.gitlab.iid}} in project {{.gitlab.project}}.";
  EmptyString;
  "THE CONTRACT: the issue DESCRIPTION is the living PLAN. The issue COMMENT thread is your conversation with the human. You refine the PLAN and answer in the thread until the human approves, then you hand the PLAN off for implementation.";
  EmptyString;
  "Issue under discussion:";
  "- #{{.gitlab.iid}}: {{.gitlab.title}}";
  "- URL: {{.gitlab.web_url}}";
  "- Planning label: {{.gitlab.label}}";
  EmptyString;
  "CURRENT PLAN (the issue description):";
  GoFmt.dquote +:+ GoFmt.dquote +:+ GoFmt.dquote;
  "{{.gitlab.description}}";
  GoFmt.dquote +:+ GoFmt.dquote +:+ GoFmt.dquote;
  EmptyString;
  "NEW UNANSWERED COMMENT(S) from the human you must respond to now:";
  GoFmt.dquote +:+ GoFmt.dquote +:+ GoFmt.dquote;
  "{{.new_comments}}";
  GoFmt.dquote +:+ GoFmt.dquote +:+ GoFmt.dquote;
  EmptyString;
  "Do this, in order:";
  "1. Read the full thread for context with gitlab_list_issue_notes on iid {{.gitlab.iid}} (the new comments above may reference earlier messages).";
  "2. Decide what the new comment(s) require: a change to the PLAN, a clarifying question back to the human, or both.";
  "3. If the PLAN needs to change, rewrite the FULL updated plan and save it with gitlab_update_issue_content on iid {{.gitlab.iid}}. Keep the description a complete, self-contained PLAN (goal, scope, approach, acceptance criteria) — not a changelog.";
  "4. ALWAYS reply in the thread with gitlab_add_issue_note on iid {{.gitlab.iid}}: briefly summarise what you changed in the PLAN and/or ask any clarifying questions you still need answered. This reply is REQUIRED every turn — it is how the human knows you responded and is what stops this comment from re-triggering you.";
  "5. HANDOFF: only if the human's new comment clearly APPROVES the plan (e.g. " +:+ GoFmt.dquote +:+ "approved" +:+ GoFmt.dquote +:+ ", " +:+ GoFmt.dquote +:+ "lgtm" +:+ GoFmt.dquote +:+ ", " +:+ GoFmt.dquote +:+ "ship it" +:+ GoFmt.dquote +:+ ", " +:+ GoFmt.dquote +:+ "go ahead" +:+ GoFmt.dquote +:+ ", " +:+ GoFmt.dquote +:+ "looks good, build it" +:+ GoFmt.dquote +:+ ") AND you have no open questions, move the card to implementation: gitlab_update_issue on iid {{.gitlab.iid}} adding `agent::todo` and removing `{{.gitlab.label}}`, then post a final gitlab_add_issue_note confirming the plan is locked and handed off. If approval is ambiguous, do NOT hand off — ask the human to confirm instead.";
  EmptyString;
  "Never open a merge request, never write code, and never merge anything — your only job is to shape the PLAN and converse. The implementation agent takes over once the card reaches `agent::todo`."] GoFmt.newline.

(** ** Environment *)

Definition secret_env (name : string) (ref : SecretKeyRef) : EnvVar :=
  EnvSecret name (skr_Name ref) (skr_Key ref).

(** The GitLab identity: the project of the Integration, else its group. *)
Definition gitlab_identity (i : Integration) : list EnvVar :=
  match is_GitLab (ig_Spec i), is_GitLabGroup (ig_Spec i) with
  | Some g, _ => [EnvValue "GITLAB_BASE_URL" (glr_BaseURL g); EnvValue "GITLAB_PROJECT" (glr_Project g)]
  | None, Some g => [EnvValue "GITLAB_BASE_URL" (glg_BaseURL g); EnvValue "GITLAB_GROUP" (glg_Group g)]
  | None, None => []
  end.

Definition gitlab_token (i : Integration) : list EnvVar :=
  match is_Credentials (ig_Spec i) with Some c => [secret_env "GITLAB_TOKEN" c] | None => [] end.

Definition string_or (s dflt : string) : string := if decide (s = "") then dflt else s.

Definition poll_interval (i : option Z) : string :=
  match i with
  | Some d => if decide (0 < d)%Z then GoTime.to_string d else "30s"
  | None => "30s"
  end.

Definition buildGitLabLabelEnv (ch : Channel) (integration : option Integration) : list EnvVar :=
  match cs_GitLabLabel (chn_Spec ch), integration with
  | Some cfg, Some i =>
      let env := gitlab_identity i ++ gitlab_token i in
      let env := env ++
        [ EnvValue "GITLAB_TARGET" (string_or (gll_Target cfg) "issues");
          EnvValue "GITLAB_LABELS" (GoStrings.Join (gll_Labels cfg) ",");
          EnvValue "GITLAB_STATE" (string_or (gll_State cfg) "opened");
          EnvValue "GITLAB_POLL_INTERVAL" (poll_interval (gll_PollInterval cfg)) ] in
      let baseBranch := match is_GitLab (ig_Spec i) with
                        | Some g => string_or (glr_DefaultBranch g) "main" | None => "main" end in
      let env := env ++ [ EnvValue "GITLAB_INTEGRATION_REF" (gll_IntegrationRef cfg);
                          EnvValue "GITLAB_BASE_BRANCH" baseBranch ] in
      if decide (cs_Prompt (chn_Spec ch) = "")
      then env ++ [EnvValue "PROMPT_TEMPLATE" defaultGitLabLabelPrompt] else env
  | _, _ => []
  end.

Definition buildGitLabCommentEnv (ch : Channel) (integration : option Integration) : list EnvVar :=
  match cs_GitLabComment (chn_Spec ch), integration with
  | Some cfg, Some i =>
      let env := gitlab_identity i ++ gitlab_token i in
      let env := env ++
        [ EnvValue "GITLAB_STATE" (string_or (glcm_State cfg) "opened");
          EnvValue "GITLAB_PLANNING_LABEL" (string_or (glcm_PlanningLabel cfg) "agent::planning");
          EnvValue "GITLAB_POLL_INTERVAL" (poll_interval (glcm_PollInterval cfg)) ] in
      if decide (cs_Prompt (chn_Spec ch) = "")
      then env ++ [EnvValue "PROMPT_TEMPLATE" defaultGitLabCommentPrompt] else env
  | _, _ => []
  end.

(** [if block != nil { env = append(env, secret) }] *)
Definition block_secret {A} (name : string) (block : option A) (ref : A → SecretKeyRef) : list EnvVar :=
  match block with Some b => [secret_env name (ref b)] | None => [] end.

Definition buildChannelPlatformEnv (ch : Channel) (integration : option Integration) : list EnvVar :=
  let s := chn_Spec ch in
  let t := cs_Type s in
  if decide (t = ChannelTypeTelegram) then
    block_secret "TELEGRAM_BOT_TOKEN" (cs_Telegram s) tc_BotTokenSecret
  else if decide (t = ChannelTypeSlack) then
    block_secret "SLACK_BOT_TOKEN" (cs_Slack s) slc_BotTokenSecret
  else if decide (t = ChannelTypeDiscord) then
    block_secret "DISCORD_BOT_TOKEN" (cs_Discord s) dc_BotTokenSecret
  else if decide (t = ChannelTypeGitLab) then block_secret "WEBHOOK_SECRET" (cs_GitLab s) glc_Secret
  else if decide (t = ChannelTypeGitHub) then block_secret "WEBHOOK_SECRET" (cs_GitHub s) ghc_Secret
  else if decide (t = ChannelTypeWebhook) then
    block_secret "WEBHOOK_SECRET" (cs_WebhookConfig s ≫= whc_Secret) id
  else if decide (t = ChannelTypeGitLabLabel) then buildGitLabLabelEnv ch integration
  else if decide (t = ChannelTypeGitLabComment) then buildGitLabCommentEnv ch integration
  else [].

Definition channel_env (ch : Channel) (agent : Agent) (integration : option Integration)
  (infra : InfraConfig) : list EnvVar :=
  let s := chn_Spec ch in
  [EnvValue "CHANNEL_TYPE" (cs_Type s)] ++
  (if decide (as_Mode (ag_Spec agent) = AgentModeDaemon)
   then [EnvValue "AGENT_URL" (AgentServiceURL agent)] else []) ++
  [EnvValue "AGENT_REF" (cs_AgentRef s); EnvValue "CHANNEL_NAME" (om_name (chn_Meta ch));
   EnvValue "AGENT_MODE" (as_Mode (ag_Spec agent))] ++
  (if decide (cs_Prompt s ≠ "") then [EnvValue "PROMPT_TEMPLATE" (cs_Prompt s)] else []) ++
  [mkEnv "POD_NAMESPACE" "" (Some (FromField "metadata.namespace"))] ++
  [EnvValue "NATS_URL" (NATS infra)] ++
  buildChannelPlatformEnv ch integration.

(** ** The Deployment *)

(** The overrides a bridge of a task agent runs under: it needs its token to
    create AgentRuns. *)
Definition channel_security (ch : Channel) (agent : Agent) : option SecurityOverrides :=
  let security := cs_Security (chn_Spec ch) in
  if decide (as_Mode (ag_Spec agent) = AgentModeTask) then
    let s := default (mkSecurityOverrides None None None) security in
    Some (match so_AutomountServiceAccountToken s with
          | None => s <| so_AutomountServiceAccountToken := Some true |>
          | Some _ => s
          end)
  else security.

Definition channel_container (ch : Channel) (env : list EnvVar) : Container :=
  let container :=
    mkContainer "channel" (cs_Image (chn_Spec ch)) (cs_ImagePullPolicy (chn_Spec ch)) [] env []
      (mkResources None None) [mkPort "http" 8080 "TCP"]
      (Some (mkProbe "/healthz" 8080 0 30 1 1 3)) None None in
  let container := match cs_Resources (chn_Spec ch) with
                   | Some r => container <| ct_resources := r |> | None => container end in
  container <| ct_resources ::= ensureEphemeralStorage |>.

Definition BuildChannelDeployment (ch : Channel) (agent : Agent) (integration : option Integration)
  (infra : InfraConfig) : Deployment :=
  let name := om_name (chn_Meta ch) in
  let labels := <[LabelComponent := "channel"]> (<[LabelManagedBy := ManagedByValue]>
                  (<["app" := name]> ∅)) in
  let replicas := default 1%Z (cs_Replicas (chn_Spec ch)) in
  let container := channel_container ch (channel_env ch agent integration infra) in
  let podSpec := mkPodSpec [] [container] [] (ChannelServiceAccountName ch) None None "" in
  let podSpec := fst (ApplySecurity podSpec "channel" (channel_security ch agent)) in
  {| dp_meta := newMeta name (om_namespace (chn_Meta ch)) labels;
     dp_replicas := replicas;
     dp_selector := <["app" := name]> ∅;
     dp_template := mkTemplate labels ∅ podSpec;
     dp_strategy := "";
     dp_readyReplicas := 0 |}.

(** The caller's Channel after it: the resource maps are shared, and overrides
    that were there are completed in place. *)
Definition channel_after_build (ch : Channel) (agent : Agent) : Channel :=
  ch <| chn_Spec ::= λ s, s
    <| cs_Resources ::= fmap aliased |>
    <| cs_Security := match cs_Security s with
                      | Some _ => channel_security ch agent | None => None end |> |>.

(** ** The Ingress *)

Definition issuer_annotations (tls : IngressTLS) : gmap string string :=
  if decide (itls_Issuer tls ≠ "") then <["cert-manager.io/issuer" := itls_Issuer tls]> ∅
  else if decide (itls_ClusterIssuer tls ≠ "")
  then <["cert-manager.io/cluster-issuer" := itls_ClusterIssuer tls]> ∅
  else ∅.

Definition BuildChannelIngress (ch : Channel) : option Ingress :=
  match cs_Webhook (chn_Spec ch) with
  | None => None
  | Some webhook =>
      let name := om_name (chn_Meta ch) in
      let ingress :=
        {| in_meta := newMeta name (om_namespace (chn_Meta ch))
             (<[LabelComponent := "channel"]> (<[LabelManagedBy := ManagedByValue]> ∅));
           in_className := None;
           in_host := wi_Host webhook;
           in_path := string_or (wi_Path webhook) "/";
           in_pathType := "Prefix";
           in_backendService := name;
           in_backendPort := 8080;
           in_tls := [] |} in
      let ingress := if decide (wi_IngressClassName webhook ≠ "")
                     then ingress <| in_className := Some (wi_IngressClassName webhook) |>
                     else ingress in
      Some (match wi_TLS webhook with
            | Some tls => ingress <| in_tls := [([wi_Host webhook], name +:+ "-tls")] |>
                                  <| in_meta ::= λ m, m <| om_annotations := issuer_annotations tls |> |>
            | None => ingress
            end)
  end.
