(* ===== verification/ChannelCtrl.v ===== *)
(** * The Channel controller (internal/controller/channel_controller.go)

    [Reconcile] and everything it calls.  [BuildChannelDeployment] writes into
    the channel, which [channel_after_build] accounts for.  Log lines and
    [SetupWithManager] are left out. *)

From S2P Require Import Prelude GoLib KubeTypes ApiTypes Effects.
From S2P Require Import ResourceCommon Security Builders CtrlCommon ChannelRes.

Open Scope string_scope.
Open Scope list_scope.

Section Controller.
Context `{ConditionOps} `{OwnerOps}.
Variable infra : InfraConfig.

Definition set_cond (c : Condition) (ch : Channel) : Channel :=
  ch <| chn_Status ::= λ s, s <| cst_Conditions ::= λ cs, SetStatusCondition cs c |> |>.

Definition setChannelFailedStatus (ch : Channel) (message : string) : Channel :=
  set_cond (mkCondition ChannelConditionReady ConditionFalse "Failed" message)
    (ch <| chn_Status ::= λ s, s <| cst_Phase := ChannelPhaseFailed |> |>).

(** Mark the channel Failed, patch, and return without a requeue. *)
Definition fail_channel (ch statusPatch : Channel) (message : string) : prog Outcome :=
  or_fail (patchStatus (k := KChannel) (setChannelFailedStatus ch message) statusPatch) (mret done_).

(** The Integration a polling channel works on. *)
Definition integration_ref (s : ChannelSpec) : string :=
  match cs_GitLabLabel s, cs_GitLabComment s with
  | Some l, _ => gll_IntegrationRef l
  | None, Some c => glcm_IntegrationRef c
  | None, None => ""
  end.

Definition owned (ch : Channel) (k : Kind) (desired : obj k) : prog (option GoError) :=
  reconcileOwnedResource (chn_Meta ch) k desired.

Definition webhook_url (w : WebhookIngressConfig) : string :=
  let scheme := match wi_TLS w with Some _ => "https" | None => "http" end in
  let path := if decide (wi_Path w = "") then "/" else wi_Path w in
  scheme +:+ "://" +:+ wi_Host w +:+ path.

(** The URLs, then the phase from the Deployment as it is; it stays what it
    was when the Deployment cannot be read. *)
Definition channel_status (ch : Channel) : prog Channel :=
  let ch := ch <| chn_Status ::= λ s, s <| cst_ServiceURL :=
    "http://" +:+ om_name (chn_Meta ch) +:+ "." +:+ om_namespace (chn_Meta ch) +:+ ".svc:8080" |> |> in
  let ch := match cs_Webhook (chn_Spec ch) with
            | Some w => ch <| chn_Status ::= λ s, s <| cst_WebhookURL := webhook_url w |> |>
            | None => ch
            end in
  x ← call (OpGet KDeployment (om_namespace (chn_Meta ch)) (om_name (chn_Meta ch)));
  mret (match x with
  | Err _ => ch
  | Ok d =>
      if decide (0 < dp_readyReplicas d)%Z then
        set_cond (mkCondition ChannelConditionReady ConditionTrue "Ready" "")
          (ch <| chn_Status ::= λ s, s <| cst_Phase := ChannelPhaseReady |> |>)
      else
        set_cond (mkCondition ChannelConditionReady ConditionFalse "Pending"
                    "Waiting for deployment to be ready")
          (ch <| chn_Status ::= λ s, s <| cst_Phase := ChannelPhasePending |> |>)
  end).

(** The Ingress, when the channel has a webhook. *)
Definition channel_ingress (ch : Channel) : prog (option GoError) :=
  match BuildChannelIngress ch with
  | Some ingress => owned ch KIngress ingress
  | None => mret None
  end.

(** RBAC, Deployment, Service, Ingress, status. *)
Definition reconcile_resources (ch : Channel) (agent : Agent) (integration : option Integration)
  (statusPatch : Channel) : prog Outcome :=
  or_fail (owned ch KServiceAccount (BuildChannelServiceAccount ch)) (
  or_fail (owned ch KRole (BuildChannelRole ch)) (
  or_fail (owned ch KRoleBinding (BuildChannelRoleBinding ch)) (
  let deployment := BuildChannelDeployment ch agent integration infra in
  let ch := channel_after_build ch agent in
  or_fail (owned ch KDeployment deployment) (
  or_fail (owned ch KService (BuildChannelService ch)) (
  or_fail (channel_ingress ch) (
  ch ← channel_status ch;
  or_fail (patchStatus (k := KChannel) ch statusPatch)
    (mret (if decide (cst_Phase (chn_Status ch) ≠ ChannelPhaseReady)
           then requeue requeueInterval else done_)))))))).

Definition Reconcile (ns name : string) : prog Outcome :=
  x ← call (OpGet KChannel ns name);
  match x with
  | Err e => mret (if err_notFound e then done_ else failed e)
  | Ok ch =>
      let statusPatch := ch in
      let namespace := om_namespace (chn_Meta ch) in
      y ← call (OpGet KAgent namespace (cs_AgentRef (chn_Spec ch)));
      match y with
      | Err e =>
          fail_channel ch statusPatch
            ("Agent " +:+ GoFmt.q (cs_AgentRef (chn_Spec ch)) +:+ " not found: " +:+ err_msg e)
      | Ok agent =>
          let ch := ch <| chn_Status ::= λ s, s <| cst_Conditions ::= λ cs,
            setSecurityPolicyViolationsCondition cs
              (ComputeSecurityViolations (cs_Security (chn_Spec ch))) |> |> in
          let type := cs_Type (chn_Spec ch) in
          if decide (type = ChannelTypeGitLabLabel ∨ type = ChannelTypeGitLabComment) then
            let ref := integration_ref (chn_Spec ch) in
            if decide (ref = "") then
              fail_channel ch statusPatch ("integrationRef is required for " +:+ type +:+ " channels")
            else
              z ← call (OpGet KIntegration namespace ref);
              match z with
              | Err e =>
                  fail_channel ch statusPatch
                    ("Integration " +:+ GoFmt.q ref +:+ " not found: " +:+ err_msg e)
              | Ok integration => reconcile_resources ch agent (Some integration) statusPatch
              end
          else reconcile_resources ch agent None statusPatch
      end
  end.

End Controller.
