(* ===== verification/ChannelProps.v ===== *)
(** * Properties of the Channel controller and its bridges

    What a reconcile of a Channel applies and records, and what the bridge it
    deploys gets: its secret, its prompt, its address. *)

From S2P Require Import Prelude GoLib KubeTypes ApiTypes Effects ResourceCommon Security Builders CtrlCommon.
From S2P Require Import Applying FieldErrors ChannelWebhook ChannelRes ChannelCtrl.

Open Scope string_scope.
Open Scope list_scope.

(** ** Specification *)

Section Spec.
Context `{OwnerOps}.
Variable infra : InfraConfig.

Definition channel_op (ch : Channel) (k : Kind) (d : obj k) : Op := apply_op (chn_Meta ch) k d.

Definition ingress_ops (ch : Channel) : list Op :=
  match BuildChannelIngress ch with Some ing => [channel_op ch KIngress ing] | None => [] end.

(** What is applied for a channel, in order. *)
Definition channel_rollout (ch : Channel) (agent : Agent) (integration : option Integration) : list Op :=
  [ channel_op ch KServiceAccount (BuildChannelServiceAccount ch);
    channel_op ch KRole (BuildChannelRole ch); channel_op ch KRoleBinding (BuildChannelRoleBinding ch);
    channel_op ch KDeployment (BuildChannelDeployment ch agent integration infra);
    channel_op ch KService (BuildChannelService ch) ] ++ ingress_ops ch.

Definition polls (ch : Channel) : Prop :=
  cs_Type (chn_Spec ch) = ChannelTypeGitLabLabel ∨ cs_Type (chn_Spec ch) = ChannelTypeGitLabComment.

Definition agent_read (ch : Channel) (x : res Agent) : Event :=
  existT (OpGet KAgent (om_namespace (chn_Meta ch)) (cs_AgentRef (chn_Spec ch))) x.
Definition integration_read (ch : Channel) (x : res Integration) : Event :=
  existT (OpGet KIntegration (om_namespace (chn_Meta ch)) (integration_ref (chn_Spec ch))) x.
Definition deployment_read (ch : Channel) (x : res Deployment) : Event :=
  existT (OpGet KDeployment (om_namespace (chn_Meta ch)) (om_name (chn_Meta ch))) x.

(** The agent and, for a polling channel, the Integration were read. *)
Definition inputs_read (tr : Trace) (ch : Channel) (agent : Agent) (i : option Integration) : Prop :=
  agent_read ch (Ok agent) ∈ tr ∧
  match i with
  | Some i => polls ch ∧ integration_ref (chn_Spec ch) ≠ "" ∧ integration_read ch (Ok i) ∈ tr
  | None => ¬ polls ch
  end.

(** What is missing when a channel is given up. *)
Definition input_missing (tr : Trace) (ch : Channel) : Prop :=
  (∃ e, agent_read ch (Err e) ∈ tr) ∨
  (polls ch ∧ (integration_ref (chn_Spec ch) = "" ∨ ∃ e, integration_read ch (Err e) ∈ tr)).

(** Where an Ingress answers. *)
Definition address (ing : Ingress) : string :=
  (if decide (in_tls ing = []) then "http" else "https") +:+ "://" +:+ in_host ing +:+ in_path ing.

(** The status after a complete rollout. *)
Definition channel_reached (ch n : Channel) (tr : Trace) : Prop :=
  cst_ServiceURL (chn_Status n)
    = "http://" +:+ om_name (chn_Meta ch) +:+ "." +:+ om_namespace (chn_Meta ch) +:+ ".svc:8080" ∧
  (∀ ing, BuildChannelIngress ch = Some ing → cst_WebhookURL (chn_Status n) = address ing) ∧
  ∃ x, deployment_read ch x ∈ tr ∧
    cst_Phase (chn_Status n) =
    match x with
    | Ok d => if decide (0 < dp_readyReplicas d)%Z then ChannelPhaseReady else ChannelPhasePending
    | Err _ => cst_Phase (chn_Status ch)
    end.

Definition channel_partly (ch : Channel) (tr : Trace) : Prop :=
  applies tr = [] ∨
  ∃ agent i, inputs_read tr ch agent i ∧ applies tr `prefix_of` channel_rollout ch agent i.

Definition channel_complete (ch n : Channel) (tr : Trace) : Prop :=
  ∃ agent i, inputs_read tr ch agent i ∧ applies tr = channel_rollout ch agent i ∧
             Forall acked tr ∧ channel_reached ch n tr.

Definition channel_patch (b n : Channel) (x : res Channel) : Event := existT (OpPatchStatus KChannel b n) x.
Definition channel_patch_of (o : Op) : option (Channel * Channel) :=
  match o with
  | OpPatchStatus k b n =>
      match k return obj k → obj k → option (Channel * Channel) with
      | KChannel => λ b n, Some (b, n)
      | _ => λ _ _, None
      end b n
  | _ => None
  end.

(** A status write: Failed because an input is missing, or the outcome of a
    complete rollout. *)
Definition channel_written (ch n : Channel) (tr : Trace) : Prop :=
  (input_missing tr ch ∧ cst_Phase (chn_Status n) = ChannelPhaseFailed) ∨ channel_complete ch n tr.
Definition channel_status_ok (ch : Channel) (tr : Trace) : Prop :=
  ∀ b n x, channel_patch b n x ∈ tr → b = ch ∧ channel_written ch n tr.

(** [n] is what the server has. *)
Definition recorded (ch n : Channel) (tr : Trace) : Prop :=
  n = ch ∨ ∃ n', channel_patch ch n (Ok n') ∈ tr.

(** Nothing more will be done: the bridge is up, or an input is missing. *)
Definition channel_at_rest (ch : Channel) (tr : Trace) : Prop :=
  ∃ n, recorded ch n tr ∧
    ((channel_complete ch n tr ∧ cst_Phase (chn_Status n) = ChannelPhaseReady) ∨
     (input_missing tr ch ∧ cst_Phase (chn_Status n) = ChannelPhaseFailed)).

Record channel_concluded (ch : Channel) (tr : Trace) (out : Outcome) : Prop := {
  cc_partly : channel_partly ch tr;
  cc_status : channel_status_ok ch tr;
  cc_again : comes_back out ∨ channel_at_rest ch tr;
}.

(** The Ingress is where the status says the webhook is. *)
Lemma webhook_url_address ch w ing :
  cs_Webhook (chn_Spec ch) = Some w → BuildChannelIngress ch = Some ing → webhook_url w = address ing.
Proof.
  intros Hw. unfold BuildChannelIngress. rewrite Hw. intros [= <-].
  unfold webhook_url, address, string_or.
  destruct (decide (wi_IngressClassName w ≠ "")), (wi_TLS w); cbn; repeat case_decide; done.
Qed.
End Spec.

Section Proofs.
Context `{ConditionOps} `{OwnerOps}.
Variable infra : InfraConfig.

Local Abbreviation wp := (wp any_answer).
Local Abbreviation concluded := (channel_concluded infra).

Section Patched.
Variables (ch n : Channel) (x : res Channel) (tr : Trace).
Let tr' := tr ++ [channel_patch ch n x].

Lemma channel_applies_patched : applies tr' = applies tr.
Proof. unfold tr'. by rewrite applies_app, applies_one, app_nil_r. Qed.

Lemma channel_sub_patched : tr ⊆ tr'.
Proof. unfold tr'. set_solver. Qed.

Lemma inputs_patched agent i : inputs_read tr ch agent i → inputs_read tr' ch agent i.
Proof.
  pose proof channel_sub_patched as Hs. intros [Ha Hi]. split; [by apply Hs|].
  destruct i; [|done]. destruct Hi as (? & ? & ?). auto.
Qed.

Lemma missing_patched : input_missing tr ch → input_missing tr' ch.
Proof.
  pose proof channel_sub_patched as Hs.
  intros [[e He]|[Hp [Hr|[e He]]]]; [left|right|right]; eauto.
Qed.

Lemma channel_partly_patched : channel_partly infra ch tr → channel_partly infra ch tr'.
Proof.
  unfold channel_partly. rewrite channel_applies_patched.
  intros [Hp|(agent & i & Hi & Hp)]; [by left|]. right. eauto using inputs_patched.
Qed.

Lemma channel_complete_patched : channel_complete infra ch n tr → channel_complete infra ch n tr'.
Proof.
  pose proof channel_sub_patched as Hs.
  intros (agent & i & Hi & Hp & Ha & Hu & Hw & d & Hd & Hph). exists agent, i.
  rewrite channel_applies_patched. split_and!; [by apply inputs_patched|done| |].
  - apply Forall_app. split; [done | by repeat constructor].
  - split_and!; [done..|]. exists d. auto.
Qed.
End Patched.

(** The status write that ends a reconcile. *)
Lemma wp_channel_conclude ch n out tr0 tr :
  seen tr0 tr → channel_partly infra ch tr → channel_written infra ch n tr →
  comes_back out ∨ (channel_complete infra ch n tr ∧ cst_Phase (chn_Status n) = ChannelPhaseReady) ∨
    (input_missing tr ch ∧ cst_Phase (chn_Status n) = ChannelPhaseFailed) →
  wp (or_fail (patchStatus (k := KChannel) n ch) (mret out)) (concluded ch) tr.
Proof.
  intros [_ Hnp] Hp Hn Ho. rewrite Forall_forall in Hnp.
  unfold or_fail, patchStatus. apply wp_bind. case_decide as He.
  - apply wp_ret, wp_ret. split; [done| |].
    + intros b m x Hin. by apply Hnp in Hin.
    + destruct Ho as [Ho|Ho]; [by left|]. right. exists n. split; [by left|done].
  - apply wp_call. intros x _. apply wp_ret. change (existT _ x) with (channel_patch ch n x).
    assert (channel_status_ok infra ch (tr ++ [channel_patch ch n x])) as Hst.
    { intros b m y [Hin|Hin]%elem_of_app; [by apply Hnp in Hin|].
      apply list_elem_of_singleton in Hin. unfold channel_patch in Hin.
      apply (f_equal (channel_patch_of ∘ event_op)) in Hin. injection Hin as -> ->. split; [done|].
      destruct Hn as [[Hm Hf]|Hn]; [left|right]; auto using missing_patched, channel_complete_patched. }
    destruct x as [n'|e]; apply wp_ret; (split; [by apply channel_partly_patched|exact Hst|]).
    + destruct Ho as [Ho|Ho]; [by left|]. right. exists n. split.
      * right. exists n'. apply elem_of_app. right. left.
      * destruct Ho as [[Hc ?]|[Hm ?]]; [left|right]; auto using missing_patched, channel_complete_patched.
    + left. right. by eexists.
Qed.

Lemma fail_channel_wp ch b msg tr0 tr :
  seen tr0 tr → channel_partly infra ch tr → input_missing tr ch →
  wp (fail_channel b ch msg) (concluded ch) tr.
Proof.
  intros Hs Hp Hm. apply (wp_channel_conclude _ _ _ tr0); [done|done|by left|]. right. by right.
Qed.

Lemma channel_status_wp ch b w tr0 tr (Q : Trace → Channel → Prop) :
  chn_Meta b = chn_Meta ch → cs_Webhook (chn_Spec b) = cs_Webhook (chn_Spec ch) →
  cst_Phase (chn_Status b) = cst_Phase (chn_Status ch) → applied tr0 w tr →
  (∀ tr' n, applied tr0 w tr' → channel_reached ch n tr' → Q tr' n) →
  wp (channel_status b) Q tr.
Proof.
  intros Hm Hw Hph Htr HQ. unfold channel_status. cbv zeta.
  set (b1 := b <| chn_Status ::= _ |>).
  set (b2 := match cs_Webhook (chn_Spec b1) with Some _ => _ | None => _ end).
  assert (chn_Meta b2 = chn_Meta ch ∧ cst_Phase (chn_Status b2) = cst_Phase (chn_Status ch) ∧
    cst_ServiceURL (chn_Status b2)
      = "http://" +:+ om_name (chn_Meta ch) +:+ "." +:+ om_namespace (chn_Meta ch) +:+ ".svc:8080" ∧
    (∀ ing, BuildChannelIngress ch = Some ing → cst_WebhookURL (chn_Status b2) = address ing))
    as (Em & Ep & Es & Eu).
  { subst b2. change (cs_Webhook (chn_Spec b1)) with (cs_Webhook (chn_Spec b)). rewrite Hw, <- Hm.
    destruct (cs_Webhook (chn_Spec ch)) as [wh|] eqn:Hc; (split_and!; [done|exact Hph|done|]).
    - intros ing Hi. exact (webhook_url_address ch wh ing Hc Hi).
    - intros ing Hi. unfold BuildChannelIngress in Hi. by rewrite Hc in Hi. }
  clearbody b2. rewrite Em. apply wp_call. intros x _. apply wp_ret.
  apply HQ; [by apply applied_other|].
  assert (deployment_read ch x ∈ tr ++ [deployment_read ch x]) as Hin by (apply elem_of_app; right; left).
  destruct x as [d|e]; [case_decide as Hr|].
  all: split_and!; [exact Es|exact Eu|eexists; split; [exact Hin|]].
  - cbv iota. by rewrite decide_True.
  - cbv iota. by rewrite decide_False.
  - exact Ep.
Qed.

Lemma reconcile_resources_wp ch b agent i tr :
  chn_Meta b = chn_Meta ch → chn_Spec b = chn_Spec ch →
  cst_Phase (chn_Status b) = cst_Phase (chn_Status ch) →
  inputs_read tr ch agent i → applied tr [] tr →
  wp (reconcile_resources infra b agent i ch) (concluded ch) tr.
Proof.
  intros Hm Hs Hph Hi Htr. set (full := channel_rollout infra ch agent i).
  assert (∀ tr', seen tr tr' → inputs_read tr' ch agent i) as Hi'.
  { intros tr' [Hsub _]. destruct Hi as [Ha Hi]. split; [by apply Hsub|].
    destruct i; [|done]. destruct Hi as (? & ? & ?). auto. }
  assert (∀ tr' e, seen tr tr' → applies tr' `prefix_of` full → concluded ch tr' (failed e)) as Hfail.
  { intros tr' e Hseen Hp. split; [right; eauto| |left; right; by eexists].
    intros c n x Hin. destruct Hseen as [_ Hnp]. rewrite Forall_forall in Hnp. by apply Hnp in Hin. }
  destruct b as [bm bs bst]. cbn in Hm, Hs. subst bm bs.
  unfold reconcile_resources. cbv zeta.
  eapply (wp_fail_owned _ _ _ _ _ _ [] full); [done|exact Htr|by eexists| |exact Hfail]. intros tr1 Htr1.
  eapply (wp_fail_owned _ _ _ _ _ _ _ full); [done|exact Htr1|by eexists| |exact Hfail]. intros tr2 Htr2.
  eapply (wp_fail_owned _ _ _ _ _ _ _ full); [done|exact Htr2|by eexists| |exact Hfail]. intros tr3 Htr3.
  eapply (wp_fail_owned _ _ _ _ _ _ _ full); [done|exact Htr3|by eexists| |exact Hfail]. intros tr4 Htr4.
  eapply (wp_fail_owned _ _ _ _ _ _ _ full); [done|exact Htr4|by eexists| |exact Hfail]. intros tr5 Htr5.
  assert (∀ tr', applied tr full tr' → wp (
    ch0 ← channel_status (channel_after_build (mkChannel (chn_Meta ch) (chn_Spec ch) bst) agent);
    or_fail (patchStatus (k := KChannel) ch0 ch)
      (mret (if decide (cst_Phase (chn_Status ch0) ≠ ChannelPhaseReady)
             then requeue requeueInterval else done_))) (concluded ch) tr') as Hend.
  { intros tr6 Htr6. apply wp_bind, (channel_status_wp ch _ full tr); [done|done|exact Hph|done|].
    intros tr7 n Htr7 Hn.
    assert (channel_complete infra ch n tr7) as Hc.
    { exists agent, i. split; [apply Hi', Htr7|]. by destruct Htr7. }
    apply (wp_channel_conclude _ _ _ tr); [apply Htr7| |by right|].
    - right. exists agent, i. split; [apply Hi', Htr7|]. by rewrite (ad_applies _ _ _ Htr7).
    - case_decide as Hp; [left; left; done|]. right. left. split; [done|].
      by destruct (decide (cst_Phase (chn_Status n) = ChannelPhaseReady)). }
  unfold channel_ingress, or_fail at 1. apply wp_bind.
  change (BuildChannelIngress _) with (BuildChannelIngress ch).
  unfold full, channel_rollout, ingress_ops in *.
  destruct (BuildChannelIngress ch) as [ing|] eqn:Hing.
  - eapply wp_owned; [done|exact Htr5| |].
    + intros tr6 Htr6. apply Hend. exact Htr6.
    + intros tr6 e Hseen Hp. apply wp_ret, Hfail; [done|]. exact Hp.
  - apply wp_ret, Hend. exact Htr5.
Qed.

(** Every execution of a reconcile, by what its first read answered. *)
Lemma channel_Reconcile_wp ns name :
  wp (Reconcile infra ns name) (λ tr out, ∃ x rest,
    tr = existT (OpGet KChannel ns name) x :: rest ∧
    match x with
    | Err e => rest = [] ∧ out = (if err_notFound e then done_ else failed e)
    | Ok ch => concluded ch tr out
    end) [].
Proof.
  unfold Reconcile. apply wp_call. intros x _. destruct x as [ch|e]; [|apply wp_ret; by eexists (Err e), []].
  set (tr1 := [existT (OpGet KChannel ns name) (Ok ch)] : Trace).
  eapply wp_mono; [|apply (wp_prefix _ _ (concluded ch) tr1)].
  { intros tr out [[rest ->] Hc]. by exists (Ok ch), rest. }
  apply wp_call. intros y _. set (tr2 := tr1 ++ [agent_read ch y]).
  assert (applied tr2 [] tr2) as Htr2.
  { split; [split; [done | by repeat constructor] | done | by repeat constructor]. }
  assert (agent_read ch y ∈ tr2) as Hy by (apply elem_of_app; right; left).
  destruct y as [agent|e]; [|apply (fail_channel_wp _ _ _ tr2); [apply Htr2|by left|left; by exists e]].
  cbv zeta. match goal with |- context [if decide ?P then _ else _] => destruct (decide P) as [Hpoll|Hpoll] end.
  - match goal with |- context [if decide ?P then _ else _] => destruct (decide P) as [Href|Href] end.
    + apply (fail_channel_wp _ _ _ tr2); [apply Htr2|by left|]. right. split; [done|]. by left.
    + apply wp_call. intros z _. set (tr3 := tr2 ++ [integration_read ch z]).
      assert (applied tr3 [] tr3) as Htr3.
      { split; [split; [done | by repeat constructor] | done | by repeat constructor]. }
      assert (integration_read ch z ∈ tr3) as Hz by (apply elem_of_app; right; left).
      destruct z as [i|e].
      * apply reconcile_resources_wp; [done..| |done]. split; [apply elem_of_app; by left|done].
      * apply (fail_channel_wp _ _ _ tr3); [apply Htr3|by left|]. right. split; [done|]. right. by exists e.
  - apply reconcile_resources_wp; [done..| |done]. by split.
Qed.
End Proofs.

(** ** The bridge *)

(** The secrets a bridge works with, by the type of its channel. *)
Inductive bridge_secret (s : ChannelSpec) (i : option Integration) : string → SecretKeyRef → Prop :=
| bs_telegram c : cs_Type s = ChannelTypeTelegram → cs_Telegram s = Some c →
    bridge_secret s i "TELEGRAM_BOT_TOKEN" (tc_BotTokenSecret c)
| bs_slack c : cs_Type s = ChannelTypeSlack → cs_Slack s = Some c →
    bridge_secret s i "SLACK_BOT_TOKEN" (slc_BotTokenSecret c)
| bs_discord c : cs_Type s = ChannelTypeDiscord → cs_Discord s = Some c →
    bridge_secret s i "DISCORD_BOT_TOKEN" (dc_BotTokenSecret c)
| bs_gitlab c : cs_Type s = ChannelTypeGitLab → cs_GitLab s = Some c →
    bridge_secret s i "WEBHOOK_SECRET" (glc_Secret c)
| bs_github c : cs_Type s = ChannelTypeGitHub → cs_GitHub s = Some c →
    bridge_secret s i "WEBHOOK_SECRET" (ghc_Secret c)
| bs_webhook c ref : cs_Type s = ChannelTypeWebhook → cs_WebhookConfig s = Some c →
    whc_Secret c = Some ref → bridge_secret s i "WEBHOOK_SECRET" ref
| bs_label c ig ref : cs_Type s = ChannelTypeGitLabLabel → cs_GitLabLabel s = Some c → i = Some ig →
    is_Credentials (ig_Spec ig) = Some ref → bridge_secret s i "GITLAB_TOKEN" ref
| bs_comment c ig ref : cs_Type s = ChannelTypeGitLabComment → cs_GitLabComment s = Some c → i = Some ig →
    is_Credentials (ig_Spec ig) = Some ref → bridge_secret s i "GITLAB_TOKEN" ref.

Definition from_secret (e : EnvVar) : Prop :=
  match ev_from e with Some (FromSecretKey _ _) => True | _ => False end.

(** A variable is no secret, or one of the bridge's. *)
Definition accounted (s : ChannelSpec) (i : option Integration) (e : EnvVar) : Prop :=
  from_secret e → ∃ name ref, bridge_secret s i name ref ∧ e = secret_env name ref.

Lemma gitlab_identity_plain s i ig : Forall (accounted s i) (gitlab_identity ig).
Proof.
  unfold gitlab_identity. destruct (is_GitLab (ig_Spec ig)), (is_GitLabGroup (ig_Spec ig)); repeat constructor; by intros [].
Qed.

Lemma gitlab_token_accounted s i ig :
  (∀ ref, is_Credentials (ig_Spec ig) = Some ref → bridge_secret s i "GITLAB_TOKEN" ref) →
  Forall (accounted s i) (gitlab_token ig).
Proof.
  intros Hb. unfold gitlab_token. destruct (is_Credentials (ig_Spec ig)) as [ref|]; repeat constructor.
  intros _. eauto.
Qed.

Lemma block_secret_accounted {A} s i name (b : option A) ref :
  (∀ c, b = Some c → bridge_secret s i name (ref c)) → Forall (accounted s i) (block_secret name b ref).
Proof. intros Hb. destruct b as [c|]; cbn; repeat constructor. intros _. eauto. Qed.

Ltac plain_env := repeat (apply Forall_app; split); repeat constructor; try by intros [].

Lemma platform_accounted ch i : Forall (accounted (chn_Spec ch) i) (buildChannelPlatformEnv ch i).
Proof.
  unfold buildChannelPlatformEnv. cbv zeta.
  repeat (let Ht := fresh "Ht" in case_decide as Ht;
          [try (apply block_secret_accounted; intros c Hc; by econstructor)|]); [..|constructor].
  - apply block_secret_accounted. intros ref (c & Hc & Hr)%bind_Some. by eapply bs_webhook.
  - unfold buildGitLabLabelEnv. destruct (cs_GitLabLabel (chn_Spec ch)) as [c|] eqn:Hc, i as [ig|]; try constructor.
    assert (Forall (accounted (chn_Spec ch) (Some ig)) (gitlab_identity ig ++ gitlab_token ig)) as Hi.
    { apply Forall_app. split; [apply gitlab_identity_plain|]. apply gitlab_token_accounted. intros ref Hr.
      by eapply bs_label. }
    apply Forall_app in Hi as [Hi Ht']. cbv zeta. case_decide; plain_env; assumption.
  - unfold buildGitLabCommentEnv. destruct (cs_GitLabComment (chn_Spec ch)) as [c|] eqn:Hc, i as [ig|]; try constructor.
    assert (Forall (accounted (chn_Spec ch) (Some ig)) (gitlab_identity ig ++ gitlab_token ig)) as Hi.
    { apply Forall_app. split; [apply gitlab_identity_plain|]. apply gitlab_token_accounted. intros ref Hr.
      by eapply bs_comment. }
    apply Forall_app in Hi as [Hi Ht']. cbv zeta. case_decide; plain_env; assumption.
Qed.

Lemma channel_env_accounted ch agent i infra :
  Forall (accounted (chn_Spec ch) i) (channel_env ch agent i infra).
Proof.
  unfold channel_env. cbv zeta. plain_env; try (case_decide; plain_env). apply platform_accounted.
Qed.

Lemma bridge_secret_platform ch i name ref :
  bridge_secret (chn_Spec ch) i name ref → secret_env name ref ∈ buildChannelPlatformEnv ch i.
Proof.
  intros Hb. unfold buildChannelPlatformEnv. cbv zeta.
  destruct Hb as [c Ht Hc|c Ht Hc|c Ht Hc|c Ht Hc|c Ht Hc|c ref Ht Hc Hr|c ig ref Ht Hc -> Hr|c ig ref Ht Hc -> Hr];
    rewrite Ht; cbn [decide]; repeat (rewrite decide_False by done); rewrite decide_True by done;
    unfold buildGitLabLabelEnv, buildGitLabCommentEnv, gitlab_token; rewrite ?Hc; cbn [mbind option_bind];
    rewrite ?Hr; try by left.
  all: cbv zeta; case_decide; repeat (rewrite elem_of_app); repeat (first [by left; right; left|left]).
Qed.

(** Every name occurs once: nothing overrides anything. *)
Lemma channel_env_names ch agent i infra : NoDup (ev_name <$> channel_env ch agent i infra).
Proof.
  assert (∀ l, bool_decide (NoDup (l : list string)) = true → NoDup l) as Hd by (intros l; apply bool_decide_eq_true).
  unfold channel_env, buildChannelPlatformEnv. cbv zeta.
  unfold block_secret, buildGitLabLabelEnv, buildGitLabCommentEnv, gitlab_identity, gitlab_token.
  repeat case_match; try contradiction; apply Hd; vm_compute; reflexivity.
Qed.

(** The prompt of a polling bridge whose channel sets none. *)
Definition default_prompt (s : ChannelSpec) (i : option Integration) (v : string) : Prop :=
  (cs_Type s = ChannelTypeGitLabLabel ∧ is_Some (cs_GitLabLabel s) ∧ is_Some i ∧ v = defaultGitLabLabelPrompt) ∨
  (cs_Type s = ChannelTypeGitLabComment ∧ is_Some (cs_GitLabComment s) ∧ is_Some i ∧
   v = defaultGitLabCommentPrompt).
Definition bridge_prompt (s : ChannelSpec) (i : option Integration) (v : string) : Prop :=
  (cs_Prompt s ≠ "" ∧ v = cs_Prompt s) ∨ (cs_Prompt s = "" ∧ default_prompt s i v).

Definition prompt_ok (P : string → Prop) (e : EnvVar) : Prop := ev_name e = "PROMPT_TEMPLATE" → P (ev_value e).

Ltac each_var :=
  repeat lazymatch goal with
  | |- Forall _ [] => constructor
  | |- Forall _ (_ :: _) => constructor
  | |- Forall _ (_ ++ _) => apply Forall_app; split
  end; try (intros Hn; discriminate Hn).

Lemma identity_prompt P ig : Forall (prompt_ok P) (gitlab_identity ig ++ gitlab_token ig).
Proof.
  unfold gitlab_identity, gitlab_token. repeat case_match; each_var.
Qed.

Lemma platform_prompt ch i :
  Forall (prompt_ok (λ v, cs_Prompt (chn_Spec ch) = "" ∧ default_prompt (chn_Spec ch) i v))
    (buildChannelPlatformEnv ch i).
Proof.
  unfold buildChannelPlatformEnv, block_secret, buildGitLabLabelEnv, buildGitLabCommentEnv. cbv zeta.
  repeat case_match; try contradiction; each_var;
    try (pose proof (identity_prompt (λ v, cs_Prompt (chn_Spec ch) = "" ∧ default_prompt (chn_Spec ch) i v)) as Hp;
         setoid_rewrite Forall_app in Hp; subst; by apply Hp).
  all: intros _; (split; [done|]); unfold default_prompt; subst.
  all: first [left; split_and!; [assumption|by eexists|by eexists|reflexivity]
             |right; split_and!; [assumption|by eexists|by eexists|reflexivity]].
Qed.

Lemma channel_env_prompt ch agent i infra v :
  EnvValue "PROMPT_TEMPLATE" v ∈ channel_env ch agent i infra ↔ bridge_prompt (chn_Spec ch) i v.
Proof.
  split.
  - assert (Forall (prompt_ok (bridge_prompt (chn_Spec ch) i)) (channel_env ch agent i infra)) as Hall.
    { unfold channel_env. cbv zeta. each_var; try (case_decide; each_var).
      - intros _. by left.
      - eapply Forall_impl; [apply platform_prompt|]. intros e He Hn. right. auto. }
    intros Hin. rewrite Forall_forall in Hall. by apply (Hall _ Hin).
  - unfold channel_env. cbv zeta. rewrite !elem_of_app. intros [[Hne ->]|[He Hd]].
    + do 3 right. left. destruct (decide (cs_Prompt (chn_Spec ch) ≠ "")); [by left|done].
    + do 6 right. unfold buildChannelPlatformEnv, default_prompt in *. cbv zeta.
      destruct Hd as [(Ht & [c Hc] & [ig ->] & ->)|(Ht & [c Hc] & [ig ->] & ->)]; rewrite Ht;
        repeat (rewrite decide_False by done); rewrite decide_True by done;
        unfold buildGitLabLabelEnv, buildGitLabCommentEnv; rewrite Hc; cbv zeta;
        rewrite decide_True by done; rewrite !elem_of_app; right; by left.
Qed.

Lemma event_prompt ch i :
  ChannelValid (chn_Spec ch) → (polls ch ↔ is_Some i) → IsEventType (cs_Type (chn_Spec ch)) = true →
  ∃ v, v ≠ "" ∧ bridge_prompt (chn_Spec ch) i v.
Proof.
  intros Hvalid Hi Hev. destruct (decide (cs_Prompt (chn_Spec ch) = "")) as [Hp|Hp].
  2: { exists (cs_Prompt (chn_Spec ch)). split; [exact Hp|]. left. by split. }
  unfold IsEventType in Hev. rewrite !orb_true_iff, !bool_decide_eq_true in Hev.
  assert (cs_Type (chn_Spec ch) ∉ [ChannelTypeGitLab; ChannelTypeGitHub; ChannelTypeWebhook]) as Hne
    by (intros Hin; by apply (cv_prompt _ Hvalid Hin)).
  rewrite !elem_of_cons, elem_of_nil in Hne.
  assert (polls ch) as Hpoll by (unfold polls; tauto). pose proof (proj1 Hi Hpoll) as Hs.
  destruct Hpoll as [Ht|Ht].
  - destruct (cv_label _ Hvalid Ht) as (c & Hc & _). exists defaultGitLabLabelPrompt. split; [done|].
    right. split; [done|]. left. split_and!; try done; by exists c.
  - destruct (cv_comment _ Hvalid Ht) as (c & Hc & _). exists defaultGitLabCommentPrompt. split; [done|].
    right. split; [done|]. right. split_and!; try done; by exists c.
Qed.

Lemma platform_secret s i :
  ChannelValid s →
  cs_Type s ∈ [ChannelTypeTelegram; ChannelTypeSlack; ChannelTypeDiscord; ChannelTypeGitLab; ChannelTypeGitHub] →
  ∃ name ref, bridge_secret s i name ref.
Proof.
  intros Hvalid Ht. rewrite !elem_of_cons, elem_of_nil in Ht. destruct Ht as [Ht|[Ht|[Ht|[Ht|[Ht|[]]]]]].
  - destruct (cv_telegram _ Hvalid Ht). eauto using bridge_secret.
  - destruct (cv_slack _ Hvalid Ht). eauto using bridge_secret.
  - destruct (cv_discord _ Hvalid Ht). eauto using bridge_secret.
  - destruct (cv_gitlab _ Hvalid Ht). eauto using bridge_secret.
  - destruct (cv_github _ Hvalid Ht). eauto using bridge_secret.
Qed.

(** [C26] What a channel's bridge gets.  Its pod has the one container, every
    variable once.  The variables taken from secrets are exactly those of the
    channel's type, or of the Integration it polls; the operator never reads
    a token.  The prompt is the channel's own, else the default of a polling
    type.  So the bridge of an admitted channel, with its Integration when it
    polls, always has a prompt to render if the type is event-driven, and the
    secret of its platform. *)
Theorem channel_bridge_env ch agent i infra :
  let env := channel_env ch agent i infra in
  ct_env <$> ps_containers (pt_spec (dp_template (BuildChannelDeployment ch agent i infra))) = [env] ∧
  NoDup (ev_name <$> env) ∧
  (∀ e, e ∈ env ∧ from_secret e ↔
        ∃ name ref, bridge_secret (chn_Spec ch) i name ref ∧ e = secret_env name ref) ∧
  (∀ v, EnvValue "PROMPT_TEMPLATE" v ∈ env ↔ bridge_prompt (chn_Spec ch) i v) ∧
  (admitted (ValidateCreate ch) → (polls ch ↔ is_Some i) →
   (IsEventType (cs_Type (chn_Spec ch)) = true → ∃ v, v ≠ "" ∧ EnvValue "PROMPT_TEMPLATE" v ∈ env) ∧
   (cs_Type (chn_Spec ch) ∈ [ChannelTypeTelegram; ChannelTypeSlack; ChannelTypeDiscord; ChannelTypeGitLab;
                              ChannelTypeGitHub] →
    ∃ name ref, bridge_secret (chn_Spec ch) i name ref ∧ secret_env name ref ∈ env)).
Proof.
  intros env.
  assert (∀ name ref, bridge_secret (chn_Spec ch) i name ref → secret_env name ref ∈ env) as Hsec.
  { intros name ref Hb. unfold env, channel_env. cbv zeta. rewrite !elem_of_app. do 6 right.
    by apply bridge_secret_platform. }
  split_and!.
  - unfold BuildChannelDeployment. cbn [dp_template pt_spec].
    destruct (ApplySecurity_parts (mkPodSpec [] [channel_container ch env] [] (ChannelServiceAccountName ch)
                None None "") "channel" (channel_security ch agent)) as (_ & _ & _ & Hc & _).
    fold env. rewrite Hc. cbn [ps_containers map list_fmap fmap]. f_equal.
    unfold main_or_sidecar. case_decide; rewrite applyContainer_env; unfold channel_container;
      by destruct (cs_Resources (chn_Spec ch)).
  - apply channel_env_names.
  - intros e. split.
    + intros [Hin Hf]. pose proof (channel_env_accounted ch agent i infra) as Hall.
      rewrite Forall_forall in Hall. by apply Hall.
    + intros (name & ref & Hb & ->). split; [by apply Hsec|done].
  - intros v. apply channel_env_prompt.
  - intros Hadm Hi. apply channel_admitted in Hadm. split.
    + intros Hev. destruct (event_prompt ch i Hadm Hi Hev) as (v & Hv & Hp). exists v.
      split; [done|]. by apply channel_env_prompt.
    + intros Ht. destruct (platform_secret (chn_Spec ch) i Hadm Ht) as (name & ref & Hb). eauto.
Qed.

(** ** Exposure *)

(** The bridge may use its API token: a task agent's unless the channel says
    no, any other only when the channel says so. *)
Definition uses_token (ch : Channel) (agent : Agent) : Prop :=
  match cs_Security (chn_Spec ch) ≫= so_AutomountServiceAccountToken with
  | Some b => b = true
  | None => as_Mode (ag_Spec agent) = AgentModeTask
  end.

Lemma channel_token ch agent :
  ptr_true (o ← channel_security ch agent; so_AutomountServiceAccountToken o) = true ↔ uses_token ch agent.
Proof.
  unfold channel_security, uses_token, ptr_true. cbv zeta.
  destruct (cs_Security (chn_Spec ch)) as [s|]; cbn [default mbind option_bind].
  - case_decide as Ht; cbn [mbind option_bind]; destruct (so_AutomountServiceAccountToken s) as [[]|] eqn:E;
      cbn; rewrite ?E; naive_solver.
  - case_decide as Ht; cbn; naive_solver.
Qed.

(** [C27] How a bridge is reached and what it may do.  The Service of a channel
    selects exactly the pods of the channel's own Deployment, and its port is
    the port of their container; the Ingress, there when the channel has a
    webhook, leads to that Service for the host and the path of the webhook,
    with a certificate for the host exactly when TLS is asked for.  The pod
    runs as the channel's service account, and has its token exactly when its
    agent runs tasks, or the channel asks, unless the channel forbids it. *)
Theorem channel_exposure ch ch' agent i infra :
  let pod := dp_template (BuildChannelDeployment ch' agent i infra) in
  (selects (sv_selector (BuildChannelService ch)) (pt_labels pod)
     ↔ om_name (chn_Meta ch) = om_name (chn_Meta ch')) ∧
  (∀ p, p ∈ sv_ports (BuildChannelService ch') →
        Forall (λ c, ∃ q, q ∈ ct_ports c ∧ cp_port q = svp_targetPort p) (ps_containers (pt_spec pod))) ∧
  (is_Some (BuildChannelIngress ch) ↔ is_Some (cs_Webhook (chn_Spec ch))) ∧
  (∀ ing w, BuildChannelIngress ch = Some ing → cs_Webhook (chn_Spec ch) = Some w →
     in_host ing = wi_Host w ∧ in_path ing = string_or (wi_Path w) "/" ∧
     in_backendService ing = om_name (sv_meta (BuildChannelService ch)) ∧
     in_backendPort ing ∈ svp_port <$> sv_ports (BuildChannelService ch) ∧
     (is_Some (wi_TLS w) ↔ in_tls ing = [([wi_Host w], om_name (chn_Meta ch) +:+ "-tls")]) ∧
     (wi_TLS w = None ↔ in_tls ing = [])) ∧
  ps_serviceAccountName (pt_spec pod) = ChannelServiceAccountName ch' ∧
  (ps_automountToken (pt_spec pod) = Some true ↔ uses_token ch' agent).
Proof.
  intros pod.
  destruct (ApplySecurity_parts (mkPodSpec [] [channel_container ch' (channel_env ch' agent i infra)] []
    (ChannelServiceAccountName ch') None None "") "channel" (channel_security ch' agent))
    as (_ & Hau & _ & Hc & _ & Hsa & _).
  subst pod. unfold BuildChannelDeployment. cbn [dp_template pt_spec pt_labels]. split_and!.
  - unfold BuildChannelService, channel_selector, selects. cbn [sv_selector]. rewrite map_subseteq_spec. split.
    + intros Hs. specialize (Hs "app" (om_name (chn_Meta ch))).
      rewrite lookup_insert_ne, lookup_insert_eq in Hs by done. specialize (Hs eq_refl).
      rewrite !lookup_insert_ne, lookup_insert_eq in Hs by done. congruence.
    + intros -> k v. rewrite !lookup_insert_Some. naive_solver.
  - intros p Hp. rewrite Hc. cbn [ps_containers map]. repeat constructor.
    apply list_elem_of_singleton in Hp as ->. exists (mkPort "http" 8080 "TCP"). split; [|done].
    unfold main_or_sidecar, applyContainer, channel_container.
    case_decide; destruct (cs_Resources (chn_Spec ch')); destruct (existsb _ _); by left.
  - unfold BuildChannelIngress. destruct (cs_Webhook (chn_Spec ch)); split; intros [? [=]]; by eexists.
  - intros ing w Hi Hw. unfold BuildChannelIngress in Hi. rewrite Hw in Hi. injection Hi as <-.
    destruct (decide (wi_IngressClassName w ≠ "")), (wi_TLS w) as [tls|]; cbn;
      (split_and!; [done|done|done|by left|..]); split; try done; by intros [? [=]].
  - exact Hsa.
  - rewrite Hau. etrans; [|apply channel_token]. split; [by intros [= ->]|by intros ->].
Qed.

(** ** The controller *)

(** [C28] What a reconcile of a Channel applies: its identity, Deployment,
    Service and Ingress, in that order, built from the channel and the agent
    and Integration read in this reconcile, and nothing before those were
    read; and every status it writes is Failed because one of them could not
    be read or is not named, or the outcome of a complete, acknowledged
    rollout: the URL of the service, the address of the Ingress, and Ready
    exactly when the Deployment has ready replicas (the phase it had, when the
    Deployment cannot be read). *)
Theorem channel_Reconcile_rollout `{ConditionOps} `{OwnerOps} infra ns name :
  wp any_answer (Reconcile infra ns name) (λ tr out, ∃ x rest,
    tr = existT (OpGet KChannel ns name) x :: rest ∧
    match x with
    | Err _ => rest = []
    | Ok ch => channel_partly infra ch tr ∧ channel_status_ok infra ch tr
    end) [].
Proof.
  eapply wp_mono; [|apply channel_Reconcile_wp]. intros tr out (x & rest & -> & Hx). exists x, rest.
  split; [done|]. destruct x; [by destruct Hx | by destruct Hx].
Qed.

(** [C29] A reconcile of a Channel asks to be called again unless the channel
    is gone, its bridge is rolled out and recorded Ready, or an input is
    missing and the channel is recorded Failed. *)
Theorem channel_Reconcile_settles `{ConditionOps} `{OwnerOps} infra ns name :
  wp any_answer (Reconcile infra ns name) (λ tr out,
    comes_back out ∨
    (∃ e rest, tr = existT (OpGet KChannel ns name) (Err e) :: rest ∧ err_notFound e = true) ∨
    (∃ ch rest, tr = existT (OpGet KChannel ns name) (Ok ch) :: rest ∧ channel_at_rest infra ch tr)) [].
Proof.
  eapply wp_mono; [|apply channel_Reconcile_wp]. intros tr out (x & rest & -> & Hx). destruct x as [ch|e].
  - destruct Hx as [_ _ [Hc|Hu]]; [by left | right; right; by exists ch, rest].
  - destruct Hx as [-> ->]. destruct (err_notFound e) eqn:He.
    + right. left. by exists e, [].
    + left. right. by eexists.
Qed.
