(* ===== verification/Objects.v ===== *)
(** * The objects the operator owns, and their names

    Every builder of internal/resources gives its object a name and labels
    made from the names of its owner: what that says about two owners, and
    about the lengths the API server accepts. *)

From S2P Require Import Prelude GoLib KubeTypes ApiTypes JsonCodec Effects ResourceCommon.
From S2P Require Import AgentGit ConfigTypes ConfigMap Builders AgentPod ChannelRes.

Open Scope string_scope.
Open Scope list_scope.

(** A run is built for with the agent it names. *)
Inductive Owner :=
| OwnerAgent (agent : Agent) | OwnerRun (run : AgentRun) (agent : Agent) | OwnerChannel (ch : Channel).

Definition owner_meta (o : Owner) : ObjectMeta :=
  match o with
  | OwnerAgent a => ag_Meta a | OwnerRun run _ => ar_Meta run | OwnerChannel ch => chn_Meta ch
  end.
Definition owner_kind (o : Owner) : Kind :=
  match o with OwnerAgent _ => KAgent | OwnerRun _ _ => KAgentRun | OwnerChannel _ => KChannel end.

(** The object of each kind a controller keeps for an owner, whatever else the
    builder is given. *)
Inductive builds `{FloatOps} : Owner → Kind → ObjectMeta → Prop :=
| agent_sa a : as_ServiceAccountName (ag_Spec a) = "" →
    builds (OwnerAgent a) KServiceAccount (sa_meta (BuildAgentServiceAccount a))
| agent_role a : builds (OwnerAgent a) KRole (ro_meta (BuildAgentRole a))
| agent_binding a : builds (OwnerAgent a) KRoleBinding (rb_meta (BuildAgentRoleBinding a))
| agent_pvc valid a storage pvc : BuildAgentPVC valid a storage = Some pvc →
    builds (OwnerAgent a) KPVC (pvc_meta pvc)
| agent_config a integrations providers cm : BuildAgentConfigMap a integrations providers = Ok cm →
    builds (OwnerAgent a) KConfigMap (cm_meta cm)
| agent_deployment a providers integrations infra :
    builds (OwnerAgent a) KDeployment (dp_meta (BuildAgentDeployment a providers integrations infra))
| agent_service a : builds (OwnerAgent a) KService (sv_meta (BuildAgentService a))
| agent_policy a : builds (OwnerAgent a) KNetworkPolicy (np_meta (BuildAgentNetworkPolicy a))
| run_job run a providers git cm infra :
    builds (OwnerRun run a) KJob (jb_meta (BuildAgentRunJob run a providers git cm infra))
| run_config run a integrations providers base tools cm :
    om_namespace (ag_Meta a) = om_namespace (ar_Meta run) →
    BuildAgentConfigMap a integrations providers = Ok base →
    BuildAgentRunConfigMap base (om_name (ar_Meta run)) tools = Ok cm →
    builds (OwnerRun run a) KConfigMap (cm_meta cm)
| channel_sa ch : builds (OwnerChannel ch) KServiceAccount (sa_meta (BuildChannelServiceAccount ch))
| channel_role ch : builds (OwnerChannel ch) KRole (ro_meta (BuildChannelRole ch))
| channel_binding ch : builds (OwnerChannel ch) KRoleBinding (rb_meta (BuildChannelRoleBinding ch))
| channel_deployment ch a i infra :
    builds (OwnerChannel ch) KDeployment (dp_meta (BuildChannelDeployment ch a i infra))
| channel_service ch : builds (OwnerChannel ch) KService (sv_meta (BuildChannelService ch))
| channel_ingress ch ing : BuildChannelIngress ch = Some ing →
    builds (OwnerChannel ch) KIngress (in_meta ing).

(** ** Names *)

(** What follows the owner's name. *)
Definition suffix (o k : Kind) : string :=
  match o, k with
  | KAgent, (KServiceAccount | KRole | KRoleBinding) => "agent"
  | KAgent, KPVC => "storage"
  | KAgent, KNetworkPolicy => "netpol"
  | (KAgent | KAgentRun), KConfigMap => "config"
  | KChannel, (KServiceAccount | KRole | KRoleBinding) => "channel"
  | _, _ => ""
  end.

(** The kinds two owners of different kinds both have under the same name. *)
Definition shared (o1 o2 k : Kind) : Prop :=
  match o1, o2 with
  | KAgent, KChannel | KChannel, KAgent => k = KDeployment ∨ k = KService
  | KAgent, KAgentRun | KAgentRun, KAgent => k = KConfigMap
  | _, _ => False
  end.

(** The kinds each controller creates. *)
Definition creates (o k : Kind) : Prop :=
  match o, k with
  | KAgent, (KServiceAccount | KRole | KRoleBinding | KPVC | KConfigMap | KDeployment | KService
             | KNetworkPolicy)
  | KAgentRun, (KJob | KConfigMap)
  | KChannel, (KServiceAccount | KRole | KRoleBinding | KDeployment | KService | KIngress) => True
  | _, _ => False
  end.

Section Objects.
Context `{FloatOps}.

Lemma deployment_meta a providers integrations infra :
  dp_meta (BuildAgentDeployment a providers integrations infra)
  = newMeta (om_name (ag_Meta a)) (om_namespace (ag_Meta a)) (CommonLabels (om_name (ag_Meta a)) "runtime").
Proof. unfold BuildAgentDeployment. by destruct (as_Storage (ag_Spec a)). Qed.

Lemma run_config_meta a integrations providers base run tools cm :
  BuildAgentConfigMap a integrations providers = Ok base →
  BuildAgentRunConfigMap base (om_name (ar_Meta run)) tools = Ok cm →
  cm_meta cm = newMeta (ObjectName (om_name (ar_Meta run)) "config") (om_namespace (ag_Meta a))
                 (<["agents.agentops.io/run" := om_name (ar_Meta run)]>
                    (CommonLabels (om_name (ag_Meta a)) "config")).
Proof.
  intros [= <-]. unfold BuildAgentRunConfigMap. destruct (Unmarshal _); [|done]. by intros [= <-].
Qed.

Lemma ingress_meta ch ing : BuildChannelIngress ch = Some ing →
  om_name (in_meta ing) = om_name (chn_Meta ch) ∧ om_namespace (in_meta ing) = om_namespace (chn_Meta ch) ∧
  om_labels (in_meta ing) = <[LabelComponent := "channel"]> (<[LabelManagedBy := ManagedByValue]> ∅).
Proof.
  unfold BuildChannelIngress. destruct (cs_Webhook (chn_Spec ch)) as [w|]; [|done].
  intros [= <-]. destruct (wi_TLS w), (decide (wi_IngressClassName w ≠ "")); done.
Qed.

(** The key of an object: its kind and the owner's name say it all. *)
Lemma builds_key o k m : builds o k m →
  creates (owner_kind o) k ∧ om_namespace m = om_namespace (owner_meta o) ∧
  om_name m = ObjectName (om_name (owner_meta o)) (suffix (owner_kind o) k).
Proof.
  intros [a Hsa|a|a|valid a st pvc Hpvc|a is_ ps cm Hcm|a ps is_ infra|a|a|run a ps git cm infra
         |run a is_ ps base tools cm Hns Hbase Hcm|ch|ch|ch|ch a i infra|ch|ch ing Hing];
    cbn [owner_kind owner_meta creates suffix]; (split; [exact I|]); try done.
  - cbn. unfold AgentServiceAccountName. by rewrite Hsa.
  - unfold BuildAgentPVC in Hpvc. case_match; [|done]. by injection Hpvc as <-.
  - by injection Hcm as <-.
  - by rewrite deployment_meta.
  - by rewrite (run_config_meta _ _ _ _ _ _ _ Hbase Hcm), <- Hns.
  - by destruct (ingress_meta _ _ Hing) as (-> & -> & _).
Qed.

Lemma ObjectName_inj s n1 n2 : ObjectName n1 s = ObjectName n2 s ↔ n1 = n2.
Proof.
  split; [|by intros ->]. unfold ObjectName. case_decide; [done|]. by intros Heq%GoStrings.app_inv_tail.
Qed.

Lemma agent_not_channel n1 n2 : ObjectName n1 "agent" ≠ ObjectName n2 "channel".
Proof.
  intros Heq. apply (f_equal (λ s, last (GoStrings.chars s))) in Heq. unfold ObjectName in Heq.
  rewrite !decide_False in Heq by done. rewrite !GoStrings.chars_app, !last_app in Heq. by cbn in Heq.
Qed.

(** Two keys of one kind. *)
Lemma keys_equal o1 o2 k n1 n2 : creates o1 k → creates o2 k →
  ObjectName n1 (suffix o1 k) = ObjectName n2 (suffix o2 k) ↔ n1 = n2 ∧ (o1 = o2 ∨ shared o1 o2 k).
Proof.
  pose proof (agent_not_channel n1 n2) as Hn1. pose proof (agent_not_channel n2 n1) as Hn2.
  destruct o1; try done; destruct o2; try done; destruct k; try done; intros _ _;
    cbn [suffix shared]; rewrite ?ObjectName_inj; intuition congruence.
Qed.

(** [C34] No two owners fight over an object: the objects the controllers keep for two
    Agents, AgentRuns or Channels are one object of the cluster exactly when the owners
    have one name and namespace and are of one kind, or are an Agent and a Channel (then
    their Deployments and Services are one) or an Agent and an AgentRun with a workspace
    (their ConfigMaps). *)
Theorem owners_disjoint o1 o2 k m1 m2 :
  builds o1 k m1 → builds o2 k m2 →
  ((om_namespace m1 = om_namespace m2 ∧ om_name m1 = om_name m2) ↔
   om_namespace (owner_meta o1) = om_namespace (owner_meta o2) ∧
   om_name (owner_meta o1) = om_name (owner_meta o2) ∧
   (owner_kind o1 = owner_kind o2 ∨ shared (owner_kind o1) (owner_kind o2) k)).
Proof.
  intros (Hc1 & -> & ->)%builds_key (Hc2 & -> & ->)%builds_key. by rewrite (keys_equal _ _ k).
Qed.

(** ** Lengths *)

(** A label value, and the name of a Service, have at most 63 bytes. *)
Definition fits (s : string) : Prop := (String.length s ≤ 63)%nat.
Definition acceptable (k : Kind) (m : ObjectMeta) : Prop :=
  map_Forall (λ _ v, fits v) (om_labels m) ∧ (k = KService → fits (om_name m)).

Definition owner_names (o : Owner) : list string :=
  match o with
  | OwnerAgent a => [om_name (ag_Meta a)]
  | OwnerRun run a => [om_name (ar_Meta run); om_name (ag_Meta a)]
  | OwnerChannel ch => [om_name (chn_Meta ch)]
  end.

Lemma common_labels_fit n c : fits c → map_Forall (λ _ v, fits v) (CommonLabels n c) ↔ fits n.
Proof.
  intros Hc. unfold CommonLabels. split.
  - intros Hl. apply (Hl LabelAgent). apply lookup_insert_eq.
  - intros Hn. repeat (apply map_Forall_insert_2; [try done; try (unfold fits; cbn; lia)|]).
    apply map_Forall_empty.
Qed.

Ltac fit := unfold fits; cbn; lia.

Lemma builds_acceptable o k m : builds o k m → Forall fits (owner_names o) → acceptable k m.
Proof.
  intros Hb Hn. unfold acceptable.
  assert (k = KService → fits (om_name m)) as Hsvc.
  { intros ->. destruct (builds_key _ _ _ Hb) as (_ & _ & ->). destruct o; cbn in *;
      by apply Forall_inv in Hn. }
  split; [|done]. clear Hsvc.
  destruct Hb as [a Hsa|a|a|valid a st pvc Hpvc|a is_ ps cm Hcm|a ps is_ infra|a|a|run a ps git cm infra
         |run a is_ ps base tools cm Hns Hbase Hcm|ch|ch|ch|ch a i infra|ch|ch ing Hing]; cbn in Hn.
  all: try (apply Forall_inv in Hn as Hn1).
  - by apply common_labels_fit; [fit|].
  - by apply common_labels_fit; [fit|].
  - by apply common_labels_fit; [fit|].
  - unfold BuildAgentPVC in Hpvc. case_match; [|done]. injection Hpvc as <-.
    by apply common_labels_fit; [fit|].
  - injection Hcm as <-. by apply common_labels_fit; [fit|].
  - rewrite deployment_meta. by apply common_labels_fit; [fit|].
  - by apply common_labels_fit; [fit|].
  - by apply common_labels_fit; [fit|].
  - apply Forall_inv_tail, Forall_inv in Hn. apply map_Forall_insert_2; [done|].
    by apply common_labels_fit; [fit|].
  - apply Forall_inv_tail, Forall_inv in Hn. rewrite (run_config_meta _ _ _ _ _ _ _ Hbase Hcm).
    apply map_Forall_insert_2; [done|]. by apply common_labels_fit; [fit|].
  - by apply common_labels_fit; [fit|].
  - by apply common_labels_fit; [fit|].
  - by apply common_labels_fit; [fit|].
  - repeat (apply map_Forall_insert_2; [first [done|fit]|]). apply map_Forall_empty.
  - repeat (apply map_Forall_insert_2; [first [done|fit]|]). apply map_Forall_empty.
  - destruct (ingress_meta _ _ Hing) as (_ & _ & ->).
    repeat (apply map_Forall_insert_2; [first [done|fit]|]). apply map_Forall_empty.
Qed.

(** [C35] How long names may be: the API server takes every object the controllers keep for
    an owner, as far as the lengths of label values and Service names go, exactly when the
    owner's name, and for a run its agent's, has at most 63 bytes.  (A custom resource may
    have a name of 253, and no webhook says otherwise.) *)
Theorem object_names_fit o :
  (∀ k m, builds o k m → acceptable k m) ↔ Forall fits (owner_names o).
Proof.
  split; [|intros Hn k m Hb; by apply (builds_acceptable o)].
  intros Hall. destruct o as [a|run a|ch]; cbn.
  - destruct (Hall _ _ (agent_role a)) as [Hl _]. apply common_labels_fit in Hl; [by apply Forall_singleton|fit].
  - destruct (Hall _ _ (run_job run a [] None "" (mkInfra "" ""))) as [Hl _].
    apply Forall_cons. split; [|apply Forall_singleton].
    + apply (Hl LabelRun (om_name (ar_Meta run))). apply lookup_insert_eq.
    + apply (Hl LabelAgent (om_name (ag_Meta a))). apply lookup_insert_Some. right. split; [done|]. apply lookup_insert_eq.
  - destruct (Hall _ _ (channel_role ch)) as [Hl _]. apply common_labels_fit in Hl; [by apply Forall_singleton|fit].
Qed.
End Objects.

(** A run named like its agent has the agent's own ConfigMap for its own. *)
Definition coder : Agent := zeroAgent <| ag_Meta := newMeta "coder" "agents" ∅ |>.
Definition coder_run : AgentRun := zeroAgentRun <| ar_Meta := newMeta "coder" "agents" ∅ |>.

Lemma owners_disjoint_witness :
  let H := half_floats in
  ∃ m1 m2, builds (OwnerAgent coder) KConfigMap m1 ∧ builds (OwnerRun coder_run coder) KConfigMap m2 ∧
    om_name m1 = om_name m2.
Proof.
  intros H.
  destruct (BuildAgentConfigMap coder [] []) as [base|] eqn:Hbase; [|done].
  destruct (BuildAgentRunConfigMap base "coder" []) as [cm|] eqn:Hcm;
    [|injection Hbase as <-; by vm_compute in Hcm].
  assert (builds (OwnerAgent coder) KConfigMap (cm_meta base)) as H1 by (by eapply agent_config).
  assert (builds (OwnerRun coder_run coder) KConfigMap (cm_meta cm)) as H2
    by (by eapply (run_config coder_run coder _ _ base)).
  exists (cm_meta base), (cm_meta cm). split; [exact H1|]. split; [exact H2|].
  apply (owners_disjoint _ _ _ _ _ H1 H2). split; [done|]. split; [done|]. by right.
Defined.
