(* ===== verification/Pods.v ===== *)
(** * The pods of an agent as the API server and the kubelet see them

    Which agents have pods the API server accepts, and which objects a pod
    needs: each is one the operator keeps or one a custom resource names. *)

From S2P Require Import Prelude GoLib KubeTypes ApiTypes Json JsonCodec Effects ResourceCommon.
From S2P Require Import Security AgentGit ConfigTypes ConfigMap Builders AgentPod ChannelRes Objects.

Open Scope string_scope.
Open Scope list_scope.

(** ** Validity *)

Definition containers (p : PodSpec) : list Container := ps_initContainers p ++ ps_containers p.
Definition mount_paths (c : Container) : list string := vm_mountPath <$> ct_volumeMounts c.

Definition secret_volumes (p : PodSpec) : list string :=
  omap (λ v, match v_source v with SecretVolume _ => Some (v_name v) | _ => None end) (ps_volumes p).

(** Volumes and containers have names of their own, of at most 63 bytes (checked for the
    volumes named after a tool), and a container mounts volumes of the pod, one at a path. *)
Definition pod_valid (p : PodSpec) : Prop :=
  NoDup (v_name <$> ps_volumes p) ∧ NoDup (ct_name <$> containers p) ∧ mounts_declared p ∧
  Forall (λ c, NoDup (mount_paths c)) (containers p) ∧
  Forall fits (ct_name <$> containers p) ∧ Forall fits (secret_volumes p).

Definition context_keys (agent : Agent) : list string :=
  (λ cf, skr_Key (cfr_ConfigMapRef cf)) <$> as_ContextFiles (ag_Spec agent).

Lemma applyContainer_paths ov c :
  VolumeTmp ∉ mount_names c → mount_paths (applyContainer ov c) = mount_paths c ++ [MountTmp].
Proof.
  intros Hn. unfold applyContainer, mount_paths. cbn.
  destruct (existsb _ _) eqn:E; [by apply existsb_name in E|]. cbn. by rewrite fmap_app.
Qed.

(** The containers of the pod, before and after [ApplySecurity]. *)
Lemma podSpec_names agent providers integrations task infra :
  let p := buildAgentPodSpec agent providers integrations task infra in
  ct_name <$> containers p = (pull_tool_name <$> as_Tools (ag_Spec agent)) ++ [ContainerRuntime].
Proof.
  cbv zeta. unfold containers. rewrite fmap_app. f_equal.
  - unfold buildAgentPodSpec. match goal with |- context [ApplySecurity ?ps ?m ?o] =>
      destruct (ApplySecurity_parts ps m o) as (_ & _ & -> & _) end.
    cbn. unfold buildInitContainers. rewrite !map_map, list_fmap_alt. apply map_ext. intros tool. cbn.
    rewrite applyContainer_name. unfold buildCraneInitContainer. by destruct (oci_PullSecret _).
  - destruct (podSpec_containers agent providers integrations task infra) as (main & -> & Hn & _).
    cbn. by rewrite Hn.
Qed.

Definition tool_paths (tool : ToolBinding) : list string :=
  MountTools :: match oci_PullSecret (tb_OCI tool) with Some _ => ["/tmp/pull-secret"] | None => [] end
  ++ [MountTmp].
Definition main_paths (agent : Agent) : list string :=
  [MountTools; MountConfig; MountData] ++ (append "/etc/context/" <$> context_keys agent) ++ [MountTmp].

Lemma init_paths ov tool :
  mount_paths (applyContainer ov (buildCraneInitContainer (pull_tool_name tool) (oci_Ref (tb_OCI tool))
    (MountTools +:+ "/" +:+ tb_Name tool) VolumeTools MountTools (oci_PullSecret (tb_OCI tool)))) = tool_paths tool.
Proof.
  rewrite applyContainer_paths; unfold tool_paths, buildCraneInitContainer, mount_names;
    destruct (oci_PullSecret _); try done; cbn; rewrite !not_elem_of_cons; repeat split; try done;
    apply not_elem_of_nil.
Qed.

Lemma main_container_mounts agent providers integrations task infra :
  ct_volumeMounts (buildMainContainer agent providers integrations task infra) =
  [ mkMount VolumeTools MountTools "" false; mkMount VolumeConfig MountConfig "" false;
    mkMount VolumeData MountData "" false ] ++
  imap (λ i cf, mkMount (context_volume_name i) ("/etc/context/" +:+ skr_Key (cfr_ConfigMapRef cf))
                  (skr_Key (cfr_ConfigMapRef cf)) false) (as_ContextFiles (ag_Spec agent)).
Proof. unfold buildMainContainer. destruct (as_Resources (ag_Spec agent)), task; reflexivity. Qed.

Lemma imap_const {A B} (f : A → B) (l : list A) : imap (λ _ x, f x) l = f <$> l.
Proof. induction l as [|x l IH]; [done|]. cbn. f_equal. apply IH. Qed.

Lemma main_container_paths ov agent providers integrations task infra :
  mount_paths (applyContainer ov (buildMainContainer agent providers integrations task infra)) = main_paths agent.
Proof.
  rewrite applyContainer_paths; unfold mount_names, mount_paths, main_paths, context_keys;
    rewrite main_container_mounts, fmap_app, fmap_imap.
  - cbn. do 3 f_equal. f_equal. rewrite <- list_fmap_compose, <- imap_const. by apply imap_ext.
  - cbn. rewrite !not_elem_of_cons. repeat split; try done.
    intros (i & y & Hy & _)%elem_of_lookup_imap. done.
Qed.

Lemma podSpec_paths agent providers integrations task infra :
  mount_paths <$> containers (buildAgentPodSpec agent providers integrations task infra) =
  (tool_paths <$> as_Tools (ag_Spec agent)) ++ [main_paths agent].
Proof.
  unfold containers, buildAgentPodSpec. match goal with |- context [ApplySecurity ?ps ?m ?o] =>
    destruct (ApplySecurity_parts ps m o) as (_ & _ & -> & -> & _) end.
  rewrite fmap_app. f_equal; cbn.
  - unfold buildInitContainers. rewrite !map_map. apply map_ext. intros tool. apply init_paths.
  - f_equal. unfold main_or_sidecar. case_decide; apply main_container_paths.
Qed.

Lemma tool_paths_NoDup tool : NoDup (tool_paths tool).
Proof. unfold tool_paths. destruct (oci_PullSecret _); apply (bool_decide_unpack _); by vm_compute. Qed.

Lemma append_inj p : Inj (=) (=) (append p).
Proof. intros x y. apply GoStrings.app_inv_head. Qed.

Lemma main_paths_NoDup agent : NoDup (main_paths agent) ↔ NoDup (context_keys agent).
Proof.
  unfold main_paths. rewrite !NoDup_app. pose proof (append_inj "/etc/context/") as Hinj. split.
  - intros (_ & _ & Hk & _). by apply NoDup_fmap in Hk.
  - intros Hk. assert (∀ x, x ∈ append "/etc/context/" <$> context_keys agent → ∃ k, x = "/etc/context/" +:+ k) as Hc.
    { intros x (k & -> & _)%list_elem_of_fmap. by exists k. }
    split; [apply (bool_decide_unpack _); by vm_compute|]. split.
    + intros x Hx. rewrite elem_of_app. intros [[k ->]%Hc| ->%list_elem_of_singleton];
        rewrite !elem_of_cons, elem_of_nil in Hx; by repeat destruct Hx as [Hx|Hx].
    + split; [by apply NoDup_fmap|]. split; [|apply NoDup_singleton].
      intros x [k ->]%Hc Hx%list_elem_of_singleton. done.
Qed.

Lemma pull_tool_name_inj tools : NoDup (pull_tool_name <$> tools) ↔ NoDup (tb_Name <$> tools).
Proof.
  assert (pull_tool_name <$> tools = append "init-pull-tool-" <$> (tb_Name <$> tools)) as ->.
  { by rewrite <- list_fmap_compose. }
  pose proof (append_inj "init-pull-tool-"). split; [apply NoDup_fmap_1|by apply NoDup_fmap].
Qed.

Definition name_limit (tool : ToolBinding) : nat :=
  match oci_PullSecret (tb_OCI tool) with Some _ => 36 | None => 48 end.
Definition tools_named (agent : Agent) : Prop :=
  NoDup (tb_Name <$> as_Tools (ag_Spec agent)) ∧ NoDup (context_keys agent) ∧
  Forall (λ tool, (String.length (tb_Name tool) ≤ name_limit tool)%nat) (as_Tools (ag_Spec agent)).

Lemma length_append s t : String.length (s +:+ t) = (String.length s + String.length t)%nat.
Proof. induction s as [|a s IH]; [done|]. cbn. by rewrite IH. Qed.

Lemma omap_app {A B} (f : A → option B) l k : omap f (l ++ k) = omap f l ++ omap f k.
Proof. induction l as [|x l IH]; [done|]. cbn. destruct (f x); cbn; by rewrite IH. Qed.

Lemma podSpec_secret_volumes agent providers integrations task infra :
  secret_volumes (buildAgentPodSpec agent providers integrations task infra) =
  omap (λ tool, (λ _, "pull-secret-" +:+ pull_tool_name tool) <$> oci_PullSecret (tb_OCI tool))
    (as_Tools (ag_Spec agent)).
Proof.
  unfold secret_volumes, buildAgentPodSpec. match goal with |- context [ApplySecurity ?ps ?m ?o] =>
    destruct (ApplySecurity_parts ps m o) as (_ & _ & _ & _ & -> & _) end.
  rewrite omap_app. cbn [ps_volumes]. unfold buildVolumes. rewrite !omap_app. cbn.
  assert (∀ b, omap (λ v, match v_source v with SecretVolume _ => Some (v_name v) | _ => None end)
    (if b : bool then [] else [TmpVolume]) = []) as -> by (by intros []).
  rewrite app_nil_r. destruct (negb task && _); cbn.
  all: assert (∀ f (l : list ContextFileRef), omap (λ v, match v_source v with SecretVolume _ => Some (v_name v) | _ => None end)
      (imap (λ i cf, mkVolume (f i) (ConfigMapVolume (skr_Name (cfr_ConfigMapRef cf))
         [(skr_Key (cfr_ConfigMapRef cf), skr_Key (cfr_ConfigMapRef cf))])) l) = []) as ->
    by (intros f l; revert f; induction l as [|x l IH]; intros f; [done|]; cbn; exact (IH (f ∘ S))).
  all: cbn; induction (as_Tools (ag_Spec agent)) as [|t l IH]; [done|]; cbn;
    destruct (oci_PullSecret (tb_OCI t)); cbn; by rewrite IH.
Qed.

Lemma tool_names_fit agent providers integrations task infra :
  let p := buildAgentPodSpec agent providers integrations task infra in
  Forall fits (ct_name <$> containers p) ∧ Forall fits (secret_volumes p) ↔
  Forall (λ tool, (String.length (tb_Name tool) ≤ name_limit tool)%nat) (as_Tools (ag_Spec agent)).
Proof.
  cbv zeta. rewrite podSpec_names, podSpec_secret_volumes, Forall_app, Forall_singleton, Forall_fmap.
  transitivity (Forall (fits ∘ pull_tool_name) (as_Tools (ag_Spec agent)) ∧
    Forall fits (omap (λ tool, (λ _, "pull-secret-" +:+ pull_tool_name tool) <$> oci_PullSecret (tb_OCI tool))
                   (as_Tools (ag_Spec agent)))).
  { assert (fits ContainerRuntime) by (unfold fits; cbn; lia). tauto. }
  induction (as_Tools (ag_Spec agent)) as [|t l IH]; [by split; repeat constructor|].
  rewrite !Forall_cons, <- IH. unfold name_limit at 1, compose, fits, pull_tool_name at 1.
  cbn [omap list_omap]. destruct (oci_PullSecret (tb_OCI t)) as [ps|].
  - rewrite (fmap_Some_2 (λ _, _) _ ps) by done. unfold pull_tool_name at 2.
    rewrite Forall_cons, !length_append. cbn [String.length]. intuition lia.
  - rewrite length_append. cbn [String.length fmap option_fmap option_map]. intuition lia.
Qed.

Lemma podSpec_valid agent providers integrations task infra :
  pod_valid (buildAgentPodSpec agent providers integrations task infra) ↔ tools_named agent.
Proof.
  unfold pod_valid, tools_named. rewrite tool_names_fit, podSpec_names.
  change (λ c, NoDup (mount_paths c)) with (NoDup ∘ mount_paths).
  rewrite <- (Forall_fmap mount_paths), podSpec_paths, Forall_app, Forall_singleton, main_paths_NoDup, NoDup_app, pull_tool_name_inj.
  split; [tauto|]. intros (Ht & Hk & Hf). split; [by apply podSpec_volumes_NoDup|]. split.
  - split; [done|]. split; [|apply NoDup_singleton].
    intros n (tool & -> & _)%list_elem_of_fmap Hn%list_elem_of_singleton. done.
  - split; [apply podSpec_mounts|]. split; [|done]. split; [|done].
    apply Forall_fmap, Forall_forall. intros tool _. apply tool_paths_NoDup.
Qed.

(** Validity is a matter of names and paths. *)
Lemma pod_valid_same p p' :
  v_name <$> ps_volumes p = v_name <$> ps_volumes p' → secret_volumes p = secret_volumes p' →
  ct_name <$> containers p = ct_name <$> containers p' →
  mount_names <$> containers p = mount_names <$> containers p' →
  mount_paths <$> containers p = mount_paths <$> containers p' →
  pod_valid p ↔ pod_valid p'.
Proof.
  unfold pod_valid. rewrite !mounts_declared_names. intros -> -> -> Hn Hp.
  assert (∀ Q, Forall (Q ∘ mount_paths) (containers p) ↔ Forall (Q ∘ mount_paths) (containers p')) as HQ.
  { intros Q. by rewrite <- !Forall_fmap, Hp. }
  assert (∀ Q, Forall (Q ∘ mount_names) (containers p) ↔ Forall (Q ∘ mount_names) (containers p')) as HN.
  { intros Q. by rewrite <- !Forall_fmap, Hn. }
  specialize (HQ NoDup). specialize (HN (λ ns, ns ⊆ v_name <$> ps_volumes p')).
  unfold compose in HQ, HN. unfold containers in *. rewrite HQ, HN. done.
Qed.

Lemma inject_env_same {B} (f : Container → B) env cs :
  (∀ c, f (c <| ct_env ::= λ e, e ++ env |>) = f c) → f <$> inject_env env cs = f <$> cs.
Proof.
  intros Hf. induction cs as [|c cs IH]; [done|]. cbn. case_decide; cbn; [by rewrite Hf|by rewrite IH].
Qed.

Lemma override_config_secrets n vs :
  omap (λ v, match v_source v with SecretVolume _ => Some (v_name v) | _ => None end) (override_config n vs)
  = omap (λ v, match v_source v with SecretVolume _ => Some (v_name v) | _ => None end) vs.
Proof.
  induction vs as [|[vn src] vs IH]; [done|]. cbn. destruct src; cbn; rewrite ?IH; try done.
  case_decide; cbn; by rewrite ?IH.
Qed.

(** [C36] Which agents have pods the API server accepts: in the Deployment of an agent and in
    the Job of each of its runs, volumes and containers have names of their own of at most
    63 bytes, every mount is of a volume of the pod and no two at one path, exactly when
    the agent's tools have different names of at most 48 bytes (36 with a pull secret) and
    its context files different keys. *)
Theorem agent_pods_valid run agent providers integrations git cm infra :
  (pod_valid (deployment_pod (BuildAgentDeployment agent providers integrations infra)) ↔ tools_named agent) ∧
  (pod_valid (job_pod (BuildAgentRunJob run agent providers git cm infra)) ↔ tools_named agent).
Proof.
  split; [rewrite deployment_pod_eq; apply podSpec_valid|].
  rewrite <- (podSpec_valid agent providers [] true infra).
  destruct (job_pod_parts run agent providers git cm infra) as (Hi & Hc & Hv & _).
  apply pod_valid_same; [apply job_volume_names|..]; unfold secret_volumes, containers;
    rewrite ?Hi, ?Hc, ?Hv, ?fmap_app; try (f_equal; by apply inject_env_same).
  case_decide; [apply override_config_secrets|done].
Qed.

(** ** What a pod needs *)

Definition volume_refs (v : Volume) : list (Kind * string) :=
  match v_source v with
  | EmptyDir _ => [] | ConfigMapVolume n _ => [(KConfigMap, n)]
  | PersistentVolumeClaimVolume n => [(KPVC, n)] | SecretVolume n => [(KSecret, n)]
  end.
Definition env_refs (e : EnvVar) : list (Kind * string) :=
  match ev_from e with Some (FromSecretKey n _) => [(KSecret, n)] | _ => [] end.
Definition pod_refs (p : PodSpec) : list (Kind * string) :=
  (KServiceAccount, ps_serviceAccountName p) ::
  (ps_volumes p ≫= volume_refs) ++ ((containers p ≫= ct_env) ≫= env_refs).

Definition secret_ref (r : SecretKeyRef) : Kind * string := (KSecret, skr_Name r).

(** What the custom resources name. *)
Definition provider_refs (prov : Provider) : list (Kind * string) :=
  match prs_ApiKeySecret (prov_Spec prov) with Some r => [secret_ref r] | None => [] end ++
  match prs_Endpoint (prov_Spec prov) ≫= pe_OAuth2ClientCredentials with
  | Some o => [secret_ref (oa_ClientIDSecret o); secret_ref (oa_ClientSecretSecret o)] | None => []
  end.
Definition named_refs (agent : Agent) (providers : list Provider) (integrations : list Integration)
  (git : option GitWorkspaceConfig) : list (Kind * string) :=
  let s := ag_Spec agent in
  (if decide (as_ServiceAccountName s = "") then [] else [(KServiceAccount, as_ServiceAccountName s)]) ++
  ((λ cf, (KConfigMap, skr_Name (cfr_ConfigMapRef cf))) <$> as_ContextFiles s) ++
  omap (λ tool, secret_ref <$> oci_PullSecret (tb_OCI tool)) (as_Tools s) ++
  ((λ e, secret_ref (sev_SecretRef e)) <$> as_Secrets s) ++
  (providers ≫= provider_refs) ++
  omap (λ i, secret_ref <$> is_Credentials (ig_Spec i)) integrations ++
  match git ≫= gw_Credentials with Some cr => [secret_ref cr] | None => [] end.

(** Volumes: the agent's own or named. *)
Lemma buildVolumes_refs agent task r : r ∈ buildVolumes agent task ≫= volume_refs →
  r = (KConfigMap, ObjectName (om_name (ag_Meta agent)) "config") ∨
  (task = false ∧ is_Some (as_Storage (ag_Spec agent)) ∧ r = (KPVC, ObjectName (om_name (ag_Meta agent)) "storage")) ∨
  r ∈ ((λ cf, (KConfigMap, skr_Name (cfr_ConfigMapRef cf))) <$> as_ContextFiles (ag_Spec agent)) ∨
  r ∈ omap (λ tool, secret_ref <$> oci_PullSecret (tb_OCI tool)) (as_Tools (ag_Spec agent)).
Proof.
  intros (v & Hr & Hv)%list_elem_of_bind. unfold buildVolumes in Hv.
  rewrite !elem_of_app, !elem_of_cons, elem_of_nil in Hv.
  destruct Hv as [[[[->|[->|[]]]|[->|[]]]|(i & cf & -> & Hcf)%elem_of_lookup_imap]|(tool & Hin & Ht)%list_elem_of_omap];
    cbn in Hr.
  - by apply elem_of_nil in Hr.
  - apply list_elem_of_singleton in Hr. by left.
  - destruct task; cbn in Hr; [by apply elem_of_nil in Hr|]. case_bool_decide; cbn in Hr; [|by apply elem_of_nil in Hr].
    apply list_elem_of_singleton in Hr. right. left. auto.
  - apply list_elem_of_singleton in Hr as ->. right. right. left. apply list_elem_of_fmap. exists cf.
    split; [done|]. by eapply list_elem_of_lookup_2.
  - destruct (oci_PullSecret (tb_OCI tool)) as [ps|] eqn:E; [|done]. injection Ht as <-. cbn in Hr.
    apply list_elem_of_singleton in Hr as ->. do 3 right. apply list_elem_of_omap. exists tool. by rewrite E.
Qed.

Lemma env_refs_app l l' : (l ++ l') ≫= env_refs = (l ≫= env_refs) ++ (l' ≫= env_refs).
Proof. apply bind_app. Qed.

(** Variables with a value need nothing. *)
Definition plain_env (e : EnvVar) : Prop := ev_from e = None.
Lemma plain_refs l : Forall plain_env l → l ≫= env_refs = [].
Proof. induction 1 as [|e l He _ IH]; [done|]. cbn. unfold env_refs at 1. by rewrite He. Qed.

Lemma plain_map {A} (n v : A → string) l : Forall plain_env (map (λ x, EnvValue (n x) (v x)) l).
Proof. induction l; by constructor. Qed.

Lemma secrets_refs {A} (n : A → string) (ref : A → SecretKeyRef) l :
  map (λ x, EnvSecret (n x) (skr_Name (ref x)) (skr_Key (ref x))) l ≫= env_refs = (λ x, secret_ref (ref x)) <$> l.
Proof. induction l as [|x l IH]; [done|]. cbn. by rewrite IH. Qed.

Lemma provider_env_refs prov r : r ∈ provider_env prov ≫= env_refs → r ∈ provider_refs prov.
Proof.
  unfold provider_env, provider_refs. cbv zeta.
  replace (ep ← prs_Endpoint (prov_Spec prov); pe_OAuth2ClientCredentials ep)
    with (prs_Endpoint (prov_Spec prov) ≫= pe_OAuth2ClientCredentials) by (by destruct (prs_Endpoint _)).
  destruct (_ && _); [cbn; intros H0; by apply elem_of_nil in H0|].
  rewrite env_refs_app.
  by destruct (prs_ApiKeySecret _), (prs_Endpoint (prov_Spec prov) ≫= pe_OAuth2ClientCredentials).
Qed.

Lemma choose_gitlab_in l i : choose_gitlab None l = Some i → i ∈ l.
Proof.
  rewrite choose_gitlab_spec by done.
  assert (∀ p, find p l = Some i → i ∈ l) as Hf by (intros p [Hi _]%find_some; by apply list_elem_of_In).
  destruct (find is_group l) eqn:E; [intros [= <-]; by eapply Hf|]. apply Hf.
Qed.

Lemma gitlab_env_refs l bindings r : r ∈ GitLabEnvFromIntegrations l bindings ≫= env_refs →
  r ∈ omap (λ i, secret_ref <$> is_Credentials (ig_Spec i)) l.
Proof.
  unfold GitLabEnvFromIntegrations. destruct (choose_gitlab None l) as [i|] eqn:Hi; [|by intros ?%elem_of_nil].
  apply choose_gitlab_in in Hi. cbv zeta. set (body := if is_project i then _ else _).
  assert (match body with Some (env, _) => Forall plain_env env | None => True end) as Hb.
  { unfold body. destruct (is_project i); [|destruct (is_group i); [|constructor]].
    - destruct (is_GitLab _); [|done]. cbn. by repeat constructor.
    - destruct (is_GitLabGroup _) as [gl|]; [|done]. cbn. destruct (glg_Projects gl); by repeat constructor. }
  destruct body as [[env ro]|]; [|by intros ?%elem_of_nil].
  assert (Forall plain_env (if (ro : bool) then env ++ [EnvValue "GITLAB_READONLY" "true"] else env)) as Hb'.
  { destruct ro; [|done]. apply Forall_app. by repeat constructor. }
  destruct (is_Credentials (ig_Spec i)) as [cr|] eqn:Hcr.
  - rewrite env_refs_app, (plain_refs _ Hb'). cbn. rewrite !elem_of_cons, elem_of_nil.
    intros [->|[->|[]]]; apply list_elem_of_omap; exists i; by rewrite Hcr.
  - rewrite (plain_refs _ Hb'). by intros ?%elem_of_nil.
Qed.

Lemma git_env_refs g r : r ∈ GitEnvVars g ≫= env_refs →
  r ∈ match gw_Credentials g with Some cr => [secret_ref cr] | None => [] end.
Proof.
  unfold GitEnvVars. cbv zeta. match goal with |- context [match gw_Credentials g with Some _ => _ | None => ?e end] =>
    assert (Forall plain_env e) as He by (repeat case_decide; cbn; by repeat constructor); generalize dependent e end.
  intros env He. destruct (gw_Credentials g) as [cr|].
  - case_decide; rewrite !env_refs_app, (plain_refs _ He); cbn; rewrite !elem_of_cons, elem_of_nil; tauto.
  - rewrite (plain_refs _ He). by intros ?%elem_of_nil.
Qed.

Lemma run_env_refs run git r : r ∈ run_env run git ≫= env_refs →
  r ∈ match git ≫= gw_Credentials with Some cr => [secret_ref cr] | None => [] end.
Proof.
  unfold run_env. cbv zeta. rewrite !env_refs_app.
  assert (∀ n v, optional_env n v ≫= env_refs = []) as Ho by (intros n v; unfold optional_env; by case_decide).
  rewrite !Ho. cbn [app mbind list_bind]. destruct git as [g|]; [|by intros ?%elem_of_nil]. apply git_env_refs.
Qed.

Lemma main_env_refs agent providers integrations task infra r :
  r ∈ buildEnvVars agent providers integrations task infra ≫= env_refs →
  r ∈ ((λ e, secret_ref (sev_SecretRef e)) <$> as_Secrets (ag_Spec agent)) ∨ r ∈ providers ≫= provider_refs ∨
  r ∈ omap (λ i, secret_ref <$> is_Credentials (ig_Spec i)) integrations.
Proof.
  unfold buildEnvVars. cbv zeta. set (env := (_ ++ _) ++ concat (map provider_env providers)).
  assert (r ∈ env ≫= env_refs → r ∈ ((λ e, secret_ref (sev_SecretRef e)) <$> as_Secrets (ag_Spec agent)) ∨
    r ∈ providers ≫= provider_refs) as He.
  { unfold env. rewrite !env_refs_app, (plain_refs (map _ (sorted_keys _))) by apply plain_map.
    rewrite (plain_refs (concat _)).
    2:{ apply Forall_concat, Forall_map, Forall_forall. intros tool _. apply plain_map. }
    rewrite secrets_refs. cbn [app mbind list_bind env_refs EnvValue ev_from]. rewrite elem_of_app.
    intros [Hr|(e & He & Hin)%list_elem_of_bind]; [by left|]. right.
    apply list_elem_of_In, in_concat in Hin as (l & Hl & Hin).
    apply list_elem_of_In, list_elem_of_fmap in Hl as (prov & -> & Hp).
    apply list_elem_of_bind. exists prov. split; [|done]. apply provider_env_refs.
    apply list_elem_of_bind. exists e. split; [done|]. by apply list_elem_of_In. }
  clearbody env. destruct (negb task && _); [|tauto].
  rewrite env_refs_app, elem_of_app. intros [Hr|Hr%gitlab_env_refs]; tauto.
Qed.

Lemma init_env_plain agent c ov : c ∈ buildInitContainers agent → Forall plain_env (ct_env (applyContainer ov c)).
Proof.
  rewrite applyContainer_env. intros (tool & -> & _)%list_elem_of_fmap. unfold buildCraneInitContainer.
  destruct (oci_PullSecret _); cbn; by repeat constructor.
Qed.

(** What a pod of an agent needs, by where it is named. *)
Definition podSpec_needs (agent : Agent) (task : bool) (env : list EnvVar) (r : Kind * string) : Prop :=
  r = (KServiceAccount, AgentServiceAccountName agent) ∨ r ∈ buildVolumes agent task ≫= volume_refs ∨
  r ∈ env ≫= env_refs.

Lemma podSpec_refs agent providers integrations task infra r :
  r ∈ pod_refs (buildAgentPodSpec agent providers integrations task infra) →
  podSpec_needs agent task (buildEnvVars agent providers integrations task infra) r.
Proof.
  unfold pod_refs, podSpec_needs. rewrite elem_of_cons, elem_of_app.
  destruct (podSpec_containers agent providers integrations task infra) as (main & Hm & _ & He & _).
  unfold containers. rewrite Hm. clear Hm. unfold buildAgentPodSpec.
  match goal with |- context [ApplySecurity ?ps ?m ?o] =>
    destruct (ApplySecurity_parts ps m o) as (_ & _ & -> & _ & -> & -> & _) end.
  cbn [ps_serviceAccountName ps_volumes ps_initContainers]. intros [->|[Hr|Hr]]; [by left| |].
  - right. left. rewrite bind_app, elem_of_app in Hr. destruct Hr as [Hr|Hr]; [done|].
    case_bool_decide; cbn in Hr; by apply elem_of_nil in Hr.
  - do 2 right. rewrite !bind_app, elem_of_app in Hr. destruct Hr as [Hr|Hr].
    + rewrite plain_refs in Hr; [by apply elem_of_nil in Hr|]. apply Forall_forall.
      intros e (c & Hin & (c' & -> & Hc)%list_elem_of_fmap)%list_elem_of_bind.
      pose proof (init_env_plain agent c' None Hc) as Hp. rewrite Forall_forall in Hp. by apply Hp.
    + cbn in Hr. rewrite app_nil_r, He in Hr. done.
Qed.

(** The operator keeps it for the agent, under that name. *)
Definition kept `{FloatOps} (o : Owner) (r : Kind * string) : Prop := ∃ m, builds o (fst r) m ∧ om_name m = snd r.

Lemma needs_met `{FloatOps} agent providers integrations git task infra r :
  podSpec_needs agent task (buildEnvVars agent providers integrations task infra) r →
  kept (OwnerAgent agent) r ∨ r ∈ named_refs agent providers integrations git.
Proof.
  unfold named_refs. cbv zeta. rewrite !elem_of_app.
  intros [->|[[->|[(_ & [st Hst] & ->)|[Hr|Hr]]]%buildVolumes_refs|[Hr|[Hr|Hr]]%main_env_refs]]; try tauto.
  - unfold AgentServiceAccountName. destruct (decide (as_ServiceAccountName (ag_Spec agent) = "")) as [Hsa|Hsa].
    + left. eexists. split; [by apply agent_sa|done].
    + right. left. rewrite decide_True by done. by apply list_elem_of_singleton.
  - left. eexists. split; [by apply (agent_config agent integrations providers)|done].
  - left. destruct (BuildAgentPVC (λ _, true) agent st) as [pvc|] eqn:Hp; [|by unfold BuildAgentPVC in Hp].
    exists (pvc_meta pvc). split; [by eapply agent_pvc|]. unfold BuildAgentPVC in Hp. by injection Hp as <-.
Qed.

Lemma override_config_refs n vs r : r ∈ override_config n vs ≫= volume_refs →
  r = (KConfigMap, n) ∨ r ∈ vs ≫= volume_refs.
Proof.
  induction vs as [|[vn src] vs IH]; [by intros ?%elem_of_nil|]. cbn. destruct src; cbn;
    try (rewrite elem_of_cons; intros [->|Hr%IH]; rewrite elem_of_cons; tauto); [exact IH|].
  case_decide; cbn; rewrite !elem_of_cons; [tauto|]. intros [->|Hr%IH]; tauto.
Qed.

Lemma inject_env_refs env cs r : r ∈ (inject_env env cs ≫= ct_env) ≫= env_refs →
  r ∈ env ≫= env_refs ∨ r ∈ (cs ≫= ct_env) ≫= env_refs.
Proof.
  induction cs as [|c cs IH]; [by intros ?%elem_of_nil|]. cbn. case_decide; cbn; rewrite !env_refs_app, !elem_of_app; [tauto|].
  intros [?|[?|?]%IH]; tauto.
Qed.

(** [C37] A pod waits for nothing the operator does not bring or the user did not name: every
    ServiceAccount, ConfigMap, claim and Secret the pod of an agent's Deployment needs is
    one the operator keeps for the agent, under the very name, or is named by the Agent,
    one of its Providers or Integrations; the pod of a run needs besides only the ConfigMap
    it is given and the credentials of its workspace. *)
Theorem agent_pods_closed `{FloatOps} run agent providers integrations git cm infra r :
  (r ∈ pod_refs (deployment_pod (BuildAgentDeployment agent providers integrations infra)) →
   kept (OwnerAgent agent) r ∨ r ∈ named_refs agent providers integrations None) ∧
  (r ∈ pod_refs (job_pod (BuildAgentRunJob run agent providers git cm infra)) →
   kept (OwnerAgent agent) r ∨ r ∈ named_refs agent providers [] git ∨ cm ≠ "" ∧ r = (KConfigMap, cm)).
Proof.
  split; [rewrite deployment_pod_eq; intros Hr%podSpec_refs; by eapply needs_met|].
  destruct (job_pod_parts run agent providers git cm infra) as (Hi & Hc & Hv & _ & Hsa & _).
  pose proof (podSpec_refs agent providers [] true infra r) as Hspec.
  pose proof (needs_met agent providers [] git true infra r) as Hmet.
  unfold pod_refs, containers in *. rewrite Hi, Hc, Hv, Hsa. rewrite elem_of_cons, elem_of_app in *.
  rewrite bind_app, env_refs_app, elem_of_app in *.
  intros [Hr|[Hr|[Hr|[Hr%run_env_refs|Hr]%inject_env_refs]]]; try tauto.
  - case_decide; [|tauto]. apply override_config_refs in Hr. tauto.
  - right. left. unfold named_refs. cbv zeta. rewrite !elem_of_app. tauto.
Qed.
