(* ===== verification/Cluster.v ===== *)
(** * An API server that is up to date

    A store of objects and what a call answers and leaves behind when nothing
    fails and nobody else writes; programs run against it one at a time.  What
    the server itself decides (the metadata of a new object, the merge of an
    applied Deployment, the merge of a status patch) is an interface. *)

From S2P Require Import Prelude GoLib KubeTypes ApiTypes Effects.

Open Scope string_scope.
Open Scope list_scope.

Abbreviation Key := (string * string)%type.
Definition key_of_obj {k} (o : obj k) : Key := (om_namespace (obj_meta o), om_name (obj_meta o)).

(** ** Stores *)

Definition Store := ∀ k, gmap Key (obj k).

(** A write that changes nothing leaves the store as it is. *)
Definition put (s : Store) (k : Kind) (m : gmap Key (obj k)) : Store :=
  if decide (m = s k) then s else
  λ k', match decide (k = k') with left e => eq_rect k (λ k, gmap Key (obj k)) m k' e | right _ => s k' end.

Lemma put_eq s k m : put s k m k = m.
Proof.
  unfold put. case_decide; [done|]. destruct (decide (k = k)) as [e|]; [|done].
  by rewrite (proof_irrel e eq_refl).
Qed.

Lemma put_ne s k m k' : k ≠ k' → put s k m k' = s k'.
Proof. intros Hne. unfold put. case_decide; [done|]. by destruct (decide (k = k')). Qed.

Lemma put_same s k : put s k (s k) = s.
Proof. unfold put. by rewrite decide_True. Qed.

Lemma put_again s k m : put (put s k m) k m = put s k m.
Proof. rewrite <- (put_eq s k m) at 2. apply put_same. Qed.

(** ** The server *)

Definition set_meta {k} : obj k → ObjectMeta → obj k :=
  match k with
  | KAgent => λ o m, o <| ag_Meta := m |> | KAgentRun => λ o m, o <| ar_Meta := m |>
  | KProvider => λ o m, o <| prov_Meta := m |> | KIntegration => λ o m, o <| ig_Meta := m |>
  | KChannel => λ o m, o <| chn_Meta := m |>
  | KSecret => λ o m, mkSecret m (sec_data o) | KConfigMap => λ o m, mkConfigMap m (cm_data o)
  | KJob => λ o m, o <| jb_meta := m |> | KPod => λ o m, mkPod m (pod_containerStatuses o)
  | KDeployment => λ o m, o <| dp_meta := m |> | KService => λ o m, o <| sv_meta := m |>
  | KPVC => λ o m, o <| pvc_meta := m |> | KNetworkPolicy => λ o m, o <| np_meta := m |>
  | KIngress => λ o m, o <| in_meta := m |> | KServiceAccount => λ o m, mkServiceAccount m
  | KRole => λ o m, o <| ro_meta := m |> | KRoleBinding => λ o m, o <| rb_meta := m |>
  end.

(** What [CreateOrUpdate] starts from for an object that does not exist; the zero value
    otherwise. *)
Definition blank (k : Kind) (name ns : string) : option (obj k) :=
  let m := newMeta name ns ∅ in
  match k return option (obj k) with
  | KService => Some (mkService m ∅ [] "") | KConfigMap => Some (mkConfigMap m ∅)
  | KPVC => Some (mkPVC m [] "" None) | KNetworkPolicy => Some (mkNetworkPolicy m ∅ [] [])
  | KIngress => Some (mkIngress m None "" "" "" "" 0 []) | KServiceAccount => Some (mkServiceAccount m)
  | KRole => Some (mkRole m []) | KRoleBinding => Some (mkRoleBinding m (mkRoleRef "" "" "") [])
  | _ => None
  end.

Class ApiServer := {
  (** the metadata of a new object *)
  stamp : ObjectMeta → ObjectMeta;
  (** an applied Deployment, over the one there is *)
  merged : Deployment → option Deployment → Deployment;
  (** a status patch of the difference of two versions *)
  patched : ∀ k, obj k → obj k → obj k → obj k;
  updated : ∀ k, obj k → obj k → obj k;
  clock : Z;
  answer : HttpRequest → res HttpResponse;
  stamp_new m : om_creationTimestamp (stamp m) ≠ 0%Z;
  stamp_name m : om_name (stamp m) = om_name m ∧ om_namespace (stamp m) = om_namespace m;
  stamp_labels m : om_labels (stamp m) = om_labels m ∧ om_annotations (stamp m) = om_annotations m;
  merged_again d e : merged d (Some (merged d e)) = merged d e;
  merged_name d e : om_name (dp_meta (merged d e)) = om_name (dp_meta d) ∧
    om_namespace (dp_meta (merged d e)) = om_namespace (dp_meta d);
  merged_ready d e : dp_readyReplicas (merged d (Some e)) = dp_readyReplicas e;
  patched_agent (b n x : Agent) : ag_Meta (patched KAgent b n x) = ag_Meta x ∧ ag_Spec (patched KAgent b n x) = ag_Spec x ∧
    (ag_Status x = ag_Status b → ag_Status (patched KAgent b n x) = ag_Status n);
}.

Definition created `{ApiServer} {k} (o : obj k) : obj k := set_meta o (stamp (obj_meta o)).

(** The effect of [CreateOrUpdate] and of a server-side apply; none is an error. *)
Definition create_or_update_in `{ApiServer} (k : Kind) (ns name : string) (mutate : obj k → res (obj k))
  (m : gmap Key (obj k)) : option (gmap Key (obj k)) :=
  match m !! (ns, name) with
  | Some x => match mutate x with Ok y => Some (<[(ns, name) := y]> m) | Err _ => None end
  | None =>
      b ← blank k name ns;
      match mutate b with Ok y => Some (<[(ns, name) := created y]> m) | Err _ => None end
  end.

Definition effect `{ApiServer} (o : Op) (s : Store) : option Store :=
  match o with
  | OpCreateOrUpdate k ns name mutate =>
      m ← create_or_update_in k ns name mutate (s k); Some (put s k m)
  | OpApply d =>
      let key := key_of_obj (k := KDeployment) d in
      Some (put s KDeployment (<[key := merged d (s KDeployment !! key)]> (s KDeployment)))
  | _ => None
  end.

Definition notFound : GoError := mkErr "not found" true false.

Definition api_answer `{ApiServer} (o : Op) (s : Store) : ans o * Store :=
  match o return ans o * Store with
  | OpGet k ns name => (match s k !! (ns, name) with Some x => Ok x | None => Err notFound end, s)
  | OpList k ns sel =>
      (Ok (snd <$> filter (λ kx, kx.1.1 = ns ∧ sel ⊆ om_labels (obj_meta kx.2)) (map_to_list (s k))), s)
  | OpCreate k x =>
      match s k !! key_of_obj x with
      | Some _ => (Err (mkErr "already exists" false true), s)
      | None => (Ok tt, put s k (<[key_of_obj x := created x]> (s k)))
      end
  | OpUpdate k x =>
      match s k !! key_of_obj x with
      | Some y => let z := updated k y x in (Ok z, put s k (<[key_of_obj x := z]> (s k)))
      | None => (Err notFound, s)
      end
  | OpPatchStatus k b n =>
      match s k !! key_of_obj b with
      | Some x => let y := patched k b n x in (Ok y, put s k (<[key_of_obj b := y]> (s k)))
      | None => (Err notFound, s)
      end
  | OpApply d =>
      match effect (OpApply d) s with Some s' => (Ok tt, s') | None => (Err (errorf "refused"), s) end
  | OpCreateOrUpdate k ns name mutate =>
      match effect (OpCreateOrUpdate k ns name mutate) s with
      | Some s' => (Ok tt, s') | None => (Err (errorf "refused"), s)
      end
  | OpNow => (clock, s)
  | OpHttp r => (answer r, s)
  end.

(** ** Running a program *)

Section Run.
Context `{ApiServer}.

Fixpoint ev {A} (p : prog A) (s : Store) : A * Store :=
  match p with
  | Done a => (a, s)
  | Call o k => let '(x, s') := api_answer o s in ev (k x) s'
  end.

(** It is the execution [run] gives, without its trace. *)
Lemma ev_run {A} (p : prog A) s tr : ev p s = fst (run api_answer p s tr).
Proof.
  revert s tr. induction p as [a|o k IH]; intros s tr; [done|]. cbn. destruct (api_answer o s) as [x s']. apply IH.
Qed.

Lemma ev_bind {A B} (p : prog A) (f : A → prog B) s :
  ev (p ≫= f) s = let '(a, s') := ev p s in ev (f a) s'.
Proof.
  revert s. induction p as [a|o k IH]; intros s; [done|]. cbn. destruct (api_answer o s) as [x s']. apply IH.
Qed.

Lemma ev_bind_to {A B} (p : prog A) (f : A → prog B) s a s' : ev p s = (a, s') → ev (p ≫= f) s = ev (f a) s'.
Proof. intros Hp. by rewrite ev_bind, Hp. Qed.

Lemma ev_try {A B} (m : prog (res A)) (k : A → prog (res B)) s a s' :
  ev m s = (Ok a, s') → ev (try_ m k) s = ev (k a) s'.
Proof. intros Hm. unfold try_. by rewrite (ev_bind_to _ _ _ _ _ Hm). Qed.

Lemma ev_get {A} k ns name (f : res (obj k) → prog A) s x :
  s k !! (ns, name) = Some x → ev (call (OpGet k ns name) ≫= f) s = ev (f (Ok x)) s.
Proof. intros Hx. cbn. by rewrite Hx. Qed.

Lemma ev_patch_status {A} k (b n : obj k) (f : res (obj k) → prog A) s x : s k !! key_of_obj b = Some x →
  ev (call (OpPatchStatus k b n) ≫= f) s =
  ev (f (Ok (patched k b n x))) (put s k (<[key_of_obj b := patched k b n x]> (s k))).
Proof. intros Hx. cbn. by rewrite Hx. Qed.

(** ** Effects one after another *)

Definition op_kind (o : Op) : option Kind :=
  match o with OpCreateOrUpdate k _ _ _ => Some k | OpApply _ => Some KDeployment | _ => None end.

Fixpoint effects (ops : list Op) (s : Store) : option Store :=
  match ops with [] => Some s | o :: ops' => s' ← effect o s; effects ops' s' end.

(** Doing it again changes nothing. *)
Definition stable (o : Op) : Prop := ∀ s s', effect o s = Some s' → effect o s' = Some s'.

Lemma effect_other o s s' k : effect o s = Some s' → op_kind o ≠ Some k → s' k = s k.
Proof.
  destruct o; try done; cbn; [intros [= <-] Hk; apply put_ne; naive_solver|].
  intros (m & _ & [= <-])%bind_Some Hk. apply put_ne. naive_solver.
Qed.

(** An effect that changes nothing depends on the objects of its kind alone. *)
Lemma effect_local o s s' k : op_kind o = Some k → s k = s' k → effect o s = Some s → effect o s' = Some s'.
Proof.
  destruct o; try done; cbn; intros [= <-] Hs.
  - intros [= Hp]. apply (f_equal (λ s, s KDeployment)) in Hp. rewrite put_eq, Hs in Hp.
    by rewrite Hp, put_same.
  - intros (m & Hm & [= Hp])%bind_Some. apply (f_equal (λ s, s k0)) in Hp. rewrite put_eq in Hp. subst m.
    rewrite Hs in Hm. rewrite Hm. cbn. by rewrite put_same.
Qed.

Lemma effects_other ops s s' k : effects ops s = Some s' → Some k ∉ op_kind <$> ops → s' k = s k.
Proof.
  revert s. induction ops as [|o ops IH]; intros s; cbn; [by intros [= ->]|].
  intros (s1 & Ho & Hops)%bind_Some Hk. rewrite not_elem_of_cons in Hk. destruct Hk as [Hk1 Hk2].
  rewrite (IH s1) by done. apply (effect_other o); [done|congruence].
Qed.

Lemma effects_fixed ops s s' : Forall (λ o, stable o ∧ is_Some (op_kind o)) ops → NoDup (op_kind <$> ops) →
  effects ops s = Some s' → Forall (λ o, effect o s' = Some s') ops.
Proof.
  intros Hst. revert s. induction Hst as [|o ops [Ho [k Hk]] _ IH]; intros s; [constructor|].
  cbn. intros [Hn Hnd]%NoDup_cons (s1 & Ho1 & Hops)%bind_Some. constructor; [|by eapply IH].
  apply (effect_local o s1 s' k Hk); [|by eapply Ho]. symmetry. eapply effects_other; [exact Hops|]. by rewrite <- Hk.
Qed.

Lemma effects_again ops s : Forall (λ o, effect o s = Some s) ops → effects ops s = Some s.
Proof. induction 1 as [|o ops Ho _ IH]; [done|]. cbn. by rewrite Ho. Qed.

Lemma effects_app a b s : effects (a ++ b) s = s' ← effects a s; effects b s'.
Proof. revert s. induction a as [|o a IH]; intros s; [done|]. cbn. destruct (effect o s); [apply IH|done]. Qed.
End Run.
