(* ===== verification/AgentConverges.v ===== *)
(** * The Agent controller against an API server

    One reconcile of an Agent whose dependencies are Ready, against a server
    that is up to date and fails nothing: what the store is afterwards, and that
    a second reconcile leaves it as it is. *)

From S2P Require Import Prelude GoLib KubeTypes ApiTypes Json JsonEncode JsonCodec Effects.
From S2P Require Import ResourceCommon Security AgentGit ConfigTypes ConfigMap Builders AgentPod CtrlCommon.
From S2P Require Import Applying AgentCtrl AgentProps Cluster.

Open Scope string_scope.
Open Scope list_scope.

(** ** Applying an owned object settles *)

(** Nothing the owner applies is controlled by another: [SetControllerReference] succeeds. *)
Definition may_own `{OwnerOps} (owner : ObjectMeta) : Prop := ∀ m, SetControllerReference owner m = None.

Section Owned.
Context `{OwnerOps} `{ApiServer}.

(** A mutation succeeds, and finds nothing to change on the object it left, updated or
    created. *)
Definition settles {k} (mutate : obj k → res (obj k)) : Prop :=
  ∀ x, ∃ y, mutate x = Ok y ∧ mutate y = Ok y ∧ mutate (created y) = Ok (created y).

Lemma adopt_owned owner e d : may_own owner →
  adopt owner e d = Ok (e <| om_labels := mergeLabels (om_labels e) (om_labels d) |>
                          <| om_annotations := mergeLabels (om_annotations e) (om_annotations d) |>).
Proof. intros Ho. unfold adopt. by rewrite Ho. Qed.

(** What was adopted is adopted already, stamped or not. *)
Lemma adopt_again owner e d m : may_own owner → adopt owner e d = Ok m →
  adopt owner m d = Ok m ∧ adopt owner (stamp m) d = Ok (stamp m).
Proof.
  intros Ho. rewrite !adopt_owned by done. intros [= <-].
  match goal with |- context [stamp ?x] => pose proof (stamp_labels x) as [Hl Ha]; destruct (stamp x) end.
  destruct e. cbn in *. subst. cbn. by rewrite !mergeLabels_idemp.
Qed.

Lemma is_new_stamp m : is_new (stamp m) = false.
Proof. unfold is_new. apply bool_decide_eq_false_2, stamp_new. Qed.

(** One kind: adopt, then look at what depends on the object being new or typed. *)
Ltac settle :=
  unfold mutateService, mutateConfigMap, mutatePVC, mutateNetworkPolicy, mutateIngress, mutateServiceAccount,
    mutateRole, mutateRoleBinding; cbv zeta;
  match goal with Ho : may_own ?o |- context [adopt ?o ?e ?d] =>
    let m := fresh "m" in let Hm := fresh "Hm" in
    destruct (adopt o e d) as [m|] eqn:Hm; [|unfold adopt in Hm; by rewrite Ho in Hm];
    let Hm1 := fresh "Hm1" in let Hm2 := fresh "Hm2" in
    destruct (adopt_again _ _ _ _ Ho Hm) as [Hm1 Hm2]; pose proof (is_new_stamp m) as Hnew;
    eexists; (split; [reflexivity|]); unfold created; cbn [set_meta obj_meta];
    repeat match goal with
    | |- context [if decide ?P then _ else _] => destruct (decide P)
    | |- context [if is_new m then _ else _] => destruct (is_new m) eqn:?
    end; cbn; rewrite Hm1, Hm2; cbn; rewrite ?Hnew; by repeat case_match
  end.

Lemma mutations_settle owner : may_own owner →
  (∀ d, settles (k := KService) (mutateService owner d)) ∧ (∀ d, settles (k := KConfigMap) (mutateConfigMap owner d)) ∧
  (∀ d, settles (k := KPVC) (mutatePVC owner d)) ∧ (∀ d, settles (k := KNetworkPolicy) (mutateNetworkPolicy owner d)) ∧
  (∀ d, settles (k := KIngress) (mutateIngress owner d)) ∧ (∀ d, settles (k := KServiceAccount) (mutateServiceAccount owner d)) ∧
  (∀ d, settles (k := KRole) (mutateRole owner d)) ∧ (∀ d, settles (k := KRoleBinding) (mutateRoleBinding owner d)).
Proof.
  intros Ho. split_and!; intros d x; cbn [obj] in *; settle.
Qed.

(** The effect of a settling mutation: always there, and stable. *)
Lemma create_or_update_settles k ns name (mutate : obj k → res (obj k)) m :
  is_Some (blank k name ns) → settles mutate →
  ∃ m', create_or_update_in k ns name mutate m = Some m' ∧ create_or_update_in k ns name mutate m' = Some m'.
Proof.
  intros [b Hb] Hs. unfold create_or_update_in. destruct (m !! (ns, name)) as [x|].
  - destruct (Hs x) as (y & -> & Hy & _). eexists. split; [done|].
    by rewrite lookup_insert_eq, Hy, insert_insert_eq.
  - rewrite Hb. cbn. destruct (Hs b) as (y & -> & _ & Hy). eexists. split; [done|].
    by rewrite lookup_insert_eq, Hy, insert_insert_eq.
Qed.

Lemma create_or_update_effect k ns name (mutate : obj k → res (obj k)) :
  is_Some (blank k name ns) → settles mutate →
  stable (OpCreateOrUpdate k ns name mutate) ∧ ∀ s, is_Some (effect (OpCreateOrUpdate k ns name mutate) s).
Proof.
  intros Hb Hs. split.
  - intros s s'. cbn. intros (m & Hm & [= <-])%bind_Some.
    destruct (create_or_update_settles k ns name mutate (s k) Hb Hs) as (m' & Hm' & Hagain).
    rewrite Hm in Hm'. injection Hm' as <-. rewrite put_eq, Hagain. cbn. by rewrite put_again.
  - intros s. cbn. destruct (create_or_update_settles k ns name mutate (s k) Hb Hs) as (m' & -> & _). by eexists.
Qed.

Lemma apply_effect d : stable (OpApply d) ∧ ∀ s, is_Some (effect (OpApply d) s).
Proof.
  split; [|intros s; by eexists]. intros s s'. cbn. intros [= <-]. f_equal.
  by rewrite !put_eq, lookup_insert_eq, merged_again, insert_insert_eq, put_again.
Qed.

Lemma owned_effect owner k (d : obj k) : owned_kind k = true → may_own owner →
  stable (apply_op owner k d) ∧ (∀ s, is_Some (effect (apply_op owner k d) s)) ∧
  op_kind (apply_op owner k d) = Some k.
Proof.
  intros Hk Ho. destruct (mutations_settle owner Ho) as (H1 & H2 & H3 & H4 & H5 & H6 & H7 & H8).
  destruct k; try discriminate Hk.
  all: first
    [ destruct (apply_effect d) as [Hst Hs]; by repeat split
    | match goal with |- stable ?o ∧ _ =>
        match eval cbn in o with OpCreateOrUpdate ?k ?ns ?n ?f =>
          destruct (create_or_update_effect k ns n f (mk_is_Some _ _ eq_refl)) as [Hst Hs]; [done|by repeat split] end end ].
Qed.

(** The call of [reconcileOwnedResource] succeeds with that effect. *)
Lemma ev_owned owner k (d : obj k) s s' : owned_kind k = true → may_own owner →
  effect (apply_op owner k d) s = Some s' → ev (reconcileOwnedResource owner k d) s = (None, s').
Proof.
  intros Hk Ho He. destruct k; try discriminate Hk; cbn in He |- *;
    unfold create_or_update, reconcileDeploymentSSA; rewrite ?Ho; cbn; first [by rewrite He|by injection He as <-].
Qed.
End Owned.

(** ** Conditions *)

(** Setting a condition to what it is changes nothing. *)
Class ConditionStable `{ConditionOps} : Prop := set_same l c :
  find_condition (c_type c) l = Some c → SetStatusCondition l c = l.

Section Conditions.
Context `{ConditionOps} `{!ConditionStable}.

Definition set_all (cs l : list Condition) : list Condition := foldl SetStatusCondition cs l.

Lemma set_all_cons cs c l : set_all cs (c :: l) = set_all (SetStatusCondition cs c) l.
Proof. reflexivity. Qed.

Lemma set_all_other l cs t : t ∉ c_type <$> l → find_condition t (set_all cs l) = find_condition t cs.
Proof.
  revert cs. induction l as [|c l IH]; intros cs; [done|]. rewrite fmap_cons, not_elem_of_cons. intros [Hc Hl].
  rewrite set_all_cons, IH by done. by apply find_SetStatusCondition_ne.
Qed.

Lemma set_all_find l cs c : NoDup (c_type <$> l) → c ∈ l → find_condition (c_type c) (set_all cs l) = Some c.
Proof.
  revert cs. induction l as [|c' l IH]; intros cs; [by intros _ ?%elem_of_nil|]. rewrite set_all_cons.
  intros [Hn Hnd]%NoDup_cons [<-|Hc]%elem_of_cons; [|by apply IH].
  rewrite (set_all_other l _ _ Hn). apply find_SetStatusCondition.
Qed.

Lemma set_all_same l cs : (∀ c, c ∈ l → find_condition (c_type c) cs = Some c) → set_all cs l = cs.
Proof.
  induction l as [|c l IH]; intros Hl; [done|]. rewrite set_all_cons, set_same by (apply Hl; left).
  apply IH. intros c' Hc'. apply Hl. by right.
Qed.

Lemma set_all_again l cs : NoDup (c_type <$> l) → set_all (set_all cs l) l = set_all cs l.
Proof. intros Hnd. apply set_all_same. intros c Hc. by apply set_all_find. Qed.
End Conditions.

(** ** What a reconcile leaves *)

Section Converges.
Context `{ConditionOps} `{OwnerOps} `{FloatOps} `{ApiServer}.
Variable valid_quantity : string → bool.
Variable infra : InfraConfig.

Definition violations_condition (agent : Agent) : Condition :=
  match ComputeSecurityViolations (as_Security (ag_Spec agent)) with
  | [] => mkCondition ConditionSecurityPolicyViolations ConditionFalse "NoViolations"
            "Security overrides comply with the restricted Pod Security Standard."
  | vs => mkCondition ConditionSecurityPolicyViolations ConditionTrue "OverridesClamped"
            (GoFmt.d (Z.of_nat (length vs)) +:+ " override field(s) clamped to the restricted-PSS floor: "
             +:+ GoStrings.Join vs "; ")
  end.

(** The conditions set before the mode's. *)
Definition conditions_before (agent : Agent) (igs : list Integration) (provs : list Provider) : list Condition :=
  (if decide (as_Integrations (ag_Spec agent) ≠ [])
   then [mkCondition AgentConditionResourcesReady ConditionTrue "AllReady"
           (GoFmt.d (Z.of_nat (length igs)) +:+ " resources bound")] else []) ++
  [mkCondition AgentConditionProvidersReady ConditionTrue "Configured"
     (GoFmt.d (Z.of_nat (length provs)) +:+ " providers registered"); violations_condition agent].

(** The conditions of an agent with these dependencies, the last one given. *)
Definition conditions_of (agent : Agent) (igs : list Integration) (provs : list Provider) (last : Condition) : list Condition :=
  conditions_before agent igs provs ++ [last].

Definition task_condition (agent : Agent) : Condition :=
  mkCondition AgentConditionReady ConditionTrue "Ready"
    (GoFmt.d (BuiltinToolCount agent + Z.of_nat (length (as_Tools (ag_Spec agent)))) +:+ " tool packages configured").
Definition daemon_condition (ready : Z) : Condition :=
  if decide (0 < ready)%Z then mkCondition AgentConditionReady ConditionTrue "Running" ""
  else mkCondition AgentConditionReady ConditionFalse "Pending" "Waiting for deployment to be ready".

(** The status after a complete reconcile, from the one before and the ready replicas. *)
Definition status_after (agent : Agent) (igs : list Integration) (provs : list Provider) (ready : Z)
  (st : AgentStatus) : AgentStatus :=
  if decide (as_Mode (ag_Spec agent) = AgentModeDaemon) then
    mkAgentStatus (if decide (0 < ready)%Z then AgentPhaseRunning else AgentPhasePending) (AgentServiceURL agent) ready
      (match as_Storage (ag_Spec agent) with
       | Some _ => ObjectName (om_name (ag_Meta agent)) "storage" | None => ast_StoragePVC st end)
      (as_Model (ag_Spec agent))
      (set_all (ast_Conditions st) (conditions_of agent igs provs (daemon_condition ready)))
  else
    mkAgentStatus AgentPhaseReady (ast_ServiceURL st) (ast_ReadyReplicas st) (ast_StoragePVC st)
      (as_Model (ag_Spec agent)) (set_all (ast_Conditions st) (conditions_of agent igs provs (task_condition agent))).

Lemma conditions_of_NoDup agent igs provs last : c_type last = AgentConditionReady →
  NoDup (c_type <$> conditions_of agent igs provs last).
Proof.
  intros Hl. unfold conditions_of, conditions_before. rewrite !fmap_app. cbn. rewrite Hl.
  assert (c_type (violations_condition agent) = ConditionSecurityPolicyViolations) as ->
    by (unfold violations_condition; by destruct (ComputeSecurityViolations _)).
  destruct (decide (as_Integrations (ag_Spec agent) ≠ [])); apply (bool_decide_unpack _); by vm_compute.
Qed.

Lemma status_after_again `{!ConditionStable} agent igs provs ready st :
  status_after agent igs provs ready (status_after agent igs provs ready st) = status_after agent igs provs ready st.
Proof.
  unfold status_after. case_decide; cbn; rewrite set_all_again; try done.
  - by destruct (as_Storage _).
  - apply conditions_of_NoDup. unfold daemon_condition. by case_decide.
  - by apply conditions_of_NoDup.
Qed.

(** ** One reconcile *)

(** The agent's sizes are quantities. *)
Definition storage_ok (a : Agent) : Prop :=
  ∀ st, as_Storage (ag_Spec a) = Some st → is_Some (BuildAgentPVC valid_quantity a st).

Lemma ev_no_error (m : prog (option GoError)) s s' : ev m s = (None, s') → ev (no_error m) s = (Ok tt, s').
Proof. intros Hm. unfold no_error. by rewrite (ev_bind_to _ _ _ _ _ Hm). Qed.

Lemma ev_step {A} a b k (d : obj k) (f : unit → prog (res A)) s s' :
  owned_kind k = true → may_own (ag_Meta a) → ag_Meta b = ag_Meta a → effect (agent_op a k d) s = Some s' →
  ev (try_ (no_error (owned b k d)) f) s = ev (f tt) s'.
Proof.
  intros Hk Ho Hm He. apply ev_try, ev_no_error. unfold owned. rewrite Hm. by apply ev_owned.
Qed.

Lemma pvc_name a st pvc : BuildAgentPVC valid_quantity a st = Some pvc →
  om_name (pvc_meta pvc) = ObjectName (om_name (ag_Meta a)) "storage".
Proof. unfold BuildAgentPVC. cbv zeta. destruct (valid_quantity _); [|done]. by intros [= <-]. Qed.

Lemma ev_pvc a b s s' : same_agent a b → may_own (ag_Meta a) → storage_ok a →
  effects (pvc_ops valid_quantity a) s = Some s' →
  ev (daemon_pvc valid_quantity b) s =
  (Ok (b <| ag_Status ::= λ s, s <| ast_StoragePVC :=
     match as_Storage (ag_Spec a) with
     | Some _ => ObjectName (om_name (ag_Meta a)) "storage" | None => ast_StoragePVC (ag_Status b) end |> |>), s').
Proof.
  intros [Em Es] Ho Hst. unfold daemon_pvc, pvc_ops. rewrite Es. pose proof (Hst) as Hst'.
  assert (∀ st, BuildAgentPVC valid_quantity b st = BuildAgentPVC valid_quantity a st) as Eb
    by (intros st; unfold BuildAgentPVC; by rewrite Em).
  destruct (as_Storage (ag_Spec a)) as [st|] eqn:Hs.
  - rewrite Eb. destruct (Hst' st Hs) as [pvc Hpvc]. rewrite Hpvc. cbn [effects]. intros (s1 & He & [= <-])%bind_Some.
    rewrite (ev_step a) with (s' := s1) by done. cbn. by rewrite (pvc_name _ _ _ Hpvc).
  - intros [= <-]. cbn. do 2 f_equal. by destruct b as [? ? []].
Qed.

Lemma ev_netpol {A} a b (f : unit → prog (res A)) s s' : ag_Meta b = ag_Meta a → netpol_enabled b = netpol_enabled a →
  may_own (ag_Meta a) → effects (netpol_ops a) s = Some s' →
  ev (try_ (daemon_netpol b) f) s = ev (f tt) s'.
Proof.
  intros Em En Ho. unfold daemon_netpol, netpol_ops. rewrite En. destruct (netpol_enabled a); cbn [effects].
  - intros (s1 & He & [= <-])%bind_Some. unfold BuildAgentNetworkPolicy. rewrite Em.
    by apply (ev_step a b KNetworkPolicy (BuildAgentNetworkPolicy a)).
  - intros [= <-]. done.
Qed.

(** The result of a mode: the agent with this status, to be looked at again after that. *)
Definition daemon_result (b : Agent) (ready : Z) (pvc : string) : AgentStatus :=
  mkAgentStatus (if decide (0 < ready)%Z then AgentPhaseRunning else AgentPhasePending) (AgentServiceURL b) ready pvc
    (as_Model (ag_Spec b)) (SetStatusCondition (ast_Conditions (ag_Status b)) (daemon_condition ready)).

Lemma ev_daemon_status b s d :
  s KDeployment !! (om_namespace (ag_Meta b), om_name (ag_Meta b)) = Some d →
  ∃ n, ev (daemon_status b) s =
    ((n, mkResult (if decide (0 < dp_readyReplicas d)%Z then 0 else requeueInterval)), s) ∧
    ag_Meta n = ag_Meta b ∧ ag_Spec n = ag_Spec b ∧
    ag_Status n = daemon_result b (dp_readyReplicas d) (ast_StoragePVC (ag_Status b)).
Proof.
  intros Hd. unfold daemon_status. rewrite (ev_get KDeployment _ _ _ _ _ Hd). unfold daemon_result, daemon_condition.
  cbn. destruct (decide (0 < dp_readyReplicas d)%Z); eexists; split; try reflexivity; by repeat split.
Qed.

Definition stored_pvc (a : Agent) (before : string) : string :=
  match as_Storage (ag_Spec a) with Some _ => ObjectName (om_name (ag_Meta a)) "storage" | None => before end.

(** What a mode leaves of the agent and the store. *)
Definition mode_leaves (a b n : Agent) (st : AgentStatus) (p : prog (res (Agent * Result))) (after : Z) (s s' : Store) : Prop :=
  ev p s = (Ok (n, mkResult after), s') ∧ ag_Meta n = ag_Meta a ∧ ag_Status n = st.

Lemma ev_daemon a b igs provs s s' d : same_agent a b → as_Mode (ag_Spec a) = AgentModeDaemon →
  may_own (ag_Meta a) → storage_ok a → effects (mode_ops valid_quantity infra a igs provs) s = Some s' →
  s' KDeployment !! (om_namespace (ag_Meta a), om_name (ag_Meta a)) = Some d →
  ∃ n, mode_leaves a b n (daemon_result b (dp_readyReplicas d) (stored_pvc a (ast_StoragePVC (ag_Status b))))
         (reconcileDaemon valid_quantity infra b igs provs)
         (if decide (0 < dp_readyReplicas d)%Z then 0 else requeueInterval) s s'.
Proof.
  intros Hs Hmode Ho Hst. unfold mode_ops. rewrite decide_True by done. rewrite effects_app.
  intros (s1 & Hpvc & Hrest)%bind_Some Hd. unfold config_ops in Hrest.
  destruct (BuildAgentConfigMap a igs provs) as [cm|] eqn:Hcm; [|done].
  cbn [effects app] in Hrest. apply bind_Some in Hrest as (s2 & He2 & (s3 & He3 & (s4 & He4 & Hnp)%bind_Some)%bind_Some).
  pose proof (ev_pvc a b s s1 Hs Ho Hst Hpvc) as Hev1.
  match type of Hev1 with _ = (Ok ?x, _) => set (b1 := x) in Hev1 end.
  assert (ev (reconcileDaemon valid_quantity infra b igs provs) s =
          ev (r ← daemon_status (agent_after_build b1); mret (Ok r)) s') as Hev.
  { unfold reconcileDaemon. rewrite (ev_try _ _ _ _ _ Hev1). assert (same_agent a b1) as Hs1 by exact Hs. destruct Hs1 as [Em1 Es1].
  rewrite (ev_try (mret (BuildAgentConfigMap b1 igs provs)) _ s1 cm s1) by (by rewrite (config_same a b1), Hcm).
  rewrite (ev_step a) with (s' := s2) by done. cbv zeta.
  rewrite (deployment_same infra a b1) by done.
  rewrite (ev_step a) with (s' := s3) by done.
  assert (BuildAgentService (agent_after_build b1) = BuildAgentService a) as ->
    by (unfold BuildAgentService; cbn; by rewrite (proj1 Hs)).
  rewrite (ev_step a) with (s' := s4) by done.
  rewrite (ev_netpol a) with (s' := s'); [done|done| |done|done].
  unfold netpol_enabled. cbn. by rewrite (proj2 Hs). }
  destruct (ev_daemon_status (agent_after_build b1) s' d) as (n & Hevs & Hnm & Hns & Hnst).
  { cbn. by rewrite (proj1 Hs). }
  exists n. unfold mode_leaves. rewrite Hev, (ev_bind_to _ _ _ _ _ Hevs). split; [done|].
  split; [rewrite Hnm; exact (proj1 Hs)|]. by rewrite Hnst.
Qed.

Lemma ev_task a b igs provs s s' : same_agent a b → as_Mode (ag_Spec a) = AgentModeTask →
  may_own (ag_Meta a) → effects (mode_ops valid_quantity infra a igs provs) s = Some s' →
  ∃ n, mode_leaves a b n (mkAgentStatus AgentPhaseReady (ast_ServiceURL (ag_Status b)) (ast_ReadyReplicas (ag_Status b))
          (ast_StoragePVC (ag_Status b)) (as_Model (ag_Spec a))
          (SetStatusCondition (ast_Conditions (ag_Status b)) (task_condition a)))
         (reconcileTask b igs provs) 0 s s'.
Proof.
  intros Hs Hmode Ho. unfold mode_ops. rewrite decide_False, decide_True by (by rewrite ?Hmode).
  unfold config_ops. destruct (BuildAgentConfigMap a igs provs) as [cm|] eqn:Hcm; [|done].
  cbn [effects]. intros (s1 & He & [= <-])%bind_Some. destruct Hs as [Em Es] eqn:Hss. clear Hss.
  eexists. unfold mode_leaves, reconcileTask.
  rewrite (ev_try (mret (BuildAgentConfigMap b igs provs)) _ s cm s) by (by rewrite (config_same a b), Hcm).
  rewrite (ev_step a) with (s' := s1) by done. split; [reflexivity|]. split; [exact Em|].
  destruct b as [mb sb stb]. cbn in *. subst sb. by destruct stb.
Qed.

(** ** Dependencies *)

Lemma ev_get_all k what ns names xs s : Forall2 (λ n x, s k !! (ns, n) = Some x) names xs →
  ev (get_all k what ns names) s = (Ok xs, s).
Proof.
  induction 1 as [|n x names xs Hx _ IH]; [done|]. cbn [get_all]. rewrite (ev_get _ _ _ _ _ _ Hx).
  by rewrite (ev_try _ _ _ _ _ IH).
Qed.

(** The dependencies the agent names are in the store, and Ready. *)
Record deps_ready (s : Store) (a : Agent) (igs : list Integration) (provs : list Provider) : Prop := mkDeps {
  dr_integrations : Forall2 (λ n i, s KIntegration !! (om_namespace (ag_Meta a), n) = Some i)
    (ib_Name <$> as_Integrations (ag_Spec a)) igs;
  dr_integrations_ready : Forall (λ i, ist_Phase (ig_Status i) = IntegrationPhaseReady) igs;
  dr_providers : Forall2 (λ n p, s KProvider !! (om_namespace (ag_Meta a), n) = Some p)
    (pb_Name <$> as_ProviderRefs (ag_Spec a)) provs;
  dr_providers_ready : Forall (λ p, prst_Phase (prov_Status p) = ProviderPhaseReady) provs;
}.

Lemma deps_ready_same s s' a b igs provs : same_agent a b → s' KIntegration = s KIntegration → s' KProvider = s KProvider →
  deps_ready s a igs provs → deps_ready s' b igs provs.
Proof. intros [Em Es] Hi Hp [D1 D2 D3 D4]. split; rewrite ?Em, ?Es, ?Hi, ?Hp; done. Qed.

(** ** The status *)

Definition agent_key (a : Agent) : Key := (om_namespace (ag_Meta a), om_name (ag_Meta a)).
Definition store_status (s : Store) (a : Agent) (st : AgentStatus) : Store :=
  put s KAgent (<[agent_key a := a <| ag_Status := st |>]> (s KAgent)).

Lemma ev_patch a n s out : s KAgent !! agent_key a = Some a → ag_Meta n = ag_Meta a →
  ev (or_fail (patchStatus (k := KAgent) n a) (mret out)) s = (out, store_status s a (ag_Status n)).
Proof.
  intros Ha Hm. unfold or_fail. rewrite (ev_bind_to _ _ s None (store_status s a (ag_Status n))); [done|].
  unfold patchStatus, store_status. case_decide as Heq.
  - subst n. cbn. assert (a <| ag_Status := ag_Status a |> = a) as -> by (by destruct a).
    by rewrite insert_id, put_same.
  - rewrite (ev_patch_status KAgent a n _ s a Ha).
    destruct (patched_agent a n a) as (Hpm & Hps & Hpst). specialize (Hpst eq_refl).
    assert (patched KAgent a n a = a <| ag_Status := ag_Status n |>) as ->; [|done].
    destruct (patched KAgent a n a), a. cbn in *. by subst.
Qed.

Definition outcome_of (a : Agent) (ready : Z) : Outcome :=
  if decide (as_Mode (ag_Spec a) = AgentModeDaemon ∧ ¬ (0 < ready)%Z) then requeue requeueInterval else done_.

Definition supported (a : Agent) : Prop := as_Mode (ag_Spec a) = AgentModeDaemon ∨ as_Mode (ag_Spec a) = AgentModeTask.

(** The Deployment of the name of the agent, in a daemon's store, has this many ready replicas. *)
Definition ready_in (s : Store) (a : Agent) (ready : Z) : Prop :=
  as_Mode (ag_Spec a) = AgentModeDaemon →
  ∃ d, s KDeployment !! agent_key a = Some d ∧ dp_readyReplicas d = ready.

Lemma conditions_last a igs provs last cs :
  set_all cs (conditions_of a igs provs last) = SetStatusCondition (set_all cs (conditions_before a igs provs)) last.
Proof. unfold conditions_of, set_all. by rewrite foldl_app. Qed.

Lemma ev_mode a b igs provs s s' ready : same_agent a b → supported a → may_own (ag_Meta a) → storage_ok a →
  ag_Status b = (ag_Status a) <| ast_Conditions ::= λ cs, set_all cs (conditions_before a igs provs) |> →
  effects (mode_ops valid_quantity infra a igs provs) s = Some s' → s' KAgent !! agent_key a = Some a → ready_in s' a ready →
  ev (reconcile_mode valid_quantity infra b igs provs a) s =
    (outcome_of a ready, store_status s' a (status_after a igs provs ready (ag_Status a))).
Proof.
  intros Hs Hmode Ho Hst Hb He Ha Hr. unfold reconcile_mode, outcome_of, status_after. rewrite (proj2 Hs).
  destruct (decide (as_Mode (ag_Spec a) = AgentModeDaemon)) as [Hd|Hd].
  - destruct (Hr Hd) as (d & Hdep & <-).
    destruct (ev_daemon a b igs provs s s' d Hs Hd Ho Hst He Hdep) as (n & Hev & Hnm & Hns).
    rewrite (ev_bind_to _ _ _ _ _ Hev), ev_patch by done. rewrite Hns. unfold daemon_result, stored_pvc.
    rewrite Hb, conditions_last, (proj2 Hs). unfold AgentServiceURL. rewrite (proj1 Hs).
    case_decide as Hpos; [rewrite decide_False by tauto | rewrite decide_True by tauto]; done.
  - destruct Hmode as [|Ht]; [done|]. rewrite decide_True by done.
    destruct (ev_task a b igs provs s s' Hs Ht Ho He) as (n & Hev & Hnm & Hns).
    rewrite (ev_bind_to _ _ _ _ _ Hev), ev_patch by done. rewrite Hns, Hb, conditions_last.
    by rewrite decide_False by tauto.
Qed.

Lemma ev_providers a b igs provs s s' ready : same_agent a b → supported a → may_own (ag_Meta a) → storage_ok a →
  ag_Status b = (ag_Status a) <| ast_Conditions ::= λ cs, set_all cs
    (if decide (as_Integrations (ag_Spec a) ≠ [])
     then [mkCondition AgentConditionResourcesReady ConditionTrue "AllReady"
             (GoFmt.d (Z.of_nat (length igs)) +:+ " resources bound")] else []) |> →
  deps_ready s a igs provs → effects (mode_ops valid_quantity infra a igs provs) s = Some s' →
  s' KAgent !! agent_key a = Some a → ready_in s' a ready →
  ev (reconcile_providers valid_quantity infra b igs a) s =
    (outcome_of a ready, store_status s' a (status_after a igs provs ready (ag_Status a))).
Proof.
  intros Hs Hmode Ho Hst Hb [_ _ Hp Hpr] He Ha Hr. unfold reconcile_providers, resolveProviders. cbv zeta.
  rewrite (proj1 Hs), (proj2 Hs). rewrite (ev_bind_to _ _ _ _ _ (ev_get_all KProvider _ _ _ _ _ Hp)).
  apply (first_not_ready_None valid_quantity "provider" ProviderPhaseReady (λ p, om_name (prov_Meta p))) in Hpr.
  unfold validateProvidersReady. rewrite Hpr. apply ev_mode; try done. cbn. rewrite Hb, (proj2 Hs).
  unfold conditions_before, set_all, violations_condition. destruct (ag_Status a).
  unfold upd, rebuild; cbn. rewrite foldl_app. by destruct (ComputeSecurityViolations _).
Qed.

Lemma ev_integrations a igs provs s s' ready : supported a → may_own (ag_Meta a) → storage_ok a →
  deps_ready s a igs provs → effects (mode_ops valid_quantity infra a igs provs) s = Some s' →
  s' KAgent !! agent_key a = Some a → ready_in s' a ready →
  ev (reconcile_integrations valid_quantity infra a a) s =
    (outcome_of a ready, store_status s' a (status_after a igs provs ready (ag_Status a))).
Proof.
  intros Hmode Ho Hst Hdeps He Ha Hr. pose proof Hdeps as [Hi Hir _ _]. unfold reconcile_integrations, resolveIntegrations.
  rewrite (ev_bind_to _ _ _ _ _ (ev_get_all KIntegration _ _ _ _ _ Hi)).
  apply (first_not_ready_None valid_quantity "integration" IntegrationPhaseReady (λ p, om_name (ig_Meta p))) in Hir.
  unfold validateIntegrationsReady. rewrite Hir. cbv zeta. apply ev_providers; try done; case_decide; try done.
  by destruct a as [? ? []].
Qed.

Lemma ev_rbac a s s' : may_own (ag_Meta a) → as_ServiceAccountName (ag_Spec a) = "" →
  effects (rbac_ops a) s = Some s' → ev (reconcileAgentRBAC a) s = (None, s').
Proof.
  intros Ho Hsa. unfold rbac_ops. rewrite decide_True by done. cbn [effects].
  intros (s1 & E1 & (s2 & E2 & (s3 & E3 & [= <-])%bind_Some)%bind_Some)%bind_Some.
  unfold reconcileAgentRBAC, owned.
  rewrite (ev_bind_to _ _ _ _ _ (ev_owned _ KServiceAccount _ s s1 eq_refl Ho E1)).
  rewrite (ev_bind_to _ _ _ _ _ (ev_owned _ KRole _ s1 s2 eq_refl Ho E2)).
  by rewrite (ev_owned _ KRoleBinding _ s2 s3 eq_refl Ho E3).
Qed.

(** ** What is applied *)

Definition owned_op (a : Agent) (o : Op) : Prop := ∃ k d, owned_kind k = true ∧ o = agent_op a k d.

Lemma agent_op_owned a k d : owned_kind k = true → owned_op a (agent_op a k d).
Proof. intros Hk. by exists k, d. Qed.

Lemma agent_op_kind a k d : owned_kind k = true → op_kind (agent_op a k d) = Some k.
Proof. by destruct k. Qed.

(** The kinds of the parts, in order. *)
Definition are_kinds (a : Agent) (l : list Op) (ks : list Kind) : Prop :=
  Forall (owned_op a) l ∧ op_kind <$> l = Some <$> ks.

Lemma kinds_nil a : are_kinds a [] [].
Proof. done. Qed.
Lemma kinds_cons a k d l ks : owned_kind k = true → are_kinds a l ks → are_kinds a (agent_op a k d :: l) (k :: ks).
Proof.
  intros Hk [Hl Hks]. split; [by constructor; [apply agent_op_owned|]|].
  by rewrite !fmap_cons, agent_op_kind, Hks.
Qed.
Lemma kinds_app a l1 l2 ks1 ks2 : are_kinds a l1 ks1 → are_kinds a l2 ks2 → are_kinds a (l1 ++ l2) (ks1 ++ ks2).
Proof. intros [? E1] [? E2]. split; [by apply Forall_app|]. by rewrite !fmap_app, E1, E2. Qed.

Lemma rollout_parts a igs provs :
  (∃ ks, ks ∈ [[]; [KServiceAccount; KRole; KRoleBinding]] ∧ are_kinds a (rbac_ops a) ks) ∧
  (∃ ks, ks ∈ [[]; [KPVC]] ∧ are_kinds a (pvc_ops valid_quantity a) ks) ∧
  (∃ ks, ks ∈ [[]; [KConfigMap]] ∧ are_kinds a (config_ops a igs provs) ks) ∧
  (∃ ks, ks ∈ [[]; [KNetworkPolicy]] ∧ are_kinds a (netpol_ops a) ks).
Proof.
  unfold rbac_ops, pvc_ops, config_ops, netpol_ops. split_and!.
  all: repeat case_match.
  all: eexists; split; [|repeat (apply kinds_cons; [reflexivity|]); apply kinds_nil].
  all: repeat constructor.
Qed.

Lemma rollout_kinds a igs provs : ∃ ks, are_kinds a (rollout valid_quantity infra a igs provs) ks ∧
  NoDup ks ∧ Forall (λ k, owned_kind k = true) ks.
Proof.
  destruct (rollout_parts a igs provs) as ((k1 & M1 & K1) & (k2 & M2 & K2) & (k3 & M3 & K3) & (k4 & M4 & K4)).
  unfold rollout, mode_ops.
  repeat case_decide; eexists; (split; [repeat first [apply kinds_app | eassumption
    | apply kinds_nil | apply kinds_cons; [reflexivity|]]|]).
  all: rewrite !elem_of_cons in *; destruct_or?; try (by exfalso; eapply not_elem_of_nil); subst;
    (split; [apply (bool_decide_unpack _); by vm_compute | by repeat constructor]).
Qed.

Lemma owned_ops_effects a l s : may_own (ag_Meta a) → Forall (owned_op a) l → is_Some (effects l s).
Proof.
  intros Ho Hl. revert s. induction Hl as [|o l (k & d & Hk & ->) _ IH]; intros s; [by eexists|].
  destruct (owned_effect (ag_Meta a) k d Hk Ho) as (_ & Hs & _). destruct (Hs s) as [s1 Hs1].
  cbn [effects]. unfold agent_op. rewrite Hs1. apply IH.
Qed.

Lemma owned_ops_other a l s s' k : Forall (owned_op a) l → effects l s = Some s' → owned_kind k = false → s' k = s k.
Proof.
  intros Hl He Hk. apply (effects_other l s s' k He). intros (o & Ho & Hin)%list_elem_of_fmap.
  rewrite Forall_forall in Hl. destruct (Hl o Hin) as (k' & d & Hk' & ->).
  rewrite agent_op_kind in Ho by done. injection Ho as ->. congruence.
Qed.

Lemma rollout_effects a igs provs s : may_own (ag_Meta a) →
  ∃ s', effects (rollout valid_quantity infra a igs provs) s = Some s' ∧
    Forall (λ o, effect o s' = Some s') (rollout valid_quantity infra a igs provs).
Proof.
  intros Ho. destruct (rollout_kinds a igs provs) as (ks & [Hall Hks] & Hnd & Hok).
  destruct (owned_ops_effects a _ s Ho Hall) as [s' Hs']. exists s'. split; [done|].
  eapply effects_fixed; [|rewrite Hks; by apply NoDup_fmap_2; [apply _|]|done].
  eapply Forall_impl; [exact Hall|]. intros o (k & d & Hk & ->).
  destruct (owned_effect (ag_Meta a) k d Hk Ho) as (Hst & _ & Hkind). split; [done|by eexists].
Qed.

(** A rollout that changes nothing does so whatever the statuses of the agents are. *)
Lemma effects_after_status a igs provs s st : may_own (ag_Meta a) →
  Forall (λ o, effect o s = Some s) (rollout valid_quantity infra a igs provs) →
  Forall (λ o, effect o (store_status s a st) = Some (store_status s a st)) (rollout valid_quantity infra a igs provs).
Proof.
  intros Ho Hfix. destruct (rollout_kinds a igs provs) as (ks & [Hall _] & _).
  rewrite Forall_forall in Hall, Hfix |- *. intros o Hin. destruct (Hall o Hin) as (k & d & Hk & ->).
  apply (effect_local _ s _ k); [by apply agent_op_kind| |by apply Hfix].
  unfold store_status. rewrite put_ne; [done|]. by intros <-.
Qed.

(** A daemon's rollout leaves a Deployment of its name. *)
Lemma deployment_there a igs provs s : as_Mode (ag_Spec a) = AgentModeDaemon →
  Forall (λ o, effect o s = Some s) (rollout valid_quantity infra a igs provs) → is_Some (s KDeployment !! agent_key a).
Proof.
  intros Hm Hfix. assert (agent_op a KDeployment (BuildAgentDeployment a provs igs infra)
    ∈ rollout valid_quantity infra a igs provs) as Hin.
  { unfold rollout, mode_ops. rewrite decide_True by done. rewrite !elem_of_app. right. right. right. left. left. }
  rewrite Forall_forall in Hfix. specialize (Hfix _ Hin). cbn in Hfix. injection Hfix as Hfix.
  apply (f_equal (λ s, s KDeployment)) in Hfix. rewrite put_eq in Hfix. rewrite <- Hfix.
  assert (key_of_obj (k := KDeployment) (BuildAgentDeployment a provs igs infra) = agent_key a) as ->.
  { unfold BuildAgentDeployment, key_of_obj, agent_key. cbv zeta. by destruct (as_Storage (ag_Spec a)). }
  rewrite lookup_insert_eq. by eexists.
Qed.

Lemma ready_there a igs provs s :
  Forall (λ o, effect o s = Some s) (rollout valid_quantity infra a igs provs) → ∃ ready, ready_in s a ready.
Proof.
  intros Hfix. destruct (decide (as_Mode (ag_Spec a) = AgentModeDaemon)) as [Hm|Hm]; [|by exists 0%Z; intros ?].
  destruct (deployment_there a igs provs s Hm Hfix) as [d Hd]. exists (dp_readyReplicas d). intros _. by exists d.
Qed.

(** ** The whole reconcile *)

Lemma ev_Reconcile a igs provs s s' ready : s KAgent !! agent_key a = Some a → supported a → may_own (ag_Meta a) →
  storage_ok a → deps_ready s a igs provs → effects (rollout valid_quantity infra a igs provs) s = Some s' →
  ready_in s' a ready →
  ev (Reconcile valid_quantity infra (om_namespace (ag_Meta a)) (om_name (ag_Meta a))) s =
    (outcome_of a ready, store_status s' a (status_after a igs provs ready (ag_Status a))).
Proof.
  intros Ha Hmode Ho Hst Hdeps He Hr. unfold Reconcile. rewrite (ev_get KAgent _ _ _ _ _ Ha). cbv zeta.
  destruct (rollout_kinds a igs provs) as (ks & [Hall _] & _).
  assert (∀ k, owned_kind k = false → s' k = s k) as Hother by (intros k; exact (owned_ops_other a _ s s' k Hall He)).
  unfold rollout in He, Hall. rewrite effects_app in He. apply bind_Some in He as (s1 & Hrbac & Hmo).
  apply Forall_app in Hall as [Hall1 _].
  assert (∀ k, owned_kind k = false → s1 k = s k) as Hother1 by (intros k; exact (owned_ops_other a _ s s1 k Hall1 Hrbac)).
  assert (ev (reconcile_integrations valid_quantity infra a a) s1 =
    (outcome_of a ready, store_status s' a (status_after a igs provs ready (ag_Status a)))) as Hrest.
  { apply ev_integrations; try done; [|by rewrite Hother].
    apply (deps_ready_same s s1 a a); by rewrite ?Hother1. }
  case_decide as Hsa.
  - by rewrite (ev_bind_to _ _ _ _ _ (ev_rbac a s s1 Ho Hsa Hrbac)).
  - unfold rbac_ops in Hrbac. rewrite decide_False in Hrbac by done. by injection Hrbac as <-.
Qed.
(** The agent as the reconcile leaves it. *)
Definition agent_left (a : Agent) (igs : list Integration) (provs : list Provider) (ready : Z) : Agent :=
  a <| ag_Status := status_after a igs provs ready (ag_Status a) |>.

Lemma agent_left_key a igs provs ready : agent_key (agent_left a igs provs ready) = agent_key a.
Proof. reflexivity. Qed.

(** A second reconcile, from the store the first one left. *)
Lemma ev_again `{!ConditionStable} a igs provs ready s : supported a → may_own (ag_Meta a) → storage_ok a →
  deps_ready s a igs provs → s KAgent !! agent_key a = Some (agent_left a igs provs ready) →
  Forall (λ o, effect o s = Some s) (rollout valid_quantity infra a igs provs) → ready_in s a ready →
  ev (Reconcile valid_quantity infra (om_namespace (ag_Meta a)) (om_name (ag_Meta a))) s = (outcome_of a ready, s).
Proof.
  intros Hmode Ho Hst Hdeps Ha Hfix Hr. set (b := agent_left a igs provs ready) in *.
  assert (same_agent a b) as Hs by done.
  assert (rollout valid_quantity infra b igs provs = rollout valid_quantity infra a igs provs) as Hroll.
  { unfold rollout. by rewrite (rollout_same valid_quantity infra a b igs provs Hs). }
  assert (storage_ok b) as Hstb by exact Hst.
  assert (deps_ready s b igs provs) as Hdb by (by apply (deps_ready_same s s a b)).
  assert (effects (rollout valid_quantity infra b igs provs) s = Some s) as Hb by (rewrite Hroll; by apply effects_again).
  etransitivity; [exact (ev_Reconcile b igs provs s s ready Ha Hmode Ho Hstb Hdb Hb Hr)|]. f_equal. unfold store_status.
  assert (status_after b igs provs ready (ag_Status b) = ag_Status b) as -> by exact (status_after_again a igs provs ready _).
  assert (b <| ag_Status := ag_Status b |> = b) as -> by (by destruct b).
  rewrite insert_id by exact Ha. apply put_same.
Qed.

(** [C19] The Agent controller converges in one reconcile.  Take an Agent whose
    integrations and providers are in the store and Ready, of a mode the
    controller knows, whose storage size is a quantity and who may own the objects
    of its names.  Against a server that fails nothing, reconciling it gives back
    no error; every object of its rollout is then as its mutation wants it; the
    agent itself has kept its metadata and spec and has the status that follows
    from its dependencies and the ready replicas of its Deployment; no other
    object of a kind it does not own has changed.  A second reconcile gives the
    same outcome and leaves the whole store as it is: the controller, woken by
    its own writes, has nothing more to do. *)
Theorem agent_converges `{!ConditionStable} a igs provs s :
  s KAgent !! agent_key a = Some a → supported a → may_own (ag_Meta a) → storage_ok a → deps_ready s a igs provs →
  ∃ ready s', let reconcile := Reconcile valid_quantity infra (om_namespace (ag_Meta a)) (om_name (ag_Meta a)) in
    ev reconcile s = (outcome_of a ready, s') ∧ ready_in s' a ready ∧
    Forall (λ o, effect o s' = Some s') (rollout valid_quantity infra a igs provs) ∧
    s' KAgent = <[agent_key a := agent_left a igs provs ready]> (s KAgent) ∧
    (∀ k, owned_kind k = false → k ≠ KAgent → s' k = s k) ∧
    ev reconcile s' = (outcome_of a ready, s').
Proof.
  intros Ha Hmode Ho Hst Hdeps. destruct (rollout_effects a igs provs s Ho) as (s0 & He & Hfix).
  destruct (ready_there a igs provs s0 Hfix) as [ready Hr]. destruct (rollout_kinds a igs provs) as (ks & [Hall _] & _).
  assert (∀ k, owned_kind k = false → s0 k = s k) as Hother by (intros k; exact (owned_ops_other a _ s s0 k Hall He)).
  set (st := status_after a igs provs ready (ag_Status a)). set (s' := store_status s0 a st).
  assert (∀ k, k ≠ KAgent → s' k = s0 k) as Hs' by (intros k Hk; by apply put_ne).
  assert (s' KAgent = <[agent_key a := agent_left a igs provs ready]> (s KAgent)) as Hag
    by (unfold s', store_status; by rewrite put_eq, Hother).
  assert (ready_in s' a ready) as Hr' by (unfold ready_in in *; by rewrite Hs').
  exists ready, s'. cbv zeta. split; [by apply ev_Reconcile|].
  assert (Forall (λ o, effect o s' = Some s') (rollout valid_quantity infra a igs provs)) as Hfix'
    by (by apply effects_after_status).
  do 3 (split; [done|]). split; [intros k Hk Hne; by rewrite Hs', Hother|].
  apply (ev_again a igs provs); try done; [|by rewrite Hag, lookup_insert_eq].
  apply (deps_ready_same s s' a a); [done| | |done]; by rewrite Hs', Hother.
Qed.
End Converges.

(** ** A server *)

(** Objects are stamped with the clock; an applied Deployment keeps the replicas
    that are ready; a status patch sets the status of an agent. *)
#[program] Definition plain_server : ApiServer := {|
  stamp m := m <| om_creationTimestamp := 1%Z |>;
  merged d e := match e with Some e => d <| dp_readyReplicas := dp_readyReplicas e |> | None => d end;
  patched k := match k return obj k → obj k → obj k → obj k with
               | KAgent => λ b n x, x <| ag_Status := ag_Status n |> | _ => λ b n x, n end;
  updated k y x := x; clock := 1%Z; answer _ := Err (errorf "no route");
|}.
Next Obligation. done. Qed.
Next Obligation. by destruct m. Qed.
Next Obligation. by destruct m. Qed.
Next Obligation. by destruct e, d. Qed.
Next Obligation. by destruct e. Qed.
Next Obligation. done. Qed.
Next Obligation. done. Qed.

Lemma set_condition_same l c : find_condition (c_type c) l = Some c → set_condition l c = l.
Proof.
  unfold find_condition. induction l as [|x l IH]; [done|]. cbn. destruct (decide (c_type x = c_type c)) as [E|E].
  - rewrite bool_decide_eq_true_2 by done. by intros [= ->].
  - rewrite bool_decide_eq_false_2 by done. intros Hl. by rewrite IH.
Qed.

(** A daemon agent with storage and a Provider that is Ready, in a server with nothing else. *)
Definition daemon_coder : Agent :=
  zeroAgent <| ag_Meta := newMeta "coder" "agents" ∅ |>
    <| ag_Spec := zeroAgentSpec <| as_Mode := AgentModeDaemon |> <| as_Storage := Some (mkStorageSpec "1Gi" "") |>
                    <| as_ProviderRefs := [mkProviderBinding "anthropic" None] |> |>.
Definition ready_provider : Provider :=
  zeroProvider <| prov_Meta := newMeta "anthropic" "agents" ∅ |>
    <| prov_Status := zeroProviderStatus <| prst_Phase := ProviderPhaseReady |> |>.
Definition one_agent : Store := λ k,
  match k return gmap Key (obj k) with
  | KAgent => {[("agents", "coder") := daemon_coder]} | KProvider => {[("agents", "anthropic") := ready_provider]}
  | _ => ∅
  end.

(** Reconciled once, its Deployment has no ready replicas yet: the agent is Pending, to be
    looked at again, and the store has settled. *)
Lemma agent_converges_witness :
  let reconcile := @Reconcile KubeTypes.set_condition_ops any_owner half_floats (λ q, bool_decide (q = "1Gi"))
    (mkInfra "" "") "agents" "coder" in
  ∃ s', @ev plain_server _ reconcile one_agent = (requeue requeueInterval, s') ∧
    is_Some (s' KDeployment !! ("agents", "coder")) ∧
    @ev plain_server _ reconcile s' = (requeue requeueInterval, s').
Proof.
  destruct (@agent_converges KubeTypes.set_condition_ops any_owner half_floats plain_server
    (λ q, bool_decide (q = "1Gi")) (mkInfra "" "") set_condition_same daemon_coder [] [ready_provider] one_agent)
    as (ready & s' & H1 & Hr & Hfix & _ & _ & H2).
  - reflexivity.
  - by left.
  - by intros m.
  - intros st [= <-]. by eexists.
  - split; [constructor|constructor|by repeat constructor|by repeat constructor].
  - destruct (Hr eq_refl) as (d & Hd & Hready).
    assert (ready = 0%Z) as ->.
    { rewrite <- Hready. apply (f_equal (λ x, dp_readyReplicas <$> (snd x) KDeployment !! ("agents", "coder"))) in H1.
      cbn [snd] in H1. change (agent_key daemon_coder) with ("agents", "coder") in Hd. rewrite Hd in H1.
      vm_compute in H1. injection H1 as H1. exact (eq_sym H1). }
    exists s'. split; [exact H1|]. split; [|exact H2]. exists d. exact Hd.
Defined.
