(* ===== verification/Wakes.v ===== *)
(** * What wakes a controller (internal/controller, SetupWithManager)

    A controller reconciles an object when the object changes, when one it
    owns does, or when a watch maps a change to it.  With the reconcilers of
    the dependencies: which of what a verdict was drawn from can change
    without waking the one who drew it. *)

From S2P Require Import Prelude GoLib KubeTypes ApiTypes Effects CtrlCommon.
From S2P Require Import ProviderCtrl IntegrationCtrl DependencyProps.

Open Scope string_scope.
Open Scope list_scope.

Inductive Controller := CAgent | CAgentRun | CChannel | CIntegration | CProvider.

(** The predicate a watch of an owned kind is built with. *)
Inductive Predicate := AnyChange | GenerationChanged.

Record Setup := mkSetup { st_For : Kind; st_Owns : list (Kind * Predicate) }.

Definition AgentReconciler_SetupWithManager : Setup := mkSetup KAgent
  [(KDeployment, GenerationChanged); (KPVC, AnyChange); (KConfigMap, AnyChange); (KService, AnyChange);
   (KServiceAccount, AnyChange); (KRole, AnyChange); (KRoleBinding, AnyChange); (KNetworkPolicy, AnyChange)].
Definition AgentRunReconciler_SetupWithManager : Setup := mkSetup KAgentRun [(KJob, AnyChange)].
Definition ChannelReconciler_SetupWithManager : Setup := mkSetup KChannel
  [(KServiceAccount, AnyChange); (KRole, AnyChange); (KRoleBinding, AnyChange);
   (KDeployment, GenerationChanged); (KService, AnyChange); (KIngress, AnyChange)].
Definition IntegrationReconciler_SetupWithManager : Setup := mkSetup KIntegration [].
Definition ProviderReconciler_SetupWithManager : Setup := mkSetup KProvider [].

Definition SetupWithManager (c : Controller) : Setup :=
  match c with
  | CAgent => AgentReconciler_SetupWithManager
  | CAgentRun => AgentRunReconciler_SetupWithManager
  | CChannel => ChannelReconciler_SetupWithManager
  | CIntegration => IntegrationReconciler_SetupWithManager
  | CProvider => ProviderReconciler_SetupWithManager
  end.

(** [Watches] with [EnqueueRequestsFromMapFunc]. *)
Definition mapped (c : Controller) : ∀ k, obj k → prog (list (string * string)) := λ k,
  match c, k return obj k → prog (list (string * string)) with
  | CProvider, KSecret => secretToProviderRequests
  | CProvider, KAgent => λ a, mret (agentToProviderRequests a)
  | _, _ => λ _, mret []
  end.

(** A change of an object: before and after (one is missing when it is created
    or deleted), its controller owner, and whether its generation changed. *)
Record Change := mkChange {
  cg_kind : Kind;
  cg_old : option (obj cg_kind);
  cg_new : option (obj cg_kind);
  cg_owner : option (Kind * string);
  cg_generation : bool;
}.
Definition cg_objects (ch : Change) : list (obj (cg_kind ch)) := option_list (cg_old ch) ++ option_list (cg_new ch).

Definition passes (p : Predicate) (ch : Change) : bool :=
  match p, cg_old ch, cg_new ch with
  | GenerationChanged, Some _, Some _ => cg_generation ch
  | _, _, _ => true
  end.

Definition key {k} (o : obj k) : string * string := (om_namespace (obj_meta o), om_name (obj_meta o)).

Definition self_requests (c : Controller) (ch : Change) : list (string * string) :=
  if decide (cg_kind ch = st_For (SetupWithManager c)) then key <$> cg_objects ch else [].
Definition owner_requests (c : Controller) (ch : Change) : list (string * string) :=
  if existsb (λ kp, bool_decide (fst kp = cg_kind ch) && passes (snd kp) ch) (st_Owns (SetupWithManager c)) then
    match cg_owner ch with
    | Some (k, n) =>
        if decide (k = st_For (SetupWithManager c))
        then (λ o, (om_namespace (obj_meta o), n)) <$> cg_objects ch else []
    | None => []
    end
  else [].
Fixpoint mapped_requests (c : Controller) {k} (l : list (obj k)) : prog (list (string * string)) :=
  match l with
  | [] => mret []
  | o :: l' => r ← mapped c k o; rs ← mapped_requests c l'; mret (r ++ rs)
  end.

Definition requests (c : Controller) (ch : Change) : prog (list (string * string)) :=
  rs ← mapped_requests c (cg_objects ch); mret (self_requests c ch ++ owner_requests c ch ++ rs).

(** ** Waking for what was read *)

Lemma wp_ok_mono {A} (ok ok' : ∀ o, ans o → Prop) (p : prog A) Q tr :
  (∀ o x, ok o x → ok' o x) → wp ok' p Q tr → wp ok p Q tr.
Proof. intros Hok. revert tr. induction p as [a|o k IH]; intros tr; cbn; eauto. Qed.

Lemma wp_answers {A} (ok : ∀ o, ans o → Prop) (p : prog A) tr :
  Forall (λ e, ok (projT1 e) (projT2 e)) tr → wp ok p (λ tr' _, Forall (λ e, ok (projT1 e) (projT2 e)) tr') tr.
Proof.
  revert tr. induction p as [a|o k IH]; intros tr Htr; cbn; [done|]. intros x Hx. apply IH.
  apply Forall_app. split; [done|]. by apply Forall_singleton.
Qed.

(** A read gives the object of that name. *)
Definition names_right (o : Op) : ans o → Prop :=
  match o return ans o → Prop with
  | OpGet k ns name => λ x, match x with Ok y => key y = (ns, name) | Err _ => True end
  | _ => λ _, True
  end.

(** What a lookup of the providers must show when a watch asks for them. *)
Definition shows (p : Provider) (o : Op) : ans o → Prop :=
  match o return ans o → Prop with
  | OpList KProvider ns sel => λ x, om_namespace (prov_Meta p) = ns → ∃ l, x = Ok l ∧ p ∈ l
  | _ => λ _, True
  end.

Definition named {k} (ns name : string) (l : list (obj k)) : Prop := Exists (λ o, key o = (ns, name)) l.
Definition used (uses : Agent → Prop) (a : option Agent) : Prop := match a with Some a => uses a | None => False end.

(** Every change of what the call read enqueues the object: of the object read, or, for a
    list of Agents, of an Agent of the namespace that comes to use it or ceases to.  Only
    the map of the secrets makes a call, which is answered as [ok] says. *)
Definition wakes (c : Controller) (ns name : string) (ok : ∀ o, ans o → Prop) (uses : Agent → Prop)
  (o : Op) : Prop :=
  let woken ok ch := wp ok (requests c ch) (λ _ rs, (ns, name) ∈ rs) [] in
  match o with
  | OpGet k ns' name' => ∀ old new owner g,
      named ns' name' (option_list old ++ option_list new) →
      woken (if decide (k = KSecret) then ok else any_answer) (mkChange k old new owner g)
  | OpList KAgent ns' _ => ∀ old new owner g,
      Forall (λ a, om_namespace (ag_Meta a) = ns') (option_list old ++ option_list new) →
      ¬ (used uses old ↔ used uses new) → woken any_answer (mkChange KAgent old new owner g)
  | OpList _ _ _ => False
  | _ => True
  end.

Section Waking.
Context (c : Controller) (ok : ∀ o, ans o → Prop).

(** Asking the maps for a list of objects gives what each of them gives. *)
Lemma mapped_requests_wp {k} (l : list (obj k)) (P : list (string * string) → Prop) o tr :
  o ∈ l → (∀ r rs, P r → P (r ++ rs)) → (∀ r rs, P rs → P (r ++ rs)) →
  (∀ tr, wp ok (mapped c k o) (λ _ r, P r) tr) → wp ok (mapped_requests c l) (λ _ rs, P rs) tr.
Proof.
  intros Ho Hl Hr Hp. revert tr. induction l as [|y l IH]; intros tr; [by apply elem_of_nil in Ho|].
  apply elem_of_cons in Ho. cbn. apply wp_bind. destruct Ho as [<-|Ho].
  - eapply wp_mono; [|apply Hp]. intros tr' r HP. apply wp_bind. eapply wp_mono; [|apply wp_true].
    intros tr'' rs _. apply wp_ret. by apply Hl.
  - eapply wp_mono; [|apply wp_true]. intros tr' r _. apply wp_bind. eapply wp_mono; [|by apply IH].
    intros tr'' rs HP. apply wp_ret. by apply Hr.
Qed.

Lemma woken_mapped ch o r :
  o ∈ cg_objects ch → (∀ tr, wp ok (mapped c (cg_kind ch) o) (λ _ rs, r ∈ rs) tr) →
  wp ok (requests c ch) (λ _ rs, r ∈ rs) [].
Proof.
  intros Ho Hp. unfold requests. apply wp_bind.
  eapply wp_mono; [|apply (mapped_requests_wp _ (λ rs, r ∈ rs) o); [done|set_solver|set_solver|done]].
  intros tr rs Hr. apply wp_ret. set_solver.
Qed.

Lemma woken_self ch ns name : cg_kind ch = st_For (SetupWithManager c) → named ns name (cg_objects ch) →
  wp ok (requests c ch) (λ _ rs, (ns, name) ∈ rs) [].
Proof.
  intros Hk (o & Ho & Hkey)%Exists_exists. unfold requests. apply wp_bind. eapply wp_mono; [|apply wp_true].
  intros tr rs _. apply wp_ret, elem_of_app. left. unfold self_requests. rewrite decide_True by done.
  rewrite <- Hkey. by apply list_elem_of_fmap_2.
Qed.
End Waking.

(** ** Providers *)

Lemma first_of_each_elem seen names n : n ∈ first_of_each seen names ↔ n ∈ names ∧ n ∉ seen.
Proof.
  revert seen. induction names as [|m names IH]; intros seen; cbn; [set_solver|].
  case_decide; rewrite ?elem_of_cons, IH, ?not_elem_of_cons; destruct (decide (n = m)) as [->|]; naive_solver.
Qed.

Lemma agent_wakes_provider a p : om_namespace (ag_Meta a) = om_namespace (prov_Meta p) → names_provider a p →
  (om_namespace (prov_Meta p), om_name (prov_Meta p)) ∈ agentToProviderRequests a.
Proof.
  intros Hns Hn. unfold agentToProviderRequests. apply list_elem_of_fmap. exists (om_name (prov_Meta p)).
  split; [by rewrite Hns|]. apply first_of_each_elem. split; [done|apply not_elem_of_nil].
Qed.

Lemma secret_wakes_provider p s tr :
  om_namespace (sec_meta s) = om_namespace (prov_Meta p) →
  skr_Name <$> prs_ApiKeySecret (prov_Spec p) = Some (om_name (sec_meta s)) →
  wp (shows p) (secretToProviderRequests s) (λ _ rs, (om_namespace (prov_Meta p), om_name (prov_Meta p)) ∈ rs) tr.
Proof.
  intros Hns Href. unfold secretToProviderRequests. apply wp_call. intros x Hx. apply wp_ret.
  destruct (Hx (eq_sym Hns)) as (l & -> & Hl). apply list_elem_of_fmap. exists p. split; [done|].
  by apply list_elem_of_filter.
Qed.

Section ProviderWakes.
Context (ns name : string) (p : Provider).
Hypothesis Hkey : key (k := KProvider) p = (ns, name).

Abbreviation woken_by := (wakes CProvider ns name (shows p) (λ a, names_provider a p)).

Lemma wakes_for_itself : woken_by (OpGet KProvider ns name).
Proof. intros old new ow g Hn. by apply woken_self. Qed.

Lemma wakes_for_secret ref : prs_ApiKeySecret (prov_Spec p) = Some ref →
  woken_by (OpGet KSecret (om_namespace (prov_Meta p)) (skr_Name ref)).
Proof.
  intros Href old new ow g (s & Hs & Hk)%Exists_exists. injection Hk as Hns Hname. injection Hkey as <- <-.
  apply (woken_mapped _ _ (mkChange KSecret old new ow g) s); [done|]. intros tr.
  apply secret_wakes_provider; [done|]. by rewrite Href, Hname.
Qed.

Lemma wakes_for_agents : woken_by (OpList KAgent (om_namespace (prov_Meta p)) ∅).
Proof.
  intros old new ow g Hall Huse. injection Hkey as <- <-.
  assert (∃ a, a ∈ option_list old ++ option_list new ∧ names_provider a p) as (a & Ha & Hn).
  { destruct old as [a|], new as [b|]; cbn in *; try tauto.
    - destruct (decide (names_provider a p)); [exists a; set_solver|]. destruct (decide (names_provider b p)); [|tauto].
      exists b. set_solver.
    - exists a. split; [set_solver|]. destruct (decide (names_provider a p)); tauto.
    - exists b. split; [set_solver|]. destruct (decide (names_provider b p)); tauto. }
  apply (woken_mapped _ _ (mkChange KAgent old new ow g) a); [done|]. intros tr. apply wp_ret.
  apply agent_wakes_provider; [|done]. rewrite Forall_forall in Hall. by apply Hall.
Qed.

Lemma deletion_wakes tr out : provider_deletion p tr out → Forall (woken_by ∘ event_op) tr.
Proof.
  pose proof wakes_for_agents.
  intros [Hf|e Hf|agents n tr' out' Hf Hex Hm Hs Hb Hc Hw|agents p' x Hf Hno Hfs Hs];
    repeat (apply Forall_cons; split; [done|]); try constructor. destruct Hw; repeat (apply Forall_cons; split; [done|]); constructor.
Qed.

Lemma served_wakes tr out : provider_served p tr out → Forall (woken_by ∘ event_op) tr.
Proof.
  pose proof wakes_for_agents.
  intros [p' x Hf Hfs Hs Hst|tr1 ready agents n tr2 out' Hf Hsec Hm Hs Hp Hb Hw]; [by apply Forall_singleton|].
  apply Forall_app. split; [destruct Hsec as [|ref x Href]; [constructor|apply Forall_singleton; by apply wakes_for_secret]|].
  apply Forall_cons. split; [done|]. destruct Hw; [constructor|by apply Forall_singleton].
Qed.
End ProviderWakes.

(** What a reconcile of the dependency [ns/name] leaves woken: the object it reads first is
    [p]; every later answer that could change [p]'s verdict wakes it. *)
Definition always_woken (c : Controller) (k : Kind) (ns name : string) (ok : obj k → ∀ o, ans o → Prop)
  (uses : obj k → Agent → Prop) (tr : Trace) : Prop :=
  ∃ x rest, tr = existT (OpGet k ns name) x :: rest ∧
  match x with
  | Ok p => Forall (wakes c ns name (ok p) (uses p) ∘ event_op) tr
  | Err _ => rest = [] ∧ wakes c ns name (λ _ _, True) (λ _, False) (OpGet k ns name)
  end.

Lemma wp_traced {A} (p : prog A) Q :
  wp any_answer p Q [] →
  wp names_right p (λ tr a, Q tr a ∧ Forall (λ e, names_right (projT1 e) (projT2 e)) tr) [].
Proof. intros Hp. apply wp_and; [eapply wp_ok_mono; [|exact Hp]; done|by apply wp_answers]. Qed.

Section Never_stale.
Context `{ConditionOps} `{FinalizerOps}.

(** The list of the providers fails. *)
Definition list_fails (o : Op) : ans o → Prop :=
  match o return ans o → Prop with
  | OpList KProvider _ _ => λ x, ∃ e, x = Err e
  | _ => λ _, True
  end.

Lemma secret_lost old new ow g :
  wp list_fails (requests CProvider (mkChange KSecret old new ow g)) (λ _ rs, rs = []) [].
Proof.
  unfold requests. apply wp_bind. cbn [cg_objects cg_old cg_new cg_kind].
  assert (∀ (l : list (obj KSecret)) tr, wp list_fails (mapped_requests CProvider l) (λ _ rs, rs = []) tr) as Hl.
  { intros l. induction l as [|s l IH]; intros tr; [done|]. cbn [mapped_requests]. apply wp_bind.
    apply wp_call. intros x [e ->]. apply wp_ret, wp_bind. eapply wp_mono; [|apply IH]. by intros tr' rs ->. }
  eapply wp_mono; [|apply Hl]. by intros tr rs ->.
Qed.

(** [C38] No verdict about a Provider goes stale unseen, as long as the watch
    of the secrets can list the Providers: whatever a reconcile of it read (the
    Provider, the secret it names, the Agents of its namespace), every later
    change of the Provider itself, every change by which an Agent comes to name
    it or ceases to, and every change of the secret for which that list shows the
    Provider, enqueues the Provider again.  When the list fails, the change of a
    secret enqueues nobody and is lost. *)
Theorem provider_never_stale ns name :
  wp names_right (ProviderCtrl.Reconcile ns name)
     (λ tr _, always_woken CProvider KProvider ns name shows (λ p a, names_provider a p) tr) [] ∧
  ∀ old new owner g,
    wp list_fails (requests CProvider (mkChange KSecret old new owner g)) (λ _ rs, rs = []) [].
Proof.
  split; [|apply secret_lost]. eapply wp_mono; [|apply wp_traced, provider_reconcile_wp].
  intros tr out [(x & rest & -> & Hx) Hok]. exists x, rest. split; [done|]. apply Forall_cons in Hok as [Hkey _].
  destruct x as [p|e]; [|split; [tauto|intros old new ow g Hn; by apply woken_self]].
  apply Forall_cons. split; [by apply (wakes_for_itself ns name p)|].
  case_decide; [by eapply served_wakes|by eapply deletion_wakes].
Qed.
End Never_stale.

(** ** Integrations

    Nothing is watched for them: one that is held back because Agents bind it asks for a
    later look instead. *)

Lemma status_written_cases k (b n : obj k) after tr out : (0 < after)%Z →
  status_written k b n (requeue after) tr out → comes_back out.
Proof. intros Ha [Hs|x]; [by left|]. destruct x; [by left|right; by eexists]. Qed.

Section Integrations.
Context `{ConditionOps} `{FinalizerOps}.

Lemma integration_never_stale ns name :
  wp names_right (IntegrationCtrl.Reconcile ns name) (λ tr out,
    comes_back out
    ∨ Forall (wakes CIntegration ns name (λ _ _, True) (λ _, False) ∘ event_op) tr
    ∨ ∃ i x, existT (OpUpdate KIntegration i) x ∈ tr ∧ IntegrationFinalizer ∉ om_finalizers (ig_Meta i)) [].
Proof.
  eapply wp_mono; [|apply wp_traced, integration_reconcile_wp].
  intros tr out [(x & rest & -> & Hx) _].
  assert (wakes CIntegration ns name (λ _ _, True) (λ _, False) (OpGet KIntegration ns name)) as Hself
    by (intros old new ow g Hn; by apply woken_self).
  destruct x as [i|e]; [|right; left; destruct Hx as [-> _]; by apply Forall_singleton].
  case_decide.
  - right. left. apply Forall_cons. split; [done|].
    destruct Hx as [i' x Hf Hfs Hs Hst|n c tr out Hf Hm Hs Hp Hr Hc Hcs Hw]; [by apply Forall_singleton|].
    destruct Hw; [constructor|by apply Forall_singleton].
  - destruct Hx as [Hf|e Hf|agents n tr out Hf Hex Hm Hs Hc Hw|agents i' x Hf Hno Hfs Hs].
    + right. left. by apply Forall_singleton.
    + left. right. by eexists.
    + left. eapply status_written_cases; [|done]. done.
    + right. right. exists i', x. split; [rewrite !elem_of_cons; auto|]. rewrite Hfs. tauto.
Qed.
End Integrations.

(** ** Changes nobody wakes for *)

(** A Deployment whose generation stays the same (its status moved: pods became ready or were
    lost) wakes no controller. *)
Lemma deployment_status_wakes_nobody c old new ow :
  requests c (mkChange KDeployment (Some old) (Some new) ow false) = mret [].
Proof. by destruct c. Qed.

(** A change of a Provider or an Integration wakes its own controller only: the Agents rolled
    out with its settings, and their runs, are not looked at. *)
Lemma dependency_wakes_no_agent c k old new ow g :
  (k = KProvider ∨ k = KIntegration) → c ∈ [CAgent; CAgentRun; CChannel] →
  ∃ p, requests c (mkChange k old new ow g) = p ∧
       wp any_answer p (λ tr rs, tr = [] ∧ rs = []) [].
Proof.
  intros Hk Hc. eexists. split; [done|]. unfold requests. cbn [cg_kind].
  assert (∀ (l : list (obj k)) (Q : Trace → list (string * string) → Prop), Q [] [] →
            wp any_answer (mapped_requests c l) Q []) as Hmap.
  { intros l. induction l as [|o l IH]; intros Q HQ; [by apply wp_ret|]. cbn. apply wp_bind.
    assert (mapped c k o = mret []) as -> by (destruct Hk as [-> | ->]; by destruct c).
    apply wp_ret, wp_bind, IH, wp_ret. exact HQ. }
  apply wp_bind, Hmap, wp_ret. split; [done|].
  unfold self_requests, owner_requests. cbn [cg_kind].
  rewrite !elem_of_cons in Hc. destruct Hc as [->|[->|[->|Hc]]], Hk as [-> | ->]; try done; by apply elem_of_nil in Hc.
Qed.
