(* ===== verification/OperatorMain.v ===== *)
(** * The operator process (cmd/main.go, internal/tracing/tracing.go)

    What [main] does with its flags and environment: the TLS options of its two
    servers, the namespaces it watches, what it registers with the manager and
    in which order, and where it exits.  A call that can fail is a step; whether
    a step fails is a parameter. *)

From S2P Require Import Prelude GoLib KubeTypes ResourceCommon Effects Wakes.

Open Scope string_scope.
Open Scope list_scope.

(** ** path/filepath *)

Module Filepath.

(** One element onto the reversed stack of [Clean]. *)
Definition clean_step (rooted : bool) (stack : list string) (e : string) : list string :=
  if decide (e = "" ∨ e = ".") then stack
  else if decide (e = "..") then
    match stack with
    | x :: rest => if decide (x = "..") then e :: stack else rest
    | [] => if rooted then [] else [e]
    end
  else e :: stack.

Definition Clean (path : string) : string :=
  let rooted := GoStrings.HasPrefix path "/" in
  let body := GoStrings.Join (rev (foldl (clean_step rooted) [] (GoStrings.Split "/" path))) "/" in
  if rooted then "/" +:+ body else if decide (body = "") then "." else body.

Definition Join (dir name : string) : string :=
  match filter (λ e, e ≠ "") [dir; name] with
  | [] => ""
  | l => Clean (GoStrings.Join l "/")
  end.

End Filepath.

Example join_plain : Filepath.Join "/tmp/certs/" "tls.crt" = "/tmp/certs/tls.crt".
Proof. reflexivity. Qed.
Example join_dots : Filepath.Join "certs/./a" "../../../tls.key" = "../tls.key".
Proof. reflexivity. Qed.

(** ** Flags *)

Record Flags := mkFlags {
  metricsAddr : string; probeAddr : string; enableLeaderElection : bool; enableWebhooks : bool;
  secureMetrics : bool;
  webhookCertPath : string; webhookCertName : string; webhookCertKey : string;
  metricsCertPath : string; metricsCertName : string; metricsCertKey : string;
  enableHTTP2 : bool; otelEndpoint : string; natsURL : string;
}.

Definition default_flags : Flags :=
  mkFlags "0" ":8081" false false true "" "tls.crt" "tls.key" "" "tls.crt" "tls.key" false "" "".

(** ** TLS options, kept in slices *)

(** A certificate watcher, by the files it watches. *)
Record CertWatcher := mkWatcher { cw_cert : string; cw_key : string }.

Record TLSConfig := mkTLS { NextProtos : list string; GetCertificate : option CertWatcher }.

(** The functions [main] puts into the option lists. *)
Inductive TLSOpt := disableHTTP2 | useCertificate (w : CertWatcher).
Definition apply_opt (c : TLSConfig) (o : TLSOpt) : TLSConfig :=
  match o with
  | disableHTTP2 => mkTLS ["http/1.1"] (GetCertificate c)
  | useCertificate w => mkTLS (NextProtos c) (Some w)
  end.

(** A Go slice: its array (none for nil), length and capacity.  Slices made from one
    another share the array. *)
Record Slice := mkSlice { s_array : option positive; s_len : nat; s_cap : nat }.
Definition nil_slice : Slice := mkSlice None 0 0.
Abbreviation Arrays := (gmap positive (list TLSOpt)).

Definition slice_elems (m : Arrays) (s : Slice) : list TLSOpt :=
  match s_array s with Some a => take (s_len s) (default [] (m !! a)) | None => [] end.

(** What the server set up with these options presents. *)
Definition tls_of (m : Arrays) (s : Slice) : TLSConfig := foldl apply_opt (mkTLS [] None) (slice_elems m s).

Section Append.
(** The capacity [append] gives a new array, from the old capacity and the length needed. *)
Variable grow : nat → nat → nat.

(** In place when there is room, which overwrites what another slice put there;
    otherwise into an array of its own. *)
Definition append (m : Arrays) (s : Slice) (o : TLSOpt) : Slice * Arrays :=
  match s_array s with
  | Some a =>
      if decide (s_len s < s_cap s)%nat then
        (mkSlice (Some a) (S (s_len s)) (s_cap s),
         <[a := take (s_len s) (default [] (m !! a)) ++ [o] ++ drop (S (s_len s)) (default [] (m !! a))]> m)
      else
        let a' := fresh (dom m) in
        (mkSlice (Some a') (S (s_len s)) (grow (s_cap s) (S (s_len s))), <[a' := slice_elems m s ++ [o]]> m)
  | None =>
      let a' := fresh (dom m) in (mkSlice (Some a') 1 (grow 0 1), <[a' := [o]]> m)
  end.
End Append.

(** ** Steps *)

Record ManagerOptions := mkOptions {
  mo_MetricsBindAddress : string; mo_SecureServing : bool; mo_AuthFilter : bool; mo_MetricsTLSOpts : Slice;
  mo_HealthProbeBindAddress : string; mo_LeaderElection : bool; mo_LeaderElectionID : string;
  mo_DefaultNamespaces : option (gset string); mo_WebhookServer : option Slice;
}.

(** What can fail, with what it is given. *)
Inductive Step :=
| NewResource
| NewExporter (endpoint : string)
| NewCertWatcher (w : CertWatcher)
| NewManager (o : ManagerOptions)
| SetupController (c : Controller) (infra : option InfraConfig)
| SetupWebhook (k : Kind)
| AddRunnable (w : CertWatcher)
| AddHealthzCheck
| AddReadyzCheck
| Start
| TracerShutdown.

(** The steps taken, the arrays of the option lists, and the package's tracer, nil until set. *)
Record Proc := mkProc { pc_steps : list Step; pc_arrays : Arrays; pc_Tracer : bool }.
#[export] Instance Proc_fields : Fields Proc :=
  λ p, mkProc (pc_steps p) (pc_arrays p) (pc_Tracer p).

(** Code that may end the process: no result is [os.Exit(1)]. *)
Definition Main (A : Type) : Type := Proc → Proc * option A.
#[export] Instance main_ret : MRet Main := λ A a p, (p, Some a).
#[export] Instance main_bind : MBind Main := λ A B k m p,
  let '(p', x) := m p in match x with Some a => k a p' | None => (p', None) end.

Section Operator.
Variable fails : Step → bool.
Variable grow : nat → nat → nat.

(** [if err := s; err != nil], whatever is done about it *)
Definition attempt (s : Step) : Main bool := λ p,
  (p <| pc_steps ::= (.++ [s]) |>, Some (negb (fails s))).

(** [if err := s; err != nil { os.Exit(1) }] *)
Definition call (s : Step) : Main unit := λ p,
  (p <| pc_steps ::= (.++ [s]) |>, if fails s then None else Some tt).
Fixpoint calls (l : list Step) : Main unit :=
  match l with [] => mret tt | s :: l' => _ ← call s; calls l' end.

Definition append_opt (s : Slice) (o : TLSOpt) : Main Slice := λ p,
  let '(s', m) := append grow (pc_arrays p) s o in (p <| pc_arrays := m |>, Some s').

Definition set_Tracer : Main unit := λ p, (p <| pc_Tracer := true |>, Some tt).

(** [tracing.Init]: an error, or what to call on shutdown. *)
Definition Init (endpoint : string) : Main (option (list Step)) :=
  if decide (endpoint = "") then _ ← set_Tracer; mret (Some [])
  else
    ok ← attempt NewResource;
    if (ok : bool) then
      ok ← attempt (NewExporter endpoint);
      if (ok : bool) then _ ← set_Tracer; mret (Some [TracerShutdown]) else mret None
    else mret None.

Definition watch_namespaces (raw : string) : option (gset string) :=
  if decide (raw = "") then None
  else
    let nsSet : gset string :=
      list_to_set (filter (λ ns, ns ≠ "") (GoStrings.TrimSpace <$> GoStrings.Split "," raw)) in
    if decide (0 < size nsSet)%nat then Some nsSet else None.

(** A server's certificate watcher, when its path is given, and the server's options. *)
Definition cert_options (on : bool) (w : CertWatcher) (tlsOpts : Slice) : Main (Slice * option CertWatcher) :=
  if on then
    _ ← call (NewCertWatcher w); s ← append_opt tlsOpts (useCertificate w); mret (s, Some w)
  else mret (tlsOpts, None).
Definition webhook_watcher (f : Flags) : CertWatcher :=
  mkWatcher (Filepath.Join (webhookCertPath f) (webhookCertName f)) (Filepath.Join (webhookCertPath f) (webhookCertKey f)).
Definition metrics_watcher (f : Flags) : CertWatcher :=
  mkWatcher (Filepath.Join (metricsCertPath f) (metricsCertName f)) (Filepath.Join (metricsCertPath f) (metricsCertKey f)).

(** The deferred shutdown: its error is only logged. *)
Fixpoint deferred (l : list Step) : Main unit :=
  match l with [] => mret tt | s :: l' => _ ← attempt s; deferred l' end.

(** [main] from the manager on. *)
Definition run_manager (f : Flags) (o : ManagerOptions) (metricsCertWatcher webhookCertWatcher : option CertWatcher)
  (shutdown : list Step) : Main unit :=
  let infra := mkInfra (otelEndpoint f) (natsURL f) in
  _ ← call (NewManager o);
  _ ← calls [SetupController CAgent (Some infra); SetupController CChannel (Some infra);
             SetupController CAgentRun (Some infra); SetupController CIntegration None;
             SetupController CProvider None];
  _ ← (if enableWebhooks f
       then calls [SetupWebhook KAgent; SetupWebhook KChannel; SetupWebhook KIntegration; SetupWebhook KProvider]
       else mret tt);
  _ ← calls (AddRunnable <$> option_list metricsCertWatcher);
  _ ← calls (AddRunnable <$> option_list webhookCertWatcher);
  _ ← calls [AddHealthzCheck; AddReadyzCheck; Start];
  deferred shutdown.

Definition main (f : Flags) (env : string → string) : Main unit :=
  shutdown ← Init (env "OTEL_EXPORTER_OTLP_ENDPOINT");
  tlsOpts ← (if enableHTTP2 f then mret nil_slice else append_opt nil_slice disableHTTP2);
  '(webhookTLSOpts, webhookCertWatcher) ←
    cert_options (enableWebhooks f && bool_decide (webhookCertPath f ≠ "")) (webhook_watcher f) tlsOpts;
  '(metricsTLSOpts, metricsCertWatcher) ←
    cert_options (bool_decide (metricsCertPath f ≠ "")) (metrics_watcher f) tlsOpts;
  let o := mkOptions (metricsAddr f) (secureMetrics f) (secureMetrics f) metricsTLSOpts (probeAddr f)
             (enableLeaderElection f) "e58828d7.agentops.io" (watch_namespaces (env "WATCH_NAMESPACES"))
             (if enableWebhooks f then Some webhookTLSOpts else None) in
  run_manager f o metricsCertWatcher webhookCertWatcher (default [] shutdown).

Definition start : Proc := mkProc [] ∅ false.
Definition operator (f : Flags) (env : string → string) : Proc * option unit := main f env start.
End Operator.

(** ** Option lists *)

(** The slice is backed by its array. *)
Definition valid (m : Arrays) (s : Slice) : Prop :=
  match s_array s with
  | Some a => ∃ l, m !! a = Some l ∧ (s_len s ≤ length l)%nat
  | None => s_len s = 0
  end.
(** No room to append in place. *)
Definition full (s : Slice) : Prop := (s_cap s ≤ s_len s)%nat ∨ s_array s = None.
#[export] Instance full_dec s : Decision (full s).
Proof. unfold full. apply _. Defined.

Lemma elems_mono m m' s : m ⊆ m' → valid m s → valid m' s ∧ slice_elems m' s = slice_elems m s.
Proof.
  unfold valid, slice_elems. intros Hm. destruct (s_array s) as [a|]; [|done]. intros (l & Hl & Hlen).
  pose proof (lookup_weaken _ _ _ _ Hl Hm) as Hl'. rewrite Hl, Hl'. eauto.
Qed.

Lemma append_full grow m s o : full s → m ⊆ snd (append grow m s o).
Proof.
  unfold full, append. intros Hfull. pose proof (is_fresh (dom m)) as Hf. apply not_elem_of_dom in Hf.
  destruct (s_array s) as [a|]; [destruct Hfull; [rewrite decide_False by lia|done]|]; by apply insert_subseteq.
Qed.

Lemma overwrite {A} (l : list A) n o : (n ≤ length l)%nat → let l' := take n l ++ [o] ++ drop (S n) l in
  take (S n) l' = take n l ++ [o] ∧ take n l' = take n l ∧ (S n ≤ length l')%nat.
Proof.
  intros Hn l'. assert (length (take n l) = n) as Hlen by (rewrite length_take; lia). split_and!.
  - unfold l'. rewrite app_assoc, take_app_length'; [done|]. rewrite length_app, Hlen. cbn. lia.
  - unfold l'. by rewrite take_app_length'.
  - unfold l'. rewrite !length_app, Hlen. cbn. lia.
Qed.

(** Appending gives the elements and one more, and leaves those of the slice appended to. *)
Lemma append_spec grow m s o : valid m s → let '(s', m') := append grow m s o in
  valid m' s' ∧ slice_elems m' s' = slice_elems m s ++ [o] ∧ valid m' s ∧ slice_elems m' s = slice_elems m s.
Proof.
  intros Hv. assert (full s → valid (snd (append grow m s o)) s ∧
    slice_elems (snd (append grow m s o)) s = slice_elems m s) as Hkeep
    by (intros Hs; apply elems_mono; [by apply append_full|done]).
  unfold append, valid, slice_elems, full in *. destruct s as [[a|] n c]; cbn in *.
  - destruct Hv as (l & Hl & Hlen). destruct (decide (n < c)%nat) as [Hr|Hr]; cbn in *.
    + rewrite !lookup_insert_eq, Hl. destruct (overwrite l n o Hlen) as (H1 & H2 & H3).
      cbn [default from_option id app] in *. rewrite H1, H2. split_and!; try done; eexists; (split; [done|lia]).
    + destruct (Hkeep ltac:(left; lia)) as [H1 H2]. rewrite lookup_insert_eq, Hl in *. cbn in *.
      split_and!; [eexists; split; [done|]|by rewrite take_ge by (rewrite length_app, length_take; cbn; lia)|exact H1|exact H2].
      rewrite length_app, length_take. cbn. lia.
  - rewrite lookup_insert_eq. split_and!; [by eexists|done|done|done].
Qed.

(** Two appends to one slice: the first result keeps its elements when there was no room,
    and is the second result when there was. *)
Lemma append_twice grow m s o1 o2 : valid m s →
  let '(s1, m1) := append grow m s o1 in let '(s2, m2) := append grow m1 s o2 in
  slice_elems m2 s1 = slice_elems m s ++ [if decide (full s) then o1 else o2].
Proof.
  intros Hv. pose proof (append_spec grow m s o1 Hv) as H1. destruct (append grow m s o1) as [s1 m1] eqn:E1.
  destruct H1 as (Hv1 & He1 & Hv01 & He01). pose proof (append_spec grow m1 s o2 Hv01) as H2.
  pose proof (append_full grow m1 s o2) as Hsub. destruct (append grow m1 s o2) as [s2 m2] eqn:E2.
  destruct H2 as (_ & He2 & _ & _). case_decide as Hf.
  - rewrite <- He1. by apply elems_mono; [apply Hsub|].
  - rewrite <- He01, <- He2. f_equal. unfold full, append in *. destruct s as [[a|] n c]; cbn in *.
    + rewrite decide_True in E1, E2 by (destruct (decide (n < c)%nat); [done|destruct Hf; left; lia]). congruence.
    + destruct Hf. by right.
Qed.

Section Runs.
Variable fails : Step → bool.

(** The steps up to the first that fails, and whether none does. *)
Fixpoint until (l : list Step) : list Step * bool :=
  match l with
  | [] => ([], true)
  | s :: l' => if fails s then ([s], false) else (s :: fst (until l'), snd (until l'))
  end.

Lemma until_cases l :
  (until l = (l, true) ∧ Forall (λ s, fails s = false) l) ∨
  (∃ pre s post, l = pre ++ s :: post ∧ until l = (pre ++ [s], false) ∧ Forall (λ s, fails s = false) pre ∧ fails s = true).
Proof.
  induction l as [|s l IH]; cbn; [by left|]. destruct (fails s) eqn:Hs.
  - right. by exists [], s, l.
  - destruct IH as [[-> Hl]|(pre & s' & post & -> & -> & Hpre & Hs')]; [left; by auto|right].
    exists (s :: pre), s', post. split; [done|]. split; [done|]. by auto.
Qed.

Lemma calls_run l p : calls fails l p =
  (p <| pc_steps ::= (.++ fst (until l)) |>, if snd (until l) then Some tt else None).
Proof.
  revert p. induction l as [|s l IH]; intros [ss m t]; cbn.
  - unfold upd, rebuild; cbn. by rewrite app_nil_r.
  - unfold call, mbind, main_bind. destruct (fails s); [done|]. rewrite IH.
    unfold upd, rebuild; cbn. by rewrite <- app_assoc.
Qed.

Lemma calls_then {A} a b (k : Main A) p :
  mbind (λ _, mbind (λ _, k) (calls fails b)) (calls fails a) p = mbind (λ _, k) (calls fails (a ++ b)) p.
Proof.
  revert p. induction a as [|s a IH]; intros p; [done|]. unfold mbind, main_bind, call in *. cbn.
  unfold mbind, main_bind, call. destruct (fails s); [done|]. apply IH.
Qed.

Lemma then_calls {A} (k d : Main A) a b p : (∀ p, k p = mbind (λ _, d) (calls fails b) p) →
  mbind (λ _, k) (calls fails a) p = mbind (λ _, d) (calls fails (a ++ b)) p.
Proof.
  intros Hk. rewrite <- calls_then. unfold mbind, main_bind. destruct (calls fails a p) as [p' [[]|]]; [|done]. apply Hk.
Qed.

Lemma call_calls {A} (k : Main A) s p :
  mbind (λ _, k) (call fails s) p = mbind (λ _, k) (calls fails [s]) p.
Proof. cbn. unfold mbind, main_bind, call. by destruct (fails s). Qed.

Lemma calls_if {A} (k : Main A) (b : bool) l p :
  mbind (λ _, k) (if b then calls fails l else mret tt) p = mbind (λ _, k) (calls fails (if b then l else [])) p.
Proof. by destruct b. Qed.

Lemma until_app a b : Forall (λ s, fails s = false) a →
  until (a ++ b) = (a ++ fst (until b), snd (until b)).
Proof.
  induction 1 as [|s a Hs _ IH]; cbn; [by destruct (until b)|]. by rewrite Hs, IH.
Qed.

(** What a certificate block of [main] does. *)
Definition cert_steps (on : bool) (w : CertWatcher) : list Step := if on then [NewCertWatcher w] else [].

(** It appends to the list it is given, unless it is off or fails. *)
Lemma cert_options_run grow on w s p : ∃ m r,
  cert_options fails grow on w s p = (mkProc (pc_steps p ++ cert_steps on w) m (pc_Tracer p), r) ∧
  match r with
  | None => ∀ b, until (cert_steps on w ++ b) = (cert_steps on w, false)
  | Some (s', ow) => ow = (if on then Some w else None) ∧
      (s', m) = (if on then append grow (pc_arrays p) s (useCertificate w) else (s, pc_arrays p)) ∧
      ∀ b, until (cert_steps on w ++ b) = (cert_steps on w ++ fst (until b), snd (until b))
  end.
Proof.
  destruct p as [ss m t]. destruct on; unfold cert_options, cert_steps; cbn.
  - unfold call, mbind, main_bind, append_opt. cbn. destruct (fails (NewCertWatcher w)) eqn:Hf.
    + by eexists _, None.
    + unfold upd, rebuild; cbn. destruct (append grow m s (useCertificate w)) as [s' m']. by eexists _, (Some _).
  - eexists _, (Some _). split; [by rewrite app_nil_r|]. split; [done|]. split; [done|]. intros b. by destruct (until b).
Qed.

End Runs.

(** ** What the operator has set up *)

Definition protocols (f : Flags) : list string := if enableHTTP2 f then [] else ["http/1.1"].

Definition webhook_on (f : Flags) : bool := enableWebhooks f && bool_decide (webhookCertPath f ≠ "").
Definition metrics_on (f : Flags) : bool := bool_decide (metricsCertPath f ≠ "").

(** The two lists of options come to share an array: it has an element (HTTP/2 is off) and
    room for another, and both servers append to it. *)
Definition shared (grow : nat → nat → nat) (f : Flags) : bool :=
  negb (enableHTTP2 f) && bool_decide (1 < grow 0 1)%nat && webhook_on f && metrics_on f.

(** The options of the manager: each server presents its own certificate (the webhook
    server that of the metrics, when the lists are shared), with HTTP/2 only
    when asked for; the metrics are behind authentication when served securely; the
    namespaces watched are those named. *)
Record configured (grow : nat → nat → nat) (f : Flags) (env : string → string) (m : Arrays) (o : ManagerOptions) : Prop := mkConfigured {
  cf_webhook : tls_of m <$> mo_WebhookServer o =
    if enableWebhooks f
    then Some (mkTLS (protocols f) (if decide (webhookCertPath f = "") then None
                                    else Some (if shared grow f then metrics_watcher f else webhook_watcher f)))
    else None;
  cf_metrics : tls_of m (mo_MetricsTLSOpts o) =
    mkTLS (protocols f) (if decide (metricsCertPath f = "") then None else Some (metrics_watcher f));
  cf_auth : mo_SecureServing o = secureMetrics f ∧ mo_AuthFilter o = secureMetrics f;
  cf_namespaces : ∀ ns, ns ≠ "" →
    (∃ part, part ∈ GoStrings.Split "," (env "WATCH_NAMESPACES") ∧ GoStrings.TrimSpace part = ns) ↔
    ∃ nss, mo_DefaultNamespaces o = Some nss ∧ ns ∈ nss;
  cf_named : ∀ nss, mo_DefaultNamespaces o = Some nss → nss ≠ ∅ ∧ "" ∉ nss;
}.

Definition infra_of (f : Flags) (c : Controller) : option InfraConfig :=
  match c with CAgent | CAgentRun | CChannel => Some (mkInfra (otelEndpoint f) (natsURL f)) | _ => None end.

(** Everything that has to be there before the manager starts. *)
Record ready (f : Flags) (l : list Step) : Prop := mkReady {
  rd_manager : ∃ o, NewManager o ∈ l;
  rd_controllers : ∀ c infra, SetupController c infra ∈ l ↔ infra = infra_of f c;
  rd_webhooks : ∀ k, SetupWebhook k ∈ l ↔ enableWebhooks f = true ∧ k ∈ [KAgent; KChannel; KIntegration; KProvider];
  rd_watchers : ∀ w, AddRunnable w ∈ l ↔ NewCertWatcher w ∈ l;
  rd_checks : AddHealthzCheck ∈ l ∧ AddReadyzCheck ∈ l;
}.

(** Failures the process goes on after: tracing's. *)
Definition init_step (s : Step) : bool := match s with NewResource | NewExporter _ => true | _ => false end.
Definition tracing_step (s : Step) : bool := init_step s || match s with TracerShutdown => true | _ => false end.

Section Spec.
Variable fails : Step → bool.
Variable f : Flags.
Variable env : string → string.

Local Abbreviation webhook_on := (webhook_on f).
Local Abbreviation metrics_on := (metrics_on f).
(** The steps of [main] from the manager on, and all those between tracing and shutdown. *)
Definition registrations (o : ManagerOptions) (mw ww : option CertWatcher) : list Step :=
  NewManager o ::
  [SetupController CAgent (infra_of f CAgent); SetupController CChannel (infra_of f CChannel);
   SetupController CAgentRun (infra_of f CAgentRun); SetupController CIntegration None; SetupController CProvider None] ++
  (if enableWebhooks f then SetupWebhook <$> [KAgent; KChannel; KIntegration; KProvider] else []) ++
  (AddRunnable <$> option_list mw) ++ (AddRunnable <$> option_list ww) ++ [AddHealthzCheck; AddReadyzCheck; Start].
Definition plan (o : ManagerOptions) : list Step :=
  cert_steps webhook_on (webhook_watcher f) ++ cert_steps metrics_on (metrics_watcher f) ++
  registrations o (if metrics_on then Some (metrics_watcher f) else None)
                  (if webhook_on then Some (webhook_watcher f) else None).

(** [Init]: its steps, whether the tracer is set, and what is left for the shutdown. *)
Lemma Init_run e : ∃ l t sh, Init fails e start = (mkProc l ∅ t, Some sh) ∧
  Forall (λ s, init_step s = true) l ∧ Forall (λ s, s = TracerShutdown) (default [] sh) ∧
  (t = false ↔ Exists (λ s, fails s = true) l).
Proof.
  unfold Init, attempt, set_Tracer, mbind, main_bind, start. unfold upd, rebuild; cbn.
  case_decide; cbn; [exists [], true, (Some []); repeat split; [constructor|constructor|done|by intros ?%Exists_nil]|].
  destruct (fails NewResource) eqn:Hr; cbn; [|destruct (fails (NewExporter e)) eqn:He; cbn];
    eexists _, _, _; (split; [done|]); (split; [by repeat constructor|]); (split; [by repeat constructor|]);
    rewrite ?Exists_cons, ?Exists_nil, ?Hr, ?He; naive_solver.
Qed.

Lemma namespaces_spec raw ns : ns ≠ "" →
  (∃ part, part ∈ GoStrings.Split "," raw ∧ GoStrings.TrimSpace part = ns) ↔
  ∃ nss, watch_namespaces raw = Some nss ∧ ns ∈ nss.
Proof.
  intros Hns. unfold watch_namespaces. cbv zeta.
  assert (∀ nss : gset string, nss = list_to_set (filter (λ ns, ns ≠ "") (GoStrings.TrimSpace <$> GoStrings.Split "," raw)) →
    (∃ part, part ∈ GoStrings.Split "," raw ∧ GoStrings.TrimSpace part = ns) ↔ ns ∈ nss) as Hin.
  { intros nss ->. rewrite elem_of_list_to_set, list_elem_of_filter, list_elem_of_fmap. naive_solver. }
  case_decide as Hraw; [subst raw|].
  - cbn. split; [|naive_solver]. intros (part & ->%list_elem_of_singleton & <-). done.
  - rewrite (Hin _ eq_refl). case_decide as Hs; [naive_solver|]. split; [|naive_solver].
    assert (size (list_to_set (filter (λ ns, ns ≠ "") (GoStrings.TrimSpace <$> GoStrings.Split "," raw)) : gset string) = 0) as H0 by lia.
    apply size_empty_inv in H0. set_solver.
Qed.

Lemma namespaces_named raw nss : watch_namespaces raw = Some nss → nss ≠ ∅ ∧ "" ∉ nss.
Proof.
  unfold watch_namespaces. case_decide; [done|]. cbv zeta. case_decide as Hs; [|done]. intros [= <-]. split.
  - intros Hn. rewrite Hn, size_empty in Hs. lia.
  - rewrite elem_of_list_to_set, list_elem_of_filter. tauto.
Qed.

Lemma deferred_run l p : deferred fails l p = (p <| pc_steps ::= (.++ l) |>, Some tt).
Proof.
  revert p. induction l as [|s l IH]; intros [ss m t]; cbn; unfold upd, rebuild; cbn.
  - by rewrite app_nil_r.
  - unfold attempt, mbind, main_bind, upd, rebuild; cbn. rewrite IH. unfold upd, rebuild; cbn.
    by rewrite <- app_assoc.
Qed.

(** Everything from the manager on. *)
Lemma tail_run (l : list Step) sh p :
  mbind (λ _ : unit, deferred fails sh) (calls fails l) p =
  (p <| pc_steps ::= (.++ fst (until fails l) ++ (if snd (until fails l) then sh else [])) |>,
   if snd (until fails l) then Some tt else None).
Proof.
  unfold mbind, main_bind. rewrite calls_run. destruct p as [ss m t]. destruct (until fails l) as [l' []]; cbn.
  - rewrite deferred_run. unfold upd, rebuild; cbn. by rewrite <- app_assoc.
  - unfold upd, rebuild; cbn. by rewrite app_nil_r.
Qed.

Lemma run_manager_run o mw ww sh p :
  run_manager fails f o mw ww sh p = mbind (λ _ : unit, deferred fails sh) (calls fails (registrations o mw ww)) p.
Proof.
  unfold run_manager. cbv zeta. rewrite call_calls. apply (then_calls fails _ _ [NewManager o]). intros p1.
  apply (then_calls fails _ _ [_; _; _; _; _]). intros p2. rewrite calls_if. do 3 (apply then_calls; intros ?). done.
Qed.

Definition manager_options (webhook metrics : Slice) : ManagerOptions :=
  mkOptions (metricsAddr f) (secureMetrics f) (secureMetrics f) metrics (probeAddr f)
    (enableLeaderElection f) "e58828d7.agentops.io" (watch_namespaces (env "WATCH_NAMESPACES"))
    (if enableWebhooks f then Some webhook else None).

(** The servers present what their options say. *)
Lemma configured_options grow m webhook metrics :
  let base := if enableHTTP2 f then [] else [disableHTTP2] in
  slice_elems m webhook = base ++ (if webhook_on then
    [useCertificate (if shared grow f then metrics_watcher f else webhook_watcher f)] else []) →
  slice_elems m metrics = base ++ (if metrics_on then [useCertificate (metrics_watcher f)] else []) →
  configured grow f env m (manager_options webhook metrics).
Proof.
  cbv zeta. intros Hw Hm. constructor; cbn.
  - unfold tls_of, protocols in *. destruct (enableWebhooks f) eqn:Hen; [|done]. cbn. rewrite Hw.
    generalize (shared grow f). intros sh. unfold OperatorMain.webhook_on. rewrite Hen. cbn.
    destruct (enableHTTP2 f); case_decide as Hp; case_bool_decide; done.
  - unfold tls_of, OperatorMain.metrics_on, protocols in *. rewrite Hm.
    destruct (enableHTTP2 f); case_decide as Hp; case_bool_decide; done.
  - done.
  - intros ns Hns. by apply namespaces_spec.
  - apply namespaces_named.
Qed.

(** An execution of [main]: tracing, then the plan up to the first failure, then the
    shutdown when there was none. *)
Record runs (grow : nat → nat → nat) (p : Proc) (out : option unit) (l sh : list Step) (o : ManagerOptions) : Prop := mkRuns {
  rn_init : Forall (λ s, init_step s = true) l;
  rn_shutdown : Forall (λ s, s = TracerShutdown) sh;
  rn_tracer : pc_Tracer p = false ↔ Exists (λ s, fails s = true) l;
  rn_steps : pc_steps p = l ++ fst (until fails (plan o)) ++
                          (if snd (until fails (plan o)) then sh else []);
  rn_out : out = if snd (until fails (plan o)) then Some tt else None;
  rn_options : NewManager o ∈ pc_steps p → configured grow f env (pc_arrays p) o;
}.

(** The options both servers start from. *)
Lemma base_run grow ss t : ∃ s m,
  (if enableHTTP2 f then mret nil_slice else append_opt grow nil_slice disableHTTP2) (mkProc ss ∅ t) = (mkProc ss m t, Some s) ∧
  (full s ↔ enableHTTP2 f = true ∨ ¬ (1 < grow 0 1)%nat) ∧
  valid m s ∧ slice_elems m s = if enableHTTP2 f then [] else [disableHTTP2].
Proof.
  destruct (enableHTTP2 f).
  - exists nil_slice, ∅. unfold full. cbn. split_and!; [done|naive_solver|done|done].
  - unfold append_opt, append, full, valid, slice_elems; cbn. eexists _, _. split; [done|]. cbn.
    rewrite lookup_insert_eq. split_and!; [|eauto|done]. split; [intros [Hg|]; [right; lia|done]|intros [|Hg]; [done|left; lia]].
Qed.

(** The two lists, made one after the other from the common one. *)
Lemma both_lists grow m s s1 m1 s2 m2 : valid m s → (full s ↔ enableHTTP2 f = true ∨ ¬ (1 < grow 0 1)%nat) →
  (s1, m1) = (if webhook_on then append grow m s (useCertificate (webhook_watcher f)) else (s, m)) →
  (s2, m2) = (if metrics_on then append grow m1 s (useCertificate (metrics_watcher f)) else (s, m1)) →
  slice_elems m2 s1 = slice_elems m s ++ (if webhook_on then
    [useCertificate (if shared grow f then metrics_watcher f else webhook_watcher f)] else []) ∧
  slice_elems m2 s2 = slice_elems m s ++ (if metrics_on then [useCertificate (metrics_watcher f)] else []).
Proof.
  intros Hv Hfull. pose proof (append_spec grow m s (useCertificate (webhook_watcher f)) Hv) as H1.
  pose proof (append_twice grow m s (useCertificate (webhook_watcher f)) (useCertificate (metrics_watcher f)) Hv) as H12.
  unfold shared. destruct webhook_on, metrics_on; rewrite ?andb_false_r, ?andb_true_r.
  - intros E1 E2. rewrite <- E1 in *. rewrite <- E2 in H12. destruct H1 as (_ & _ & Hv01 & He01).
    pose proof (append_spec grow m1 s (useCertificate (metrics_watcher f)) Hv01) as H2. rewrite <- E2 in H2.
    destruct H2 as (_ & -> & _). rewrite H12, He01. split; [|done]. do 2 f_equal.
    destruct (decide (full s)) as [Hf|Hf]; rewrite Hfull in Hf; destruct (enableHTTP2 f); cbn;
      try case_bool_decide; naive_solver.
  - intros E1 [= -> ->]. rewrite <- E1 in H1. destruct H1 as (_ & -> & _ & ->). by rewrite app_nil_r.
  - intros [= -> ->] E2. pose proof (append_spec grow m s (useCertificate (metrics_watcher f)) Hv) as H2.
    rewrite <- E2 in H2. destruct H2 as (_ & -> & _ & ->). by rewrite app_nil_r.
  - intros [= -> ->] [= -> ->]. by rewrite app_nil_r.
Qed.

Lemma no_manager l o : Forall (λ s, init_step s = true) l → NewManager o ∉ l.
Proof. intros Hl Ho. rewrite Forall_forall in Hl. by apply Hl in Ho. Qed.

Lemma cert_steps_no_manager on w o : NewManager o ∉ cert_steps on w.
Proof. unfold cert_steps. destruct on; [|apply not_elem_of_nil]. by intros ?%list_elem_of_singleton. Qed.

Lemma main_runs grow : ∃ p out l sh o,
  operator fails grow f env = (p, out) ∧ runs grow p out l sh o.
Proof.
  unfold operator, main. pose proof cert_steps_no_manager as Hc.
  destruct (Init_run (env "OTEL_EXPORTER_OTLP_ENDPOINT")) as (l & t & sh & Hinit & Htr & Hsh & Ht).
  pose proof (λ o, no_manager l o Htr) as Hl.
  unfold mbind at 1, main_bind at 1. rewrite Hinit.
  destruct (base_run grow l t) as (s0 & m0 & Hs0 & Hf0 & Hv0 & He0).
  unfold mbind at 1, main_bind at 1. rewrite Hs0.
  destruct (cert_options_run fails grow webhook_on (webhook_watcher f) s0 (mkProc l m0 t))
    as (m1 & r1 & Hr1 & H1). cbn in Hr1, H1.
  unfold mbind at 1, main_bind at 1. fold webhook_on. rewrite Hr1. destruct r1 as [[s1 w1]|].
  2:{ eexists _, _, l, (default [] sh), (manager_options s0 s0). split; [done|].
      constructor; unfold plan; rewrite ?H1; [exact Htr|exact Hsh|done|by rewrite app_nil_r|done|].
      cbn. rewrite elem_of_app. intros [?|?]; exfalso; [by eapply Hl|by eapply Hc]. }
  destruct H1 as (-> & Ha1 & Hu1).
  unfold mbind at 1, main_bind at 1. fold metrics_on.
  destruct (cert_options_run fails grow metrics_on (metrics_watcher f) s0
    (mkProc (l ++ cert_steps webhook_on (webhook_watcher f)) m1 t)) as (m2 & r2 & Hr2 & H2).
  cbn in Hr2, H2. rewrite Hr2. destruct r2 as [[s2 w2]|].
  2:{ eexists _, _, l, (default [] sh), (manager_options s0 s0). split; [done|].
      constructor; unfold plan; rewrite ?Hu1, ?H2; cbn [fst snd]; [exact Htr|exact Hsh|done|by rewrite app_nil_r, app_assoc|done|].
      cbn. rewrite !elem_of_app. intros [[?|?]|?]; exfalso; [by eapply Hl|by eapply Hc..]. }
  destruct H2 as (-> & Ha2 & Hu2). destruct (both_lists grow m0 s0 s1 m1 s2 m2 Hv0 Hf0 Ha1 Ha2) as [He1 He2].
  fold (manager_options s1 s2). rewrite run_manager_run, tail_run.
  eexists _, _, l, (default [] sh), (manager_options s1 s2). split; [done|].
  constructor; unfold plan; rewrite ?Hu1, ?Hu2; cbn [fst snd]; [exact Htr|exact Hsh|exact Ht| |done|].
  - cbn. by rewrite <- !app_assoc.
  - intros _. unfold upd, rebuild; cbn in *. apply configured_options; by rewrite ?He1, ?He2, He0.
Qed.
End Spec.

(** ** The theorem *)

Lemma split_last {A} (a b pre post : list A) x : x ∉ a → x ∉ b → a ++ x :: b = pre ++ x :: post → pre = a.
Proof.
  intros Ha Hb. revert pre. induction a as [|y a IH]; intros [|z pre]; cbn; [done|..].
  - intros [= -> ->]. destruct Hb. apply elem_of_app. right. left.
  - intros [= -> _]. destruct Ha. left.
  - intros [= -> He]. f_equal. apply IH; [|done]. intros Hx. apply Ha. by right.
Qed.

Ltac no_step Hin := repeat destruct Hin as [Hin|Hin]; try discriminate Hin; try (by destruct Hin).
Ltac find_step := repeat first [left; reflexivity | right].

(** What is registered is what has to be. *)
Lemma plan_ready f o l : Forall (λ s, init_step s = true) l →
  ∃ body, plan f o = body ++ [Start] ∧ Start ∉ l ++ body ∧ ready f (l ++ body).
Proof.
  intros Hl. eexists (cert_steps (webhook_on f) (webhook_watcher f) ++ cert_steps (metrics_on f) (metrics_watcher f) ++
    removelast (registrations f o (if metrics_on f then Some (metrics_watcher f) else None)
                                  (if webhook_on f then Some (webhook_watcher f) else None))).
  assert (∀ s b, init_step s = false → (s ∈ l ++ b ↔ In s b)) as Hno.
  { intros s b Hs. rewrite <- list_elem_of_In, elem_of_app. split; [intros [Hin|]; [|done]|by right].
    rewrite Forall_forall in Hl. apply Hl in Hin. congruence. }
  unfold plan, registrations, cert_steps.
  destruct (enableWebhooks f) eqn:Hw, (webhook_on f), (metrics_on f); cbn; (split; [done|]);
    (split; [rewrite Hno by done; intros Hin; no_step Hin|]); constructor.
  all: try (exists o; rewrite Hno by done; find_step).
  all: try (rewrite !Hno by done; split; find_step).
  all: try (intros w; rewrite !Hno by done; split; intros Hin; no_step Hin; injection Hin as <-; find_step).
  all: try (intros c infra; rewrite Hno by done; split;
    [intros Hin; no_step Hin; by injection Hin as <- <-|intros ->; destruct c; find_step]).
  all: intros k; rewrite Hno by done; split.
  all: try (intros Hin; no_step Hin; injection Hin as <-; (split; [done|apply list_elem_of_In; find_step])).
  all: rewrite Hw; intros [Hk Hin]; try done; apply list_elem_of_In in Hin; no_step Hin; subst k; find_step.
Qed.

Lemma plan_steps f o : Forall (λ s, tracing_step s = false ∧ ∀ o', s = NewManager o' → o' = o) (plan f o).
Proof.
  unfold plan, registrations, cert_steps. destruct (webhook_on f), (metrics_on f), (enableWebhooks f);
    repeat constructor; intros o' Ho; try discriminate Ho; by injection Ho as <-.
Qed.

Lemma until_sub fails l s : s ∈ fst (until fails l) → s ∈ l.
Proof.
  destruct (until_cases fails l) as [[-> _]|(pre & x & post & -> & -> & _)]; cbn; [done|].
  rewrite !elem_of_app, !elem_of_cons, elem_of_nil. tauto.
Qed.

(** Start comes after all of it. *)
Lemma start_ready fails f o l sh pre post :
  Forall (λ s, init_step s = true) l → Forall (λ s, s = TracerShutdown) sh →
  l ++ fst (until fails (plan f o)) ++ (if snd (until fails (plan f o)) then sh else []) = pre ++ Start :: post →
  ready f pre.
Proof.
  intros Hl Hsh Hs. destruct (plan_ready f o l Hl) as (body & Hplan & Hstart & Hready).
  destruct (until_cases fails (plan f o)) as [[Hu _]|(pre' & x & post' & He & Hu & _ & _)]; rewrite Hu in Hs; cbn in Hs.
  - rewrite Hplan, <- app_assoc, app_assoc in Hs. apply split_last in Hs as ->; [done|done|].
    intros Hin. rewrite Forall_forall in Hsh. by apply Hsh in Hin.
  - rewrite app_nil_r, app_assoc in Hs. rewrite Hplan in He.
    destruct post' as [|y post' _] using rev_ind.
    + apply app_inj_tail in He as [<- <-]. apply split_last in Hs as ->; [done|done|apply not_elem_of_nil].
    + rewrite app_comm_cons, app_assoc in He. apply app_inj_tail in He as [-> _].
      destruct Hstart. assert (Start ∈ (l ++ pre') ++ [x]) as Hin by (rewrite Hs; set_solver). set_solver.
Qed.

(** [C39] When the operator starts, everything it needs is in place: all five
    controllers are registered, the three that build pods with the
    configured endpoints; the four admission webhooks exactly when enabled; a
    watcher runs for every certificate loaded; each server speaks HTTP/2 only when
    asked to; only the namespaces named are watched.  The metrics server presents
    its own certificate, and so does the webhook server unless append gives an
    array for one element room for more, HTTP/2 is off and both have one: then
    [shared] is true and it presents that of the metrics.  Any other failure than
    tracing's ends the process there, and nothing is done after it; when tracing's
    set-up fails, the tracer the controllers use stays nil. *)
Theorem operator_starts_configured fails grow f env :
  ∃ p out, operator fails grow f env = (p, out) ∧
  (∀ o, NewManager o ∈ pc_steps p → configured grow f env (pc_arrays p) o) ∧
  (∀ pre post, pc_steps p = pre ++ Start :: post → ready f pre) ∧
  (pc_Tracer p = false ↔ Exists (λ s, init_step s = true ∧ fails s = true) (pc_steps p)) ∧
  match out with
  | Some _ => Start ∈ pc_steps p ∧ Forall (λ s, fails s = true → tracing_step s = true) (pc_steps p)
  | None => ∃ pre s, pc_steps p = pre ++ [s] ∧ fails s = true ∧ tracing_step s = false ∧
              Forall (λ s, fails s = true → tracing_step s = true) pre
  end.
Proof.
  destruct (main_runs fails f env grow) as (p & out & l & sh & o & Hrun & [Hl Hsh Ht Hs Hout Ho]).
  exists p, out. split; [done|]. pose proof (plan_steps f o) as Hp. rewrite Forall_forall in Hl, Hsh, Hp.
  pose proof (until_sub fails (plan f o)) as Hsub. split; [|split; [|split]].
  - intros o' Ho'. enough (o' = o) as -> by auto. pose proof Ho' as Hin. rewrite Hs, !elem_of_app in Hin.
    destruct Hin as [Hin|[Hin|Hin]]; [by apply Hl in Hin|by eapply Hp; [apply Hsub|]|].
    destruct (snd _); [by apply Hsh in Hin|by apply elem_of_nil in Hin].
  - intros pre post Hpre. eapply (start_ready fails f o l sh); [by apply Forall_forall|by apply Forall_forall|rewrite <- Hs; exact Hpre].
  - rewrite Ht, Hs, !Exists_exists. split; intros (x & Hx & Hf); exists x; [rewrite elem_of_app; auto|].
    destruct Hf as [Hi Hf]. split; [|done]. rewrite !elem_of_app in Hx. destruct Hx as [Hx|[Hx|Hx]]; [done|..].
    + apply Hsub, Hp in Hx as [Hx _]. unfold tracing_step in Hx. by rewrite Hi in Hx.
    + destruct (snd _); [by apply Hsh in Hx as ->|by apply elem_of_nil in Hx].
  - assert (∀ x, x ∈ l ++ sh → tracing_step x = true) as Htr.
    { intros x [Hx|Hx]%elem_of_app; [apply Hl in Hx; unfold tracing_step; by rewrite Hx|by apply Hsh in Hx as ->]. }
    destruct (plan_ready f o l (proj2 (Forall_forall _ _) Hl)) as (body & Hplan & _ & _).
    destruct (until_cases fails (plan f o)) as [[Hu Hok]|(pre & x & post & He & Hu & Hok & Hx)];
      rewrite Hu in Hs, Hout; cbn in Hs, Hout; subst out; rewrite Hs.
    + split; [rewrite Hplan; set_solver|]. rewrite !Forall_app. rewrite !Forall_forall. rewrite Forall_forall in Hok.
      split; [|split]; intros y Hy Hf; [apply Htr; set_solver| |apply Htr; set_solver]. apply Hok in Hy. congruence.
    + exists (l ++ pre), x. rewrite app_nil_r, app_assoc. split; [done|]. split; [done|].
      split; [apply Hp; rewrite He; set_solver|]. rewrite Forall_app, !Forall_forall. rewrite Forall_forall in Hok.
      split; intros y Hy Hf; [apply Htr; set_solver|]. apply Hok in Hy. congruence.
Qed.

(** ** Executions *)

Definition sample_flags : Flags :=
  mkFlags ":8443" ":8081" true true true "/certs/webhook" "tls.crt" "tls.key" "/certs/metrics" "tls.crt" "tls.key" false "" "".
Definition sample_env (k : string) : string := if decide (k = "WATCH_NAMESPACES") then "team-a, team-b,," else "".
(** A growth that doubles. *)
Definition doubling (cap need : nat) : nat := max need (2 * cap).

(** An [append] without room to spare, as Go's is for one element: each its own certificate. *)
Lemma operator_starts_configured_witness : shared doubling sample_flags = false ∧
  ∃ p, operator (λ _, false) doubling sample_flags sample_env = (p, Some tt) ∧ Start ∈ pc_steps p ∧
    ∀ o, NewManager o ∈ pc_steps p → configured doubling sample_flags sample_env (pc_arrays p) o.
Proof.
  split; [reflexivity|].
  destruct (operator_starts_configured (λ _, false) doubling sample_flags sample_env)
    as (p & out & Hrun & Ho & _ & _ & Hout).
  assert (snd (operator (λ _, false) doubling sample_flags sample_env) = Some tt) as Hsome by (vm_compute; reflexivity).
  rewrite Hrun in Hsome. cbn in Hsome. subst out. exists p. split; [exact Hrun|]. split; [apply Hout|exact Ho].
Defined.

Definition manager_of (l : list Step) : option ManagerOptions :=
  head (omap (λ s, match s with NewManager o => Some o | _ => None end) l).

(** Both appends go to the slice of the common options.  An [append] that
    gave a new array room for more than it needs, as the language allows, would
    have the second overwrite the first: the webhook server would present the
    certificate of the metrics. *)
Example roomy_append_shares :
  let p := fst (operator (λ _, false) (λ _ n, 2 * n) sample_flags sample_env) in
  (o ← manager_of (pc_steps p); s ← mo_WebhookServer o; Some (tls_of (pc_arrays p) s)) =
  Some (mkTLS ["http/1.1"] (Some (metrics_watcher sample_flags))).
Proof. vm_compute. reflexivity. Qed.

(** An exporter that cannot be set up is "continuing without" tracing, with a nil tracer,
    on which every reconcile of an AgentRun starts its first span. *)
Example tracing_failure_leaves_nil :
  let fails s := match s with NewExporter _ => true | _ => false end in
  let env k := if decide (k = "OTEL_EXPORTER_OTLP_ENDPOINT") then "http://collector:4317" else "" in
  let '(p, out) := operator fails doubling default_flags env in
  out = Some tt ∧ pc_Tracer p = false.
Proof. split; reflexivity. Qed.
