(* ===== verification/GoMemory.v ===== *)
(** * Go variables, pointers, slices and maps in memory

    The reconcilers are modelled over immutable values.  In Go those values
    are graphs: a struct holds pointers, slices and maps, and an assignment
    copies only the struct itself.  This file models that memory, what a
    variable of a type denotes in it, and the statements a copying method is
    made of, so that a deep copy can be shown to denote the same value in memory
    of its own. *)

From S2P Require Import Prelude.

Open Scope string_scope.
Open Scope list_scope.

(** ** Memory *)

Abbreviation loc := positive.

Inductive kind := KString | KBool | KNumber.
Inductive basic := BString (s : string) | BBool (b : bool) | BNumber (z : Z).
Definition kind_of (b : basic) : kind :=
  match b with BString _ => KString | BBool _ => KBool | BNumber _ => KNumber end.
#[export] Instance kind_eq_dec : EqDecision kind.
Proof. solve_decision. Defined.

(** What a variable holds.  A slice is an array, an offset and a length. *)
Inductive value :=
| VBasic (b : basic)
| VPtr (p : option loc)
| VSlice (s : option (loc * nat * nat))
| VMap (m : option loc)
| VStruct (fs : list (string * value)).

(** What is behind an address: a variable, an array or the entries of a map. *)
Inductive cell := CVar (v : value) | CArray (vs : list value) | CMap (m : gmap string value).
Abbreviation Heap := (gmap loc cell).

(** ** Types, and what a variable denotes *)

Inductive ty :=
| TBasic (k : kind)
| TPtr (t : ty)
| TSlice (t : ty)
| TMap (t : ty)
| TStruct (fs : list (string * ty)).

(** The immutable value behind the addresses. *)
Inductive tree :=
| LBasic (b : basic)
| LNil
| LPtr (x : tree)
| LSlice (xs : list tree)
| LMap (m : gmap string tree)
| LStruct (fs : list (string * tree)).

Definition traverse {A B} (f : A → option B) (m : gmap string A) : option (gmap string B) :=
  let m' := omap f m in if decide (dom m' = dom m) then Some m' else None.

Definition elements_of (h : Heap) (s : loc * nat * nat) : option (list value) :=
  let '(a, off, len) := s in
  match h !! a with
  | Some (CArray vs) => if decide (off + len ≤ length vs)%nat then Some (take len (drop off vs)) else None
  | _ => None
  end.

Fixpoint read (t : ty) (h : Heap) (v : value) {struct t} : option tree :=
  match t, v with
  | TBasic k, VBasic b => if decide (kind_of b = k) then Some (LBasic b) else None
  | TPtr _, VPtr None | TSlice _, VSlice None | TMap _, VMap None => Some LNil
  | TPtr t, VPtr (Some l) =>
      match h !! l with Some (CVar w) => LPtr <$> read t h w | _ => None end
  | TSlice t, VSlice (Some s) => vs ← elements_of h s; LSlice <$> mapM (read t h) vs
  | TMap t, VMap (Some l) =>
      match h !! l with Some (CMap m) => LMap <$> traverse (read t h) m | _ => None end
  | TStruct fs, VStruct vs =>
      LStruct <$>
        (fix fields fs vs :=
           match fs, vs with
           | [], [] => Some []
           | (n, t) :: fs', (m, w) :: vs' =>
               if decide (n = m) then x ← read t h w; xs ← fields fs' vs'; Some ((n, x) :: xs) else None
           | _, _ => None
           end) fs vs
  | _, _ => None
  end.

(** The fields of a struct, by the reading of each. *)
Fixpoint read_fields (h : Heap) (fs : list (string * ty)) (vs : list (string * value)) :
  option (list (string * tree)) :=
  match fs, vs with
  | [], [] => Some []
  | (n, t) :: fs', (m, w) :: vs' =>
      if decide (n = m) then x ← read t h w; xs ← read_fields h fs' vs'; Some ((n, x) :: xs) else None
  | _, _ => None
  end.

(** Nothing of the value is behind an address. *)
Fixpoint flat (t : ty) : bool :=
  match t with
  | TBasic _ => true
  | TStruct fs => (fix all fs := match fs with [] => true | (_, t) :: fs' => flat t && all fs' end) fs
  | _ => false
  end.

(** ** The statements of a copying method

    A copier runs on what the receiver holds and gives what [*out] holds
    afterwards, with the memory it allocated; [None] is a panic. *)

Definition copier := Heap → value → option (value * Heap).

Definition alloc (c : cell) (h : Heap) : loc * Heap := let l := fresh (dom h) in (l, <[l := c]> h).

Arguments alloc : simpl never.

(** [*out = *in] *)
Definition assign : copier := λ h v, Some (v, h).

(** [if in.F != nil { *out = new(T); <f> }] *)
Definition new (f : copier) : copier := λ h v,
  match v with
  | VPtr None => Some (v, h)
  | VPtr (Some l) =>
      match h !! l with
      | Some (CVar w) => '(w', h1) ← f h w; let '(l', h2) := alloc (CVar w') h1 in Some (VPtr (Some l'), h2)
      | _ => None
      end
  | _ => None
  end.

(** [if in.F != nil { *out = ( *in).DeepCopy() }] *)
Definition call_DeepCopy (DeepCopy : copier) : copier := λ h v,
  match v with VPtr None => Some (v, h) | _ => DeepCopy h v end.

(** [for i := range *in { <f> }], element by element *)
Fixpoint each (f : copier) (h : Heap) (vs : list value) : option (list value * Heap) :=
  match vs with
  | [] => Some ([], h)
  | v :: vs' => '(v', h1) ← f h v; '(ws, h2) ← each f h1 vs'; Some (v' :: ws, h2)
  end.

(** [if in.F != nil { *out = make([]T, len( *in)); <f for each> }] *)
Definition make_slice (f : copier) : copier := λ h v,
  match v with
  | VSlice None => Some (v, h)
  | VSlice (Some s) =>
      vs ← elements_of h s; '(ws, h1) ← each f h vs;
      let '(a, h2) := alloc (CArray ws) h1 in Some (VSlice (Some (a, 0, length ws)), h2)
  | _ => None
  end.

(** [if in.F != nil { *out = make(map[string]T, len( *in)); for key, val := range *in { ( *out)[key] = val } }] *)
Definition make_map : copier := λ h v,
  match v with
  | VMap None => Some (v, h)
  | VMap (Some l) =>
      match h !! l with
      | Some (CMap m) => let '(l', h1) := alloc (CMap m) h in Some (VMap (Some l'), h1)
      | _ => None
      end
  | _ => None
  end.

Fixpoint field {A} (n : string) (fs : list (string * A)) : option A :=
  match fs with
  | [] => None
  | (m, x) :: fs' => if decide (m = n) then Some x else field n fs'
  end.
Fixpoint set_field (n : string) (v : value) (fs : list (string * value)) : list (string * value) :=
  match fs with
  | [] => []
  | (m, w) :: fs' => (if decide (m = n) then (m, v) else (m, w)) :: set_field n v fs'
  end.

Fixpoint steps (ss : list (string * copier)) (h : Heap) (vs out : list (string * value)) :
  option (list (string * value) * Heap) :=
  match ss with
  | [] => Some (out, h)
  | (n, f) :: ss' => w ← field n vs; '(w', h1) ← f h w; steps ss' h1 vs (set_field n w' out)
  end.

(** [*out = *in] for the struct, then its fields that need more, in order. *)
Definition into (ss : list (string * copier)) : copier := λ h v,
  match v with
  | VStruct vs => '(out, h1) ← steps ss h vs vs; Some (VStruct out, h1)
  | _ => None
  end.

(** The generated [DeepCopy] (nil for nil, otherwise [new] and [DeepCopyInto]) and
    [DeepCopyObject] (the nil interface for nil). *)
Definition DeepCopy (DeepCopyInto : copier) : copier := new DeepCopyInto.
Definition DeepCopyObject (DeepCopy : copier) (h : Heap) (v : value) : option (option value * Heap) :=
  '(c, h1) ← DeepCopy h v;
  match c with VPtr None => Some (None, h1) | _ => Some (Some c, h1) end.

(** [f] copies the variables of type [t]: it does not panic, leaves the memory
    there was as it is, and the copy denotes the same value in new memory alone. *)
Definition copies (t : ty) (f : copier) : Prop :=
  ∀ h v x, read t h v = Some x →
  ∃ v' hn, f h v = Some (v', h ∪ hn) ∧ h ##ₘ hn ∧ read t hn v' = Some x.

(** ** Reading *)

Lemma ty_ind' (P : ty → Prop) :
  (∀ k, P (TBasic k)) → (∀ t, P t → P (TPtr t)) → (∀ t, P t → P (TSlice t)) → (∀ t, P t → P (TMap t)) →
  (∀ fs, Forall (λ nt, P (snd nt)) fs → P (TStruct fs)) → ∀ t, P t.
Proof.
  intros Hb Hp Hs Hm Hf. fix IH 1. intros [k|t|t|t|fs]; [apply Hb|apply Hp, IH|apply Hs, IH|apply Hm, IH|].
  apply Hf. induction fs as [|[n t] fs IHfs]; constructor; [apply IH|exact IHfs].
Qed.

Lemma read_struct fs h vs : read (TStruct fs) h (VStruct vs) = LStruct <$> read_fields h fs vs.
Proof.
  cbn. f_equal. revert vs. induction fs as [|[n t] fs IH]; intros [|[m w] vs]; cbn; try done.
  case_decide; [|done]. destruct (read t h w); [|done]. cbn. by rewrite IH.
Qed.

Lemma flat_struct fs : flat (TStruct fs) = forallb (λ nt, flat (snd nt)) fs.
Proof. cbn. induction fs as [|[n t] fs IH]; [done|]. cbn. by rewrite IH. Qed.

Lemma traverse_Some {A B} (f : A → option B) (m : gmap string A) m' :
  traverse f m = Some m' ↔ ∀ k, m' !! k = m !! k ≫= f ∧ (is_Some (m !! k) → is_Some (m' !! k)).
Proof.
  unfold traverse. case_decide as Hd; split.
  - intros [= <-] k. split; [apply lookup_omap|]. intros Hk. apply elem_of_dom. rewrite Hd. by apply elem_of_dom.
  - intros Hm. f_equal. apply map_eq. intros k. destruct (Hm k) as [-> _]. apply lookup_omap.
  - done.
  - intros Hm. destruct Hd. apply set_eq. intros k. rewrite !elem_of_dom, lookup_omap. destruct (Hm k) as [Hk Hs].
    rewrite Hk in Hs. destruct (m !! k); [|naive_solver]. split; naive_solver.
Qed.

Lemma traverse_mono {A B} (f g : A → option B) m m' :
  (∀ x y, f x = Some y → g x = Some y) → traverse f m = Some m' → traverse g m = Some m'.
Proof.
  rewrite !traverse_Some. intros Hfg Hf k. destruct (Hf k) as [Hk Hs]. split; [|done]. rewrite Hk.
  destruct (m !! k) as [x|] eqn:E; [|done]. cbn in *. destruct (Hs ltac:(by eexists)) as [y Hy].
  rewrite Hk in Hy. rewrite Hy. symmetry. by apply Hfg.
Qed.

Lemma mapM_mono {A B} (f g : A → option B) l l' :
  (∀ x y, f x = Some y → g x = Some y) → mapM f l = Some l' → mapM g l = Some l'.
Proof. intros Hfg. rewrite !mapM_Some. intros Hl. eapply Forall2_impl; [exact Hl|auto]. Qed.

Lemma elements_of_mono h h' s vs : h ⊆ h' → elements_of h s = Some vs → elements_of h' s = Some vs.
Proof.
  destruct s as [[a off] len]. cbn. intros Hh. destruct (h !! a) as [c|] eqn:E; [|done].
  by rewrite (lookup_weaken _ _ _ _ E Hh).
Qed.

Lemma read_mono t h h' v x : h ⊆ h' → read t h v = Some x → read t h' v = Some x.
Proof.
  intros Hh. revert v x. induction t as [k|t IH|t IH|t IH|fs IH] using ty_ind'; intros v x.
  - done.
  - destruct v as [|[l|]| | |]; try done. cbn. destruct (h !! l) as [[w| |]|] eqn:E; try done.
    rewrite (lookup_weaken _ _ _ _ E Hh), !fmap_Some. naive_solver.
  - destruct v as [| |[s|]| |]; try done. cbn. rewrite !bind_Some. intros (vs & Hvs & Hx).
    exists vs. split; [by eapply elements_of_mono|]. revert Hx. rewrite !fmap_Some. intros (xs & Hxs & ->).
    exists xs. split; [|done]. eapply mapM_mono; [|exact Hxs]. apply IH.
  - destruct v as [| | |[l|]|]; try done. cbn. destruct (h !! l) as [[| |m]|] eqn:E; try done.
    rewrite (lookup_weaken _ _ _ _ E Hh), !fmap_Some. intros (m' & Hm' & ->).
    exists m'. split; [|done]. eapply traverse_mono; [|exact Hm']. apply IH.
  - destruct v as [| | | |vs]; try done. rewrite !read_struct, !fmap_Some. intros (xs & Hxs & ->).
    exists xs. split; [|done]. revert vs xs Hxs. induction IH as [|[n t] fs Ht _ IHfs]; intros [|[m w] vs] xs; try done.
    cbn. case_decide; [|done]. rewrite !bind_Some. intros (y & Hy & (ys & Hys & [= <-])%bind_Some).
    exists y. split; [by apply Ht|]. apply bind_Some. exists ys. split; [by apply IHfs|done].
Qed.

Lemma read_flat t h h' v : flat t = true → read t h v = read t h' v.
Proof.
  revert v. induction t as [k|t IH|t IH|t IH|fs IH] using ty_ind'; intros v Hf; try done.
  rewrite flat_struct in Hf. destruct v as [| | | |vs]; try done. rewrite !read_struct. f_equal. revert vs Hf.
  induction IH as [|[n t] fs Ht _ IHfs]; intros [|[m w] vs] Hf; try done.
  cbn in *. apply andb_true_iff in Hf as [Hft Hfs]. case_decide; [|done]. by rewrite Ht, IHfs.
Qed.

(** ** Copiers *)

Lemma alloc_spec c h l h' : alloc c h = (l, h') → h !! l = None ∧ h' = <[l := c]> h.
Proof. intros [= <- <-]. split; [|done]. apply not_elem_of_dom, is_fresh. Qed.

(** A cell allocated on top of new memory is new. *)
Lemma alloc_new c (h hn : Heap) l h' : alloc c (h ∪ hn) = (l, h') → h ##ₘ hn →
  h' = h ∪ <[l := c]> hn ∧ h ##ₘ <[l := c]> hn ∧ hn ⊆ <[l := c]> hn.
Proof.
  intros Ha Hd. apply alloc_spec in Ha as [Hl ->]. apply lookup_union_None in Hl as [Hl Hln].
  split; [by apply insert_union_r|]. split; [by apply map_disjoint_insert_r_2|by apply insert_subseteq].
Qed.

Lemma copies_assign t : flat t = true → copies t assign.
Proof.
  intros Hf h v x Hx. exists v, ∅. rewrite map_union_empty. split; [done|]. split; [apply map_disjoint_empty_r|].
  by rewrite <- (read_flat t h).
Qed.

Lemma copies_new t f : copies t f → copies (TPtr t) (new f).
Proof.
  intros Hf h v x Hx. destruct v as [|[l|]| | |]; try done; cbn in Hx |- *.
  - destruct (h !! l) as [[w| |]|] eqn:E; try done. apply fmap_Some in Hx as (y & Hy & ->).
    destruct (Hf h w y Hy) as (w' & hn & -> & Hd & Hr). cbn [mbind option_bind].
    destruct (alloc _ _) as [l' h'] eqn:Ha. destruct (alloc_new _ _ _ _ _ Ha Hd) as (-> & Hd' & Hsub).
    eexists _, _. split; [done|]. split; [done|]. cbn. rewrite lookup_insert_eq, (read_mono _ _ _ _ _ Hsub Hr). done.
  - exists (VPtr None), ∅. rewrite map_union_empty. split; [done|]. split; [apply map_disjoint_empty_r|done].
Qed.

Lemma copies_call t f : copies (TPtr t) f → copies (TPtr t) (call_DeepCopy f).
Proof.
  intros Hf h v x Hx. destruct v as [|[l|]| | |]; try done; [by apply Hf|].
  exists (VPtr None), ∅. rewrite map_union_empty. split; [done|]. split; [apply map_disjoint_empty_r|done].
Qed.

Lemma each_copies t f : copies t f → ∀ vs h hn xs, h ##ₘ hn → mapM (read t h) vs = Some xs →
  ∃ ws hn', each f (h ∪ hn) vs = Some (ws, h ∪ hn') ∧ h ##ₘ hn' ∧ hn ⊆ hn' ∧ mapM (read t hn') ws = Some xs.
Proof.
  intros Hf. induction vs as [|v vs IH]; intros h hn xs Hd Hxs.
  - exists [], hn. injection Hxs as <-. done.
  - cbn in Hxs. apply bind_Some in Hxs as (x & Hx & (xs' & Hxs & [= <-])%bind_Some).
    pose proof (map_union_subseteq_l h hn) as Hsub.
    destruct (Hf _ _ _ (read_mono _ _ _ _ _ Hsub Hx)) as (v' & h1 & Hv & Hd1 & Hr).
    apply map_disjoint_union_l in Hd1 as [Hd1 Hd2]. rewrite <- map_union_assoc in Hv.
    destruct (IH h (hn ∪ h1) xs') as (ws & h2 & Hw & Hd3 & Hs2 & Hrs);
      [by apply map_disjoint_union_r|done|].
    exists (v' :: ws), h2. cbn. rewrite Hv. cbn. rewrite Hw. cbn. split; [done|]. split; [done|].
    split; [etrans; [|exact Hs2]; apply map_union_subseteq_l|].
    rewrite (read_mono t h1 h2 v' x); [|etrans; [|exact Hs2]; by apply map_union_subseteq_r|done].
    cbn. by rewrite Hrs.
Qed.

Lemma copies_slice t f : copies t f → copies (TSlice t) (make_slice f).
Proof.
  intros Hf h v x Hx. destruct v as [| |[s|]| |]; try done; cbn in Hx |- *.
  - apply bind_Some in Hx as (vs & Hvs & (xs & Hxs & ->)%fmap_Some). rewrite Hvs. cbn [mbind option_bind].
    destruct (each_copies _ _ Hf vs h ∅ xs) as (ws & hn & Hw & Hd & _ & Hr); [apply map_disjoint_empty_r|done|].
    rewrite map_union_empty in Hw. rewrite Hw. cbn [mbind option_bind].
    destruct (alloc _ _) as [a h'] eqn:Ha. destruct (alloc_new _ _ _ _ _ Ha Hd) as (-> & Hd' & Hsub).
    eexists _, _. split; [done|]. split; [done|]. cbn. rewrite lookup_insert_eq, decide_True by lia.
    rewrite drop_0, firstn_all. cbn [mbind option_bind].
    rewrite (mapM_mono (read t hn) _ ws xs); [done| |done]. intros y z. by apply read_mono.
  - exists (VSlice None), ∅. rewrite map_union_empty. split; [done|]. split; [apply map_disjoint_empty_r|done].
Qed.

Lemma copies_map t : flat t = true → copies (TMap t) make_map.
Proof.
  intros Hf h v x Hx. destruct v as [| | |[l|]|]; try done; cbn in Hx |- *.
  - destruct (h !! l) as [[| |m]|] eqn:E; try done. apply fmap_Some in Hx as (m' & Hm & ->).
    destruct (alloc _ _) as [l' h'] eqn:Ha. rewrite <- (map_union_empty h) in Ha.
    destruct (alloc_new _ _ _ _ _ Ha (map_disjoint_empty_r _)) as (-> & Hd' & _).
    eexists _, _. split; [done|]. split; [done|]. cbn. rewrite lookup_insert_eq.
    erewrite traverse_mono; [done| |exact Hm]. intros y z. by erewrite read_flat.
  - exists (VMap None), ∅. rewrite map_union_empty. split; [done|]. split; [apply map_disjoint_empty_r|done].
Qed.

(** ** Copying structs

    Field by field: its type, the receiver's, the copy's and what both denote. *)

Inductive rows (P : string → ty → value → value → tree → Prop) :
  list (string * ty) → list (string * value) → list (string * value) → list (string * tree) → Prop :=
| rows_nil : rows P [] [] [] []
| rows_cons n t w o y fs vs out ys : P n t w o y → rows P fs vs out ys →
    rows P ((n, t) :: fs) ((n, w) :: vs) ((n, o) :: out) ((n, y) :: ys).

Lemma rows_read h fs vs xs : read_fields h fs vs = Some xs →
  rows (λ _ t w o y, o = w ∧ read t h w = Some y) fs vs vs xs.
Proof.
  revert vs xs. induction fs as [|[n t] fs IH]; intros [|[m w] vs] xs; cbn; try done; [intros [= <-]; constructor|].
  case_decide; [subst m|done]. intros (y & Hy & (ys & Hys & [= <-])%bind_Some)%bind_Some. constructor; auto.
Qed.

Lemma read_rows P h fs vs out xs : (∀ n t w o y, P n t w o y → read t h o = Some y) →
  rows P fs vs out xs → read_fields h fs out = Some xs.
Proof.
  intros HP. induction 1 as [|n t w o y fs vs out ys Hy _ IH]; [done|]. cbn.
  rewrite decide_True by done. rewrite (HP _ _ _ _ _ Hy). cbn. by rewrite IH.
Qed.

Lemma rows_impl P P' fs vs out xs : (∀ n t w o y, n ∈ fs.*1 → P n t w o y → P' n t w o y) →
  rows P fs vs out xs → rows P' fs vs out xs.
Proof.
  intros HP. induction 1 as [|n t w o y fs vs out ys Hy _ IH]; constructor.
  - apply HP; [left|done].
  - apply IH. intros. apply HP; [by right|done].
Qed.

Lemma rows_named P fs vs out xs : NoDup fs.*1 → rows P fs vs out xs →
  rows (λ n t w o y, P n t w o y ∧ field n fs = Some t ∧ field n vs = Some w) fs vs out xs.
Proof.
  intros Hnd. induction 1 as [|n t w o y fs vs out ys Hy _ IH]; constructor; cbn.
  - by rewrite !decide_True by done.
  - apply NoDup_cons in Hnd as [Hn Hnd]. eapply rows_impl; [|by apply IH].
    cbn. intros m t' w' o' y' Hm HP. rewrite !decide_False by (by intros ->). exact HP.
Qed.

Lemma rows_field P fs vs out xs n t : rows P fs vs out xs → field n fs = Some t →
  ∃ w o y, field n vs = Some w ∧ P n t w o y.
Proof.
  induction 1 as [|m t' w o y fs vs out ys Hy _ IH]; [done|]. cbn.
  case_decide as Hm; [|exact IH]. intros [= ->]. subst m. eauto.
Qed.

Lemma rows_set P P' fs vs out xs n v : (∀ t w o y, P n t w o y → P' n t w v y) →
  (∀ m t w o y, m ≠ n → P m t w o y → P' m t w o y) →
  rows P fs vs out xs → rows P' fs vs (set_field n v out) xs.
Proof.
  intros Hn Hm. induction 1 as [|m t w o y fs vs out ys Hy _ IH]; [constructor|]. cbn.
  case_decide; [subst m|]; constructor; eauto.
Qed.

Section Struct.
Context (fs : list (string * ty)) (h : Heap) (vs : list (string * value)).

(** The fields set so far read from the new memory [hn], the others are the receiver's. *)
Definition set_so_far (done : list string) (hn : Heap) : string → ty → value → value → tree → Prop :=
  λ n t w o y, (read t h w = Some y ∧ field n fs = Some t ∧ field n vs = Some w)
             ∧ if decide (n ∈ done) then read t hn o = Some y else o = w.

Lemma steps_copy xs ss : Forall (λ nf, ∃ t, field (fst nf) fs = Some t ∧ copies t (snd nf)) ss →
  ∀ done hn out, h ##ₘ hn → rows (set_so_far done hn) fs vs out xs →
  ∃ out' hn', steps ss (h ∪ hn) vs out = Some (out', h ∪ hn') ∧ h ##ₘ hn' ∧
              rows (set_so_far (rev_append ss.*1 done) hn') fs vs out' xs.
Proof.
  induction 1 as [|[n f] ss (t & Ht & Hf) _ IH]; intros done hn out Hd Hrows; [by exists out, hn|]. cbn in *.
  destruct (rows_field _ _ _ _ _ _ _ Hrows Ht) as (w & o & y & Hw & [(Hr & _) _]).
  pose proof (map_union_subseteq_l h hn) as Hsub.
  destruct (Hf _ _ _ (read_mono _ _ _ _ _ Hsub Hr)) as (v' & h1 & Hv & Hd1 & Hr').
  apply map_disjoint_union_l in Hd1 as [Hd1 Hd2]. rewrite <- map_union_assoc in Hv.
  rewrite Hw. cbn. rewrite Hv. cbn. apply IH; [by apply map_disjoint_union_r|].
  eapply rows_set; [| |exact Hrows].
  - intros t' w' o' y' [(Hr1 & Ht1 & Hw1) _]. split; [done|]. rewrite decide_True by left.
    simplify_eq. eapply read_mono; [|exact Hr']. by apply map_union_subseteq_r.
  - intros m t' w' o' y' Hne [Hm Ho]. split; [done|]. case_decide as Hin.
    + rewrite decide_True by (by right). eapply read_mono; [|exact Ho]. apply map_union_subseteq_l.
    + rewrite decide_False; [done|]. rewrite elem_of_cons. tauto.
Qed.
End Struct.

Lemma copies_into fs ss : NoDup fs.*1 →
  Forall (λ nt, fst nt ∈ ss.*1 ∨ flat (snd nt) = true) fs →
  Forall (λ nf, ∃ t, field (fst nf) fs = Some t ∧ copies t (snd nf)) ss →
  copies (TStruct fs) (into ss).
Proof.
  intros Hnd Hcov Hss h v x Hx. destruct v as [| | | |vs]; try done.
  rewrite read_struct in Hx. apply fmap_Some in Hx as (xs & Hxs & ->).
  apply rows_read, rows_named in Hxs; [|done].
  destruct (steps_copy fs h vs xs ss Hss [] ∅ vs) as (out & hn & Hrun & Hd & Hrows).
  { apply map_disjoint_empty_r. }
  { eapply rows_impl; [|exact Hxs]. intros n t w o y _ [[-> Hr] Hn]. split; [done|].
    by rewrite decide_False by apply not_elem_of_nil. }
  rewrite map_union_empty in Hrun. exists (VStruct out), hn. unfold into. rewrite Hrun. split; [done|].
  split; [done|]. rewrite read_struct. eapply fmap_Some. exists xs. split; [|done].
  eapply read_rows; [|exact Hrows]. intros n t w o y [(Hr & Ht & _) Ho].
  case_decide as Hin; [done|]. subst o. rewrite <- Hr. apply read_flat.
  rewrite Forall_forall in Hcov. destruct (Hcov (n, t)) as [Hn|Hf]; [|destruct Hin|exact Hf].
  - clear -Ht. induction fs as [|[m t'] fs IH]; cbn in Ht; [done|].
    case_decide; [injection Ht as ->; subst; left|right; auto].
  - rewrite rev_append_rev, elem_of_app. left. rewrite list_elem_of_In, <- in_rev, <- list_elem_of_In. exact Hn.
Qed.

(** ** Independence *)

(** What a copy denotes is decided by the cells it allocated: whatever is
    written elsewhere, the original's cells included, it denotes the same. *)
Lemma copies_independent t f : copies t f → ∀ h v x, read t h v = Some x →
  ∃ v' hn, f h v = Some (v', h ∪ hn) ∧ h ##ₘ hn ∧
    (∀ h', hn ⊆ h' → read t h' v' = Some x) ∧ (∀ h', h ⊆ h' → read t h' v = Some x).
Proof.
  intros Hf h v x Hx. destruct (Hf h v x Hx) as (v' & hn & Hv & Hd & Hr). exists v', hn.
  repeat split; [done|done|..]; intros h' Hh'; by eapply read_mono.
Qed.

Lemma copies_DeepCopy t f : copies t f → copies (TPtr t) (DeepCopy f).
Proof. apply copies_new. Qed.

(** [DeepCopyObject] gives the copy as an object, and no object for nil. *)
Lemma DeepCopyObject_spec t f : copies t f → ∀ h p x, read (TPtr t) h (VPtr p) = Some x →
  ∃ c hn, DeepCopyObject (DeepCopy f) h (VPtr p) = Some (c, h ∪ hn) ∧ h ##ₘ hn ∧
    match p with
    | None => c = None
    | Some _ => ∃ v', c = Some v' ∧ read (TPtr t) hn v' = Some x
    end.
Proof.
  intros Hf h p x Hx. unfold DeepCopyObject. destruct (copies_DeepCopy _ _ Hf h _ _ Hx) as (v' & hn & Hv & Hd & Hr).
  rewrite Hv. cbn [mbind option_bind]. destruct p as [l|].
  - destruct v' as [|[l'|]| | |]; try done; [eexists _, _; eauto|].
    cbn in Hx, Hr. destruct (h !! l) as [[w| |]|]; try done. apply fmap_Some in Hx as (y & _ & ->). done.
  - injection Hv as <- _. by exists None, hn.
Qed.

(** ** Automation: a type's copier, from the copiers of its fields *)

Create HintDb copying discriminated.
#[export] Hint Constants Opaque : copying.
#[export] Hint Resolve copies_assign copies_new copies_call copies_slice copies_map copies_DeepCopy : copying.
#[export] Hint Extern 1 (flat _ = true) => reflexivity : copying.

Ltac copy_struct :=
  apply copies_into;
  [ by apply (bool_decide_unpack _); vm_compute
  | repeat (apply Forall_cons; split; [first [right; reflexivity | left; cbn; set_solver] | ]); apply Forall_nil; exact I
  | repeat (apply Forall_cons; split; [eexists; split; [reflexivity|cbn [snd]; eauto 6 with copying] | ]); apply Forall_nil; exact I ].
