(* ===== verification/DeepCopy.v ===== *)
(** * Deep copies of the API types (api/v1alpha1/zz_generated.deepcopy.go)

    The structs of the custom resources as Go lays them out in memory, the
    [DeepCopyInto], [DeepCopy] and [DeepCopyObject] method of each, statement by
    statement in the terms of GoMemory, and that every one of them gives an
    independent variable with the same contents.  The controllers rely on it:
    they change a copy, or the original after copying it, and compare the two. *)

From S2P Require Import Prelude GoMemory.

Open Scope string_scope.
Open Scope list_scope.

(** The Kubernetes types the API embeds, with their own copying methods.  What is
    assigned without one holds no pointer. *)
Class Library := {
  TypeMeta : ty; ObjectMeta : ty; ListMeta : ty; Time : ty; Duration : ty; Condition : ty;
  ResourceRequirements : ty; PodSecurityContext : ty; SecurityContext : ty;
  ObjectMeta_DeepCopyInto : copier; ListMeta_DeepCopyInto : copier; Time_DeepCopy : copier;
  Condition_DeepCopyInto : copier; ResourceRequirements_DeepCopyInto : copier;
  PodSecurityContext_DeepCopyInto : copier; SecurityContext_DeepCopyInto : copier;
  TypeMeta_flat : flat TypeMeta = true;
  Duration_flat : flat Duration = true;
  ObjectMeta_copies : copies ObjectMeta ObjectMeta_DeepCopyInto;
  ListMeta_copies : copies ListMeta ListMeta_DeepCopyInto;
  Time_copies : copies (TPtr Time) Time_DeepCopy;
  Condition_copies : copies Condition Condition_DeepCopyInto;
  ResourceRequirements_copies : copies ResourceRequirements ResourceRequirements_DeepCopyInto;
  PodSecurityContext_copies : copies PodSecurityContext PodSecurityContext_DeepCopyInto;
  SecurityContext_copies : copies SecurityContext SecurityContext_DeepCopyInto;
}.
#[export] Hint Resolve TypeMeta_flat Duration_flat ObjectMeta_copies ListMeta_copies Time_copies Condition_copies
  ResourceRequirements_copies PodSecurityContext_copies SecurityContext_copies : copying.

Section DeepCopies.
Context `{Library}.

(** ** The structs *)

Definition AnthropicCallDefaults_type : ty := TStruct [("Effort", TBasic KString);
    ("ThinkingBudgetTokens", TPtr (TBasic KNumber)); ("DisableParallelToolUse", TPtr (TBasic KBool))].
Definition OpenAICallDefaults_type : ty := TStruct [("ReasoningEffort", TBasic KString);
    ("ServiceTier", TBasic KString)].
Definition GoogleSafetySetting_type : ty := TStruct [("Category", TBasic KString);
    ("Threshold", TBasic KString)].
Definition GoogleCallDefaults_type : ty := TStruct [("ThinkingLevel", TBasic KString);
    ("ThinkingBudgetTokens", TPtr (TBasic KNumber)); ("SafetySettings", TSlice GoogleSafetySetting_type)].
Definition ProviderCallDefaults_type : ty := TStruct [("Anthropic", TPtr AnthropicCallDefaults_type);
    ("OpenAI", TPtr OpenAICallDefaults_type); ("Google", TPtr GoogleCallDefaults_type)].
Definition ProviderBinding_type : ty := TStruct [("Name", TBasic KString);
    ("Overrides", TPtr ProviderCallDefaults_type)].
Definition SecretKeyRef_type : ty := TStruct [("Name", TBasic KString); ("Key", TBasic KString)].
Definition ContextFileRef_type : ty := TStruct [("ConfigMapRef", SecretKeyRef_type)].
Definition DelegationSpec_type : ty := TStruct [("Team", TSlice (TBasic KString));
    ("MaxFanOut", TBasic KNumber)].
Definition OCIRef_type : ty := TStruct [("Ref", TBasic KString); ("Digest", TBasic KString);
    ("PullPolicy", TBasic KString); ("PullSecret", TPtr SecretKeyRef_type)].
Definition ToolEnvVar_type : ty := TStruct [("Name", TBasic KString); ("Value", TBasic KString)].
Definition ToolBinding_type : ty := TStruct [("Name", TBasic KString); ("OCI", OCIRef_type);
    ("Description", TBasic KString); ("Category", TBasic KString); ("UIHint", TBasic KString);
    ("Env", TSlice ToolEnvVar_type)].
Definition SecretEnvVar_type : ty := TStruct [("Name", TBasic KString); ("SecretRef", SecretKeyRef_type)].
Definition StorageSpec_type : ty := TStruct [("Size", TBasic KString); ("StorageClass", TBasic KString)].
Definition MemorySpec_type : ty := TStruct [("ServerRef", TBasic KString); ("Project", TBasic KString);
    ("ContextLimit", TBasic KNumber); ("AutoSummarize", TPtr (TBasic KBool));
    ("AutoSave", TPtr (TBasic KBool)); ("AutoSearch", TPtr (TBasic KBool))].
Definition IntegrationBinding_type : ty := TStruct [("Name", TBasic KString); ("ReadOnly", TBasic KBool);
    ("AutoContext", TBasic KBool)].
Definition MemorySaveRuleSpec_type : ty := TStruct [("Tool", TBasic KString);
    ("MatchOutput", TBasic KString); ("MatchArgs", TMap (TBasic KString)); ("Type", TBasic KString);
    ("Scope", TBasic KString)].
Definition ContextInjectRuleSpec_type : ty := TStruct [("Tool", TBasic KString); ("Query", TBasic KString);
    ("Limit", TBasic KNumber)].
Definition ToolHooksSpec_type : ty := TStruct [("BlockedCommands", TSlice (TBasic KString));
    ("AllowedPaths", TSlice (TBasic KString)); ("AuditTools", TSlice (TBasic KString));
    ("MemorySaveRules", TSlice MemorySaveRuleSpec_type);
    ("ContextInjectTools", TSlice ContextInjectRuleSpec_type)].
Definition ConcurrencySpec_type : ty := TStruct [("MaxRuns", TBasic KNumber); ("Policy", TBasic KString)].
Definition NetworkPolicySpec_type : ty := TStruct [("Enabled", TBasic KBool)].
Definition SecurityOverrides_type : ty := TStruct [("Pod", TPtr PodSecurityContext);
    ("Container", TPtr SecurityContext); ("AutomountServiceAccountToken", TPtr (TBasic KBool))].
Definition AgentSpec_type : ty := TStruct [("Mode", TBasic KString); ("Image", TBasic KString);
    ("ImagePullPolicy", TBasic KString); ("BuiltinTools", TSlice (TBasic KString));
    ("Temperature", TPtr (TBasic KNumber)); ("MaxOutputTokens", TPtr (TBasic KNumber));
    ("MaxSteps", TPtr (TBasic KNumber)); ("MaxTokensBudget", TPtr (TBasic KNumber));
    ("MaxRetries", TPtr (TBasic KNumber)); ("Model", TBasic KString); ("PrimaryProvider", TBasic KString);
    ("TitleModel", TBasic KString); ("ProviderRefs", TSlice ProviderBinding_type);
    ("FallbackModels", TSlice (TBasic KString)); ("SystemPrompt", TBasic KString);
    ("ContextFiles", TSlice ContextFileRef_type); ("Delegation", TPtr DelegationSpec_type);
    ("Tools", TSlice ToolBinding_type); ("PermissionTools", TSlice (TBasic KString));
    ("EnableQuestionTool", TBasic KBool); ("Env", TMap (TBasic KString));
    ("Secrets", TSlice SecretEnvVar_type); ("Storage", TPtr StorageSpec_type);
    ("Memory", TPtr MemorySpec_type); ("Integrations", TSlice IntegrationBinding_type);
    ("ToolHooks", TPtr ToolHooksSpec_type); ("Schedule", TBasic KString);
    ("SchedulePrompt", TBasic KString); ("Concurrency", TPtr ConcurrencySpec_type);
    ("Resources", TPtr ResourceRequirements); ("ServiceAccountName", TBasic KString);
    ("Timeout", TBasic KString); ("NetworkPolicy", TPtr NetworkPolicySpec_type);
    ("PodAnnotations", TMap (TBasic KString)); ("Security", TPtr SecurityOverrides_type)].
Definition AgentStatus_type : ty := TStruct [("Phase", TBasic KString); ("ServiceURL", TBasic KString);
    ("ReadyReplicas", TBasic KNumber); ("StoragePVC", TBasic KString); ("ActiveModel", TBasic KString);
    ("Conditions", TSlice Condition)].
Definition Agent_type : ty := TStruct [("TypeMeta", TypeMeta); ("ObjectMeta", ObjectMeta);
    ("Spec", AgentSpec_type); ("Status", AgentStatus_type)].
Definition AgentList_type : ty := TStruct [("TypeMeta", TypeMeta); ("ListMeta", ListMeta);
    ("Items", TSlice Agent_type)].
Definition AgentRunGitSpec_type : ty := TStruct [("IntegrationRef", TBasic KString);
    ("Branch", TBasic KString); ("BaseBranch", TBasic KString); ("Project", TBasic KString)].
Definition AgentRunOutcomeSpec_type : ty := TStruct [("Intent", TBasic KString)].
Definition AgentRunSpec_type : ty := TStruct [("AgentRef", TBasic KString); ("Prompt", TBasic KString);
    ("Source", TBasic KString); ("SourceRef", TBasic KString); ("Git", TPtr AgentRunGitSpec_type);
    ("Outcome", TPtr AgentRunOutcomeSpec_type)].
Definition AgentRunArtifact_type : ty := TStruct [("Kind", TBasic KString); ("Provider", TBasic KString);
    ("URL", TBasic KString); ("Ref", TBasic KString); ("Title", TBasic KString)].
Definition AgentRunOutcomeStatus_type : ty := TStruct [("Intent", TBasic KString);
    ("Artifacts", TSlice AgentRunArtifact_type); ("Summary", TBasic KString)].
Definition AgentRunStatus_type : ty := TStruct [("Phase", TBasic KString); ("Mode", TBasic KString);
    ("StartTime", TPtr Time); ("CompletionTime", TPtr Time); ("JobName", TBasic KString);
    ("Output", TBasic KString); ("ToolCalls", TBasic KNumber); ("TokensUsed", TBasic KNumber);
    ("Cost", TBasic KString); ("Model", TBasic KString); ("TraceID", TBasic KString);
    ("Outcome", TPtr AgentRunOutcomeStatus_type); ("Conditions", TSlice Condition)].
Definition AgentRun_type : ty := TStruct [("TypeMeta", TypeMeta); ("ObjectMeta", ObjectMeta);
    ("Spec", AgentRunSpec_type); ("Status", AgentRunStatus_type)].
Definition AgentRunList_type : ty := TStruct [("TypeMeta", TypeMeta); ("ListMeta", ListMeta);
    ("Items", TSlice AgentRun_type)].
Definition TelegramChannelConfig_type : ty := TStruct [("BotTokenSecret", SecretKeyRef_type);
    ("AllowedUsers", TSlice (TBasic KString)); ("AllowedChats", TSlice (TBasic KString))].
Definition SlackChannelConfig_type : ty := TStruct [("BotTokenSecret", SecretKeyRef_type);
    ("AllowedChannels", TSlice (TBasic KString))].
Definition DiscordChannelConfig_type : ty := TStruct [("BotTokenSecret", SecretKeyRef_type);
    ("AllowedChannels", TSlice (TBasic KString))].
Definition GitLabChannelConfig_type : ty := TStruct [("Events", TSlice (TBasic KString));
    ("Actions", TSlice (TBasic KString)); ("Labels", TSlice (TBasic KString)); ("Secret", SecretKeyRef_type)].
Definition GitLabLabelChannelConfig_type : ty := TStruct [("IntegrationRef", TBasic KString);
    ("Target", TBasic KString); ("Labels", TSlice (TBasic KString)); ("State", TBasic KString);
    ("PollInterval", TPtr Duration)].
Definition GitLabCommentChannelConfig_type : ty := TStruct [("IntegrationRef", TBasic KString);
    ("PlanningLabel", TBasic KString); ("State", TBasic KString); ("PollInterval", TPtr Duration)].
Definition GitHubChannelConfig_type : ty := TStruct [("Events", TSlice (TBasic KString));
    ("Actions", TSlice (TBasic KString)); ("Labels", TSlice (TBasic KString)); ("Secret", SecretKeyRef_type)].
Definition WebhookChannelConfig_type : ty := TStruct [("Secret", TPtr SecretKeyRef_type)].
Definition IngressTLS_type : ty := TStruct [("ClusterIssuer", TBasic KString); ("Issuer", TBasic KString)].
Definition WebhookIngressConfig_type : ty := TStruct [("Host", TBasic KString); ("Path", TBasic KString);
    ("IngressClassName", TBasic KString); ("TLS", TPtr IngressTLS_type)].
Definition ChannelSpec_type : ty := TStruct [("Type", TBasic KString); ("AgentRef", TBasic KString);
    ("Telegram", TPtr TelegramChannelConfig_type); ("Slack", TPtr SlackChannelConfig_type);
    ("Discord", TPtr DiscordChannelConfig_type); ("GitLab", TPtr GitLabChannelConfig_type);
    ("GitLabLabel", TPtr GitLabLabelChannelConfig_type);
    ("GitLabComment", TPtr GitLabCommentChannelConfig_type); ("GitHub", TPtr GitHubChannelConfig_type);
    ("WebhookConfig", TPtr WebhookChannelConfig_type); ("Prompt", TBasic KString);
    ("Webhook", TPtr WebhookIngressConfig_type); ("Image", TBasic KString);
    ("ImagePullPolicy", TBasic KString); ("Replicas", TPtr (TBasic KNumber));
    ("Resources", TPtr ResourceRequirements); ("Security", TPtr SecurityOverrides_type)].
Definition ChannelStatus_type : ty := TStruct [("Phase", TBasic KString); ("ServiceURL", TBasic KString);
    ("WebhookURL", TBasic KString); ("Conditions", TSlice Condition)].
Definition Channel_type : ty := TStruct [("TypeMeta", TypeMeta); ("ObjectMeta", ObjectMeta);
    ("Spec", ChannelSpec_type); ("Status", ChannelStatus_type)].
Definition ChannelList_type : ty := TStruct [("TypeMeta", TypeMeta); ("ListMeta", ListMeta);
    ("Items", TSlice Channel_type)].
Definition DocumentationResourceConfig_type : ty := TStruct [("URLs", TSlice (TBasic KString));
    ("ConfigMapRef", TPtr SecretKeyRef_type)].
Definition GitHubOrgResourceConfig_type : ty := TStruct [("Org", TBasic KString);
    ("RepoFilter", TSlice (TBasic KString)); ("APIURL", TBasic KString)].
Definition GitHubResourceConfig_type : ty := TStruct [("Owner", TBasic KString); ("Repo", TBasic KString);
    ("DefaultBranch", TBasic KString); ("APIURL", TBasic KString)].
Definition GitLabGroupResourceConfig_type : ty := TStruct [("BaseURL", TBasic KString);
    ("Group", TBasic KString); ("Projects", TSlice (TBasic KString)); ("ReadOnly", TBasic KBool)].
Definition GitLabResourceConfig_type : ty := TStruct [("BaseURL", TBasic KString);
    ("Project", TBasic KString); ("DefaultBranch", TBasic KString)].
Definition GitResourceConfig_type : ty := TStruct [("URL", TBasic KString); ("Branch", TBasic KString);
    ("SSHKeySecret", TPtr SecretKeyRef_type)].
Definition S3ResourceConfig_type : ty := TStruct [("Bucket", TBasic KString); ("Region", TBasic KString);
    ("Endpoint", TBasic KString); ("Prefix", TBasic KString)].
Definition IntegrationTriggerGit_type : ty := TStruct [("Branch", TBasic KString);
    ("BaseBranch", TBasic KString)].
Definition IntegrationTrigger_type : ty := TStruct [("On", TBasic KString);
    ("Actions", TSlice (TBasic KString)); ("Labels", TSlice (TBasic KString)); ("AgentRef", TBasic KString);
    ("Prompt", TBasic KString); ("Git", TPtr IntegrationTriggerGit_type)].
Definition IntegrationSpec_type : ty := TStruct [("Kind", TBasic KString); ("DisplayName", TBasic KString);
    ("Description", TBasic KString); ("Credentials", TPtr SecretKeyRef_type);
    ("GitHub", TPtr GitHubResourceConfig_type); ("GitHubOrg", TPtr GitHubOrgResourceConfig_type);
    ("GitLab", TPtr GitLabResourceConfig_type); ("GitLabGroup", TPtr GitLabGroupResourceConfig_type);
    ("Git", TPtr GitResourceConfig_type); ("S3", TPtr S3ResourceConfig_type);
    ("Documentation", TPtr DocumentationResourceConfig_type); ("Triggers", TSlice IntegrationTrigger_type)].
Definition IntegrationStatus_type : ty := TStruct [("Phase", TBasic KString);
    ("Conditions", TSlice Condition)].
Definition Integration_type : ty := TStruct [("TypeMeta", TypeMeta); ("ObjectMeta", ObjectMeta);
    ("Spec", IntegrationSpec_type); ("Status", IntegrationStatus_type)].
Definition IntegrationList_type : ty := TStruct [("TypeMeta", TypeMeta); ("ListMeta", ListMeta);
    ("Items", TSlice Integration_type)].
Definition OAuth2ClientCredentials_type : ty := TStruct [("TokenURL", TBasic KString);
    ("ClientIDSecret", SecretKeyRef_type); ("ClientSecretSecret", SecretKeyRef_type);
    ("Scope", TBasic KString); ("Audience", TBasic KString)].
Definition ProviderEndpoint_type : ty := TStruct [("BaseURL", TBasic KString);
    ("Headers", TMap (TBasic KString)); ("OAuth2ClientCredentials", TPtr OAuth2ClientCredentials_type)].
Definition VertexConfig_type : ty := TStruct [("Project", TBasic KString); ("Location", TBasic KString)].
Definition ProviderConfig_type : ty := TStruct [("Organization", TBasic KString);
    ("Project", TBasic KString); ("UseResponsesAPI", TBasic KBool); ("AzureAPIVersion", TBasic KString);
    ("Vertex", TPtr VertexConfig_type); ("Bedrock", TBasic KBool)].
Definition ProviderSpec_type : ty := TStruct [("Type", TBasic KString);
    ("ApiKeySecret", TPtr SecretKeyRef_type); ("Endpoint", TPtr ProviderEndpoint_type);
    ("Config", TPtr ProviderConfig_type); ("Defaults", TPtr ProviderCallDefaults_type)].
Definition ProviderStatus_type : ty := TStruct [("Phase", TBasic KString); ("Message", TBasic KString);
    ("Conditions", TSlice Condition); ("BoundAgents", TBasic KNumber)].
Definition Provider_type : ty := TStruct [("TypeMeta", TypeMeta); ("ObjectMeta", ObjectMeta);
    ("Spec", ProviderSpec_type); ("Status", ProviderStatus_type)].
Definition ProviderList_type : ty := TStruct [("TypeMeta", TypeMeta); ("ListMeta", ListMeta);
    ("Items", TSlice Provider_type)].

(** ** The methods *)

Definition AnthropicCallDefaults_DeepCopyInto : copier := into [("ThinkingBudgetTokens", new assign);
    ("DisableParallelToolUse", new assign)].
Definition AnthropicCallDefaults_DeepCopy : copier := DeepCopy AnthropicCallDefaults_DeepCopyInto.
Definition OpenAICallDefaults_DeepCopyInto : copier := into [].
Definition OpenAICallDefaults_DeepCopy : copier := DeepCopy OpenAICallDefaults_DeepCopyInto.
Definition GoogleSafetySetting_DeepCopyInto : copier := into [].
Definition GoogleSafetySetting_DeepCopy : copier := DeepCopy GoogleSafetySetting_DeepCopyInto.
Definition GoogleCallDefaults_DeepCopyInto : copier := into [("ThinkingBudgetTokens", new assign);
    ("SafetySettings", make_slice assign)].
Definition GoogleCallDefaults_DeepCopy : copier := DeepCopy GoogleCallDefaults_DeepCopyInto.
Definition ProviderCallDefaults_DeepCopyInto : copier := into [
    ("Anthropic", new AnthropicCallDefaults_DeepCopyInto); ("OpenAI", new assign);
    ("Google", new GoogleCallDefaults_DeepCopyInto)].
Definition ProviderCallDefaults_DeepCopy : copier := DeepCopy ProviderCallDefaults_DeepCopyInto.
Definition ProviderBinding_DeepCopyInto : copier := into [
    ("Overrides", new ProviderCallDefaults_DeepCopyInto)].
Definition ProviderBinding_DeepCopy : copier := DeepCopy ProviderBinding_DeepCopyInto.
Definition SecretKeyRef_DeepCopyInto : copier := into [].
Definition SecretKeyRef_DeepCopy : copier := DeepCopy SecretKeyRef_DeepCopyInto.
Definition ContextFileRef_DeepCopyInto : copier := into [("ConfigMapRef", assign)].
Definition ContextFileRef_DeepCopy : copier := DeepCopy ContextFileRef_DeepCopyInto.
Definition DelegationSpec_DeepCopyInto : copier := into [("Team", make_slice assign)].
Definition DelegationSpec_DeepCopy : copier := DeepCopy DelegationSpec_DeepCopyInto.
Definition OCIRef_DeepCopyInto : copier := into [("PullSecret", new assign)].
Definition OCIRef_DeepCopy : copier := DeepCopy OCIRef_DeepCopyInto.
Definition ToolEnvVar_DeepCopyInto : copier := into [].
Definition ToolEnvVar_DeepCopy : copier := DeepCopy ToolEnvVar_DeepCopyInto.
Definition ToolBinding_DeepCopyInto : copier := into [("OCI", OCIRef_DeepCopyInto);
    ("Env", make_slice assign)].
Definition ToolBinding_DeepCopy : copier := DeepCopy ToolBinding_DeepCopyInto.
Definition SecretEnvVar_DeepCopyInto : copier := into [("SecretRef", assign)].
Definition SecretEnvVar_DeepCopy : copier := DeepCopy SecretEnvVar_DeepCopyInto.
Definition StorageSpec_DeepCopyInto : copier := into [].
Definition StorageSpec_DeepCopy : copier := DeepCopy StorageSpec_DeepCopyInto.
Definition MemorySpec_DeepCopyInto : copier := into [("AutoSummarize", new assign);
    ("AutoSave", new assign); ("AutoSearch", new assign)].
Definition MemorySpec_DeepCopy : copier := DeepCopy MemorySpec_DeepCopyInto.
Definition IntegrationBinding_DeepCopyInto : copier := into [].
Definition IntegrationBinding_DeepCopy : copier := DeepCopy IntegrationBinding_DeepCopyInto.
Definition MemorySaveRuleSpec_DeepCopyInto : copier := into [("MatchArgs", make_map)].
Definition MemorySaveRuleSpec_DeepCopy : copier := DeepCopy MemorySaveRuleSpec_DeepCopyInto.
Definition ContextInjectRuleSpec_DeepCopyInto : copier := into [].
Definition ContextInjectRuleSpec_DeepCopy : copier := DeepCopy ContextInjectRuleSpec_DeepCopyInto.
Definition ToolHooksSpec_DeepCopyInto : copier := into [("BlockedCommands", make_slice assign);
    ("AllowedPaths", make_slice assign); ("AuditTools", make_slice assign);
    ("MemorySaveRules", make_slice MemorySaveRuleSpec_DeepCopyInto);
    ("ContextInjectTools", make_slice assign)].
Definition ToolHooksSpec_DeepCopy : copier := DeepCopy ToolHooksSpec_DeepCopyInto.
Definition ConcurrencySpec_DeepCopyInto : copier := into [].
Definition ConcurrencySpec_DeepCopy : copier := DeepCopy ConcurrencySpec_DeepCopyInto.
Definition NetworkPolicySpec_DeepCopyInto : copier := into [].
Definition NetworkPolicySpec_DeepCopy : copier := DeepCopy NetworkPolicySpec_DeepCopyInto.
Definition SecurityOverrides_DeepCopyInto : copier := into [("Pod", new PodSecurityContext_DeepCopyInto);
    ("Container", new SecurityContext_DeepCopyInto); ("AutomountServiceAccountToken", new assign)].
Definition SecurityOverrides_DeepCopy : copier := DeepCopy SecurityOverrides_DeepCopyInto.
Definition AgentSpec_DeepCopyInto : copier := into [("BuiltinTools", make_slice assign);
    ("Temperature", new assign); ("MaxOutputTokens", new assign); ("MaxSteps", new assign);
    ("MaxTokensBudget", new assign); ("MaxRetries", new assign);
    ("ProviderRefs", make_slice ProviderBinding_DeepCopyInto); ("FallbackModels", make_slice assign);
    ("ContextFiles", make_slice assign); ("Delegation", new DelegationSpec_DeepCopyInto);
    ("Tools", make_slice ToolBinding_DeepCopyInto); ("PermissionTools", make_slice assign);
    ("Env", make_map); ("Secrets", make_slice assign); ("Storage", new assign);
    ("Memory", new MemorySpec_DeepCopyInto); ("Integrations", make_slice assign);
    ("ToolHooks", new ToolHooksSpec_DeepCopyInto); ("Concurrency", new assign);
    ("Resources", new ResourceRequirements_DeepCopyInto); ("NetworkPolicy", new assign);
    ("PodAnnotations", make_map); ("Security", new SecurityOverrides_DeepCopyInto)].
Definition AgentSpec_DeepCopy : copier := DeepCopy AgentSpec_DeepCopyInto.
Definition AgentStatus_DeepCopyInto : copier := into [("Conditions", make_slice Condition_DeepCopyInto)].
Definition AgentStatus_DeepCopy : copier := DeepCopy AgentStatus_DeepCopyInto.
Definition Agent_DeepCopyInto : copier := into [("TypeMeta", assign);
    ("ObjectMeta", ObjectMeta_DeepCopyInto); ("Spec", AgentSpec_DeepCopyInto);
    ("Status", AgentStatus_DeepCopyInto)].
Definition Agent_DeepCopy : copier := DeepCopy Agent_DeepCopyInto.
Definition Agent_DeepCopyObject := DeepCopyObject Agent_DeepCopy.
Definition AgentList_DeepCopyInto : copier := into [("TypeMeta", assign);
    ("ListMeta", ListMeta_DeepCopyInto); ("Items", make_slice Agent_DeepCopyInto)].
Definition AgentList_DeepCopy : copier := DeepCopy AgentList_DeepCopyInto.
Definition AgentList_DeepCopyObject := DeepCopyObject AgentList_DeepCopy.
Definition AgentRunGitSpec_DeepCopyInto : copier := into [].
Definition AgentRunGitSpec_DeepCopy : copier := DeepCopy AgentRunGitSpec_DeepCopyInto.
Definition AgentRunOutcomeSpec_DeepCopyInto : copier := into [].
Definition AgentRunOutcomeSpec_DeepCopy : copier := DeepCopy AgentRunOutcomeSpec_DeepCopyInto.
Definition AgentRunSpec_DeepCopyInto : copier := into [("Git", new assign); ("Outcome", new assign)].
Definition AgentRunSpec_DeepCopy : copier := DeepCopy AgentRunSpec_DeepCopyInto.
Definition AgentRunArtifact_DeepCopyInto : copier := into [].
Definition AgentRunArtifact_DeepCopy : copier := DeepCopy AgentRunArtifact_DeepCopyInto.
Definition AgentRunOutcomeStatus_DeepCopyInto : copier := into [("Artifacts", make_slice assign)].
Definition AgentRunOutcomeStatus_DeepCopy : copier := DeepCopy AgentRunOutcomeStatus_DeepCopyInto.
Definition AgentRunStatus_DeepCopyInto : copier := into [("StartTime", call_DeepCopy Time_DeepCopy);
    ("CompletionTime", call_DeepCopy Time_DeepCopy); ("Outcome", new AgentRunOutcomeStatus_DeepCopyInto);
    ("Conditions", make_slice Condition_DeepCopyInto)].
Definition AgentRunStatus_DeepCopy : copier := DeepCopy AgentRunStatus_DeepCopyInto.
Definition AgentRun_DeepCopyInto : copier := into [("TypeMeta", assign);
    ("ObjectMeta", ObjectMeta_DeepCopyInto); ("Spec", AgentRunSpec_DeepCopyInto);
    ("Status", AgentRunStatus_DeepCopyInto)].
Definition AgentRun_DeepCopy : copier := DeepCopy AgentRun_DeepCopyInto.
Definition AgentRun_DeepCopyObject := DeepCopyObject AgentRun_DeepCopy.
Definition AgentRunList_DeepCopyInto : copier := into [("TypeMeta", assign);
    ("ListMeta", ListMeta_DeepCopyInto); ("Items", make_slice AgentRun_DeepCopyInto)].
Definition AgentRunList_DeepCopy : copier := DeepCopy AgentRunList_DeepCopyInto.
Definition AgentRunList_DeepCopyObject := DeepCopyObject AgentRunList_DeepCopy.
Definition TelegramChannelConfig_DeepCopyInto : copier := into [("BotTokenSecret", assign);
    ("AllowedUsers", make_slice assign); ("AllowedChats", make_slice assign)].
Definition TelegramChannelConfig_DeepCopy : copier := DeepCopy TelegramChannelConfig_DeepCopyInto.
Definition SlackChannelConfig_DeepCopyInto : copier := into [("BotTokenSecret", assign);
    ("AllowedChannels", make_slice assign)].
Definition SlackChannelConfig_DeepCopy : copier := DeepCopy SlackChannelConfig_DeepCopyInto.
Definition DiscordChannelConfig_DeepCopyInto : copier := into [("BotTokenSecret", assign);
    ("AllowedChannels", make_slice assign)].
Definition DiscordChannelConfig_DeepCopy : copier := DeepCopy DiscordChannelConfig_DeepCopyInto.
Definition GitLabChannelConfig_DeepCopyInto : copier := into [("Events", make_slice assign);
    ("Actions", make_slice assign); ("Labels", make_slice assign); ("Secret", assign)].
Definition GitLabChannelConfig_DeepCopy : copier := DeepCopy GitLabChannelConfig_DeepCopyInto.
Definition GitLabLabelChannelConfig_DeepCopyInto : copier := into [("Labels", make_slice assign);
    ("PollInterval", new assign)].
Definition GitLabLabelChannelConfig_DeepCopy : copier := DeepCopy GitLabLabelChannelConfig_DeepCopyInto.
Definition GitLabCommentChannelConfig_DeepCopyInto : copier := into [("PollInterval", new assign)].
Definition GitLabCommentChannelConfig_DeepCopy : copier := DeepCopy GitLabCommentChannelConfig_DeepCopyInto.
Definition GitHubChannelConfig_DeepCopyInto : copier := into [("Events", make_slice assign);
    ("Actions", make_slice assign); ("Labels", make_slice assign); ("Secret", assign)].
Definition GitHubChannelConfig_DeepCopy : copier := DeepCopy GitHubChannelConfig_DeepCopyInto.
Definition WebhookChannelConfig_DeepCopyInto : copier := into [("Secret", new assign)].
Definition WebhookChannelConfig_DeepCopy : copier := DeepCopy WebhookChannelConfig_DeepCopyInto.
Definition IngressTLS_DeepCopyInto : copier := into [].
Definition IngressTLS_DeepCopy : copier := DeepCopy IngressTLS_DeepCopyInto.
Definition WebhookIngressConfig_DeepCopyInto : copier := into [("TLS", new assign)].
Definition WebhookIngressConfig_DeepCopy : copier := DeepCopy WebhookIngressConfig_DeepCopyInto.
Definition ChannelSpec_DeepCopyInto : copier := into [("Telegram", new TelegramChannelConfig_DeepCopyInto);
    ("Slack", new SlackChannelConfig_DeepCopyInto); ("Discord", new DiscordChannelConfig_DeepCopyInto);
    ("GitLab", new GitLabChannelConfig_DeepCopyInto);
    ("GitLabLabel", new GitLabLabelChannelConfig_DeepCopyInto);
    ("GitLabComment", new GitLabCommentChannelConfig_DeepCopyInto);
    ("GitHub", new GitHubChannelConfig_DeepCopyInto);
    ("WebhookConfig", new WebhookChannelConfig_DeepCopyInto);
    ("Webhook", new WebhookIngressConfig_DeepCopyInto); ("Replicas", new assign);
    ("Resources", new ResourceRequirements_DeepCopyInto); ("Security", new SecurityOverrides_DeepCopyInto)].
Definition ChannelSpec_DeepCopy : copier := DeepCopy ChannelSpec_DeepCopyInto.
Definition ChannelStatus_DeepCopyInto : copier := into [("Conditions", make_slice Condition_DeepCopyInto)].
Definition ChannelStatus_DeepCopy : copier := DeepCopy ChannelStatus_DeepCopyInto.
Definition Channel_DeepCopyInto : copier := into [("TypeMeta", assign);
    ("ObjectMeta", ObjectMeta_DeepCopyInto); ("Spec", ChannelSpec_DeepCopyInto);
    ("Status", ChannelStatus_DeepCopyInto)].
Definition Channel_DeepCopy : copier := DeepCopy Channel_DeepCopyInto.
Definition Channel_DeepCopyObject := DeepCopyObject Channel_DeepCopy.
Definition ChannelList_DeepCopyInto : copier := into [("TypeMeta", assign);
    ("ListMeta", ListMeta_DeepCopyInto); ("Items", make_slice Channel_DeepCopyInto)].
Definition ChannelList_DeepCopy : copier := DeepCopy ChannelList_DeepCopyInto.
Definition ChannelList_DeepCopyObject := DeepCopyObject ChannelList_DeepCopy.
Definition DocumentationResourceConfig_DeepCopyInto : copier := into [("URLs", make_slice assign);
    ("ConfigMapRef", new assign)].
Definition DocumentationResourceConfig_DeepCopy : copier := DeepCopy DocumentationResourceConfig_DeepCopyInto.
Definition GitHubOrgResourceConfig_DeepCopyInto : copier := into [("RepoFilter", make_slice assign)].
Definition GitHubOrgResourceConfig_DeepCopy : copier := DeepCopy GitHubOrgResourceConfig_DeepCopyInto.
Definition GitHubResourceConfig_DeepCopyInto : copier := into [].
Definition GitHubResourceConfig_DeepCopy : copier := DeepCopy GitHubResourceConfig_DeepCopyInto.
Definition GitLabGroupResourceConfig_DeepCopyInto : copier := into [("Projects", make_slice assign)].
Definition GitLabGroupResourceConfig_DeepCopy : copier := DeepCopy GitLabGroupResourceConfig_DeepCopyInto.
Definition GitLabResourceConfig_DeepCopyInto : copier := into [].
Definition GitLabResourceConfig_DeepCopy : copier := DeepCopy GitLabResourceConfig_DeepCopyInto.
Definition GitResourceConfig_DeepCopyInto : copier := into [("SSHKeySecret", new assign)].
Definition GitResourceConfig_DeepCopy : copier := DeepCopy GitResourceConfig_DeepCopyInto.
Definition S3ResourceConfig_DeepCopyInto : copier := into [].
Definition S3ResourceConfig_DeepCopy : copier := DeepCopy S3ResourceConfig_DeepCopyInto.
Definition IntegrationTriggerGit_DeepCopyInto : copier := into [].
Definition IntegrationTriggerGit_DeepCopy : copier := DeepCopy IntegrationTriggerGit_DeepCopyInto.
Definition IntegrationTrigger_DeepCopyInto : copier := into [("Actions", make_slice assign);
    ("Labels", make_slice assign); ("Git", new assign)].
Definition IntegrationTrigger_DeepCopy : copier := DeepCopy IntegrationTrigger_DeepCopyInto.
Definition IntegrationSpec_DeepCopyInto : copier := into [("Credentials", new assign);
    ("GitHub", new assign); ("GitHubOrg", new GitHubOrgResourceConfig_DeepCopyInto); ("GitLab", new assign);
    ("GitLabGroup", new GitLabGroupResourceConfig_DeepCopyInto);
    ("Git", new GitResourceConfig_DeepCopyInto); ("S3", new assign);
    ("Documentation", new DocumentationResourceConfig_DeepCopyInto);
    ("Triggers", make_slice IntegrationTrigger_DeepCopyInto)].
Definition IntegrationSpec_DeepCopy : copier := DeepCopy IntegrationSpec_DeepCopyInto.
Definition IntegrationStatus_DeepCopyInto : copier := into [
    ("Conditions", make_slice Condition_DeepCopyInto)].
Definition IntegrationStatus_DeepCopy : copier := DeepCopy IntegrationStatus_DeepCopyInto.
Definition Integration_DeepCopyInto : copier := into [("TypeMeta", assign);
    ("ObjectMeta", ObjectMeta_DeepCopyInto); ("Spec", IntegrationSpec_DeepCopyInto);
    ("Status", IntegrationStatus_DeepCopyInto)].
Definition Integration_DeepCopy : copier := DeepCopy Integration_DeepCopyInto.
Definition Integration_DeepCopyObject := DeepCopyObject Integration_DeepCopy.
Definition IntegrationList_DeepCopyInto : copier := into [("TypeMeta", assign);
    ("ListMeta", ListMeta_DeepCopyInto); ("Items", make_slice Integration_DeepCopyInto)].
Definition IntegrationList_DeepCopy : copier := DeepCopy IntegrationList_DeepCopyInto.
Definition IntegrationList_DeepCopyObject := DeepCopyObject IntegrationList_DeepCopy.
Definition OAuth2ClientCredentials_DeepCopyInto : copier := into [("ClientIDSecret", assign);
    ("ClientSecretSecret", assign)].
Definition OAuth2ClientCredentials_DeepCopy : copier := DeepCopy OAuth2ClientCredentials_DeepCopyInto.
Definition ProviderEndpoint_DeepCopyInto : copier := into [("Headers", make_map);
    ("OAuth2ClientCredentials", new assign)].
Definition ProviderEndpoint_DeepCopy : copier := DeepCopy ProviderEndpoint_DeepCopyInto.
Definition VertexConfig_DeepCopyInto : copier := into [].
Definition VertexConfig_DeepCopy : copier := DeepCopy VertexConfig_DeepCopyInto.
Definition ProviderConfig_DeepCopyInto : copier := into [("Vertex", new assign)].
Definition ProviderConfig_DeepCopy : copier := DeepCopy ProviderConfig_DeepCopyInto.
Definition ProviderSpec_DeepCopyInto : copier := into [("ApiKeySecret", new assign);
    ("Endpoint", new ProviderEndpoint_DeepCopyInto); ("Config", new ProviderConfig_DeepCopyInto);
    ("Defaults", new ProviderCallDefaults_DeepCopyInto)].
Definition ProviderSpec_DeepCopy : copier := DeepCopy ProviderSpec_DeepCopyInto.
Definition ProviderStatus_DeepCopyInto : copier := into [("Conditions", make_slice Condition_DeepCopyInto)].
Definition ProviderStatus_DeepCopy : copier := DeepCopy ProviderStatus_DeepCopyInto.
Definition Provider_DeepCopyInto : copier := into [("TypeMeta", assign);
    ("ObjectMeta", ObjectMeta_DeepCopyInto); ("Spec", ProviderSpec_DeepCopyInto);
    ("Status", ProviderStatus_DeepCopyInto)].
Definition Provider_DeepCopy : copier := DeepCopy Provider_DeepCopyInto.
Definition Provider_DeepCopyObject := DeepCopyObject Provider_DeepCopy.
Definition ProviderList_DeepCopyInto : copier := into [("TypeMeta", assign);
    ("ListMeta", ListMeta_DeepCopyInto); ("Items", make_slice Provider_DeepCopyInto)].
Definition ProviderList_DeepCopy : copier := DeepCopy ProviderList_DeepCopyInto.
Definition ProviderList_DeepCopyObject := DeepCopyObject ProviderList_DeepCopy.

(** The methods of one type. *)
Record Method := mkMethod { md_type : ty; md_DeepCopyInto : copier; md_DeepCopy : copier }.

Definition methods : list Method := [
  mkMethod AnthropicCallDefaults_type AnthropicCallDefaults_DeepCopyInto AnthropicCallDefaults_DeepCopy;
  mkMethod OpenAICallDefaults_type OpenAICallDefaults_DeepCopyInto OpenAICallDefaults_DeepCopy;
  mkMethod GoogleSafetySetting_type GoogleSafetySetting_DeepCopyInto GoogleSafetySetting_DeepCopy;
  mkMethod GoogleCallDefaults_type GoogleCallDefaults_DeepCopyInto GoogleCallDefaults_DeepCopy;
  mkMethod ProviderCallDefaults_type ProviderCallDefaults_DeepCopyInto ProviderCallDefaults_DeepCopy;
  mkMethod ProviderBinding_type ProviderBinding_DeepCopyInto ProviderBinding_DeepCopy;
  mkMethod SecretKeyRef_type SecretKeyRef_DeepCopyInto SecretKeyRef_DeepCopy;
  mkMethod ContextFileRef_type ContextFileRef_DeepCopyInto ContextFileRef_DeepCopy;
  mkMethod DelegationSpec_type DelegationSpec_DeepCopyInto DelegationSpec_DeepCopy;
  mkMethod OCIRef_type OCIRef_DeepCopyInto OCIRef_DeepCopy;
  mkMethod ToolEnvVar_type ToolEnvVar_DeepCopyInto ToolEnvVar_DeepCopy;
  mkMethod ToolBinding_type ToolBinding_DeepCopyInto ToolBinding_DeepCopy;
  mkMethod SecretEnvVar_type SecretEnvVar_DeepCopyInto SecretEnvVar_DeepCopy;
  mkMethod StorageSpec_type StorageSpec_DeepCopyInto StorageSpec_DeepCopy;
  mkMethod MemorySpec_type MemorySpec_DeepCopyInto MemorySpec_DeepCopy;
  mkMethod IntegrationBinding_type IntegrationBinding_DeepCopyInto IntegrationBinding_DeepCopy;
  mkMethod MemorySaveRuleSpec_type MemorySaveRuleSpec_DeepCopyInto MemorySaveRuleSpec_DeepCopy;
  mkMethod ContextInjectRuleSpec_type ContextInjectRuleSpec_DeepCopyInto ContextInjectRuleSpec_DeepCopy;
  mkMethod ToolHooksSpec_type ToolHooksSpec_DeepCopyInto ToolHooksSpec_DeepCopy;
  mkMethod ConcurrencySpec_type ConcurrencySpec_DeepCopyInto ConcurrencySpec_DeepCopy;
  mkMethod NetworkPolicySpec_type NetworkPolicySpec_DeepCopyInto NetworkPolicySpec_DeepCopy;
  mkMethod SecurityOverrides_type SecurityOverrides_DeepCopyInto SecurityOverrides_DeepCopy;
  mkMethod AgentSpec_type AgentSpec_DeepCopyInto AgentSpec_DeepCopy;
  mkMethod AgentStatus_type AgentStatus_DeepCopyInto AgentStatus_DeepCopy;
  mkMethod Agent_type Agent_DeepCopyInto Agent_DeepCopy;
  mkMethod AgentList_type AgentList_DeepCopyInto AgentList_DeepCopy;
  mkMethod AgentRunGitSpec_type AgentRunGitSpec_DeepCopyInto AgentRunGitSpec_DeepCopy;
  mkMethod AgentRunOutcomeSpec_type AgentRunOutcomeSpec_DeepCopyInto AgentRunOutcomeSpec_DeepCopy;
  mkMethod AgentRunSpec_type AgentRunSpec_DeepCopyInto AgentRunSpec_DeepCopy;
  mkMethod AgentRunArtifact_type AgentRunArtifact_DeepCopyInto AgentRunArtifact_DeepCopy;
  mkMethod AgentRunOutcomeStatus_type AgentRunOutcomeStatus_DeepCopyInto AgentRunOutcomeStatus_DeepCopy;
  mkMethod AgentRunStatus_type AgentRunStatus_DeepCopyInto AgentRunStatus_DeepCopy;
  mkMethod AgentRun_type AgentRun_DeepCopyInto AgentRun_DeepCopy;
  mkMethod AgentRunList_type AgentRunList_DeepCopyInto AgentRunList_DeepCopy;
  mkMethod TelegramChannelConfig_type TelegramChannelConfig_DeepCopyInto TelegramChannelConfig_DeepCopy;
  mkMethod SlackChannelConfig_type SlackChannelConfig_DeepCopyInto SlackChannelConfig_DeepCopy;
  mkMethod DiscordChannelConfig_type DiscordChannelConfig_DeepCopyInto DiscordChannelConfig_DeepCopy;
  mkMethod GitLabChannelConfig_type GitLabChannelConfig_DeepCopyInto GitLabChannelConfig_DeepCopy;
  mkMethod GitLabLabelChannelConfig_type GitLabLabelChannelConfig_DeepCopyInto GitLabLabelChannelConfig_DeepCopy;
  mkMethod GitLabCommentChannelConfig_type GitLabCommentChannelConfig_DeepCopyInto GitLabCommentChannelConfig_DeepCopy;
  mkMethod GitHubChannelConfig_type GitHubChannelConfig_DeepCopyInto GitHubChannelConfig_DeepCopy;
  mkMethod WebhookChannelConfig_type WebhookChannelConfig_DeepCopyInto WebhookChannelConfig_DeepCopy;
  mkMethod IngressTLS_type IngressTLS_DeepCopyInto IngressTLS_DeepCopy;
  mkMethod WebhookIngressConfig_type WebhookIngressConfig_DeepCopyInto WebhookIngressConfig_DeepCopy;
  mkMethod ChannelSpec_type ChannelSpec_DeepCopyInto ChannelSpec_DeepCopy;
  mkMethod ChannelStatus_type ChannelStatus_DeepCopyInto ChannelStatus_DeepCopy;
  mkMethod Channel_type Channel_DeepCopyInto Channel_DeepCopy;
  mkMethod ChannelList_type ChannelList_DeepCopyInto ChannelList_DeepCopy;
  mkMethod DocumentationResourceConfig_type DocumentationResourceConfig_DeepCopyInto DocumentationResourceConfig_DeepCopy;
  mkMethod GitHubOrgResourceConfig_type GitHubOrgResourceConfig_DeepCopyInto GitHubOrgResourceConfig_DeepCopy;
  mkMethod GitHubResourceConfig_type GitHubResourceConfig_DeepCopyInto GitHubResourceConfig_DeepCopy;
  mkMethod GitLabGroupResourceConfig_type GitLabGroupResourceConfig_DeepCopyInto GitLabGroupResourceConfig_DeepCopy;
  mkMethod GitLabResourceConfig_type GitLabResourceConfig_DeepCopyInto GitLabResourceConfig_DeepCopy;
  mkMethod GitResourceConfig_type GitResourceConfig_DeepCopyInto GitResourceConfig_DeepCopy;
  mkMethod S3ResourceConfig_type S3ResourceConfig_DeepCopyInto S3ResourceConfig_DeepCopy;
  mkMethod IntegrationTriggerGit_type IntegrationTriggerGit_DeepCopyInto IntegrationTriggerGit_DeepCopy;
  mkMethod IntegrationTrigger_type IntegrationTrigger_DeepCopyInto IntegrationTrigger_DeepCopy;
  mkMethod IntegrationSpec_type IntegrationSpec_DeepCopyInto IntegrationSpec_DeepCopy;
  mkMethod IntegrationStatus_type IntegrationStatus_DeepCopyInto IntegrationStatus_DeepCopy;
  mkMethod Integration_type Integration_DeepCopyInto Integration_DeepCopy;
  mkMethod IntegrationList_type IntegrationList_DeepCopyInto IntegrationList_DeepCopy;
  mkMethod OAuth2ClientCredentials_type OAuth2ClientCredentials_DeepCopyInto OAuth2ClientCredentials_DeepCopy;
  mkMethod ProviderEndpoint_type ProviderEndpoint_DeepCopyInto ProviderEndpoint_DeepCopy;
  mkMethod VertexConfig_type VertexConfig_DeepCopyInto VertexConfig_DeepCopy;
  mkMethod ProviderConfig_type ProviderConfig_DeepCopyInto ProviderConfig_DeepCopy;
  mkMethod ProviderSpec_type ProviderSpec_DeepCopyInto ProviderSpec_DeepCopy;
  mkMethod ProviderStatus_type ProviderStatus_DeepCopyInto ProviderStatus_DeepCopy;
  mkMethod Provider_type Provider_DeepCopyInto Provider_DeepCopy;
  mkMethod ProviderList_type ProviderList_DeepCopyInto ProviderList_DeepCopy].

Definition objects : list (Method * (Heap → value → option (option value * Heap))) := [
  (mkMethod Agent_type Agent_DeepCopyInto Agent_DeepCopy, Agent_DeepCopyObject);
  (mkMethod AgentList_type AgentList_DeepCopyInto AgentList_DeepCopy, AgentList_DeepCopyObject);
  (mkMethod AgentRun_type AgentRun_DeepCopyInto AgentRun_DeepCopy, AgentRun_DeepCopyObject);
  (mkMethod AgentRunList_type AgentRunList_DeepCopyInto AgentRunList_DeepCopy, AgentRunList_DeepCopyObject);
  (mkMethod Channel_type Channel_DeepCopyInto Channel_DeepCopy, Channel_DeepCopyObject);
  (mkMethod ChannelList_type ChannelList_DeepCopyInto ChannelList_DeepCopy, ChannelList_DeepCopyObject);
  (mkMethod Integration_type Integration_DeepCopyInto Integration_DeepCopy, Integration_DeepCopyObject);
  (mkMethod IntegrationList_type IntegrationList_DeepCopyInto IntegrationList_DeepCopy, IntegrationList_DeepCopyObject);
  (mkMethod Provider_type Provider_DeepCopyInto Provider_DeepCopy, Provider_DeepCopyObject);
  (mkMethod ProviderList_type ProviderList_DeepCopyInto ProviderList_DeepCopy, ProviderList_DeepCopyObject)].

(** ** Every method is a deep copy *)

Lemma AnthropicCallDefaults_copies : copies AnthropicCallDefaults_type AnthropicCallDefaults_DeepCopyInto.
Proof. copy_struct. Qed.
#[local] Hint Resolve AnthropicCallDefaults_copies : copying.
Lemma OpenAICallDefaults_copies : copies OpenAICallDefaults_type OpenAICallDefaults_DeepCopyInto.
Proof. copy_struct. Qed.
#[local] Hint Resolve OpenAICallDefaults_copies : copying.
Lemma GoogleSafetySetting_copies : copies GoogleSafetySetting_type GoogleSafetySetting_DeepCopyInto.
Proof. copy_struct. Qed.
#[local] Hint Resolve GoogleSafetySetting_copies : copying.
Lemma GoogleCallDefaults_copies : copies GoogleCallDefaults_type GoogleCallDefaults_DeepCopyInto.
Proof. copy_struct. Qed.
#[local] Hint Resolve GoogleCallDefaults_copies : copying.
Lemma ProviderCallDefaults_copies : copies ProviderCallDefaults_type ProviderCallDefaults_DeepCopyInto.
Proof. copy_struct. Qed.
#[local] Hint Resolve ProviderCallDefaults_copies : copying.
Lemma ProviderBinding_copies : copies ProviderBinding_type ProviderBinding_DeepCopyInto.
Proof. copy_struct. Qed.
#[local] Hint Resolve ProviderBinding_copies : copying.
Lemma SecretKeyRef_copies : copies SecretKeyRef_type SecretKeyRef_DeepCopyInto.
Proof. copy_struct. Qed.
#[local] Hint Resolve SecretKeyRef_copies : copying.
Lemma ContextFileRef_copies : copies ContextFileRef_type ContextFileRef_DeepCopyInto.
Proof. copy_struct. Qed.
#[local] Hint Resolve ContextFileRef_copies : copying.
Lemma DelegationSpec_copies : copies DelegationSpec_type DelegationSpec_DeepCopyInto.
Proof. copy_struct. Qed.
#[local] Hint Resolve DelegationSpec_copies : copying.
Lemma OCIRef_copies : copies OCIRef_type OCIRef_DeepCopyInto.
Proof. copy_struct. Qed.
#[local] Hint Resolve OCIRef_copies : copying.
Lemma ToolEnvVar_copies : copies ToolEnvVar_type ToolEnvVar_DeepCopyInto.
Proof. copy_struct. Qed.
#[local] Hint Resolve ToolEnvVar_copies : copying.
Lemma ToolBinding_copies : copies ToolBinding_type ToolBinding_DeepCopyInto.
Proof. copy_struct. Qed.
#[local] Hint Resolve ToolBinding_copies : copying.
Lemma SecretEnvVar_copies : copies SecretEnvVar_type SecretEnvVar_DeepCopyInto.
Proof. copy_struct. Qed.
#[local] Hint Resolve SecretEnvVar_copies : copying.
Lemma StorageSpec_copies : copies StorageSpec_type StorageSpec_DeepCopyInto.
Proof. copy_struct. Qed.
#[local] Hint Resolve StorageSpec_copies : copying.
Lemma MemorySpec_copies : copies MemorySpec_type MemorySpec_DeepCopyInto.
Proof. copy_struct. Qed.
#[local] Hint Resolve MemorySpec_copies : copying.
Lemma IntegrationBinding_copies : copies IntegrationBinding_type IntegrationBinding_DeepCopyInto.
Proof. copy_struct. Qed.
#[local] Hint Resolve IntegrationBinding_copies : copying.
Lemma MemorySaveRuleSpec_copies : copies MemorySaveRuleSpec_type MemorySaveRuleSpec_DeepCopyInto.
Proof. copy_struct. Qed.
#[local] Hint Resolve MemorySaveRuleSpec_copies : copying.
Lemma ContextInjectRuleSpec_copies : copies ContextInjectRuleSpec_type ContextInjectRuleSpec_DeepCopyInto.
Proof. copy_struct. Qed.
#[local] Hint Resolve ContextInjectRuleSpec_copies : copying.
Lemma ToolHooksSpec_copies : copies ToolHooksSpec_type ToolHooksSpec_DeepCopyInto.
Proof. copy_struct. Qed.
#[local] Hint Resolve ToolHooksSpec_copies : copying.
Lemma ConcurrencySpec_copies : copies ConcurrencySpec_type ConcurrencySpec_DeepCopyInto.
Proof. copy_struct. Qed.
#[local] Hint Resolve ConcurrencySpec_copies : copying.
Lemma NetworkPolicySpec_copies : copies NetworkPolicySpec_type NetworkPolicySpec_DeepCopyInto.
Proof. copy_struct. Qed.
#[local] Hint Resolve NetworkPolicySpec_copies : copying.
Lemma SecurityOverrides_copies : copies SecurityOverrides_type SecurityOverrides_DeepCopyInto.
Proof. copy_struct. Qed.
#[local] Hint Resolve SecurityOverrides_copies : copying.
Lemma AgentSpec_copies : copies AgentSpec_type AgentSpec_DeepCopyInto.
Proof. copy_struct. Qed.
#[local] Hint Resolve AgentSpec_copies : copying.
Lemma AgentStatus_copies : copies AgentStatus_type AgentStatus_DeepCopyInto.
Proof. copy_struct. Qed.
#[local] Hint Resolve AgentStatus_copies : copying.
Lemma Agent_copies : copies Agent_type Agent_DeepCopyInto.
Proof. copy_struct. Qed.
#[local] Hint Resolve Agent_copies : copying.
Lemma AgentList_copies : copies AgentList_type AgentList_DeepCopyInto.
Proof. copy_struct. Qed.
#[local] Hint Resolve AgentList_copies : copying.
Lemma AgentRunGitSpec_copies : copies AgentRunGitSpec_type AgentRunGitSpec_DeepCopyInto.
Proof. copy_struct. Qed.
#[local] Hint Resolve AgentRunGitSpec_copies : copying.
Lemma AgentRunOutcomeSpec_copies : copies AgentRunOutcomeSpec_type AgentRunOutcomeSpec_DeepCopyInto.
Proof. copy_struct. Qed.
#[local] Hint Resolve AgentRunOutcomeSpec_copies : copying.
Lemma AgentRunSpec_copies : copies AgentRunSpec_type AgentRunSpec_DeepCopyInto.
Proof. copy_struct. Qed.
#[local] Hint Resolve AgentRunSpec_copies : copying.
Lemma AgentRunArtifact_copies : copies AgentRunArtifact_type AgentRunArtifact_DeepCopyInto.
Proof. copy_struct. Qed.
#[local] Hint Resolve AgentRunArtifact_copies : copying.
Lemma AgentRunOutcomeStatus_copies : copies AgentRunOutcomeStatus_type AgentRunOutcomeStatus_DeepCopyInto.
Proof. copy_struct. Qed.
#[local] Hint Resolve AgentRunOutcomeStatus_copies : copying.
Lemma AgentRunStatus_copies : copies AgentRunStatus_type AgentRunStatus_DeepCopyInto.
Proof. copy_struct. Qed.
#[local] Hint Resolve AgentRunStatus_copies : copying.
Lemma AgentRun_copies : copies AgentRun_type AgentRun_DeepCopyInto.
Proof. copy_struct. Qed.
#[local] Hint Resolve AgentRun_copies : copying.
Lemma AgentRunList_copies : copies AgentRunList_type AgentRunList_DeepCopyInto.
Proof. copy_struct. Qed.
#[local] Hint Resolve AgentRunList_copies : copying.
Lemma TelegramChannelConfig_copies : copies TelegramChannelConfig_type TelegramChannelConfig_DeepCopyInto.
Proof. copy_struct. Qed.
#[local] Hint Resolve TelegramChannelConfig_copies : copying.
Lemma SlackChannelConfig_copies : copies SlackChannelConfig_type SlackChannelConfig_DeepCopyInto.
Proof. copy_struct. Qed.
#[local] Hint Resolve SlackChannelConfig_copies : copying.
Lemma DiscordChannelConfig_copies : copies DiscordChannelConfig_type DiscordChannelConfig_DeepCopyInto.
Proof. copy_struct. Qed.
#[local] Hint Resolve DiscordChannelConfig_copies : copying.
Lemma GitLabChannelConfig_copies : copies GitLabChannelConfig_type GitLabChannelConfig_DeepCopyInto.
Proof. copy_struct. Qed.
#[local] Hint Resolve GitLabChannelConfig_copies : copying.
Lemma GitLabLabelChannelConfig_copies : copies GitLabLabelChannelConfig_type GitLabLabelChannelConfig_DeepCopyInto.
Proof. copy_struct. Qed.
#[local] Hint Resolve GitLabLabelChannelConfig_copies : copying.
Lemma GitLabCommentChannelConfig_copies : copies GitLabCommentChannelConfig_type GitLabCommentChannelConfig_DeepCopyInto.
Proof. copy_struct. Qed.
#[local] Hint Resolve GitLabCommentChannelConfig_copies : copying.
Lemma GitHubChannelConfig_copies : copies GitHubChannelConfig_type GitHubChannelConfig_DeepCopyInto.
Proof. copy_struct. Qed.
#[local] Hint Resolve GitHubChannelConfig_copies : copying.
Lemma WebhookChannelConfig_copies : copies WebhookChannelConfig_type WebhookChannelConfig_DeepCopyInto.
Proof. copy_struct. Qed.
#[local] Hint Resolve WebhookChannelConfig_copies : copying.
Lemma IngressTLS_copies : copies IngressTLS_type IngressTLS_DeepCopyInto.
Proof. copy_struct. Qed.
#[local] Hint Resolve IngressTLS_copies : copying.
Lemma WebhookIngressConfig_copies : copies WebhookIngressConfig_type WebhookIngressConfig_DeepCopyInto.
Proof. copy_struct. Qed.
#[local] Hint Resolve WebhookIngressConfig_copies : copying.
Lemma ChannelSpec_copies : copies ChannelSpec_type ChannelSpec_DeepCopyInto.
Proof. copy_struct. Qed.
#[local] Hint Resolve ChannelSpec_copies : copying.
Lemma ChannelStatus_copies : copies ChannelStatus_type ChannelStatus_DeepCopyInto.
Proof. copy_struct. Qed.
#[local] Hint Resolve ChannelStatus_copies : copying.
Lemma Channel_copies : copies Channel_type Channel_DeepCopyInto.
Proof. copy_struct. Qed.
#[local] Hint Resolve Channel_copies : copying.
Lemma ChannelList_copies : copies ChannelList_type ChannelList_DeepCopyInto.
Proof. copy_struct. Qed.
#[local] Hint Resolve ChannelList_copies : copying.
Lemma DocumentationResourceConfig_copies : copies DocumentationResourceConfig_type DocumentationResourceConfig_DeepCopyInto.
Proof. copy_struct. Qed.
#[local] Hint Resolve DocumentationResourceConfig_copies : copying.
Lemma GitHubOrgResourceConfig_copies : copies GitHubOrgResourceConfig_type GitHubOrgResourceConfig_DeepCopyInto.
Proof. copy_struct. Qed.
#[local] Hint Resolve GitHubOrgResourceConfig_copies : copying.
Lemma GitHubResourceConfig_copies : copies GitHubResourceConfig_type GitHubResourceConfig_DeepCopyInto.
Proof. copy_struct. Qed.
#[local] Hint Resolve GitHubResourceConfig_copies : copying.
Lemma GitLabGroupResourceConfig_copies : copies GitLabGroupResourceConfig_type GitLabGroupResourceConfig_DeepCopyInto.
Proof. copy_struct. Qed.
#[local] Hint Resolve GitLabGroupResourceConfig_copies : copying.
Lemma GitLabResourceConfig_copies : copies GitLabResourceConfig_type GitLabResourceConfig_DeepCopyInto.
Proof. copy_struct. Qed.
#[local] Hint Resolve GitLabResourceConfig_copies : copying.
Lemma GitResourceConfig_copies : copies GitResourceConfig_type GitResourceConfig_DeepCopyInto.
Proof. copy_struct. Qed.
#[local] Hint Resolve GitResourceConfig_copies : copying.
Lemma S3ResourceConfig_copies : copies S3ResourceConfig_type S3ResourceConfig_DeepCopyInto.
Proof. copy_struct. Qed.
#[local] Hint Resolve S3ResourceConfig_copies : copying.
Lemma IntegrationTriggerGit_copies : copies IntegrationTriggerGit_type IntegrationTriggerGit_DeepCopyInto.
Proof. copy_struct. Qed.
#[local] Hint Resolve IntegrationTriggerGit_copies : copying.
Lemma IntegrationTrigger_copies : copies IntegrationTrigger_type IntegrationTrigger_DeepCopyInto.
Proof. copy_struct. Qed.
#[local] Hint Resolve IntegrationTrigger_copies : copying.
Lemma IntegrationSpec_copies : copies IntegrationSpec_type IntegrationSpec_DeepCopyInto.
Proof. copy_struct. Qed.
#[local] Hint Resolve IntegrationSpec_copies : copying.
Lemma IntegrationStatus_copies : copies IntegrationStatus_type IntegrationStatus_DeepCopyInto.
Proof. copy_struct. Qed.
#[local] Hint Resolve IntegrationStatus_copies : copying.
Lemma Integration_copies : copies Integration_type Integration_DeepCopyInto.
Proof. copy_struct. Qed.
#[local] Hint Resolve Integration_copies : copying.
Lemma IntegrationList_copies : copies IntegrationList_type IntegrationList_DeepCopyInto.
Proof. copy_struct. Qed.
#[local] Hint Resolve IntegrationList_copies : copying.
Lemma OAuth2ClientCredentials_copies : copies OAuth2ClientCredentials_type OAuth2ClientCredentials_DeepCopyInto.
Proof. copy_struct. Qed.
#[local] Hint Resolve OAuth2ClientCredentials_copies : copying.
Lemma ProviderEndpoint_copies : copies ProviderEndpoint_type ProviderEndpoint_DeepCopyInto.
Proof. copy_struct. Qed.
#[local] Hint Resolve ProviderEndpoint_copies : copying.
Lemma VertexConfig_copies : copies VertexConfig_type VertexConfig_DeepCopyInto.
Proof. copy_struct. Qed.
#[local] Hint Resolve VertexConfig_copies : copying.
Lemma ProviderConfig_copies : copies ProviderConfig_type ProviderConfig_DeepCopyInto.
Proof. copy_struct. Qed.
#[local] Hint Resolve ProviderConfig_copies : copying.
Lemma ProviderSpec_copies : copies ProviderSpec_type ProviderSpec_DeepCopyInto.
Proof. copy_struct. Qed.
#[local] Hint Resolve ProviderSpec_copies : copying.
Lemma ProviderStatus_copies : copies ProviderStatus_type ProviderStatus_DeepCopyInto.
Proof. copy_struct. Qed.
#[local] Hint Resolve ProviderStatus_copies : copying.
Lemma Provider_copies : copies Provider_type Provider_DeepCopyInto.
Proof. copy_struct. Qed.
#[local] Hint Resolve Provider_copies : copying.
Lemma ProviderList_copies : copies ProviderList_type ProviderList_DeepCopyInto.
Proof. copy_struct. Qed.
#[local] Hint Resolve ProviderList_copies : copying.

#[local] Hint Resolve copies_independent : copying.

(** The methods of one type copy deeply. *)
Definition deep (m : Method) : Prop :=
  copies (md_type m) (md_DeepCopyInto m) ∧ md_DeepCopy m = DeepCopy (md_DeepCopyInto m).

Lemma methods_deep : Forall deep methods.
Proof. repeat (apply Forall_cons; split; [split; [cbn [md_type md_DeepCopyInto]; eauto 2 with copying|reflexivity]|]). by apply Forall_nil. Qed.

(** An object method wraps the [DeepCopy] of its type. *)
Lemma objects_deep : Forall (λ mf, deep (fst mf) ∧ snd mf = DeepCopyObject (md_DeepCopy (fst mf))) objects.
Proof.
  repeat (apply Forall_cons; split; [split; [split; [cbn [fst md_type md_DeepCopyInto]; eauto 2 with copying|reflexivity]|reflexivity]|]). by apply Forall_nil.
Qed.

(** Whatever happens to all other memory, [v'] goes on denoting [x] with the cells of [hn]. *)
Definition owns (t : ty) (hn : Heap) (v' : value) (x : tree) : Prop := ∀ h', hn ⊆ h' → read t h' v' = Some x.

(** [C40] The copying methods of the 69 API types are deep: on a variable of the
    type they do not panic, leave all memory as it was, and give a variable
    that denotes the same value with cells of its own, so that no later write
    to anything that existed before, the original's slices, maps and pointers
    included, changes the copy.  [DeepCopy] gives nil for nil and
    [DeepCopyObject] no object. *)
Theorem deep_copies :
  (∀ m, m ∈ methods → ∀ h v x, read (md_type m) h v = Some x →
     ∃ v' hn, md_DeepCopyInto m h v = Some (v', h ∪ hn) ∧ h ##ₘ hn ∧ owns (md_type m) hn v' x) ∧
  (∀ m, m ∈ methods → ∀ h p x, read (TPtr (md_type m)) h (VPtr p) = Some x →
     ∃ v' hn, md_DeepCopy m h (VPtr p) = Some (v', h ∪ hn) ∧ h ##ₘ hn ∧ owns (TPtr (md_type m)) hn v' x) ∧
  (∀ m f, (m, f) ∈ objects → ∀ h p x, read (TPtr (md_type m)) h (VPtr p) = Some x →
     ∃ c hn, f h (VPtr p) = Some (c, h ∪ hn) ∧ h ##ₘ hn ∧
       match p with None => c = None | Some _ => ∃ v', c = Some v' ∧ owns (TPtr (md_type m)) hn v' x end).
Proof.
  pose proof methods_deep as Hm. pose proof objects_deep as Ho. rewrite Forall_forall in Hm. rewrite Forall_forall in Ho. split; [|split].
  - intros m Hin h v x Hx. destruct (Hm m Hin) as [Hc _].
    destruct (copies_independent _ _ Hc _ _ _ Hx) as (v' & hn & Hf & Hd & Hr & _). by exists v', hn.
  - intros m Hin h p x Hx. destruct (Hm m Hin) as [Hc ->]. apply copies_DeepCopy in Hc.
    destruct (copies_independent _ _ Hc _ _ _ Hx) as (v' & hn & Hf & Hd & Hr & _). by exists v', hn.
  - intros m f Hin h p x Hx. destruct (Ho _ Hin) as [[Hc Hcopy] Hf]. cbn in Hcopy, Hf. subst f. rewrite Hcopy.
    destruct (DeepCopyObject_spec _ _ Hc _ _ _ Hx) as (c & hn & Hf & Hd & Hr). exists c, hn. split; [done|]. split; [done|].
    destruct p; [|done]. destruct Hr as (v' & -> & Hr). exists v'. split; [done|]. intros h' Hh'. by eapply read_mono.
Qed.
End DeepCopies.

(** ** A library, and the copy a controller takes before it sets a condition *)

Section Sample.

(** The embedded types cut down to a few fields.  A time is an instant. *)
Definition meta_type : ty :=
  TStruct [("Name", TBasic KString); ("Labels", TMap (TBasic KString)); ("Finalizers", TSlice (TBasic KString))].
Definition meta_copier : copier := into [("Labels", make_map); ("Finalizers", make_slice assign)].
Definition condition_type : ty := TStruct [("Type", TBasic KString); ("Status", TBasic KString)].
Definition limits_type : ty := TStruct [("Limits", TMap (TBasic KString))].
Definition user_type : ty := TStruct [("RunAsUser", TPtr (TBasic KNumber))].

Lemma meta_copies : copies meta_type meta_copier.
Proof. copy_struct. Qed.
Lemma condition_copies : copies condition_type (into []).
Proof. copy_struct. Qed.
Lemma limits_copies : copies limits_type (into [("Limits", make_map)]).
Proof. copy_struct. Qed.
Lemma user_copies : copies user_type (into [("RunAsUser", new assign)]).
Proof. copy_struct. Qed.

#[local] Instance sample_library : Library := {
  TypeMeta := TStruct [("Kind", TBasic KString)]; ObjectMeta := meta_type; ListMeta := meta_type;
  Time := TBasic KNumber; Duration := TBasic KNumber; Condition := condition_type;
  ResourceRequirements := limits_type; PodSecurityContext := user_type; SecurityContext := user_type;
  TypeMeta_flat := eq_refl; Duration_flat := eq_refl;
  ObjectMeta_copies := meta_copies; ListMeta_copies := meta_copies;
  Time_copies := copies_new _ _ (copies_assign (TBasic KNumber) eq_refl);
  Condition_copies := condition_copies; ResourceRequirements_copies := limits_copies;
  PodSecurityContext_copies := user_copies; SecurityContext_copies := user_copies;
}.

Definition sample_condition (status : string) : value :=
  VStruct [("Type", VBasic (BString "Ready")); ("Status", VBasic (BString status))].
Definition sample_heap : Heap := {[ 1%positive := CArray [sample_condition "False"] ]}.
Definition sample_status : value := VStruct [
  ("Phase", VBasic (BString "Pending")); ("ServiceURL", VBasic (BString "")); ("ReadyReplicas", VBasic (BNumber 0));
  ("StoragePVC", VBasic (BString "")); ("ActiveModel", VBasic (BString "")); ("Conditions", VSlice (Some (1%positive, 0, 1)))].

(** An assignment alone shares the conditions: set in place, they change in the copy. *)
Example assignment_shares : ∃ v', assign sample_heap sample_status = Some (v', sample_heap) ∧
  read AgentStatus_type (<[1%positive := CArray [sample_condition "True"]]> sample_heap) v' ≠
  read AgentStatus_type sample_heap sample_status.
Proof. eexists. split; [done|]. by vm_compute. Qed.

Lemma deep_copies_witness : ∃ v' hn,
  AgentStatus_DeepCopyInto sample_heap sample_status = Some (v', sample_heap ∪ hn) ∧
  read AgentStatus_type (<[1%positive := CArray [sample_condition "True"]]> sample_heap ∪ hn) v' =
  read AgentStatus_type sample_heap sample_status.
Proof.
  destruct deep_copies as [Hinto _].
  destruct (Hinto (mkMethod AgentStatus_type AgentStatus_DeepCopyInto AgentStatus_DeepCopy)
    ltac:(repeat first [apply list_elem_of_here | apply list_elem_of_further])
    sample_heap sample_status _ eq_refl) as (v' & hn & Hf & Hd & Hr).
  exists v', hn. split; [exact Hf|]. apply Hr, map_union_subseteq_r, map_disjoint_insert_l_2; [|exact Hd].
  by eapply map_disjoint_Some_r.
Defined.
End Sample.
