(* ===== verification/Permissions.v ===== *)
(** * The tool-call policy of the MCP gateway (images/mcp-gateway/internal/permissions)

    The rules of a policy, [Check], and [Load] of the policies' file.  The
    arguments of a call are a decoded JSON object; [fmt_float] is how [%v]
    prints the float64 of a number literal. *)

From S2P Require Import Prelude GoLib Json.

Open Scope string_scope.
Open Scope list_scope.

Definition colon : ascii := ":"%char.
Definition equals : ascii := "="%char.

Record ServerPolicy := mkPolicy { sp_Mode : string; sp_Rules : list string }.
#[export] Instance ServerPolicy_fields : Fields ServerPolicy := λ r, mkPolicy (sp_Mode r) (sp_Rules r).
Definition zeroPolicy : ServerPolicy := mkPolicy "" [].
Definition Config : Type := gmap string ServerPolicy.

(** [pattern[:len(pattern)-1]] *)
Fixpoint but_last (s : string) : string :=
  match s with
  | EmptyString | String _ EmptyString => ""
  | String a s' => String a (but_last s')
  end.

Definition matchPattern (value pattern : string) : bool :=
  if GoStrings.HasSuffix pattern "*" then GoStrings.HasPrefix value (but_last pattern)
  else bool_decide (value = pattern).

Section Check.
Variable fmt_float : string → string.

Definition text (v : json) : string := sprint fmt_float v.

(** The arguments of a call; a nil map is the empty one. *)
Definition Args : Type := gmap string json.

Definition matchRule (toolName : string) (args : Args) (rule : string) : bool :=
  match GoStrings.SplitN2 rule colon with
  | (ruleTool, constraint) =>
      if decide (ruleTool ≠ toolName) then false
      else
        match constraint with
        | None => true
        | Some constraint =>
            match GoStrings.cut equals constraint with
            | None => false
            | Some (argName, argPattern) =>
                if decide (argName = "*") then
                  existsb (λ kv, matchPattern (text (snd kv)) argPattern) (map_to_list args)
                else
                  match args !! argName with
                  | None => false
                  | Some v => matchPattern (text v) argPattern
                  end
            end
        end
  end.

Definition matchesAnyRule (toolName : string) (args : Args) (rules : list string) : bool :=
  existsb (matchRule toolName args) rules.

(** [None] is a nil policy. *)
Definition Check (p : option ServerPolicy) (toolName : string) (args : Args) : bool :=
  match p with
  | None => true
  | Some p =>
      let matched := matchesAnyRule toolName args (sp_Rules p) in
      if decide (sp_Mode p = "deny") then negb matched
      else if decide (sp_Mode p = "allow") then matched
      else true
  end.

(** ** What the rules mean *)

Definition glob (value pattern : string) : Prop :=
  (∃ pre rest, pattern = pre +:+ "*" ∧ value = pre +:+ rest) ∨
  ((¬ ∃ pre, pattern = pre +:+ "*") ∧ value = pattern).

(** The forms of a rule, as the head of permissions.go lists them. *)
Inductive rule_matches (tool : string) (args : Args) : string → Prop :=
| rm_tool : colon ∉ GoStrings.chars tool → rule_matches tool args tool
| rm_arg arg pattern v :
    colon ∉ GoStrings.chars tool → equals ∉ GoStrings.chars arg → arg ≠ "*" →
    args !! arg = Some v → glob (text v) pattern →
    rule_matches tool args (tool +:+ ":" +:+ arg +:+ "=" +:+ pattern)
| rm_any pattern arg v :
    colon ∉ GoStrings.chars tool → args !! arg = Some v → glob (text v) pattern →
    rule_matches tool args (tool +:+ ":*=" +:+ pattern).

Definition permitted (p : option ServerPolicy) (tool : string) (args : Args) : Prop :=
  match p with
  | None => True
  | Some p =>
      (sp_Mode p = "deny" → ¬ ∃ rule, rule ∈ sp_Rules p ∧ rule_matches tool args rule) ∧
      (sp_Mode p = "allow" → ∃ rule, rule ∈ sp_Rules p ∧ rule_matches tool args rule)
  end.

Lemma but_last_snoc s a : but_last (s +:+ String a "") = s.
Proof.
  induction s as [|b s IH]; [done|]. cbn. rewrite IH. by destruct s.
Qed.

Lemma matchPattern_glob value pattern : matchPattern value pattern = true ↔ glob value pattern.
Proof.
  unfold matchPattern, glob. destruct (GoStrings.HasSuffix pattern "*") eqn:E.
  - apply GoStrings.HasSuffix_spec in E as [pre ->].
    change "*" with (String "*" ""). rewrite but_last_snoc, GoStrings.HasPrefix_spec. split.
    + intros [rest ->]. left. eauto.
    + intros [(pre' & rest & Hp & ->)|[Hn _]]; [|exfalso; eauto].
      apply GoStrings.app_inv_tail in Hp as ->. eauto.
  - assert (¬ ∃ pre, pattern = pre +:+ "*") as Hn.
    { intros Hs. apply GoStrings.HasSuffix_spec in Hs. congruence. }
    rewrite bool_decide_eq_true. naive_solver.
Qed.

Lemma SplitN2_some s x y : GoStrings.SplitN2 s colon = (x, Some y) ↔
  s = x +:+ String colon y ∧ colon ∉ GoStrings.chars x.
Proof.
  unfold GoStrings.SplitN2. rewrite <- GoStrings.cut_Some.
  destruct (GoStrings.cut colon s) as [[x' y']|]; naive_solver.
Qed.

Lemma SplitN2_none s x : GoStrings.SplitN2 s colon = (x, None) ↔ s = x ∧ colon ∉ GoStrings.chars x.
Proof.
  unfold GoStrings.SplitN2. destruct (GoStrings.cut colon s) as [[x' y']|] eqn:E.
  - split; [done|]. intros [-> Hn]. apply GoStrings.cut_None in Hn. congruence.
  - apply GoStrings.cut_None in E. naive_solver.
Qed.

Lemma matchRule_spec tool args rule : matchRule tool args rule = true ↔ rule_matches tool args rule.
Proof.
  unfold matchRule. split.
  - destruct (GoStrings.SplitN2 rule colon) as [t [c|]] eqn:E; case_decide as Ht; try done;
      subst t.
    + apply SplitN2_some in E as [-> Hc].
      destruct (GoStrings.cut equals c) as [[arg pattern]|] eqn:Ec; [|done].
      apply GoStrings.cut_Some in Ec as [-> He]. case_decide as Ha.
      * subst arg. rewrite existsb_elem_of. intros ([k v] & Hin & Hg).
        apply elem_of_map_to_list in Hin. apply matchPattern_glob in Hg. by eapply rm_any.
      * destruct (args !! arg) as [v|] eqn:Hv; [|done]. intros Hg%matchPattern_glob. by eapply rm_arg.
    + apply SplitN2_none in E as [-> Hc]. intros _. by apply rm_tool.
  - destruct 1 as [Hc|arg pattern v Hc He Ha Hv Hg|pattern arg v Hc Hv Hg].
    + rewrite (proj2 (SplitN2_none tool tool)) by done. by rewrite decide_False by auto.
    + rewrite (proj2 (SplitN2_some _ tool (arg +:+ "=" +:+ pattern))) by done.
      rewrite decide_False by auto.
      rewrite (proj2 (GoStrings.cut_Some equals _ arg pattern)) by done.
      rewrite decide_False by done. rewrite Hv. by apply matchPattern_glob.
    + rewrite (proj2 (SplitN2_some _ tool ("*=" +:+ pattern))) by done.
      rewrite decide_False by auto.
      rewrite (proj2 (GoStrings.cut_Some equals _ "*" pattern)) by (split; [done|by apply (bool_decide_unpack _)]).
      rewrite decide_True by done. apply existsb_elem_of. exists (arg, v).
      split; [by apply elem_of_map_to_list | by apply matchPattern_glob].
Qed.

Lemma matchesAnyRule_spec tool args rules :
  matchesAnyRule tool args rules = true ↔ ∃ rule, rule ∈ rules ∧ rule_matches tool args rule.
Proof. unfold matchesAnyRule. rewrite existsb_elem_of. by setoid_rewrite matchRule_spec. Qed.

Lemma Check_permitted p tool args : Check p tool args = true ↔ permitted p tool args.
Proof.
  destruct p as [p|]; [|done]. cbn. cbv zeta. rewrite <- matchesAnyRule_spec.
  generalize (matchesAnyRule tool args (sp_Rules p)) as m. intros m. case_decide as Hd; [|case_decide as Ha].
  - rewrite Hd, negb_true_iff, <- not_true_iff_false. naive_solver.
  - rewrite Ha. naive_solver.
  - naive_solver.
Qed.

(** [C30] A call is permitted exactly when the policy permits it as its rules
    read: without a policy, or in a mode that is neither deny nor allow,
    always; in deny mode unless a rule matches, in allow mode if one does; and
    a rule matches as the forms of the file say, by the name of the tool alone
    or with one argument, or some argument, equal to the pattern or beginning
    with it up to its star.  So more rules only ever forbid in deny mode and
    only ever permit in allow mode, and a tool with a colon in its name is out
    of reach of every rule. *)
Theorem Check_spec p tool args :
  (Check p tool args = true ↔ permitted p tool args) ∧
  (∀ q rules, p = Some q → (∀ r, r ∈ sp_Rules q → r ∈ rules) →
     let q' := Some (mkPolicy (sp_Mode q) rules) in
     (sp_Mode q = "deny" → Check q' tool args = true → Check p tool args = true) ∧
     (sp_Mode q = "allow" → Check p tool args = true → Check q' tool args = true)) ∧
  (∀ q, p = Some q → colon ∈ GoStrings.chars tool →
     Check p tool args = negb (bool_decide (sp_Mode q = "allow"))).
Proof.
  split; [apply Check_permitted|]. split.
  - intros q rules -> Hsub q'. subst q'. rewrite !Check_permitted. cbn. naive_solver.
  - intros q -> Hc. assert (matchesAnyRule tool args (sp_Rules q) = false) as Hm.
    { apply not_true_iff_false. rewrite matchesAnyRule_spec. intros (rule & _ & Hr). by destruct Hr. }
    cbn. cbv zeta. rewrite Hm. case_decide as Hd; [by rewrite Hd|].
    by case_decide; case_bool_decide.
Qed.

End Check.

(** ** Load *)

Definition policy_fields : list (Field ServerPolicy) :=
  [ ("mode", store_string (λ p s, p <| sp_Mode := s |>));
    ("rules", λ v p,
       match v with
       | JNull => Some (p <| sp_Rules := [] |>)
       | JArr l => rules ← mapM (λ v, match v with JStr s => Some s | JNull => Some "" | _ => None end) l;
                   Some (p <| sp_Rules := rules |>)
       | _ => None
       end) ].

(** One member of the file: a policy, decoded from its zero value. *)
Definition store_policy (cfg : option Config) (kv : string * json) : option Config :=
  cfg ← cfg;
  let '(p, err) := decode_struct policy_fields zeroPolicy (snd kv) in
  if (err : bool) then None else Some (<[fst kv := p]> cfg).

(** [json.Unmarshal] into the Config, then its error. *)
Definition decode_config (data : string) : option Config :=
  v ← parse data;
  match v with
  | JNull => Some ∅
  | JObj l => fold_left store_policy l (Some ∅)
  | _ => None
  end.

(** [data] is what reading the file gave, [None] an error. *)
Definition Load (data : option string) : option Config := data ≫= decode_config.
