(* ===== verification/GatewayProxy.v ===== *)
(** * The MCP gateway in proxy mode (images/mcp-gateway/internal/proxy and main.go)

    A request for the gateway is a method, a clean path and what reading its
    body gave; the answer is forwarded to the upstream server or written here.
    An id keeps the value of its JSON text.  [float_ok] says which number
    literals are a float64: the others are an error when they are decoded into
    [interface{}].  Forwarding itself ([httputil.ReverseProxy]) is outside. *)

From S2P Require Import Prelude GoLib Json JsonEncode Effects Permissions.

Open Scope string_scope.
Open Scope list_scope.

(** ** What is decoded *)

Record jsonRPCRequest := mkRPC {
  rq_JSONRPC : string; rq_ID : option json; rq_Method : string; rq_Params : option json;
}.
#[export] Instance jsonRPCRequest_fields : Fields jsonRPCRequest := λ r,
  mkRPC (rq_JSONRPC r) (rq_ID r) (rq_Method r) (rq_Params r).

(** [*json.RawMessage]: null is the nil pointer; [json.RawMessage]: any text,
    [None] when the member is absent. *)
Definition request_fields : list (Field jsonRPCRequest) :=
  [ ("jsonrpc", store_string (λ r s, r <| rq_JSONRPC := s |>));
    ("id", λ v r, Some (r <| rq_ID := match v with JNull => None | _ => Some v end |>));
    ("method", store_string (λ r s, r <| rq_Method := s |>));
    ("params", λ v r, Some (r <| rq_Params := Some v |>)) ].
Definition zeroRequest : jsonRPCRequest := mkRPC "" None "" None.

(** [json.Unmarshal(body, &req)] when it returns no error. *)
Definition decode_request (body : string) : option jsonRPCRequest :=
  v ← parse body;
  let '(r, err) := decode_struct request_fields zeroRequest v in
  if (err : bool) then None else Some r.

Section Proxy.
Variable fmt_float : string → string.
Variable float_ok : string → bool.

(** Every number of a value is a float64. *)
Fixpoint floats_ok (v : json) : bool :=
  match v with
  | JNum lit => float_ok lit
  | JArr l => forallb floats_ok l
  | JObj l => forallb (λ kv, floats_ok (snd kv)) l
  | _ => true
  end.

Record toolsCallParams := mkParams { tp_Name : string; tp_Arguments : Args }.
#[local] Instance toolsCallParams_fields : Fields toolsCallParams := λ r, mkParams (tp_Name r) (tp_Arguments r).

(** A later member of an object replaces an earlier one of its name; decoding
    adds to the map that is there, and null makes it nil. *)
Definition store_args (v : json) (p : toolsCallParams) : option toolsCallParams :=
  match v with
  | JNull => Some (p <| tp_Arguments := ∅ |>)
  | JObj l =>
      if floats_ok v
      then Some (p <| tp_Arguments := fold_left (λ m kv, <[fst kv := snd kv]> m) l (tp_Arguments p) |>)
      else None
  | _ => None
  end.

Definition params_fields : list (Field toolsCallParams) :=
  [ ("name", store_string (λ p s, p <| tp_Name := s |>)); ("arguments", store_args) ].

(** [json.Unmarshal(req.Params, &params)]: no text at all is an error. *)
Definition decode_params (params : option json) : option toolsCallParams :=
  v ← params;
  let '(p, err) := decode_struct params_fields (mkParams "" ∅) v in
  if (err : bool) then None else Some p.

(** ** The handler *)

Record Server := mkServer { sv_serverName : string; sv_policy : option ServerPolicy }.

Inductive Reply :=
| Forward (body : string)                    (** the request goes upstream with this body *)
| Passthrough                                (** the request goes upstream as it came *)
| Respond (status : Z) (body : json)         (** a JSON document *)
| HttpError (status : Z) (body : string).

(** The JSON-RPC error of a blocked call; a nil id is null. *)
Definition errResp (id : option json) (message : string) : json :=
  JObj [("error", JObj [("code", JNum "-32600"); ("message", JStr message)]);
        ("id", default JNull id); ("jsonrpc", JStr "2.0")].

(** [inl p]: allowed; otherwise the answer already written. *)
Definition checkToolCall (s : Server) (req : jsonRPCRequest) : option Reply :=
  match sv_policy s with
  | None => None
  | Some policy =>
      match decode_params (rq_Params req) with
      | None => Some (Respond 200 (errResp (rq_ID req) "tools/call blocked: malformed parameters"))
      | Some params =>
          if negb (Check fmt_float (Some policy) (tp_Name params) (tp_Arguments params)) then
            Some (Respond 403 (errResp (rq_ID req)
              ("tool call " +:+ GoFmt.q (tp_Name params) +:+ " blocked by gateway policy ("
               +:+ sp_Mode policy +:+ " mode)")))
          else None
      end
  end.

Definition max_body : N := 1048576.

Definition handlePost (s : Server) (r_body : res string) : Reply :=
  match r_body with
  | Err _ => HttpError 400 ("{" +:+ GoFmt.q "error" +:+ ":" +:+ GoFmt.q "failed to read body" +:+ "}")
  | Ok body =>
      let body := GoStrings.limit_bytes max_body body in
      match decode_request body with
      | None => Forward body
      | Some req =>
          if decide (rq_Method req = "tools/call") then
            match checkToolCall s req with
            | Some blocked => blocked
            | None => Forward body
            end
          else Forward body
      end
  end.

(** The routes of [Handler]; a GET pattern also matches HEAD. *)
Definition handle (s : Server) (method path : string) (r_body : res string) : Reply :=
  if decide (method = "POST" ∧ path = "/mcp") then handlePost s r_body
  else if decide ((method = "GET" ∨ method = "HEAD") ∧ path = "/mcp") then Passthrough
  else if decide ((method = "GET" ∨ method = "HEAD") ∧ path = "/health")
  then Respond 200 (JObj [("status", JStr "ok")])
  else Passthrough.

(** ** The policy of the gateway (main.go, [runProxy]) *)

(** [config] is the file behind GATEWAY_CONFIG, [None] when it cannot be read. *)
Definition select_policy (configPath serverName : string) (config : option string)
  : option ServerPolicy :=
  if decide (configPath = "") then None
  else match Load config with
       | None => None
       | Some cfg => if decide (serverName = "") then None else cfg !! serverName
       end.

Definition runProxy (upstream configPath serverName : string) (config : option string)
  (parse_url : string → option GoError) : res Server :=
  if decide (upstream = "") then Err (errorf "GATEWAY_UPSTREAM is required in proxy mode")
  else
    let policy := select_policy configPath serverName config in
    match parse_url upstream with
    | Some e => Err (wrapf "parse upstream URL" e)
    | None => Ok (mkServer serverName policy)
    end.

(** ** What passes *)

(** A body that is no single JSON-RPC request, a batch for one, or one of
    another method. *)
Definition not_a_call (body : string) : Prop :=
  match decode_request body with Some req => rq_Method req ≠ "tools/call" | None => True end.

(** The call in a body: its tool and arguments. *)
Definition call_in (body : string) (tool : string) (args : Args) : Prop :=
  ∃ req, decode_request body = Some req ∧ rq_Method req = "tools/call" ∧
         decode_params (rq_Params req) = Some (mkParams tool args).

Lemma limit_prefix n s : ∃ rest, s = GoStrings.limit_bytes n s +:+ rest.
Proof.
  revert n. induction s as [|a s IH]; intros n; cbn; [by exists ""|].
  case_decide; [by exists (String a s)|]. destruct (IH (n - 1)%N) as [rest Hr]. exists rest. cbn. by rewrite <- Hr.
Qed.

(** [C31] What the proxy lets through on POST /mcp, under a policy: a body that
    is no tools/call, as far as it could be decoded, or a call its policy
    permits; nothing else.  A call it forbids is answered with status 403 and a
    JSON-RPC error of its id, one whose parameters cannot be decoded with an error
    of its id that says so (and status 200), a body that cannot be read with
    status 400; none of them goes anywhere.  What is forwarded is the body, cut at
    1 MiB, so nothing else is made of it on the way.  Requests by any other method
    or path are not inspected, nor are bodies the decoder gives up on: a batch, or
    one nested more than 10000 deep. *)
Theorem handlePost_spec name policy body :
  let s := mkServer name (Some policy) in
  let b := GoStrings.limit_bytes max_body body in
  (∀ b', handlePost s (Ok body) = Forward b' ↔
     b' = b ∧ (not_a_call b ∨ ∃ tool args, call_in b tool args ∧ permitted fmt_float (Some policy) tool args)) ∧
  (∀ tool args, call_in b tool args → ¬ permitted fmt_float (Some policy) tool args →
     ∃ req msg, decode_request b = Some req ∧
       handle s "POST" "/mcp" (Ok body) = Respond 403 (errResp (rq_ID req) msg)) ∧
  (∀ req, decode_request b = Some req → rq_Method req = "tools/call" → decode_params (rq_Params req) = None →
     handle s "POST" "/mcp" (Ok body) =
       Respond 200 (errResp (rq_ID req) "tools/call blocked: malformed parameters")) ∧
  (∀ e, ∃ msg, handle s "POST" "/mcp" (Err e) = HttpError 400 msg) ∧
  handlePost s (Ok body) ≠ Passthrough ∧
  (∃ rest, body = b +:+ rest).
Proof.
  intros s b. split_and!; [| | |by eexists| |apply limit_prefix].
  - intros b'. unfold handlePost. fold b. cbv zeta. unfold not_a_call, call_in.
    destruct (decode_request b) as [req|]; [|naive_solver].
    case_decide as Hm; [|naive_solver]. unfold checkToolCall. cbn [sv_policy s].
    destruct (decode_params (rq_Params req)) as [[tool args]|] eqn:Hp; [|naive_solver].
    cbn [tp_Name tp_Arguments]. pose proof (Check_permitted fmt_float (Some policy) tool args) as Hc.
    destruct (Check fmt_float (Some policy) tool args); cbn [negb]; naive_solver.
  - intros tool args (req & Hd & Hm & Hp) Hn. exists req. rewrite <- Check_permitted in Hn.
    unfold handle. rewrite decide_True by done. unfold handlePost. fold b. cbv zeta.
    rewrite Hd, decide_True by done. unfold checkToolCall. cbn [sv_policy s]. rewrite Hp.
    cbn [tp_Name tp_Arguments]. destruct (Check fmt_float (Some policy) tool args); [done|]. by eexists.
  - intros req Hd Hm Hp. unfold handle. rewrite decide_True by done. unfold handlePost. fold b. cbv zeta.
    rewrite Hd, decide_True by done. unfold checkToolCall. cbn [sv_policy s]. by rewrite Hp.
  - unfold handlePost. cbv zeta. fold b. destruct (decode_request b) as [req|]; [|done].
    case_decide; [|done]. unfold checkToolCall. cbn [sv_policy s].
    destruct (decode_params _); [|done]. by destruct (negb _).
Qed.


End Proxy.

(** A call of a forbidden tool is blocked alone and forwarded in a batch. *)
Definition forbidden_call : json :=
  JObj [("jsonrpc", JStr "2.0"); ("id", JNum "1"); ("method", JStr "tools/call");
        ("params", JObj [("name", JStr "rm"); ("arguments", JObj [])])].
Definition no_rm : Server := mkServer "fs" (Some (mkPolicy "deny" ["rm"])).

Example batch_not_inspected :
  (∃ msg, handlePost (λ s, s) (λ _, true) no_rm (Ok (MarshalIndent forbidden_call))
          = Respond 403 (errResp (Some (JNum "1")) msg)) ∧
  handlePost (λ s, s) (λ _, true) no_rm (Ok (MarshalIndent (JArr [forbidden_call])))
  = Forward (MarshalIndent (JArr [forbidden_call])).
Proof. split; [eexists|]; vm_compute; reflexivity. Qed.

(** The same call with an argument of [n] nested arrays. *)
Definition nested_call (n : nat) : string :=
  let q s := GoFmt.dquote +:+ s +:+ GoFmt.dquote in
  "{" +:+ q "method" +:+ ":" +:+ q "tools/call" +:+ "," +:+ q "params" +:+ ":{" +:+ q "name" +:+ ":" +:+ q "rm"
  +:+ "," +:+ q "arguments" +:+ ":{" +:+ q "a" +:+ ":"
  +:+ string_of_list_ascii (replicate n "["%char ++ replicate n "]"%char) +:+ "}}}".

Definition forwarded (r : Reply) : bool := match r with Forward _ => true | _ => false end.

(** What is nested too deep for encoding/json is forwarded without a look at it. *)
Example too_deep_not_inspected :
  let post n := handlePost (λ s, s) (λ _, true) no_rm (Ok (nested_call (N.to_nat n))) in
  forwarded (post 9997%N) = false ∧ forwarded (post 9998%N) = true.
Proof. split; vm_compute; reflexivity. Qed.

(** An unreadable or malformed policy file means no policy. *)
Example no_file_no_policy : select_policy "/etc/gateway/permissions.json" "fs" None = None.
Proof. reflexivity. Qed.
