(* ===== verification/GatewaySpawn.v ===== *)
(** * The MCP gateway in spawn mode (images/mcp-gateway/internal/spawn and main.go)

    The server that bridges HTTP clients to one subprocess, as a state and the
    actions of its goroutines: a critical section of [s.mu], a channel send or
    receive and a write to the pipe are one action each, in any interleaving.
    A channel is a number with its buffer; ids and the other raw members of a
    message keep their JSON text.  [unmarshal] is how encoding/json reads one
    message.  What the subprocess says is up to it. *)

From S2P Require Import Prelude GoLib Effects.

Open Scope string_scope.
Open Scope list_scope.

Record jsonRPCError := mkRPCError { re_Code : Z; re_Message : string }.
Record jsonRPCMessage := mkMsg {
  jm_JSONRPC : string; jm_ID : option string; jm_Method : string;
  jm_Params : string; jm_Result : string; jm_Error : option jsonRPCError;
}.

(** ** State *)

(** A call of [Send]: its message, and how far it is. *)
Inductive Sender :=
| Registered (msg : jsonRPCMessage) (ch : nat)
| Waiting (msg : jsonRPCMessage) (ch : nat)
| Leaving (msg : jsonRPCMessage) (r : res jsonRPCMessage)
| Returned (msg : jsonRPCMessage) (r : res (option jsonRPCMessage)).

(** The read loop: between lines, or sending a response on a channel. *)
Inductive Reader := Idle | Delivering (ch : nat) (msg : jsonRPCMessage) | Stopped.

Record State := mkState {
  pending : gmap string nat;
  sseConns : gmap string nat;
  responses : gmap nat (list jsonRPCMessage);
  notifications : gmap nat (list jsonRPCMessage);
  senders : gmap nat Sender;
  reader : Reader;
  stdin : list jsonRPCMessage;     (** what was written to the subprocess *)
  stdout : list jsonRPCMessage;    (** what was read from it *)
}.
#[export] Instance State_fields : Fields State := λ s,
  mkState (pending s) (sseConns s) (responses s) (notifications s) (senders s) (reader s)
    (stdin s) (stdout s).

(** [New] and [Start]. *)
Definition init : State := mkState ∅ ∅ ∅ ∅ ∅ Idle [] [].

Definition response_capacity : nat := 1.
Definition sse_capacity : nat := 64.

Definition push (cap : nat) (msg : jsonRPCMessage) (buf : list jsonRPCMessage) : list jsonRPCMessage :=
  if decide (length buf < cap)%nat then buf ++ [msg] else buf.

(** A notification goes to every SSE channel with room. *)
Definition broadcast (msg : jsonRPCMessage) (s : State) : State :=
  s <| notifications ::= map_imap (λ ch buf,
         Some (if decide (map_Exists (λ _ ch', ch' = ch) (sseConns s))
               then push sse_capacity msg buf else buf)) |>.

(** ** Actions *)

Inductive Action :=
| ASend (t : nat) (msg : jsonRPCMessage) (ch : nat)   (** [Send], with the channel it makes *)
| AWrite (t : nat) (err : option GoError)
| AReceive (t : nat)
| ACancel (t : nat) (err : GoError)
| AReturn (t : nat)
| ALine (msg : option jsonRPCMessage)                 (** a line; [None]: blank or malformed *)
| ADeliver
| AStop
| ARegisterSSE (id : string) (ch : nat)
| AUnregisterSSE (id : string)
| AEvent (ch : nat).

(** The message of a sender without an id is written at once. *)
Definition send (t : nat) (msg : jsonRPCMessage) (ch : nat) (s : State) : option State :=
  if decide (senders s !! t = None ∧ responses s !! ch = None) then
    match jm_ID msg with
    | Some id =>
        Some (s <| pending ::= <[id := ch]> |> <| responses ::= <[ch := []]> |>
                <| senders ::= <[t := Registered msg ch]> |>)
    | None => Some (s <| senders ::= <[t := Registered msg ch]> |>)
    end
  else None.

Definition write (t : nat) (err : option GoError) (s : State) : option State :=
  match senders s !! t with
  | Some (Registered msg ch) =>
      Some (match err, jm_ID msg with
      | Some e, Some _ => s <| senders ::= <[t := Leaving msg (Err e)]> |>
      | Some e, None => s <| senders ::= <[t := Returned msg (Err e)]> |>
      | None, Some _ => s <| stdin ::= λ l, l ++ [msg] |> <| senders ::= <[t := Waiting msg ch]> |>
      | None, None => s <| stdin ::= λ l, l ++ [msg] |> <| senders ::= <[t := Returned msg (Ok None)]> |>
      end)
  | _ => None
  end.

Definition receive (t : nat) (s : State) : option State :=
  match senders s !! t with
  | Some (Waiting msg ch) =>
      match responses s !! ch with
      | Some (m :: buf) =>
          Some (s <| responses ::= <[ch := buf]> |> <| senders ::= <[t := Leaving msg (Ok m)]> |>)
      | _ => None
      end
  | _ => None
  end.

Definition cancel (t : nat) (err : GoError) (s : State) : option State :=
  match senders s !! t with
  | Some (Waiting msg _) => Some (s <| senders ::= <[t := Leaving msg (Err err)]> |>)
  | _ => None
  end.

(** The deferred [delete(s.pending, idStr)]. *)
Definition return_ (t : nat) (s : State) : option State :=
  match senders s !! t with
  | Some (Leaving msg r) =>
      idStr ← jm_ID msg;
      Some (s <| pending ::= delete idStr |>
              <| senders ::= <[t := Returned msg
                   (match r with Ok m => Ok (Some m) | Err e => Err e end)]> |>)
  | _ => None
  end.

(** One line of [readLoop]. *)
Definition line (msg : option jsonRPCMessage) (s : State) : option State :=
  match reader s, msg with
  | Idle, None => Some s
  | Idle, Some msg =>
      let s := s <| stdout ::= λ l, l ++ [msg] |> in
      Some (match jm_ID msg with
      | Some id =>
          match pending s !! id with
          | Some ch => s <| reader := Delivering ch msg |>
          | None => s
          end
      | None => broadcast msg s
      end)
  | _, _ => None
  end.

(** [ch <- &msg] waits for room. *)
Definition deliver (s : State) : option State :=
  match reader s with
  | Delivering ch msg =>
      match responses s !! ch with
      | Some buf =>
          if decide (length buf < response_capacity)%nat
          then Some (s <| responses ::= <[ch := buf ++ [msg]]> |> <| reader := Idle |>)
          else None
      | None => None
      end
  | _ => None
  end.

Definition act (a : Action) (s : State) : option State :=
  match a with
  | ASend t msg ch => send t msg ch s
  | AWrite t err => write t err s
  | AReceive t => receive t s
  | ACancel t err => cancel t err s
  | AReturn t => return_ t s
  | ALine msg => line msg s
  | ADeliver => deliver s
  | AStop => match reader s with Idle => Some (s <| reader := Stopped |>) | _ => None end
  | ARegisterSSE id ch =>
      if decide (notifications s !! ch = None)
      then Some (s <| sseConns ::= <[id := ch]> |> <| notifications ::= <[ch := []]> |>)
      else None
  | AUnregisterSSE id => Some (s <| sseConns ::= delete id |>)
  | AEvent ch => match notifications s !! ch with
                 | Some (_ :: buf) => Some (s <| notifications ::= <[ch := buf]> |>)
                 | _ => None
                 end
  end.

Fixpoint acts (l : list Action) (s : State) : option State :=
  match l with [] => Some s | a :: l' => s' ← act a s; acts l' s' end.

(** ** HTTP *)

Inductive PostReply := BadRequest | InternalError | Accepted | Response (msg : jsonRPCMessage).

(** [handlePost] after [Send] returned. *)
Definition post_reply (r : res (option jsonRPCMessage)) : PostReply :=
  match r with
  | Err _ => InternalError
  | Ok None => Accepted
  | Ok (Some resp) => Response resp
  end.

(** [handlePost] before it: what is sent, if the body is a message. *)
Definition post_message (unmarshal : string → option jsonRPCMessage) (body : string)
  : PostReply + jsonRPCMessage :=
  match unmarshal body with None => inl BadRequest | Some msg => inr msg end.

(** A line of the subprocess, for [readLoop]. *)
Definition read_line (unmarshal : string → option jsonRPCMessage) (text : string) : option jsonRPCMessage :=
  let line := GoStrings.TrimSpace text in
  if decide (line = "") then None else unmarshal line.

(** ** Configuration (main.go) *)

(** [os.Args] without the program and the environment as [KEY=value] texts. *)
Fixpoint after_dashes (args : list string) : option (list string) :=
  match args with
  | [] => None
  | a :: args' => if decide (a = "--") then Some args' else after_dashes args'
  end.

Definition getSpawnCommand (gateway_command : string) (args : list string) : list string :=
  if decide (gateway_command ≠ "") then GoStrings.Fields gateway_command
  else default args (after_dashes args).

Definition envOrDefault (v def : string) : string := if decide (v ≠ "") then v else def.

(** What [runSpawn] collects and [New] gives to the subprocess. *)
Definition collected_env (environ : list string) : list string :=
  filter (λ e, GoStrings.HasPrefix e "GATEWAY_" = false) environ.
Definition subprocess_env (environ : list string) : list string := environ ++ collected_env environ.

(** ** Reachable states *)

Inductive reachable (P : Action → State → Prop) : State → Prop :=
| reach_init : reachable P init
| reach_act s a s' : reachable P s → P a s → act a s = Some s' → reachable P s'.

Definition any_action (a : Action) (s : State) : Prop := True.
(** No client uses an id that is in flight. *)
Definition fresh_ids (a : Action) (s : State) : Prop :=
  match a with
  | ASend _ msg _ => ∀ id, jm_ID msg = Some id → pending s !! id = None
  | _ => True
  end.

(** *** A response goes to a request of its id

    [own] is the id each response channel was made for. *)

Definition answers (s : State) (msg m : jsonRPCMessage) : Prop :=
  is_Some (jm_ID msg) ∧ jm_ID m = jm_ID msg ∧ m ∈ stdout s ∧ msg ∈ stdin s.

Definition sender_ok (own : gmap nat string) (s : State) (sd : Sender) : Prop :=
  match sd with
  | Registered msg ch => ∀ id, jm_ID msg = Some id → own !! ch = Some id
  | Waiting msg ch => msg ∈ stdin s ∧ ∃ id, jm_ID msg = Some id ∧ own !! ch = Some id
  | Leaving msg (Ok m) => answers s msg m
  | Leaving msg (Err _) => is_Some (jm_ID msg)
  | Returned msg (Ok (Some m)) => answers s msg m
  | Returned msg (Ok None) => jm_ID msg = None ∧ msg ∈ stdin s
  | Returned msg (Err _) => True
  end.

(** [m] may be in the buffer of [ch]. *)
Definition for_channel (own : gmap nat string) (s : State) (ch : nat) (m : jsonRPCMessage) : Prop :=
  m ∈ stdout s ∧ ∃ id, jm_ID m = Some id ∧ own !! ch = Some id.

Record inv (own : gmap nat string) (s : State) : Prop := {
  iv_own ch : is_Some (own !! ch) → is_Some (responses s !! ch);
  iv_pending id ch : pending s !! id = Some ch → own !! ch = Some id;
  iv_senders : map_Forall (λ _ sd, sender_ok own s sd) (senders s);
  iv_buffers : map_Forall (λ ch buf, (length buf ≤ response_capacity)%nat ∧ Forall (for_channel own s ch) buf)
                 (responses s);
  iv_reader ch m : reader s = Delivering ch m → for_channel own s ch m;
  iv_notes : map_Forall (λ _ buf, (length buf ≤ sse_capacity)%nat) (notifications s);
}.

(** More was written, read and made since. *)
Definition later (own : gmap nat string) (s : State) (own' : gmap nat string) (s' : State) : Prop :=
  own ⊆ own' ∧ stdin s ⊆ stdin s' ∧ stdout s ⊆ stdout s'.

Lemma sender_ok_later own s own' s' sd : later own s own' s' → sender_ok own s sd → sender_ok own' s' sd.
Proof.
  intros (Ho & Hi & Hu). pose proof (λ ch id, lookup_weaken own own' ch id) as Hw.
  destruct sd as [msg ch|msg ch|msg [m|e]|msg [[m|]|e]]; unfold sender_ok, answers; try done.
  - eauto.
  - intros (? & id & ? & ?). split; [set_solver|]. eauto.
  - intros (? & ? & ? & ?). split_and!; set_solver.
  - intros (? & ? & ? & ?). split_and!; set_solver.
  - intros [? ?]. split; set_solver.
Qed.

Lemma for_channel_later own s own' s' ch m :
  later own s own' s' → for_channel own s ch m → for_channel own' s' ch m.
Proof.
  intros (Ho & _ & Hu) (Hm & id & Hid & Hc). split; [set_solver|]. exists id.
  split; [done|]. by eapply lookup_weaken.
Qed.

Lemma senders_later own s own' s' :
  later own s own' s' → map_Forall (λ _ sd, sender_ok own s sd) (senders s) →
  map_Forall (λ _ sd, sender_ok own' s' sd) (senders s).
Proof. intros Hl Hs t sd Ht. eapply sender_ok_later; [done|]. by eapply Hs. Qed.

Lemma buffers_later own s own' s' :
  later own s own' s' →
  map_Forall (λ ch buf, (length buf ≤ response_capacity)%nat ∧ Forall (for_channel own s ch) buf) (responses s) →
  map_Forall (λ ch buf, (length buf ≤ response_capacity)%nat ∧ Forall (for_channel own' s' ch) buf) (responses s).
Proof.
  intros Hl Hb ch buf Hc. destruct (Hb ch buf Hc) as [Hlen Hall]. split; [done|].
  eapply Forall_impl; [done|]. intros m. by apply for_channel_later.
Qed.

Lemma push_length cap msg buf : (length buf ≤ cap)%nat → (length (push cap msg buf) ≤ cap)%nat.
Proof. intros Hb. unfold push. case_decide; [|done]. rewrite length_app. cbn. lia. Qed.

Lemma inv_init : inv ∅ init.
Proof.
  split; cbn; try apply map_Forall_empty; try done. by intros ch [? Hch%lookup_empty_Some].
Qed.

(** An action that touches neither channels nor the reader. *)
Lemma inv_sender own s t sd :
  inv own s → sender_ok own s sd → inv own (s <| senders ::= <[t := sd]> |>).
Proof.
  intros [] Hsd. split; try done. cbn. apply map_Forall_insert_2; [exact Hsd|exact iv_senders0].
Qed.

Lemma inv_stdin own s msg : inv own s → inv own (s <| stdin ::= λ l, l ++ [msg] |>).
Proof.
  intros []. assert (later own s own (s <| stdin ::= λ l, l ++ [msg] |>)) as Hl.
  { split_and!; [done|cbn; set_solver|done]. }
  split; try done; solve [by apply (senders_later own s)|by apply (buffers_later own s)].
Qed.

Lemma inv_stdout own s msg : inv own s → inv own (s <| stdout ::= λ l, l ++ [msg] |>).
Proof.
  intros []. assert (later own s own (s <| stdout ::= λ l, l ++ [msg] |>)) as Hl.
  { split_and!; [done|done|cbn; set_solver]. }
  split; try done; try solve [by apply (senders_later own s)|by apply (buffers_later own s)].
  - intros ch m Hr. eapply for_channel_later; [exact Hl|]. by apply iv_reader0.
Qed.

Lemma inv_send own s t msg ch s' :
  inv own s → send t msg ch s = Some s' → ∃ own', inv own' s'.
Proof.
  intros Hinv. unfold send. case_decide as Hf; [|done]. destruct Hf as [Ht Hch].
  destruct (jm_ID msg) as [id|] eqn:Hid; intros [= <-].
  - exists (<[ch := id]> own).
    assert (own !! ch = None) as Ho.
    { destruct (own !! ch) eqn:E; [|done]. destruct (iv_own _ _ Hinv ch); [by eexists|congruence]. }
    destruct Hinv.
    set (s1 := s <| pending ::= <[id := ch]> |> <| responses ::= <[ch := []]> |>
                 <| senders ::= <[t := Registered msg ch]> |>).
    assert (later own s (<[ch := id]> own) s1) as Hl by (split_and!; [by apply insert_subseteq|done|done]).
    split; cbn.
    + intros c. rewrite !lookup_insert_is_Some. intros [->|[? Hc]]; [by left|]. right. auto.
    + intros i c. rewrite !lookup_insert_Some. intros [[-> ->]|[? Hp]]; [by left|]. right.
      pose proof (iv_pending0 i c Hp). split; [|done]. intros ->. congruence.
    + apply map_Forall_insert_2; [|by apply (senders_later own s)].
      intros i Hi. rewrite lookup_insert_eq. congruence.
    + apply map_Forall_insert_2; [cbn; split; [lia|constructor]|]. by apply (buffers_later own s).
    + intros c m Hr. eapply for_channel_later; [exact Hl|auto].
    + done.
  - exists own. apply (inv_sender own s); [done|]. cbn. congruence.
Qed.

Lemma inv_write own s t err s' : inv own s → write t err s = Some s' → inv own s'.
Proof.
  intros Hinv. unfold write. destruct (senders s !! t) as [[msg ch| | |]|] eqn:Ht; try done.
  pose proof (iv_senders _ _ Hinv t _ Ht) as Hs. cbn in Hs.
  destruct err as [e|], (jm_ID msg) as [id|] eqn:Hid; intros [= <-].
  - apply inv_sender; [done|]. cbn. by rewrite Hid.
  - by apply inv_sender.
  - apply (inv_sender own (s <| stdin ::= _ |>)); [by apply inv_stdin|]. cbn. split; [set_solver|].
    exists id. auto.
  - apply (inv_sender own (s <| stdin ::= _ |>)); [by apply inv_stdin|]. cbn. split; [done|set_solver].
Qed.

Lemma inv_receive own s t s' : inv own s → receive t s = Some s' → inv own s'.
Proof.
  intros Hinv. unfold receive. destruct (senders s !! t) as [[|msg ch| |]|] eqn:Ht; try done.
  destruct (responses s !! ch) as [[|m buf]|] eqn:Hc; try done. intros [= <-].
  destruct (iv_senders _ _ Hinv t _ Ht) as (Hin & id & Hid & Ho).
  destruct (iv_buffers _ _ Hinv ch _ Hc) as [Hlen Hall].
  apply Forall_cons in Hall as [(Hm & id' & Hid' & Ho') Hall].
  apply (inv_sender own (s <| responses ::= <[ch := buf]> |>)).
  - destruct Hinv. split; try done; cbn.
    + intros c Hc'. rewrite lookup_insert_is_Some. destruct (decide (ch = c)); [by left|right; auto].
    + apply map_Forall_insert_2; [|done]. cbn in Hlen. split; [lia|done].
  - cbn. split_and!; [by eexists|congruence|done|done].
Qed.

Lemma inv_cancel own s t e s' : inv own s → cancel t e s = Some s' → inv own s'.
Proof.
  intros Hinv. unfold cancel. destruct (senders s !! t) as [[|msg ch| |]|] eqn:Ht; try done.
  intros [= <-]. destruct (iv_senders _ _ Hinv t _ Ht) as (Hin & id & Hid & Ho).
  apply inv_sender; [done|]. cbn. by eexists.
Qed.

Lemma inv_return own s t s' : inv own s → return_ t s = Some s' → inv own s'.
Proof.
  intros Hinv. unfold return_. destruct (senders s !! t) as [[| |msg r|]|] eqn:Ht; try done.
  destruct (jm_ID msg) as [id|] eqn:Hid; [|done]. intros [= <-].
  pose proof (iv_senders _ _ Hinv t _ Ht) as Hs. apply (inv_sender own (s <| pending ::= delete id |>)).
  - destruct Hinv. split; try done. cbn. intros i ch. rewrite lookup_delete_Some. intros [_ Hp]. auto.
  - destruct r as [m|e]; done.
Qed.

Lemma inv_line own s msg s' : inv own s → line msg s = Some s' → inv own s'.
Proof.
  intros Hinv. unfold line. destruct (reader s) eqn:Hr; try done. destruct msg as [msg|]; [|by intros [= <-]].
  pose proof (inv_stdout own s msg Hinv) as Hs1. set (s1 := s <| stdout ::= _ |>) in *.
  cbv zeta. intros [= <-]. destruct (jm_ID msg) as [id|] eqn:Hid.
  - destruct (pending s !! id) as [ch|] eqn:Hp; [|done]. pose proof (iv_pending _ _ Hinv id ch Hp) as Ho.
    destruct Hs1. split; try done. cbn. intros c m [= <- <-]. split; [set_solver|]. by exists id.
  - destruct Hs1. split; try done. cbn. intros ch buf. rewrite map_lookup_imap.
    destruct (notifications s !! ch) as [b|] eqn:Hb; [|done]. cbn. intros [= <-].
    pose proof (iv_notes0 ch b Hb). case_decide; [by apply push_length|done].
Qed.

Lemma inv_deliver own s s' : inv own s → deliver s = Some s' → inv own s'.
Proof.
  intros Hinv. unfold deliver. destruct (reader s) as [|ch msg|] eqn:Hr; try done.
  destruct (responses s !! ch) as [buf|] eqn:Hc; [|done]. case_decide as Hlen; [|done]. intros [= <-].
  pose proof (iv_reader _ _ Hinv ch msg Hr) as Hm. destruct (iv_buffers _ _ Hinv ch buf Hc) as [_ Hall].
  destruct Hinv. split; try done; cbn.
  - intros c Hc'. rewrite lookup_insert_is_Some. destruct (decide (ch = c)); [by left|right; auto].
  - apply map_Forall_insert_2; [|done]. split; [rewrite length_app; cbn; unfold response_capacity in *; lia|].
    apply Forall_app. split; [done|]. repeat constructor; apply Hm.
Qed.

Lemma inv_act own s a s' : inv own s → act a s = Some s' → ∃ own', inv own' s'.
Proof.
  intros Hinv. destruct a as [t msg ch|t err|t|t e|t|msg| | |id ch|id|ch]; cbn.
  - by eapply inv_send.
  - intros H. exists own. by eapply inv_write.
  - intros H. exists own. by eapply inv_receive.
  - intros H. exists own. by eapply inv_cancel.
  - intros H. exists own. by eapply inv_return.
  - intros H. exists own. by eapply inv_line.
  - intros H. exists own. by eapply inv_deliver.
  - destruct (reader s); try done. intros [= <-]. exists own. by destruct Hinv.
  - case_decide; [|done]. intros [= <-]. exists own. destruct Hinv. split; try done. cbn.
    apply map_Forall_insert_2; [cbn; lia|done].
  - intros [= <-]. exists own. by destruct Hinv.
  - destruct (notifications s !! ch) as [[|m buf]|] eqn:Hn; try done. intros [= <-]. exists own.
    pose proof (iv_notes _ _ Hinv ch _ Hn) as Hlen. cbn in Hlen. destruct Hinv. split; try done. cbn.
    apply map_Forall_insert_2; [cbn; lia|done].
Qed.

Lemma reachable_inv P s : reachable P s → ∃ own, inv own s.
Proof.
  induction 1 as [|s a s' _ [own IH] _ Ha]; [eexists; apply inv_init|]. by eapply inv_act.
Qed.

(** *** With ids of their own, the calls in flight keep their channels *)

Definition id_of (sd : Sender) : option string :=
  match sd with
  | Registered msg _ | Waiting msg _ | Leaving msg _ => jm_ID msg
  | Returned _ _ => None
  end.
(** [ch] may be the channel of the sender. *)
Definition on_channel (sd : Sender) (ch : nat) : Prop :=
  match sd with Registered _ ch' | Waiting _ ch' => ch' = ch | _ => True end.

Definition owns (pending : gmap string nat) (sd : Sender) : Prop :=
  ∀ id, id_of sd = Some id → ∃ ch, pending !! id = Some ch ∧ on_channel sd ch.

Record in_flight (s : State) : Prop := {
  fl_pending : map_Forall (λ _ sd, owns (pending s) sd) (senders s);
  fl_unique t1 t2 sd1 sd2 id :
    senders s !! t1 = Some sd1 → senders s !! t2 = Some sd2 →
    id_of sd1 = Some id → id_of sd2 = Some id → t1 = t2;
}.

(** A sender takes a step of its own. *)
Lemma in_flight_step s t sd sd' :
  in_flight s → senders s !! t = Some sd → id_of sd' = id_of sd →
  (∀ ch, on_channel sd ch → on_channel sd' ch) →
  in_flight (s <| senders ::= <[t := sd']> |>).
Proof.
  intros [Hp Hu] Ht Hid Hch. split; cbn.
  - apply map_Forall_insert_2; [|done]. intros id. rewrite Hid. intros Hi.
    destruct (Hp t sd Ht id Hi) as (ch & ? & ?). eauto.
  - intros t1 t2 sd1 sd2 id H1 H2 Hi1 Hi2.
    assert (∀ u sdu, <[t := sd']> (senders s) !! u = Some sdu → id_of sdu = Some id →
      ∃ sdu', senders s !! u = Some sdu' ∧ id_of sdu' = Some id) as Hback.
    { intros u sdu. rewrite lookup_insert_Some. intros [[<- <-]|[_ Hs]] Hi; [|eauto].
      exists sd. split; [done|congruence]. }
    destruct (Hback t1 sd1 H1 Hi1) as (? & ? & ?), (Hback t2 sd2 H2 Hi2) as (? & ? & ?). eauto.
Qed.

(** A sender ends. *)
Lemma in_flight_end s t sd msg r p' :
  in_flight s → senders s !! t = Some sd →
  (∀ id, id_of sd ≠ Some id → p' !! id = pending s !! id) →
  in_flight (s <| pending := p' |> <| senders ::= <[t := Returned msg r]> |>).
Proof.
  intros [Hp Hu] Ht Hp'. split; cbn.
  - intros u sdu. rewrite lookup_insert_Some. intros [[<- <-]|[Hne Hs]] id Hi; [done|].
    destruct (Hp u sdu Hs id Hi) as (ch & Hch & Hon). exists ch. split; [|done].
    rewrite Hp'; [done|]. intros Hi'. destruct Hne. by eapply Hu.
  - intros t1 t2 sd1 sd2 id. rewrite !lookup_insert_Some.
    intros [[<- <-]|[? ?]] [[<- <-]|[? ?]] ? ?; try done. by eapply Hu.
Qed.

Lemma in_flight_send s t msg ch s' :
  in_flight s → fresh_ids (ASend t msg ch) s → send t msg ch s = Some s' → in_flight s'.
Proof.
  intros [Hp Hu] Hf. unfold send. case_decide as Hn; [|done]. destruct Hn as [Ht _]. cbn in Hf.
  assert (∀ u sdu id, senders s !! u = Some sdu → id_of sdu = Some id → jm_ID msg = Some id → False) as Hno.
  { intros u sdu id Hs Hi Hm. destruct (Hp u sdu Hs id Hi) as (? & ? & _). specialize (Hf id Hm). congruence. }
  destruct (jm_ID msg) as [id|] eqn:Hid; intros [= <-]; split; cbn.
  - intros u sdu. rewrite lookup_insert_Some. intros [[<- <-]|[Hne Hs]] i Hi.
    + cbn in Hi. replace i with id by congruence. exists ch. by rewrite lookup_insert_eq.
    + destruct (Hp u sdu Hs i Hi) as (c & Hc & Hon). exists c. split; [|done].
      rewrite lookup_insert_ne; [done|]. intros ->. eauto.
  - intros t1 t2 sd1 sd2 i. rewrite !lookup_insert_Some.
    intros [[<- <-]|[? ?]] [[<- <-]|[? ?]] ? ?; cbn in *; try done.
    + rewrite Hid in *. exfalso. eauto.
    + rewrite Hid in *. exfalso. eauto.
    + by eapply Hu.
  - apply map_Forall_insert_2; [|done]. intros i. cbn. congruence.
  - intros t1 t2 sd1 sd2 i. rewrite !lookup_insert_Some.
    intros [[<- <-]|[? ?]] [[<- <-]|[? ?]] ? ?; cbn in *; try congruence. by eapply Hu.
Qed.

Lemma in_flight_act a s s' : in_flight s → fresh_ids a s → act a s = Some s' → in_flight s'.
Proof.
  intros Hf Hfr. destruct a as [t msg ch|t err|t|t e|t|msg| | |id ch|id|ch]; cbn; try by eapply in_flight_send.
  - unfold write. destruct (senders s !! t) as [[msg ch| | |]|] eqn:Ht; try done.
    destruct err as [e|], (jm_ID msg) as [id|] eqn:Hid; intros [= <-].
    + by apply (in_flight_step s t (Registered msg ch)).
    + by apply (in_flight_end s t (Registered msg ch)).
    + by apply (in_flight_step (s <| stdin ::= _ |>) t (Registered msg ch)); [destruct Hf|..].
    + by apply (in_flight_end (s <| stdin ::= _ |>) t (Registered msg ch)); [destruct Hf|..].
  - unfold receive. destruct (senders s !! t) as [[|msg ch| |]|] eqn:Ht; try done.
    destruct (responses s !! ch) as [[|m buf]|]; try done. intros [= <-].
    by apply (in_flight_step (s <| responses ::= _ |>) t (Waiting msg ch)); [destruct Hf|..].
  - unfold cancel. destruct (senders s !! t) as [[|msg ch| |]|] eqn:Ht; try done. intros [= <-].
    by apply (in_flight_step s t (Waiting msg ch)).
  - unfold return_. destruct (senders s !! t) as [[| |msg r|]|] eqn:Ht; try done.
    destruct (jm_ID msg) as [i|] eqn:Hi; [|done]. intros [= <-].
    eapply in_flight_end; [done|done|]. cbn. intros id Hid. rewrite lookup_delete_ne; [done|congruence].
  - unfold line, broadcast. destruct (reader s), msg as [msg|]; try done; [|by intros [= <-]].
    intros [= <-]. destruct Hf. case_match; [|by split]. cbn. case_match; by split.
  - unfold deliver. destruct (reader s); try done. case_match; [|done]. case_decide; [|done].
    intros [= <-]. by destruct Hf.
  - destruct (reader s); try done. intros [= <-]. by destruct Hf.
  - case_decide; [|done]. intros [= <-]. by destruct Hf.
  - intros [= <-]. by destruct Hf.
  - case_match; [|done]. case_match; [done|]. intros [= <-]. by destruct Hf.
Qed.

Lemma reachable_in_flight s : reachable fresh_ids s → in_flight s.
Proof.
  induction 1 as [|s a s' _ IH Hf Ha]; [|by eapply in_flight_act].
  split; cbn; [apply map_Forall_empty|]. intros ?????. by rewrite lookup_empty.
Qed.

(** The next response of its id ends a call that waits. *)
Lemma served own s t msg ch id m :
  inv own s → in_flight s →
  senders s !! t = Some (Waiting msg ch) → jm_ID msg = Some id → responses s !! ch = Some [] →
  reader s = Idle → jm_ID m = Some id →
  ∃ s', acts [ALine (Some m); ADeliver; AReceive t; AReturn t] s = Some s' ∧
    senders s' !! t = Some (Returned msg (Ok (Some m))) ∧ pending s' !! id = None ∧ reader s' = Idle.
Proof.
  intros Hinv Hf Ht Hid Hch Hr Hm.
  destruct (fl_pending _ Hf t _ Ht id Hid) as (c & Hp & Hon). cbn in Hon. subst c.
  cbn. unfold line. rewrite Hr, Hm. cbn. rewrite Hp. cbn. unfold deliver. cbn. rewrite Hch. cbn.
  rewrite decide_True by (unfold response_capacity; lia). cbn.
  unfold receive. cbn. rewrite Ht, lookup_insert_eq. cbn. unfold return_. cbn.
  rewrite lookup_insert_eq, Hid. cbn. eexists. split; [done|]. cbn.
  by rewrite lookup_insert_eq, lookup_delete_eq.
Qed.

(** *** Examples *)

Definition request (id : string) (method : string) : jsonRPCMessage :=
  mkMsg "2.0" (Some id) method "" "" None.
Definition response (id : string) (result : string) : jsonRPCMessage :=
  mkMsg "2.0" (Some id) "" "" result None.
Definition notification (method : string) : jsonRPCMessage := mkMsg "2.0" None method "" "" None.

Definition returned (t : nat) (s : State) : option (res (option jsonRPCMessage)) :=
  match senders s !! t with Some (Returned _ r) => Some r | _ => None end.

(** Two clients with their own ids, answered out of order. *)
Definition two_calls : list Action :=
  [ASend 0 (request "1" "tools/list") 0; AWrite 0 None;
   ASend 1 (request "2" "tools/list") 1; AWrite 1 None;
   ALine (Some (response "2" "b")); ADeliver; ALine (Some (response "1" "a")); ADeliver;
   AReceive 0; AReturn 0; AReceive 1; AReturn 1].
Example two_calls_answered :
  (s ← acts two_calls init; mret (returned 0 s, returned 1 s)) =
  Some (Some (Ok (Some (response "1" "a"))), Some (Ok (Some (response "2" "b")))).
Proof. by vm_compute. Qed.

(** Two clients with one id: the second takes the entry, the first response goes to it,
    its return removes the entry, and the response to it is dropped: the first call has
    nothing left to wait for but its context. *)
Definition shared_id : list Action :=
  [ASend 0 (request "1" "a") 0; AWrite 0 None; ASend 1 (request "1" "b") 1; AWrite 1 None;
   ALine (Some (response "1" "to a")); ADeliver; AReceive 1; AReturn 1;
   ALine (Some (response "1" "to b"))].
Example shared_id_starves :
  (s ← acts shared_id init; mret (returned 0 s, returned 1 s, pending s, responses s !! 0%nat)) =
  Some (None, Some (Ok (Some (response "1" "to a"))), ∅, Some []).
Proof. by vm_compute. Qed.

(** A response sent twice to a call whose client left: the read loop waits for room on a
    channel nobody reads any more, and takes no line again. *)
Definition twice_answered : list Action :=
  [ASend 0 (request "1" "a") 0; AWrite 0 None;
   ALine (Some (response "1" "x")); ADeliver; ALine (Some (response "1" "x"));
   ACancel 0 (errorf "context canceled"); AReturn 0].

(** The reader waits for room on a full channel that no call will read. *)
Definition stuck (ch : nat) (m : jsonRPCMessage) (s : State) : Prop :=
  reader s = Delivering ch m ∧ (∃ x, responses s !! ch = Some [x]) ∧
  map_Forall (λ _ sd, match sd with
    | Registered msg c => is_Some (jm_ID msg) → c ≠ ch
    | Waiting _ c => c ≠ ch
    | _ => True
    end) (senders s).

Lemma stuck_act ch m a s s' : stuck ch m s → act a s = Some s' → stuck ch m s'.
Proof.
  intros (Hr & [x Hx] & Hs).
  assert (∀ t sd, match sd with
    | Registered msg c => is_Some (jm_ID msg) → c ≠ ch
    | Waiting _ c => c ≠ ch
    | _ => True end → stuck ch m (s <| senders ::= <[t := sd]> |>)) as Hset.
  { intros t sd Hsd. split_and!; [done|by exists x|]. cbn. by apply map_Forall_insert_2. }
  destruct a as [t msg c|t err|t|t e|t|msg| | |id c|id|c]; cbn.
  - unfold send. case_decide as Hn; [|done]. destruct Hn as [_ Hc].
    assert (c ≠ ch) as Hne by congruence.
    destruct (jm_ID msg) as [id|] eqn:Hid; intros [= <-]; [|by apply Hset].
    destruct (Hset t (Registered msg c)) as (_ & _ & Hs'); [done|].
    split_and!; [done| |exact Hs']. exists x. cbn. by rewrite lookup_insert_ne.
  - unfold write. destruct (senders s !! t) as [[msg c| | |]|] eqn:Ht; try done.
    pose proof (Hs t _ Ht) as Hc. cbn in Hc.
    destruct err as [e|], (jm_ID msg) as [id|] eqn:Hid; intros [= <-]; apply Hset; try done.
    by apply Hc.
  - unfold receive. destruct (senders s !! t) as [[|msg c| |]|] eqn:Ht; try done.
    pose proof (Hs t _ Ht) as Hc. cbn in Hc. destruct (responses s !! c) as [[|m' buf]|]; try done.
    intros [= <-]. destruct (Hset t (Leaving msg (Ok m'))) as (_ & _ & Hs'); [done|].
    split_and!; [done| |exact Hs']. exists x. cbn. by rewrite lookup_insert_ne.
  - unfold cancel. destruct (senders s !! t) as [[|msg c| |]|]; try done. intros [= <-]. by apply Hset.
  - unfold return_. destruct (senders s !! t) as [[| |msg r|]|]; try done.
    destruct (jm_ID msg); [|done]. intros [= <-]. by apply Hset.
  - unfold line. by rewrite Hr.
  - unfold deliver. rewrite Hr, Hx. case_decide as Hc; [|done]. cbn in Hc. unfold response_capacity in Hc. lia.
  - by rewrite Hr.
  - case_decide; [|done]. intros [= <-]. split_and!; [done|by exists x|done].
  - intros [= <-]. split_and!; [done|by exists x|done].
  - case_match; [|done]. case_match; [done|]. intros [= <-]. split_and!; [done|by exists x|done].
Qed.

Lemma stuck_forever ch m l s s' : stuck ch m s → acts l s = Some s' → reader s' = Delivering ch m.
Proof.
  revert s. induction l as [|a l IH]; intros s Hs; cbn.
  - intros [= <-]. apply Hs.
  - destruct (act a s) as [s1|] eqn:Ha; [|done]. cbn. apply IH. by eapply stuck_act.
Qed.

Example twice_answered_left :
  (s ← acts twice_answered init; mret (reader s, responses s !! 0%nat, map_to_list (senders s))) =
  Some (Delivering 0 (response "1" "x"), Some [response "1" "x"],
        [(0%nat, Returned (request "1" "a") (Err (errorf "context canceled")))]).
Proof. by vm_compute. Qed.

Lemma acts_app l1 l2 s : acts (l1 ++ l2) s = s1 ← acts l1 s; acts l2 s1.
Proof. revert s. induction l1 as [|a l1 IH]; intros s; [done|]. cbn. destruct (act a s); [apply IH|done]. Qed.

Example twice_answered_blocks l s :
  acts (twice_answered ++ l) init = Some s → reader s = Delivering 0 (response "1" "x").
Proof.
  rewrite acts_app. pose proof twice_answered_left as Hl.
  destruct (acts twice_answered init) as [s1|]; [|done]. cbn in Hl |- *.
  injection Hl as Hr Hc Hs. apply stuck_forever. split_and!; [done|by eexists|].
  intros t sd Ht%elem_of_map_to_list. rewrite Hs in Ht. by apply list_elem_of_singleton in Ht as [= -> ->].
Qed.
