(* ===== verification/GatewayService.v ===== *)
(** * What the spawn bridge promises

    The MCP gateway in spawn mode as its clients see it: calls that are open
    from some point of what the subprocess says, and are closed by a message
    with their id said since then, or by an error.  GatewaySpawn.v implements
    this service: every action of the bridge is a step of it or none. *)

From S2P Require Import Prelude GoLib Effects GatewaySpawn.

Open Scope string_scope.
Open Scope list_scope.

(** ** The service *)

(** [since]: how many messages were said before the call. *)
Inductive Call :=
| Open (msg : jsonRPCMessage) (since : nat)
| Closed (msg : jsonRPCMessage) (reply : res (option jsonRPCMessage)).
Record Service := mkService { calls : gmap nat Call; said : list jsonRPCMessage }.
Definition idle : Service := mkService ∅ [].

Definition set_call (t : nat) (c : Call) (a : Service) : Service := mkService (<[t := c]> (calls a)) (said a).

Inductive service_step (a : Service) : Service → Prop :=
| step_open t msg : calls a !! t = None → service_step a (set_call t (Open msg (length (said a))) a)
| step_say m : service_step a (mkService (calls a) (said a ++ [m]))
| step_answer t msg k m :
    calls a !! t = Some (Open msg k) → is_Some (jm_ID msg) → jm_ID m = jm_ID msg →
    m ∈ drop k (said a) → service_step a (set_call t (Closed msg (Ok (Some m))) a)
| step_accept t msg k :
    calls a !! t = Some (Open msg k) → jm_ID msg = None →
    service_step a (set_call t (Closed msg (Ok None)) a)
| step_fail t msg k e :
    calls a !! t = Some (Open msg k) → service_step a (set_call t (Closed msg (Err e)) a).

(** ** How a state of the bridge is one of the service

    [born] is how much was said before each response channel was made. *)

Definition heard (born : gmap nat nat) (s : State) (ch : nat) (m : jsonRPCMessage) : Prop :=
  ∃ k, born !! ch = Some k ∧ m ∈ drop k (stdout s).

Definition call_matches (born : gmap nat nat) (s : State) (sd : Sender) (c : Call) : Prop :=
  match sd, c with
  | Registered msg ch, Open msg' k | Waiting msg ch, Open msg' k =>
      msg' = msg ∧ (is_Some (jm_ID msg) → born !! ch = Some k)
  | Leaving msg (Ok m), Open msg' k => msg' = msg ∧ m ∈ drop k (stdout s)
  | Leaving msg (Err _), Open msg' k => msg' = msg
  | Returned msg r, Closed msg' r' => msg' = msg ∧ r' = r
  | _, _ => False
  end.

Record implements (born : gmap nat nat) (s : State) (a : Service) : Prop := {
  im_said : said a = stdout s;
  im_calls t : option_Forall2 (call_matches born s) (senders s !! t) (calls a !! t);
  im_born ch : is_Some (born !! ch) → is_Some (responses s !! ch);
  im_pending id ch : pending s !! id = Some ch → ∃ k, born !! ch = Some k ∧ (k ≤ length (stdout s))%nat;
  im_buffers ch buf : responses s !! ch = Some buf → Forall (heard born s ch) buf;
  im_reader ch m : reader s = Delivering ch m → heard born s ch m;
}.

Lemma drop_said k l m (x : jsonRPCMessage) : m ∈ drop k l → m ∈ drop k (l ++ [x]).
Proof. rewrite drop_app, elem_of_app. by left. Qed.

Lemma heard_later born born' s s' ch m :
  born ⊆ born' → (stdout s' = stdout s ∨ ∃ x, stdout s' = stdout s ++ [x]) →
  heard born s ch m → heard born' s' ch m.
Proof.
  intros Hb Hs (k & Hk & Hm). exists k. split; [by eapply lookup_weaken|].
  destruct Hs as [-> | [x ->]]; [done|by apply drop_said].
Qed.

Lemma call_later born born' s s' sd c :
  born ⊆ born' → (stdout s' = stdout s ∨ ∃ x, stdout s' = stdout s ++ [x]) →
  call_matches born s sd c → call_matches born' s' sd c.
Proof.
  intros Hb Hs. destruct sd as [msg ch|msg ch|msg [m|e]|msg r], c as [msg' k|msg' r']; cbn; try done.
  - intros [-> Hk]. split; [done|]. intros Hid. eapply lookup_weaken; [by apply Hk|done].
  - intros [-> Hk]. split; [done|]. intros Hid. eapply lookup_weaken; [by apply Hk|done].
  - intros [-> Hm]. split; [done|]. destruct Hs as [-> | [x ->]]; [done|by apply drop_said].
Qed.

Lemma calls_later born born' s s' o c :
  born ⊆ born' → (stdout s' = stdout s ∨ ∃ x, stdout s' = stdout s ++ [x]) →
  option_Forall2 (call_matches born s) o c → option_Forall2 (call_matches born' s') o c.
Proof. intros Hb Hs [sd k Hc|]; constructor. by apply (call_later born born' s s'). Qed.

(** A call moves on. *)
Lemma implements_set born s a t sd c :
  implements born s a → call_matches born s sd c →
  implements born (s <| senders ::= <[t := sd]> |>) (set_call t c a).
Proof.
  intros [] Hc. split; try done. intros t'. cbn. rewrite !lookup_insert. case_decide; [by constructor|done].
Qed.

(** The call of a sender. *)
Lemma call_of born s a t sd :
  implements born s a → senders s !! t = Some sd →
  ∃ c, calls a !! t = Some c ∧ call_matches born s sd c.
Proof.
  intros Ha Ht. pose proof (im_calls _ _ _ Ha t) as Hc. rewrite Ht in Hc.
  inversion Hc; subst; eauto.
Qed.

Lemma implements_move born s a t sd c :
  implements born s a → calls a !! t = Some c → call_matches born s sd c →
  implements born (s <| senders ::= <[t := sd]> |>) a.
Proof.
  intros Ha Ht Hc. replace a with (set_call t c a); [by apply implements_set|].
  unfold set_call. rewrite insert_id by done. by destruct a.
Qed.

(** ** Every action is a step of the service, or none *)

Definition simulated (s' : State) (a : Service) : Prop :=
  ∃ born' a', implements born' s' a' ∧ (a' = a ∨ service_step a a').

Section Simulation.
Context (own : gmap nat string) (born : gmap nat nat) (s : State) (a : Service).
Hypothesis Hinv : inv own s.
Hypothesis Ha : implements born s a.

Lemma quiet s' : implements born s' a → simulated s' a.
Proof. intros ?. exists born, a. auto. Qed.

Lemma sim_send t msg ch s' : send t msg ch s = Some s' → simulated s' a.
Proof.
  unfold send. case_decide as Hn; [|done]. destruct Hn as [Ht Hch].
  assert (calls a !! t = None) as Hnew.
  { pose proof (im_calls _ _ _ Ha t) as Hc. rewrite Ht in Hc. by inversion Hc. }
  destruct (jm_ID msg) as [id|] eqn:Hid; intros [= <-].
  - assert (born !! ch = None) as Hb.
    { destruct (born !! ch) eqn:E; [|done]. destruct (im_born _ _ _ Ha ch); [by eexists|congruence]. }
    exists (<[ch := length (stdout s)]> born), (set_call t (Open msg (length (said a))) a).
    split; [|right; by constructor].
    assert (born ⊆ <[ch := length (stdout s)]> born) as Hsub by (by apply insert_subseteq).
    apply (implements_set _ (s <| pending ::= <[id := ch]> |> <| responses ::= <[ch := []]> |>)).
    + destruct Ha. split; cbn; [done|..].
      * intros t'. by apply (calls_later born _ s); [|left|].
      * intros c. rewrite !lookup_insert_is_Some. intros [->|[? Hc]]; [by left|right; auto].
      * intros i c. rewrite lookup_insert_Some. intros [[<- <-]|[_ Hp]].
        -- exists (length (stdout s)). by rewrite lookup_insert_eq.
        -- destruct (im_pending0 i c Hp) as (k & Hk & Hle). exists k. split; [|done]. by eapply lookup_weaken.
      * intros c buf. rewrite lookup_insert_Some. intros [[<- <-]|[_ Hc]]; [constructor|].
        eapply Forall_impl; [by apply im_buffers0|]. intros m. by apply (heard_later born _ s); [|left].
      * intros c m Hr. apply (heard_later born _ s); [done|by left|auto].
    + cbn. rewrite lookup_insert_eq, (im_said _ _ _ Ha). auto.
  - exists born, (set_call t (Open msg (length (said a))) a). split; [|right; by constructor].
    apply implements_set; [done|]. cbn. split; [done|]. rewrite Hid. by intros [].
Qed.

Lemma sim_write t err s' : write t err s = Some s' → simulated s' a.
Proof.
  unfold write. destruct (senders s !! t) as [[msg ch| | |]|] eqn:Ht; try done.
  destruct (call_of _ _ _ _ _ Ha Ht) as ([msg' k|] & Hc & Hm); [|done]. cbn in Hm. destruct Hm as [-> Hk].
  destruct err as [e|], (jm_ID msg) as [id|] eqn:Hid; intros [= <-].
  - apply quiet. by apply (implements_move _ _ _ _ _ (Open msg k)).
  - exists born, (set_call t (Closed msg (Err e)) a). split; [by apply implements_set|right; by econstructor].
  - apply quiet. apply (implements_move _ (s <| stdin ::= λ l, l ++ [msg] |>) _ _ _ (Open msg k)); [|done|].
    + by destruct Ha.
    + cbn. rewrite Hid. auto.
  - exists born, (set_call t (Closed msg (Ok None)) a). split; [|right; by econstructor].
    apply (implements_set _ (s <| stdin ::= λ l, l ++ [msg] |>)); [by destruct Ha|done].
Qed.

Lemma sim_receive t s' : receive t s = Some s' → simulated s' a.
Proof.
  unfold receive. destruct (senders s !! t) as [[|msg ch| |]|] eqn:Ht; try done.
  destruct (responses s !! ch) as [[|m buf]|] eqn:Hc; try done. intros [= <-].
  destruct (call_of _ _ _ _ _ Ha Ht) as ([msg' k|] & Hcall & Hm); [|done]. cbn in Hm. destruct Hm as [-> Hk].
  destruct (iv_senders _ _ Hinv t _ Ht) as (_ & id & Hid & _). specialize (Hk (ex_intro _ id Hid)).
  pose proof (im_buffers _ _ _ Ha ch _ Hc) as Hb. apply Forall_cons in Hb as [(k' & Hk' & Hin) Hb].
  apply quiet. apply (implements_move _ (s <| responses ::= <[ch := buf]> |>) _ _ _ (Open msg k)); [|done|].
  - destruct Ha. split; try done; cbn.
    + intros c Hc'. rewrite lookup_insert_is_Some. destruct (decide (ch = c)); [by left|right; auto].
    + intros c b. rewrite lookup_insert_Some. intros [[<- <-]|[_ ?]]; [done|by apply im_buffers0].
  - cbn. split; [done|]. congruence.
Qed.

Lemma sim_cancel t e s' : cancel t e s = Some s' → simulated s' a.
Proof.
  unfold cancel. destruct (senders s !! t) as [[|msg ch| |]|] eqn:Ht; try done. intros [= <-].
  destruct (call_of _ _ _ _ _ Ha Ht) as ([msg' k|] & Hcall & Hm); [|done]. cbn in Hm. destruct Hm as [-> Hk].
  apply quiet. by apply (implements_move _ _ _ _ _ (Open msg k)).
Qed.

Lemma sim_return t s' : return_ t s = Some s' → simulated s' a.
Proof.
  unfold return_. destruct (senders s !! t) as [[| |msg r|]|] eqn:Ht; try done.
  destruct (jm_ID msg) as [id|] eqn:Hid; [|done]. intros [= <-].
  destruct (call_of _ _ _ _ _ Ha Ht) as ([msg' k|] & Hcall & Hm); [|by destruct r].
  assert (implements born (s <| pending ::= delete id |>) a) as Ha'.
  { destruct Ha. split; try done. cbn. intros i ch. rewrite lookup_delete_Some. intros [_ Hp]. by apply im_pending0 in Hp. }
  pose proof (iv_senders _ _ Hinv t _ Ht) as Hs. destruct r as [m|e]; cbn in Hm, Hs.
  - destruct Hm as [-> Hm], Hs as (Hsome & Heq & _). exists born, (set_call t (Closed msg (Ok (Some m))) a).
    split; [by apply (implements_set _ (s <| pending ::= delete id |>))|]. right.
    apply (step_answer a t msg k); [done..|]. by rewrite (im_said _ _ _ Ha).
  - subst msg'. exists born, (set_call t (Closed msg (Err e)) a).
    split; [by apply (implements_set _ (s <| pending ::= delete id |>))|]. right. by econstructor.
Qed.

(** A line is said, whatever becomes of it. *)
Lemma implements_said m :
  implements born (s <| stdout ::= λ l, l ++ [m] |>) (mkService (calls a) (said a ++ [m])).
Proof.
  assert (∀ ch x, heard born s ch x → heard born (s <| stdout ::= λ l, l ++ [m] |>) ch x) as Hh.
  { intros ch x. apply (heard_later born born s); [done|]. right. by exists m. }
  destruct Ha. split; cbn; try done.
  - by rewrite im_said0.
  - intros t. apply (calls_later born born s); [done| |done]. right. by exists m.
  - intros id ch Hp. destruct (im_pending0 id ch Hp) as (k & Hk & Hle). exists k. split; [done|].
    rewrite length_app. lia.
  - intros ch buf Hc. eapply Forall_impl; [by apply im_buffers0|]. apply Hh.
  - intros ch x Hr. by apply Hh, im_reader0.
Qed.

Lemma sim_line msg s' : line msg s = Some s' → simulated s' a.
Proof.
  unfold line. destruct (reader s) eqn:Hr; try done. destruct msg as [m|]; [|intros [= <-]; by apply quiet].
  cbv zeta. intros [= <-]. exists born, (mkService (calls a) (said a ++ [m])). split; [|right; constructor].
  pose proof (implements_said m) as Hi. set (s1 := s <| stdout ::= _ |>) in *.
  destruct (jm_ID m) as [id|]; [|by destruct Hi]. destruct (pending s !! id) as [ch|] eqn:Hp; [|done].
  destruct (im_pending _ _ _ Ha id ch Hp) as (k & Hk & Hle). destruct Hi. split; try done. cbn.
  intros c x [= <- <-]. exists k. split; [done|]. cbn. rewrite drop_app_le by done. set_solver.
Qed.

Lemma sim_deliver s' : deliver s = Some s' → simulated s' a.
Proof.
  unfold deliver. destruct (reader s) as [|ch msg|] eqn:Hr; try done.
  destruct (responses s !! ch) as [buf|] eqn:Hc; [|done]. case_decide; [|done]. intros [= <-].
  apply quiet. pose proof (im_reader _ _ _ Ha ch msg Hr) as Hm. destruct Ha. split; try done; cbn.
  - intros c Hc'. rewrite lookup_insert_is_Some. destruct (decide (ch = c)); [by left|right; auto].
  - intros c b. rewrite lookup_insert_Some. intros [[<- <-]|[_ ?]]; [|by apply im_buffers0].
    apply Forall_app. split; [by apply im_buffers0|]. by apply Forall_singleton.
Qed.

Lemma sim_act x s' : act x s = Some s' → simulated s' a.
Proof.
  destruct x as [t msg ch|t err|t|t e|t|msg| | |id ch|id|ch]; cbn.
  - apply sim_send.
  - apply sim_write.
  - apply sim_receive.
  - apply sim_cancel.
  - apply sim_return.
  - apply sim_line.
  - apply sim_deliver.
  - destruct (reader s); try done. intros [= <-]. apply quiet. by destruct Ha.
  - case_decide; [|done]. intros [= <-]. apply quiet. by destruct Ha.
  - intros [= <-]. apply quiet. by destruct Ha.
  - case_match; [|done]. case_match; [done|]. intros [= <-]. apply quiet. by destruct Ha.
Qed.
End Simulation.

Lemma implements_init : implements ∅ init idle.
Proof.
  split; cbn; try done.
  - intros t. rewrite !lookup_empty. constructor.
  - by intros ch [? Hch%lookup_empty_Some].
Qed.

Lemma reachable_implements P s :
  reachable P s → ∃ own born a, inv own s ∧ implements born s a ∧ rtc service_step idle a.
Proof.
  induction 1 as [|s x s' _ (own & born & a & Hinv & Ha & Hsteps) _ Hx].
  - exists ∅, ∅, idle. split_and!; [apply inv_init|apply implements_init|apply rtc_refl].
  - destruct (inv_act _ _ _ _ Hinv Hx) as [own' Hinv'].
    destruct (sim_act own born s a Hinv Ha x s' Hx) as (born' & a' & Ha' & Hstep).
    exists own', born', a'. split_and!; [done|done|]. destruct Hstep as [->|Hstep]; [done|].
    by eapply rtc_r.
Qed.

(** [C32] Whatever the interleaving of the clients, the read loop and the subprocess, the
    bridge is in a state of the service: what the subprocess said is what it read, every
    call of [Send] in progress is open, and one that returned is closed with what it
    returned, which is a message with the id of its request said since the call began, no
    message for a notification, or an error.  A response channel never holds more than one
    message and an SSE channel never more than 64.  When no client sends an id that is in
    flight, a call that waits with nothing delivered is ended by the next response of its
    id. *)
Theorem bridge_refines_service P s :
  reachable P s →
  (∃ a, rtc service_step idle a ∧ said a = stdout s ∧
     ∀ t, match senders s !! t with
          | None => calls a !! t = None
          | Some (Returned msg r) => calls a !! t = Some (Closed msg r)
          | Some (Registered msg _ | Waiting msg _ | Leaving msg _) => ∃ k, calls a !! t = Some (Open msg k)
          end) ∧
  map_Forall (λ _ buf, (length buf ≤ 1)%nat) (responses s) ∧
  map_Forall (λ _ buf, (length buf ≤ 64)%nat) (notifications s) ∧
  (reachable fresh_ids s →
   ∀ t msg ch id m, senders s !! t = Some (Waiting msg ch) → jm_ID msg = Some id →
   responses s !! ch = Some [] → reader s = Idle → jm_ID m = Some id →
   ∃ s', acts [ALine (Some m); ADeliver; AReceive t; AReturn t] s = Some s' ∧
     senders s' !! t = Some (Returned msg (Ok (Some m))) ∧ pending s' !! id = None ∧ reader s' = Idle).
Proof.
  intros (own & born & a & Hinv & Ha & Hsteps)%reachable_implements. split_and!.
  - exists a. split_and!; [done|apply (im_said _ _ _ Ha)|]. intros t.
    pose proof (im_calls _ _ _ Ha t) as Hc. destruct (senders s !! t) as [sd|]; [|by inversion Hc].
    inversion Hc as [? c Hm|]; subst. destruct sd as [| |msg [|]|], c; cbn in Hm; naive_solver.
  - intros ch buf Hc. apply (iv_buffers _ _ Hinv ch buf Hc).
  - apply (iv_notes _ _ Hinv).
  - intros Hfr%reachable_in_flight. intros. by eapply served.
Qed.

(** A client waits for the response to its request. *)
Definition waiting : State :=
  default init (acts [ASend 0 (request "1" "tools/list") 0; AWrite 0 None] init).

Lemma waiting_reachable : reachable fresh_ids waiting.
Proof.
  pose (s1 := default init (send 0 (request "1" "tools/list") 0 init)).
  apply (reach_act fresh_ids s1 (AWrite 0 None)); [|done|reflexivity].
  apply (reach_act fresh_ids init (ASend 0 (request "1" "tools/list") 0)); [apply reach_init| |reflexivity].
  intros id _. apply lookup_empty.
Qed.

Lemma bridge_refines_service_witness :
  reachable fresh_ids waiting ∧
  ∃ s', acts [ALine (Some (response "1" "tools")); ADeliver; AReceive 0; AReturn 0] waiting = Some s' ∧
    senders s' !! 0%nat = Some (Returned (request "1" "tools/list") (Ok (Some (response "1" "tools")))) ∧
    pending s' !! "1" = None ∧ reader s' = Idle.
Proof.
  split; [apply waiting_reachable|].
  destruct (bridge_refines_service fresh_ids waiting waiting_reachable) as (_ & _ & _ & Hserved).
  by apply (Hserved waiting_reachable 0%nat (request "1" "tools/list") 0%nat "1" (response "1" "tools")).
Defined.
