(* ===== verification/TokenInjector.v ===== *)
(** * The token injector (images/token-injector/main.go)

    The sidecar that puts a bearer token on every request: its configuration,
    the cached OAuth2 client_credentials grant, the form it is asked with, and
    the director of the reverse proxy.  [Get] holds the cache's mutex, so
    calls of it are a sequence.  [url_Parse] is net/url's.  Times are
    nanoseconds; durations wrap at 64 bits where Go's multiplication does. *)

From S2P Require Import Prelude GoLib Json JsonEncode JsonCodec Effects.

Open Scope string_scope.
Open Scope list_scope.

(** ** The standard library it uses *)

Definition wrap64 (z : Z) : Z := ((z + GoTime.two63) mod (2 * GoTime.two63) - GoTime.two63)%Z.
Definition int64_ok (z : Z) : Prop := (- GoTime.two63 ≤ z < GoTime.two63)%Z.

Lemma wrap64_ok z : int64_ok (wrap64 z).
Proof. unfold int64_ok, wrap64, GoTime.two63. pose proof (Z.mod_pos_bound (z + 9223372036854775808) (2 * 9223372036854775808)). lia. Qed.
Lemma wrap64_id z : int64_ok z → wrap64 z = z.
Proof. unfold int64_ok, wrap64, GoTime.two63. intros Hz. rewrite Z.mod_small; lia. Qed.

(** [strconv.Atoi]: an optional sign and decimal digits. *)
Definition Atoi (s : string) : option Z :=
  let digits l := match l with [] => None | _ => dec_digits 0 l end in
  n ← match GoStrings.chars s with
      | a :: l => if decide (a = "-"%char) then Z.opp <$> digits l
                  else if decide (a = "+"%char) then digits l else digits (a :: l)
      | [] => None
      end;
  if decide (int64_ok n) then Some n else None.

Record URL := mkURL { u_Scheme : string; u_Host : string; u_Path : string; u_RawQuery : string }.
Class UrlOps := { url_Parse : string → res URL }.

(** *** url.Values *)

Definition unreserved (a : ascii) : bool :=
  let n := N_of_ascii a in
  bool_decide ((97 ≤ n ≤ 122) ∨ (65 ≤ n ≤ 90) ∨ (48 ≤ n ≤ 57) ∨ n = 45 ∨ n = 95 ∨ n = 46 ∨ n = 126)%N.
Definition upper_hex (n : N) : ascii :=
  ascii_of_N (if decide (n < 10)%N then 48 + n else 55 + n)%N.
Definition query_byte (a : ascii) : string :=
  if unreserved a then String a ""
  else if decide (a = " "%char) then "+"
  else String "%" (String (upper_hex (N_of_ascii a / 16)) (String (upper_hex (N_of_ascii a mod 16)) "")).
Fixpoint QueryEscape (s : string) : string :=
  match s with EmptyString => "" | String a s' => query_byte a +:+ QueryEscape s' end.

(** Every key was [Set], so it has one value. *)
Definition Encode (form : gmap string string) : string :=
  GoStrings.Join (map (λ kv, QueryEscape (fst kv) +:+ "=" +:+ QueryEscape (snd kv))
                    (sorted_keys (map_to_list form))) "&".

(** What reads it back: [url.ParseQuery]. *)
Definition unhex (a : ascii) : option N :=
  let n := N_of_ascii a in
  if decide (48 ≤ n ≤ 57)%N then Some (n - 48)%N
  else if decide (65 ≤ n ≤ 70)%N then Some (n - 55)%N
  else if decide (97 ≤ n ≤ 102)%N then Some (n - 87)%N else None.
Fixpoint QueryUnescape (s : string) : option string :=
  match s with
  | EmptyString => Some ""
  | String a s' =>
      if decide (a = "%"%char) then
        match s' with
        | String h (String l s'') =>
            x ← unhex h; y ← unhex l; String (ascii_of_N (16 * x + y)) <$> QueryUnescape s''
        | _ => None
        end
      else String (if decide (a = "+"%char) then " "%char else a) <$> QueryUnescape s'
  end.
Fixpoint parse_pairs (l : list string) (m : gmap string (list string)) : option (gmap string (list string)) :=
  match l with
  | [] => Some m
  | p :: l' =>
      if decide (p = "") then parse_pairs l' m
      else if decide (";"%char ∈ GoStrings.chars p) then None
      else
        let '(k, v) := default (p, "") (GoStrings.cut "=" p) in
        k ← QueryUnescape k; v ← QueryUnescape v;
        parse_pairs l' (<[k := default [] (m !! k) ++ [v]]> m)
  end.
Definition ParseQuery (s : string) : option (gmap string (list string)) := parse_pairs (GoStrings.Split "&" s) ∅.

(** ** Configuration *)

Record config := mkConfig {
  TargetURL : URL; TokenURL : string; ClientID : string; ClientSecret : string;
  Scope : string; Audience : string; ListenPort : Z; Timeout : Z; RefreshLeeway : Z;
}.

Definition envIntDefault (env : string → string) (key : string) (def : Z) : Z :=
  if decide (env key = "") then def
  else match Atoi (env key) with
       | Some n => if decide (n ≤ 0)%Z then def else n
       | None => def
       end.

Section Injector.
Context `{UrlOps}.

(** [env] is [os.Getenv]. *)
Definition loadConfig (env : string → string) : res config :=
  let target := env "TOKEN_INJECTOR_TARGET_URL" in
  let tokenURL := env "TOKEN_INJECTOR_TOKEN_URL" in
  let clientID := env "TOKEN_INJECTOR_CLIENT_ID" in
  let clientSecret := env "TOKEN_INJECTOR_CLIENT_SECRET" in
  if decide (target = "") then Err (errorf "TOKEN_INJECTOR_TARGET_URL is required")
  else if decide (tokenURL = "") then Err (errorf "TOKEN_INJECTOR_TOKEN_URL is required")
  else if decide (clientID = "") then Err (errorf "TOKEN_INJECTOR_CLIENT_ID is required")
  else if decide (clientSecret = "") then Err (errorf "TOKEN_INJECTOR_CLIENT_SECRET is required")
  else match url_Parse target with
  | Err e => Err (wrapf "invalid TOKEN_INJECTOR_TARGET_URL" e)
  | Ok tu =>
      if decide (u_Scheme tu = "" ∨ u_Host tu = "")
      then Err (errorf ("TOKEN_INJECTOR_TARGET_URL must be absolute, got " +:+ GoFmt.q target))
      else
        let port := envIntDefault env "TOKEN_INJECTOR_LISTEN_PORT" 9101 in
        let timeout := wrap64 (envIntDefault env "TOKEN_INJECTOR_TIMEOUT_SECONDS" 120 * GoTime.Second) in
        let leeway := wrap64 (envIntDefault env "TOKEN_INJECTOR_REFRESH_LEEWAY_SECONDS" 30 * GoTime.Second) in
        Ok (mkConfig tu tokenURL clientID clientSecret
              (env "TOKEN_INJECTOR_SCOPE") (env "TOKEN_INJECTOR_AUDIENCE") port timeout leeway)
  end.

(** ** The token cache *)

Record tokenResponse := mkTokenResponse { AccessToken : string; TokenType : string; ExpiresIn : Z }.
#[local] Instance tokenResponse_fields : Fields tokenResponse := λ r,
  mkTokenResponse (AccessToken r) (TokenType r) (ExpiresIn r).
Definition token_fields : list (Field tokenResponse) :=
  [ ("access_token", store_string (λ r s, r <| AccessToken := s |>));
    ("token_type", store_string (λ r s, r <| TokenType := s |>));
    ("expires_in", store_int (λ r n, r <| ExpiresIn := n |>)) ].
Definition zeroTokenResponse : tokenResponse := mkTokenResponse "" "" 0.

Record tokenCache := mkCache { token : string; expiresAt : Z }.
Definition newTokenCache : tokenCache := mkCache "" 0.

Definition truncate (s : string) (max : nat) : string :=
  if decide (String.length s ≤ max)%nat then s else substring 0 max s +:+ "...(truncated)".

Variable cfg : config.

Definition token_form : gmap string string :=
  let form := <["client_secret" := ClientSecret cfg]> (<["client_id" := ClientID cfg]>
              {["grant_type" := "client_credentials"]}) in
  let form := if decide (Scope cfg ≠ "") then <["scope" := Scope cfg]> form else form in
  if decide (Audience cfg ≠ "") then <["audience" := Audience cfg]> form else form.

Definition token_request : HttpRequest :=
  mkHttp "POST" (TokenURL cfg)
    [("Content-Type", "application/x-www-form-urlencoded"); ("Accept", "application/json")]
    (Encode token_form) (Timeout cfg).

(** What a successful answer of the token endpoint grants: the token and its life. *)
Definition granted (resp : HttpResponse) : res (string * Z) :=
  let body := GoStrings.limit_bytes 1048576 (hs_body resp) in
  if decide (hs_status resp < 200 ∨ 300 ≤ hs_status resp)%Z
  then Err (errorf ("token endpoint returned " +:+ GoFmt.d (hs_status resp) +:+ ": " +:+ truncate body 512))
  else match unmarshal_strict token_fields zeroTokenResponse body with
  | None => Err (errorf "decode token response")
  | Some tr =>
      if decide (AccessToken tr = "") then Err (errorf "token endpoint returned empty access_token")
      else Ok (AccessToken tr, if decide (ExpiresIn tr ≤ 0)%Z then 300%Z else ExpiresIn tr)
  end.

Definition refresh (c : tokenCache) : prog (res string * tokenCache) :=
  match url_Parse (TokenURL cfg) with
  | Err e => mret (Err (wrapf "build token request" e), c)
  | Ok _ =>
      resp ← call (OpHttp token_request);
      match resp with
      | Err e => mret (Err (wrapf "token endpoint request" e), c)
      | Ok resp =>
          match granted resp with
          | Err e => mret (Err e, c)
          | Ok (tok, expiresIn) =>
              now ← call OpNow;
              mret (Ok tok, mkCache tok (now + wrap64 (expiresIn * GoTime.Second)))
          end
      end
  end.

Definition Get (c : tokenCache) : prog (res string * tokenCache) :=
  if decide (token c ≠ "") then
    now ← call OpNow;
    if decide (RefreshLeeway cfg < GoTime.since (expiresAt c) now)%Z
    then mret (Ok (token c), c) else refresh c
  else refresh c.

(** ** The reverse proxy *)

(** A request on its way upstream; [rq_tokenErr] is the context value. *)
Record Request := mkRequest {
  rq_URL : URL; rq_Host : string; rq_Header : gmap string (list string); rq_tokenErr : option GoError;
}.

(** [singleJoiningSlash] and the director of [NewSingleHostReverseProxy], for
    paths without escapes. *)
Definition joinSlash (a b : string) : string :=
  match GoStrings.HasSuffix a "/", GoStrings.HasPrefix b "/" with
  | true, true => a +:+ substring 1 (String.length b - 1) b
  | false, false => a +:+ "/" +:+ b
  | _, _ => a +:+ b
  end.
Definition defaultDirector (req : Request) : Request :=
  let target := TargetURL cfg in
  let u := rq_URL req in
  let query :=
    if decide (u_RawQuery target = "" ∨ u_RawQuery u = "") then u_RawQuery target +:+ u_RawQuery u
    else u_RawQuery target +:+ "&" +:+ u_RawQuery u in
  mkRequest (mkURL (u_Scheme target) (u_Host target) (joinSlash (u_Path target) (u_Path u)) query)
    (rq_Host req) (rq_Header req) (rq_tokenErr req).

Definition Director (req : Request) (c : tokenCache) : prog (Request * tokenCache) :=
  let req := defaultDirector req in
  '(tok, c') ← Get c;
  mret (match tok with
  | Err e => (mkRequest (rq_URL req) (u_Host (TargetURL cfg)) (rq_Header req) (Some e), c')
  | Ok tok => (mkRequest (rq_URL req) (u_Host (TargetURL cfg))
                 (<["Authorization" := ["Bearer " +:+ tok]]> (rq_Header req)) (rq_tokenErr req), c')
  end).

(** The status and text written when the transport fails. *)
Definition ErrorHandler (req : Request) (err : GoError) : Z * string :=
  match rq_tokenErr req with
  | Some tokenErr => (502%Z, "token-injector: token fetch failed: " +:+ err_msg tokenErr)
  | None => (502%Z, "token-injector: upstream error: " +:+ err_msg err)
  end.

(** One request: [transport] is what the upstream answers. *)
Definition serve (transport : Request → res HttpResponse) (req : Request) (c : tokenCache)
  : prog ((Z * string) * Request * tokenCache) :=
  '(req', c') ← Director req c;
  mret (match transport req' with
        | Ok resp => ((hs_status resp, hs_body resp), req', c')
        | Err e => (ErrorHandler req' e, req', c')
        end).

(** ** The tokens served *)

(** A token endpoint's answer that grants [tok] for [e] seconds. *)
Definition grants (resp : HttpResponse) (tok : string) (e : Z) : Prop :=
  (200 ≤ hs_status resp < 300)%Z ∧ tok ≠ "" ∧ (0 < e)%Z ∧
  ∃ r, unmarshal_strict token_fields zeroTokenResponse (GoStrings.limit_bytes 1048576 (hs_body resp)) = Some r ∧
    AccessToken r = tok ∧ (e = ExpiresIn r ∨ (ExpiresIn r ≤ 0)%Z ∧ e = 300%Z).

(** [tr] ends with a token endpoint's answer that grants [tok] for [e] seconds,
    read at [t]. *)
Definition fetched (tr : Trace) (tok : string) (e t : Z) : Prop :=
  ∃ tr0 resp, tr = tr0 ++ [existT (OpHttp token_request) (Ok resp); existT OpNow t] ∧
    grants resp tok e.

Definition cached (c : tokenCache) (tr : Trace) : Prop :=
  token c = "" ∨ ∃ tr1 tr2 t e, tr = tr1 ++ tr2 ∧ fetched tr1 (token c) e t ∧
    expiresAt c = (t + wrap64 (e * GoTime.Second))%Z.

(** The token was granted by the last answer, or is at least the leeway from its end at
    the last reading of the clock. *)
Definition valid (tr : Trace) (tok : string) : Prop :=
  ∃ tr1 tr2 t e, tr = tr1 ++ tr2 ∧ fetched tr1 tok e t ∧ (0 < e)%Z ∧
    (tr2 = [] ∨ ∃ rest now, tr2 = rest ++ [existT OpNow now] ∧
       (e ≤ 9223372036 → now + RefreshLeeway cfg < t + e * GoTime.Second)%Z).

(** The cache after some calls of [Get], with what they asked and were answered. *)
Inductive session : tokenCache → Trace → Prop :=
| session_new : session newTokenCache []
| session_get c tr tr' r c' : session c tr → exec any_answer (Get c) tr' (r, c') → session c' (tr ++ tr').

Lemma granted_ok resp tok e : granted resp = Ok (tok, e) → grants resp tok e.
Proof.
  unfold granted, grants. case_decide; [done|]. destruct (unmarshal_strict _ _ _) as [r|]; [|done].
  case_decide; [done|]. intros [= <- <-]. split; [lia|]. split; [done|].
  split; [case_decide; lia|]. exists r. split_and!; [done|done|]. case_decide; auto.
Qed.

Lemma cached_app c tr tr' : cached c tr → cached c (tr ++ tr').
Proof.
  intros [Hc|(tr1 & tr2 & t & e & -> & Hf & He)]; [by left|right].
  exists tr1, (tr2 ++ tr'), t, e. by rewrite app_assoc.
Qed.

Definition got (c : tokenCache) (tr : Trace) (rc : res string * tokenCache) : Prop :=
  cached (snd rc) tr ∧
  match fst rc with Ok tok => valid tr tok | Err _ => snd rc = c end.

Lemma refresh_wp c tr : cached c tr → wp any_answer (refresh c) (got c) tr.
Proof.
  intros Hc. unfold refresh. destruct (url_Parse _) as [u|e]; [|by split].
  apply wp_call. intros [resp|e] _; [|by split; [apply cached_app|]].
  destruct (granted resp) as [[tok e]|err] eqn:Hg; [|by split; [apply cached_app|]].
  apply wp_call. intros now _. apply wp_ret. apply granted_ok in Hg as Hgr.
  assert (0 < e)%Z as He by apply Hgr.
  assert (fetched ((tr ++ [existT (OpHttp token_request) (Ok resp)]) ++ [existT OpNow now]) tok e now) as Hf.
  { exists tr, resp. by rewrite <- app_assoc. }
  split; cbn.
  - right. eexists _, [], now, e. by rewrite app_nil_r.
  - eexists _, [], now, e. rewrite app_nil_r. auto.
Qed.

Lemma until_lt leeway exp now :
  int64_ok leeway → (leeway < GoTime.since exp now)%Z → (leeway < exp - now)%Z.
Proof. unfold int64_ok, GoTime.since. lia. Qed.

Lemma life_ok e : (0 < e ≤ 9223372036)%Z → wrap64 (e * GoTime.Second) = (e * GoTime.Second)%Z.
Proof. intros He. apply wrap64_id. unfold int64_ok, GoTime.two63, GoTime.Second. lia. Qed.

Lemma Get_wp c tr :
  int64_ok (RefreshLeeway cfg) → cached c tr → wp any_answer (Get c) (got c) tr.
Proof.
  intros Hl Hc. unfold Get. case_decide as Ht; [|by apply refresh_wp].
  apply wp_call. intros now _. case_decide as Hu; [|by apply refresh_wp, cached_app].
  apply wp_ret. split; [by apply cached_app|]. cbn.
  destruct Hc as [Hc|(tr1 & tr2 & t & e & -> & Hf & He)]; [done|].
  exists tr1, (tr2 ++ [existT OpNow now]), t, e. split; [by rewrite app_assoc|]. split; [done|].
  assert (0 < e)%Z as He0 by (by destruct Hf as (? & resp & _ & _ & _ & ? & _)).
  split; [done|]. right. exists tr2, now. split; [done|]. intros Hmax.
  apply until_lt in Hu; [|done]. rewrite He, life_ok in Hu by lia. lia.
Qed.

Lemma session_cached c tr : int64_ok (RefreshLeeway cfg) → session c tr → cached c tr.
Proof.
  intros Hl. induction 1 as [|c tr tr' r c' _ IH He]; [by left|].
  exact (proj1 (wp_exec _ _ _ _ _ _ He (Get_wp c tr Hl IH))).
Qed.

End Injector.

Lemma loadConfig_leeway `{UrlOps} env cfg : loadConfig env = Ok cfg → int64_ok (RefreshLeeway cfg).
Proof.
  unfold loadConfig. repeat (case_decide; [done|]). destruct (url_Parse _); [|done].
  case_decide; [done|]. intros [= <-]. apply wrap64_ok.
Qed.

(** [C33] What the proxy sends upstream, after any calls of [Get] and whatever the token
    endpoint and the clock answer: the request is for the target's host, and either its
    Authorization is exactly the bearer token [Get] returned (replacing the client's),
    which the endpoint granted in a 2xx answer with a non-empty access_token, either just
    now or for a life whose end is still more than the leeway away (lives up to the
    9223372036 seconds a duration holds); or there was an error, which is kept with the
    request, the cache is as before and the headers are the client's. *)
Theorem served_token_valid `{UrlOps} env cfg c tr req :
  loadConfig env = Ok cfg → session cfg c tr →
  wp any_answer (Director cfg req c) (λ tr' '(req', c'),
    u_Host (rq_URL req') = u_Host (TargetURL cfg) ∧ rq_Host req' = u_Host (TargetURL cfg) ∧
    ((∃ tok, rq_Header req' = <["Authorization" := ["Bearer " +:+ tok]]> (rq_Header req) ∧
        rq_tokenErr req' = rq_tokenErr req ∧ valid cfg tr' tok) ∨
     (∃ e, rq_tokenErr req' = Some e ∧ rq_Header req' = rq_Header req ∧ c' = c))) tr.
Proof.
  intros Hl%loadConfig_leeway Hs. unfold Director. apply wp_bind.
  eapply wp_mono; [|apply Get_wp; [done|by apply session_cached]].
  intros tr' [[tok|e] c'] [Hc Hv]; apply wp_ret; split_and!; try done; cbn in *.
  - left. by exists tok.
  - right. by exists e.
Qed.

(** *** A run *)

Module Demo.
Definition env (key : string) : string :=
  default "" (list_to_map (M:=gmap string string)
    [("TOKEN_INJECTOR_TARGET_URL", "https://llm.example/v1"); ("TOKEN_INJECTOR_TOKEN_URL", "https://sso.example/token");
     ("TOKEN_INJECTOR_CLIENT_ID", "agent"); ("TOKEN_INJECTOR_CLIENT_SECRET", "s&c=r%t");
     ("TOKEN_INJECTOR_LISTEN_PORT", "none")] !! key).
#[export] Instance urls : UrlOps := { url_Parse s :=
  if decide (s = "https://llm.example/v1") then Ok (mkURL "https" "llm.example" "/v1" "")
  else if decide (s = "https://sso.example/token") then Ok (mkURL "https" "sso.example" "/token" "")
  else Err (errorf "parse") }.
Definition cfg : config :=
  mkConfig (mkURL "https" "llm.example" "/v1" "") "https://sso.example/token" "agent" "s&c=r%t" "" "" 9101
    120000000000 30000000000.
Example cfg_loaded : loadConfig env = Ok cfg.
Proof. by vm_compute. Qed.

Definition quoted (s : string) : string := String (ascii_of_nat 34) (s +:+ String (ascii_of_nat 34) "").
Definition answer : HttpResponse :=
  mkHttpResp 200 ("{" +:+ quoted "access_token" +:+ ": " +:+ quoted "t0k" +:+ ", " +:+ quoted "expires_in" +:+ ": 3600}").
Definition cache : tokenCache := mkCache "t0k" 3600000001000.

Lemma first_get :
  exec any_answer (Get cfg newTokenCache)
    [existT (OpHttp (token_request cfg)) (Ok answer); existT OpNow 1000%Z] (Ok "t0k", cache).
Proof.
  assert (granted answer = Ok ("t0k", 3600%Z)) as Hg by (by vm_compute).
  change (Get cfg newTokenCache) with (refresh cfg newTokenCache). unfold refresh.
  change (url_Parse (TokenURL cfg)) with (Ok (mkURL "https" "sso.example" "/token" "")).
  apply exec_call; [done|]. cbv beta. rewrite Hg. apply exec_call; [done|]. apply exec_done.
Qed.

Lemma first_session : session cfg cache ([] ++ [existT (OpHttp (token_request cfg)) (Ok answer); existT OpNow 1000%Z]).
Proof. eapply session_get; [apply session_new|apply first_get]. Qed.

Definition request : Request :=
  mkRequest (mkURL "" "" "/chat" "") "localhost:9101" {["Authorization" := ["Bearer of the client"]]} None.

(** Every HTTP exchange has one answer, at one time. *)
Definition world (x : res HttpResponse) (now : Z) (o : Op) (s : unit) : ans o * unit :=
  match o with
  | OpNow => (now, s)
  | OpHttp _ => (x, s)
  | OpGet _ _ _ | OpList _ _ _ | OpUpdate _ _ | OpPatchStatus _ _ _ => (Err (errorf ""), s)
  | OpCreate _ _ | OpApply _ | OpCreateOrUpdate _ _ _ _ => (Err (errorf ""), s)
  end.
Definition upstream (req : Request) : res HttpResponse := Ok (mkHttpResp 200 (u_Path (rq_URL req))).

(** The token endpoint is down and the upstream is not: the request goes through with
    the client's own header, and its answer is what the client sees. *)
Example token_error_reaches_upstream :
  let '(reply, req, _) := fst (fst (run (world (Err (errorf "down")) 0) (serve cfg upstream request newTokenCache) tt [])) in
  (reply, rq_Header req !! "Authorization", err_msg <$> rq_tokenErr req) =
  ((200%Z, "/v1/chat"), Some ["Bearer of the client"], Some "token endpoint request: down").
Proof. by vm_compute. Qed.

(** A life that does not fit a duration: the token is never served from the cache. *)
Example life_wraps :
  fst (fst (run (world (Ok (mkHttpResp 200 ("{" +:+ quoted "access_token" +:+ ":" +:+ quoted "t" +:+ "," +:+
    quoted "expires_in" +:+ ":9223372037}"))) 0) (Get cfg newTokenCache) tt []))
  = (Ok "t", mkCache "t" (-9223372036709551616)).
Proof. by vm_compute. Qed.
End Demo.

#[local] Existing Instance Demo.urls.

Lemma served_token_valid_witness :
  wp any_answer (Director Demo.cfg Demo.request Demo.cache) (λ tr' '(req', c'),
    u_Host (rq_URL req') = "llm.example" ∧ rq_Host req' = "llm.example" ∧
    ((∃ tok, rq_Header req' = <["Authorization" := ["Bearer " +:+ tok]]> (rq_Header Demo.request) ∧
        rq_tokenErr req' = None ∧ valid Demo.cfg tr' tok) ∨
     (∃ e, rq_tokenErr req' = Some e ∧ rq_Header req' = rq_Header Demo.request ∧ c' = Demo.cache)))
    ([] ++ [existT (OpHttp (token_request Demo.cfg)) (Ok Demo.answer); existT OpNow 1000%Z]).
Proof. exact (served_token_valid Demo.env Demo.cfg Demo.cache _ Demo.request Demo.cfg_loaded Demo.first_session). Defined.

(** ** The form *)

Lemma query_byte_read a s : QueryUnescape (query_byte a +:+ s) = String a <$> QueryUnescape s.
Proof. destruct a as [[] [] [] [] [] [] [] []]; reflexivity. Qed.

Lemma Unescape_Escape s : QueryUnescape (QueryEscape s) = Some s.
Proof. induction s as [|a s IH]; [done|]. cbn. by rewrite query_byte_read, IH. Qed.

(** What separates pairs is escaped. *)
Definition separators : list ascii := ["&"%char; "="%char; ";"%char].

Lemma query_byte_plain a c : c ∈ separators → c ∉ GoStrings.chars (query_byte a).
Proof.
  assert (forallb (λ c, negb (existsb (Ascii.eqb c) (GoStrings.chars (query_byte a)))) separators = true) as Hall
    by (destruct a as [[] [] [] [] [] [] [] []]; vm_compute; reflexivity).
  intros Hc Hin. rewrite forallb_forall in Hall. apply list_elem_of_In in Hc.
  apply Hall, negb_true_iff, not_true_iff_false in Hc. apply Hc, existsb_exists.
  exists c. by rewrite <- list_elem_of_In, Ascii.eqb_refl.
Qed.

Lemma Escape_plain s c : c ∈ separators → c ∉ GoStrings.chars (QueryEscape s).
Proof.
  intros Hc. induction s as [|a s IH]; [apply not_elem_of_nil|]. cbn.
  rewrite GoStrings.chars_app, elem_of_app. pose proof (query_byte_plain a c Hc). tauto.
Qed.

(** One pair of the encoding. *)
Definition pair_text (kv : string * string) : string := QueryEscape (fst kv) +:+ "=" +:+ QueryEscape (snd kv).

Lemma pair_plain kv c : c = "&"%char ∨ c = ";"%char → c ∉ GoStrings.chars (pair_text kv).
Proof.
  intros Hc. assert (c ∈ separators) as Hs by (unfold separators; destruct Hc as [-> | ->]; set_solver).
  unfold pair_text. rewrite !GoStrings.chars_app, !elem_of_app. cbn.
  pose proof (Escape_plain (fst kv) c Hs). pose proof (Escape_plain (snd kv) c Hs).
  rewrite list_elem_of_singleton. destruct Hc as [-> | ->]; naive_solver.
Qed.

Lemma pair_cut kv : GoStrings.cut "=" (pair_text kv) = Some (QueryEscape (fst kv), QueryEscape (snd kv)).
Proof. apply GoStrings.cut_Some. split; [done|]. apply Escape_plain. unfold separators. set_solver. Qed.

Lemma parse_pair kv l m :
  parse_pairs (pair_text kv :: l) m =
  parse_pairs l (<[fst kv := default [] (m !! fst kv) ++ [snd kv]]> m).
Proof.
  cbn [parse_pairs]. rewrite decide_False; [|unfold pair_text; by destruct (QueryEscape (fst kv))].
  rewrite decide_False by (apply pair_plain; auto). rewrite pair_cut. cbn. by rewrite !Unescape_Escape.
Qed.

Lemma parse_all l m :
  NoDup (fst <$> l) → (∀ k, k ∈ fst <$> l → m !! k = None) →
  parse_pairs (map pair_text l) m = Some (((λ v, [v]) <$> list_to_map l) ∪ m).
Proof.
  revert m. induction l as [|[k v] l IH]; intros m Hnd Hm.
  - cbn. by rewrite fmap_empty, map_empty_union.
  - cbn [map]. rewrite parse_pair. cbn [fst snd]. inversion_clear Hnd as [|? ? Hk Hnd'].
    rewrite (Hm k) by (cbn; by left). rewrite IH; [|done|].
    + cbn. f_equal. rewrite fmap_insert, <- insert_union_l, insert_union_r; [done|].
      rewrite lookup_fmap, (proj1 (not_elem_of_list_to_map _ _)) by done. done.
    + intros k' Hk'. rewrite lookup_insert_ne; [|by intros ->]. apply Hm. cbn. by right.
Qed.

(** The form reaches the token endpoint as it was set, whatever bytes the client id
    and secret, the scope and the audience have: parsing the encoded form gives every key
    with its one value. *)
Theorem ParseQuery_Encode form : ParseQuery (Encode form) = Some ((λ v, [v]) <$> form).
Proof.
  unfold ParseQuery, Encode. fold pair_text.
  pose proof (merge_sort_Permutation (λ x y : string * string, String.le (fst x) (fst y)) (map_to_list form)) as Hp.
  fold (sorted_keys (map_to_list form)) in Hp. set (l := sorted_keys (map_to_list form)) in *.
  assert (NoDup (fst <$> l)) as Hnd by (rewrite Hp; apply NoDup_fst_map_to_list).
  assert (list_to_map l = form) as Hl.
  { rewrite (list_to_map_proper l (map_to_list form)) by done. apply list_to_map_to_list. }
  destruct l as [|kv l'] eqn:E.
  - cbn in Hl. by rewrite <- Hl.
  - rewrite GoStrings.Split_Join; [|done|].
    + change (map _ (kv :: l')) with (map pair_text (kv :: l')).
      rewrite parse_all; [|done|intros k _; apply lookup_empty]. by rewrite map_union_empty, Hl.
    + apply Forall_map, Forall_forall. intros x _. apply (pair_plain x). auto.
Qed.
